(* ===== verification/_CoqProject ===== *)
-Q . S2P
Prelude.v
Node.v
Clock.v
Types.v
ViewMap.v
Readers.v
ShardCore.v
ShardProps.v
SyncLogic.v
ChangeFeed.v
Versioning.v
Startup.v
Durable.v
Lifecycle.v
Diagnostics.v
Engine.v
EngineProps.v
Accounting.v
Protocol.v
Network.v
NetworkRuns.v
Traits.v
EngineDemo.v
DemoRuns.v
DemoAgreement.v
Registry.v
StateActor.v
ActorSystem.v
ActorHandling.v
ActorConvergence.v
ActorPull.v
ActorFeed.v
Interceptor.v
NodeResource.v
Transport.v
Faults.v
Cluster.v
ClusterProps.v
Convergence.v
Settle.v
Channel.v
Calm.v
Consistency.v
ClusterEvents.v
Testing.v
ShardTests.v
EngineTests.v
CoreTests.v
LifecycleTests.v
DiagnosticsTests.v
NodeResourceTests.v
IntegrationTests.v
HarnessTests.v
HappyPathTests.v
ModelTests.v
Scenarios.v
ActorScenarios.v
ActorFeedScenarios.v
ClusterScenarios.v
DemoScenarios.v
