(* ===== verification/Prelude.v ===== *)
(** * dstate: a verification development

    dstate keeps one small piece of state per node of a cluster and shows every node
    the others' states as views.  A node's host (an actor, or the test harness) calls
    an engine; the engine mutates the state, decides what to tell the peers, and
    processes what the peers tell it.  This library translates the Rust sources into
    executable Gallina, component by component, and proves what each component and
    their composition promise.

    ** The parts, from the bottom

    - [Prelude]: machine integers with their wrap-around, [result] and [outcome] (a
      value or a panic), bytes, the unspecified iteration order of a [HashMap] as the
      class [HashIter], hint databases and shared lemmas.
    - [Node] (types/node.rs): node names, generations (incarnation and age) with their
      total order [≤g], [<g].
    - [Clock] (traits/clock.rs): the [Clock] trait as a class, the system clock as one
      reading of the operating system, the test clock.  A clock that Rust shares by
      [Arc] is here an argument of the call that reads it.
    - [Types] (types/, messages/, traits/persistence.rs): records, messages, errors.
    - [ViewMap] (core/view_map.rs): the outer map from nodes to shared cells, with cell
      identity; the class [ViewMapOps] with the laws [ViewMapLaws] is the interface the
      shard is proved against, [ViewMap_laws] discharges it, [SpecMap] is the
      specification as a plain finite map.  [Readers] lets other threads read it without
      locks while the writer runs.
    - [ShardCore] (core/shard_core.rs): the state of a node, its own view and the views
      of the others; every operation, what it does to the contents of the view map, the
      invariant [shard_inv] and the step relation [shard_step] of a well-behaved host.
    - [ShardProps]: the theorems about the shard; [shard_call] is any call at all, and a run
      of calls may be limited by a predicate on their events ([ShardEvent]).
    - [SyncLogic] (core/sync_logic.rs, core/delta_accumulator.rs), [ChangeFeed]
      (core/change_feed_logic.rs), [Versioning] (core/versioning_logic.rs), [Startup]
      (core/persistence_startup_logic.rs, test_support/test_persist.rs), [Lifecycle]
      (core/lifecycle_logic.rs), [Diagnostics] (core/diagnostics.rs): the pure logic
      modules the engine composes, each with its theorems.  [Durable] puts the two-phase
      mutations of the shard, the storage and the start-up together, with crashes.
    - [Engine] (engine.rs): [DistributedStateEngine] with every call and handler.  A
      call is [engine -> engine * actions], in [outcome] where the code can panic.
      [EngineOp] is the sum of the calls; [run_engine] makes a sequence of them.
    - [EngineProps], [Accounting], [Protocol], [Network]: the theorems about one
      engine, its metrics, two engines, and a network of engines; [NetworkRuns] has the
      runs between starts and crashes, which the hosts of engines share.
    - [Traits] (traits/state.rs, test_support/test_state.rs): the state traits as
      classes, the test states, [bincode] as a class with a round-trip law and a
      concrete codec for evaluation.
    - [Registry] (registry.rs), [StateActor] (dstate-dactor): typed registry and the
      actor that hosts an engine; what the actor does to the outside is a list of
      effects.  [ActorSystem] composes actors through their senders and an actor
      framework, which is the class [ActorFramework] with its laws.  [ActorHandling] says
      what one message does to its actor and how much what it sends weighs,
      [ActorConvergence] what becomes of a cluster of actors that is left alone, by a
      framework that works ([ReliableFramework]); [ActorPull] what becomes of a request
      there, and [ActorFeed] of a change feed, when the mailboxes are queues
      ([OrderedFramework]).
    - [NodeResource] (examples/node_resource.rs): the resource monitor, an instance of
      the traits with binary64 numbers.
    - [EngineDemo] (examples/engine_demo.rs): the in-process cluster whose messages are
      delivered by recursive calls, and its [main]; [DemoRuns] relates it to [Network],
      [DemoAgreement] to a map of counters.
    - [ClusterEvents] (test_support/test_runtime.rs): the runtime double.
    - [Interceptor], [Transport], [Cluster] (dstate-integration): the harness with its
      fault injection; [Faults] says what an interceptor may do, [ClusterProps] relates
      the harness to [Network], [Convergence] follows one pushed mutation.
    - [Settle], [Channel], [Calm], [Consistency]: settling ends, and what holds then.
      [Channel] is an abstract specification of how one node's views of another evolve,
      as a sender, a queue of packets and an observer; [Calm] shows that the engines of a
      cluster without faults are such channels, for every pair of nodes at once.
    - [Testing], [ShardTests], [EngineTests], [CoreTests], [LifecycleTests],
      [DiagnosticsTests], [NodeResourceTests], [IntegrationTests]: the inline tests of the
      sources, translated assertion by assertion; [HarnessTests], [HappyPathTests]: the test
      files of the harness; [ModelTests]: those of [dstate] and [dstate-dactor].  A test is
      an [outcome unit] that panics where the Rust test panics; each file ends with the
      proof, by evaluation, that none of its tests fails (the two stress tests with a
      tenth of their mutations).
    - [Scenarios], [ActorScenarios], [ActorFeedScenarios], [ClusterScenarios],
      [DemoScenarios]: concrete runs, which
      instantiate every hypothesis of the theorems.

    ** What the theorems show

    - One shard: under any calls every view is filed under its owner; with one projection
      and messages of other nodes, the own view always is the projection of the state
      ([shard_reachable_invariant]); snapshots and deltas are accepted exactly when they
      should ([accept_inbound_snapshot_spec], [accept_inbound_delta_spec]); delivery
      order and repetition do not matter as long as a generation names one snapshot
      ([snapshot_delivery_converges]); deltas
      reconstruct views ([delta_chain_reconstructs]); views never go back
      ([generations_grow]); staleness is reported exactly and lasts until the view has
      caught up, unless an older notification arrives late ([query_local_spec],
      [notification_stale_until_caught_up], [join_then_snapshot_fresh]).
    - Concurrent readers: every value a lock-free read returns was in the map during the
      read ([reads_are_linearizable]).
    - Crashes: a node that persists before it commits never shows two views under one
      generation, across restarts of every kind, if its clock is later at every boot and
      migrations keep the view ([durable_never_forks]).
    - One engine: no sequence of calls panics ([engine_never_panics]), it serves the
      current state ([engine_serves_current_state]), every branch of its two inbound
      handlers ([full_snapshot_spec], [delta_update_spec]), exact metrics
      ([messages_are_counted]).
    - Two engines: the three protocols deliver ([push_snapshot_delivers],
      [push_delta_or_pull], [lazy_pull_delivers]); changes that were held back reach the
      receiver by a pull ([suppressed_changes_recovered]).
    - A network that loses, duplicates, reorders, delays and misroutes: views are never
      wrong, only old ([views_never_wrong]).  The mock cluster, with interceptors that forge
      nothing, is one of its schedules ([cluster_refines_network],
      [cluster_views_never_wrong]), and on a clean network a pushed mutation reaches every
      node within two ticks ([cluster_push_converges]).  A cluster of actors is one of its schedules too
      ([actors_refine_network], [actor_replies_never_wrong]).  Left alone it falls silent
      under any order of messages and timers, and what was announced is then shown
      ([actors_converge]); a flushed change feed leaves every other node with the new
      state or knowing that it is stale ([actors_feed_converge]), and then its next query
      brings the state ([actors_pull_converge]).
    - Settling ends within a bound computed from what is in flight, scheduled and pending,
      whatever delays the interceptors add up to a limit ([settle_terminates]); and after
      any history without faults, under every strategy, every node then shows every other
      as it is or reports it as stale ([settled_cluster_consistent],
      [settle_makes_consistent]).
    - The supporting components: the view map refines a finite map, the feed carries
      maxima, a restart never goes back, the actor refines the engine, the transport
      neither loses nor invents messages, and so on.
    - The resource monitor: its deltas are exact ([node_resource_deltas_exact]), the
      thresholds of its urgency, the average and the query ([resource_urgency_thresholds],
      [cpu_usage_is_average], [lowest_memory_found]).
    - The in-process cluster: its recursion ends under every configuration
      ([demo_routing_terminates]); with active push the cluster is a map of counters,
      which a query returns at any node ([demo_refines_counters]), so the assertions of
      [main] hold ([demo_main_succeeds]).
    - Five theorems state behaviour the code has and does not want:
      [late_notification_forgets_newer], [self_snapshot_overwrites_own_view],
      [full_drop_rate_leaks], [fallback_wraps_at_last_incarnation],
      [migrated_view_is_discarded].

    ** Conventions and bounds

    - Integers are [Z]; arithmetic the code does at a fixed width wraps as in the
      release profile ([u64_add], [u32_add], [as_u64], [as_i64]).  Theorems state the
      ranges they need; generations overflow after [2^64 - 1] mutations, and the
      theorems about successors exclude that point.
    - A [HashMap] is iterated in the order of [hm_iter], any permutation of its pairs;
      nothing depends on it.  The sorted map of the cluster is iterated the same way.
    - Panics are values of [outcome].  The tick limit of [settle] is the code's own;
      [settle_terminates] says how many ticks are enough.  The only fuel is that of
      [demo_route], whose recursion has no bound in the code; two levels are enough
      ([demo_routing_terminates]).
    - Strings in errors are those of the code where the code builds them from modelled
      data.

    ** What is not modelled

    The asynchronous runtime (a message is handled in one step, tasks and messages wait
    in any order) and the actor framework (a class with laws), logging, the byte format
    of [bincode] (a parameter with a round-trip law), the text of the resource monitor's
    view, which formats floating-point numbers, and what the demonstration program
    prints on its way.  Six inline tests are left out: three of [shard_core.rs] pass closures
    that panic or count their calls ([mut_03], [dmut_02], [dmut_04]), which functions of the
    model do not, and three of [diagnostics.rs] read the log ([diag_20] to [diag_22]).
    Of the test files, [dactor_mock_tests.rs] is left out, which tests against the network of another crate,
    and [stress_03_large_payload_sync], whose payload is too large to evaluate.

    ** Plan

    What could follow: actors that are left alone while mutations wait that their strategy
    holds back, for which a timer would have to flush; and the tests against the network of
    [dactor-mock], given its contract. *)
From stdpp Require Import prelude gmap strings list fin_maps fin_sets pretty.

Declare Scope dstate_scope.
Delimit Scope dstate_scope with dstate.
Global Open Scope Z_scope.
Global Open Scope dstate_scope.

(** Lemma databases: [dstate] for side conditions closed by [eauto with dstate],
    [dstate_simpl] for the rewriting lemmas of the components. *)
Create HintDb dstate discriminated.
Create Rewrite HintDb dstate_simpl.

(** ** Machine integers

    A Rust [u64], [u32] or [i64] is a [Z]; arithmetic that Rust performs at a
    fixed width is written with the wrap-around of the release profile. *)
Definition u64_modulus : Z := 2 ^ 64.
Definition u32_modulus : Z := 2 ^ 32.
Definition u64_max : Z := u64_modulus - 1.

Definition wrap64 (z : Z) : Z := z mod u64_modulus.
Definition wrap32 (z : Z) : Z := z mod u32_modulus.
Definition u64_add (a b : Z) : Z := wrap64 (a + b).
Definition u64_mul (a b : Z) : Z := wrap64 (a * b).
Definition u32_add (a b : Z) : Z := wrap32 (a + b).

(** [x as u64] and [x as i64]: two's complement reinterpretation. *)
Definition as_u64 (z : Z) : Z := z mod u64_modulus.
Definition as_i64 (z : Z) : Z :=
  let w := z mod u64_modulus in if w <? 2 ^ 63 then w else w - u64_modulus.
Definition i64_add (a b : Z) : Z := as_i64 (a + b).

Definition is_u64 (z : Z) : Prop := 0 <= z < u64_modulus.
Definition is_i64 (z : Z) : Prop := - 2 ^ 63 <= z < 2 ^ 63.

Global Instance is_u64_dec z : Decision (is_u64 z).
Proof. unfold is_u64. apply _. Defined.
Global Instance is_i64_dec z : Decision (is_i64 z).
Proof. unfold is_i64. apply _. Defined.

(** ** Results and panics *)

(** Rust's [Result<A, E>]. *)
Inductive result (A E : Type) : Type :=
| Ok (a : A)
| Err (e : E).
Arguments Ok {A E} a.
Arguments Err {A E} e.

(** The outcome of code that may panic ([assert_eq!], [expect]). *)
Inductive outcome (A : Type) : Type :=
| Done (a : A)
| Panicked (msg : string).
Arguments Done {A} a.
Arguments Panicked {A} msg.

Global Instance outcome_ret : MRet outcome := @Done.
Global Instance outcome_bind : MBind outcome := λ A B f m,
  match m with Done a => f a | Panicked msg => Panicked msg end.
Global Instance outcome_fmap : FMap outcome := λ A B f m,
  match m with Done a => Done (f a) | Panicked msg => Panicked msg end.

Definition is_done {A} (m : outcome A) : Prop := ∃ a, m = Done a.

(** [Option::expect]. *)
Definition expect {A} (o : option A) (msg : string) : outcome A :=
  match o with Some a => Done a | None => Panicked msg end.

(** ** Bytes: a [Vec<u8>] is a list of integers in [0, 255]. *)
Definition bytes : Type := list Z.
Global Instance bytes_eq_dec : EqDecision bytes := _.
Global Instance bytes_countable : Countable bytes := _.
Global Instance bytes_inhabited : Inhabited bytes := populate [].

(** ** Iterating a Rust [HashMap]

    The iteration order of a [HashMap] is unspecified.  [hm_iter] is an
    arbitrary order: every theorem holds for all of them. *)
Class HashIter : Type := {
  hm_iter : ∀ {K A : Type} `{Countable K}, gmap K A → list (K * A);
  hm_iter_perm : ∀ {K A : Type} `{Countable K} (m : gmap K A),
    hm_iter m ≡ₚ map_to_list m
}.

(** The order of [map_to_list], to evaluate the model. *)
Definition map_to_list_iter : HashIter := {|
  hm_iter _ _ _ _ m := map_to_list m;
  hm_iter_perm _ _ _ _ m := reflexivity (map_to_list m)
|}.

(** ** Tactics *)

(** Splits every [match] of the goal and hypotheses and cleans up. *)
Ltac split_matches := repeat (case_match; simplify_eq/=).

(** Unfolds the width-limited arithmetic and calls [lia]. *)
Ltac unfold_widths :=
  unfold u64_add, u32_add, u64_mul, i64_add, as_u64, as_i64, wrap64, wrap32, is_u64,
    is_i64, u64_max, u64_modulus, u32_modulus in *.
Ltac width_lia := unfold_widths; Z.to_euclidean_division_equations; lia.

(** ** Lemmas on integers *)
Section Widths.
Implicit Types a b z : Z.

Lemma wrap64_small z : is_u64 z → wrap64 z = z.
Proof. unfold is_u64, wrap64. intros. by apply Z.mod_small. Qed.

Lemma wrap64_range z : is_u64 (wrap64 z).
Proof. unfold is_u64, wrap64. apply Z.mod_pos_bound. done. Qed.

Lemma u64_add_small a b : 0 ≤ a + b < u64_modulus → u64_add a b = a + b.
Proof. intros. by apply wrap64_small. Qed.

Lemma u64_add_range a b : is_u64 (u64_add a b).
Proof. apply wrap64_range. Qed.

Lemma u64_succ_small a : 0 ≤ a < u64_max → u64_add a 1 = a + 1.
Proof. unfold u64_max. intros. apply u64_add_small. lia. Qed.

(** Adding one never yields the number it started from, even on wrap-around. *)
Lemma u64_succ_ne a : u64_add a 1 ≠ a.
Proof. width_lia. Qed.

Lemma as_u64_small z : is_u64 z → as_u64 z = z.
Proof. apply wrap64_small. Qed.

Lemma as_u64_range z : is_u64 (as_u64 z).
Proof. apply wrap64_range. Qed.

Lemma as_i64_small z : is_i64 z → as_i64 z = z.
Proof. unfold is_i64, as_i64, u64_modulus. intros.
  case_match; Z.to_euclidean_division_equations; lia. Qed.

Lemma as_i64_as_u64 z : is_i64 z → as_i64 (as_u64 z) = z.
Proof. unfold is_i64, as_i64, as_u64, u64_modulus. intros.
  case_match; Z.to_euclidean_division_equations; lia. Qed.
End Widths.

#[export] Hint Resolve wrap64_range u64_add_range as_u64_range u64_succ_ne : dstate.
#[export] Hint Rewrite wrap64_small u64_add_small as_u64_small as_i64_small
  using (unfold_widths; lia) : dstate_simpl.

(** ** Lemmas on outcomes *)
Section Outcomes.
Context {A B : Type}.

Lemma outcome_bind_done (m : outcome A) (f : A → outcome B) (b : B) :
  m ≫= f = Done b ↔ ∃ a, m = Done a ∧ f a = Done b.
Proof. destruct m; naive_solver. Qed.

Lemma is_done_bind (m : outcome A) (f : A → outcome B) :
  is_done m → (∀ a, m = Done a → is_done (f a)) → is_done (m ≫= f).
Proof. unfold is_done. destruct m; naive_solver. Qed.

Lemma is_done_ret (a : A) : is_done (Done a).
Proof. by exists a. Qed.
End Outcomes.
#[export] Hint Resolve is_done_ret : dstate.

(** ** Lemmas on maps and their iteration *)
Section Maps.
Context `{HashIter} `{Countable K} {A : Type}.
Implicit Types (m : gmap K A).

Lemma elem_of_hm_iter m k a : (k, a) ∈ hm_iter m ↔ m !! k = Some a.
Proof. by rewrite hm_iter_perm, elem_of_map_to_list. Qed.

Lemma NoDup_hm_iter_fst m : NoDup (hm_iter m).*1.
Proof. rewrite hm_iter_perm. apply NoDup_fst_map_to_list. Qed.

Lemma length_hm_iter m : length (hm_iter m) = size m.
Proof. rewrite hm_iter_perm. apply length_map_to_list. Qed.

(** Keys of the entries that satisfy a test, as the code collects them with
    [.iter().filter(..).map(|(id, _)| id.clone()).collect()]. *)
Definition keys_where (p : K → A → bool) m : list K :=
  (filter (λ ka : K * A, p ka.1 ka.2 = true) (hm_iter m)).*1.

Lemma elem_of_keys_where p m k :
  k ∈ keys_where p m ↔ ∃ a, m !! k = Some a ∧ p k a = true.
Proof.
  unfold keys_where. rewrite list_elem_of_fmap. split.
  - intros ([k' a] & -> & [Hp Hin]%list_elem_of_filter).
    exists a. by rewrite <- elem_of_hm_iter.
  - intros (a & Hin & Hp). exists (k, a). split; [done|].
    apply list_elem_of_filter. by rewrite elem_of_hm_iter.
Qed.

Lemma NoDup_keys_where p m : NoDup (keys_where p m).
Proof.
  unfold keys_where. eapply sublist_NoDup; [apply (NoDup_hm_iter_fst m)|].
  apply fmap_sublist, sublist_filter.
Qed.

Lemma keys_where_nil p m :
  keys_where p m = [] ↔ ∀ k a, m !! k = Some a → p k a = false.
Proof.
  split.
  - intros Hnil k a Hk. apply not_true_iff_false. intros Hp.
    assert (k ∈ keys_where p m) as Hin by (apply elem_of_keys_where; eauto).
    rewrite Hnil in Hin. set_solver.
  - intros Hall. destruct (keys_where p m) as [|k l] eqn:E; [done|].
    assert (k ∈ keys_where p m) as Hin by (rewrite E; left).
    apply elem_of_keys_where in Hin as (a & Hk & Hp).
    by rewrite (Hall k a Hk) in Hp.
Qed.
End Maps.
