(* ===== verification/Node.v ===== *)
(** Node identity and logical versions ([types/node.rs]): [NodeId],
    [Generation] with its lexicographic order, [VersionMismatchPolicy]; and the
    order lemmas and the tactic [gen_lia] the other components use. *)
From stdpp Require Import prelude gmap strings pretty.
From S2P Require Import Prelude.

(** [NodeId(String)], re-exported from the actor framework.  The code only
    compares, hashes, clones and prints node identifiers. *)
Record NodeId : Type := mkNodeId { node_str : string }.

Global Instance NodeId_eq_dec : EqDecision NodeId.
Proof. solve_decision. Defined.
Global Instance NodeId_countable : Countable NodeId.
Proof. apply (inj_countable' node_str mkNodeId). by intros []. Defined.
Global Instance NodeId_inhabited : Inhabited NodeId := populate (mkNodeId "").

(** [Generation]: incarnation and age, both [u64]. *)
Record Generation : Type := mkGeneration { incarnation : Z; age : Z }.

Global Instance Generation_eq_dec : EqDecision Generation.
Proof. solve_decision. Defined.
Global Instance Generation_countable : Countable Generation.
Proof.
  apply (inj_countable' (λ g, (incarnation g, age g)) (λ p, mkGeneration p.1 p.2)).
  by intros [].
Defined.

(** [Generation::new]. *)
Definition generation_new (incarnation age : Z) : Generation :=
  mkGeneration incarnation age.

(** [Generation::zero]: the placeholder generation. *)
Definition generation_zero : Generation := mkGeneration 0 0.
Global Instance Generation_inhabited : Inhabited Generation := populate generation_zero.

(** [Generation::is_new_incarnation]. *)
Definition is_new_incarnation (g other : Generation) : bool :=
  incarnation other <? incarnation g.

(** [Ord::cmp]: the incarnation first, then ([Ordering::then]) the age. *)
Definition generation_cmp (g other : Generation) : comparison :=
  match incarnation g ?= incarnation other with
  | Eq => age g ?= age other
  | c => c
  end.

(** [PartialOrd::partial_cmp] and the operators Rust derives from it. *)
Definition generation_partial_cmp (g other : Generation) : option comparison :=
  Some (generation_cmp g other).
Definition generation_ltb (g other : Generation) : bool :=
  match generation_partial_cmp g other with Some Lt => true | _ => false end.
Definition generation_leb (g other : Generation) : bool :=
  match generation_partial_cmp g other with Some Lt | Some Eq => true | _ => false end.

(** [Display]: ["v{incarnation}:{age}"]. *)
Definition generation_display (g : Generation) : string :=
  "v" +:+ pretty (incarnation g) +:+ ":" +:+ pretty (age g).

(** [VersionMismatchPolicy]. *)
Inductive VersionMismatchPolicy : Type := KeepStalePolicy | DropAndWait.

Global Instance VersionMismatchPolicy_eq_dec : EqDecision VersionMismatchPolicy.
Proof. solve_decision. Defined.

(** The two components are [u64]s. *)
Definition gen_u64 (g : Generation) : Prop := is_u64 (incarnation g) ∧ is_u64 (age g).

(** The order as a relation. *)
Definition gen_lt (g h : Generation) : Prop :=
  incarnation g < incarnation h ∨ (incarnation g = incarnation h ∧ age g < age h).
Definition gen_le (g h : Generation) : Prop :=
  incarnation g < incarnation h ∨ (incarnation g = incarnation h ∧ age g ≤ age h).

Infix "<g" := gen_lt (at level 70, no associativity) : dstate_scope.
Infix "≤g" := gen_le (at level 70, no associativity) : dstate_scope.

Global Instance gen_lt_dec g h : Decision (g <g h).
Proof. unfold gen_lt. apply _. Defined.
Global Instance gen_le_dec g h : Decision (g ≤g h).
Proof. unfold gen_le. apply _. Defined.

(** ** Reflection of the boolean order *)
Section Reflection.
Implicit Types g h : Generation.

Lemma generation_cmp_spec g h :
  match generation_cmp g h with
  | Eq => g = h | Lt => g <g h | Gt => h <g g
  end.
Proof.
  destruct g as [i a], h as [j b]. unfold generation_cmp, gen_lt; simpl.
  destruct (Z.compare_spec i j); subst; [|lia..].
  destruct (Z.compare_spec a b); subst; [done|lia..].
Qed.

Lemma gen_lt_irrefl g : ¬ g <g g.
Proof. unfold gen_lt. lia. Qed.

Lemma gen_lt_not_le g h : g <g h ↔ ¬ h ≤g g.
Proof. unfold gen_lt, gen_le. lia. Qed.

Lemma generation_ltb_lt g h : generation_ltb g h = true ↔ g <g h.
Proof.
  unfold generation_ltb, generation_partial_cmp. pose proof (generation_cmp_spec g h).
  destruct (generation_cmp g h); subst; unfold gen_lt in *; split; try done; lia.
Qed.

Lemma generation_ltb_ge g h : generation_ltb g h = false ↔ h ≤g g.
Proof.
  rewrite <- not_true_iff_false, generation_ltb_lt, gen_lt_not_le.
  split; [intros; by apply dec_stable | tauto].
Qed.

Lemma generation_leb_le g h : generation_leb g h = true ↔ g ≤g h.
Proof.
  unfold generation_leb, generation_partial_cmp. pose proof (generation_cmp_spec g h).
  destruct (generation_cmp g h); subst; unfold gen_lt, gen_le in *; split; try done; lia.
Qed.

Lemma generation_leb_gt g h : generation_leb g h = false ↔ h <g g.
Proof.
  rewrite <- not_true_iff_false, generation_leb_le, gen_lt_not_le. done.
Qed.

Lemma generation_eq g h : g = h ↔ incarnation g = incarnation h ∧ age g = age h.
Proof. destruct g, h; simpl; naive_solver. Qed.
End Reflection.

Global Instance gen_le_total_order : TotalOrder gen_le.
Proof.
  repeat split.
  - intros [??]. unfold gen_le; simpl. lia.
  - intros [??] [??] [??]. unfold gen_le; simpl. lia.
  - intros [??] [??] ??. apply generation_eq. unfold gen_le in *; simpl in *. lia.
  - intros [??] [??]. unfold strict, gen_le; simpl.
    rewrite generation_eq; simpl. lia.
Qed.

Global Instance gen_lt_strict : StrictOrder gen_lt.
Proof.
  split; [intros [??]; unfold complement, gen_lt; simpl; lia|].
  intros [??] [??] [??]. unfold gen_lt; simpl. lia.
Qed.

(** Turns every comparison of generations, boolean or not, into arithmetic on
    the two components and calls [lia]. *)
Ltac gen_norm :=
  repeat match goal with
  | H : generation_ltb _ _ = true |- _ => apply generation_ltb_lt in H
  | H : generation_ltb _ _ = false |- _ => apply generation_ltb_ge in H
  | H : generation_leb _ _ = true |- _ => apply generation_leb_le in H
  | H : generation_leb _ _ = false |- _ => apply generation_leb_gt in H
  | |- generation_ltb _ _ = true => apply generation_ltb_lt
  | |- generation_ltb _ _ = false => apply generation_ltb_ge
  | |- generation_leb _ _ = true => apply generation_leb_le
  | |- generation_leb _ _ = false => apply generation_leb_gt
  | H : context [@eq Generation _ _] |- _ => setoid_rewrite generation_eq in H
  | |- context [@eq Generation _ _] => setoid_rewrite generation_eq
  end.
Ltac gen_lia := gen_norm; unfold gen_lt, gen_le, generation_zero, generation_new in *;
  simpl in *; lia.

(** [C40] The comparison of generations is a total order whose equality is
    [==] and whose strict part is lexicographic: a higher incarnation wins
    whatever the ages, and within an incarnation the higher age wins. *)
Theorem generation_cmp_total_order :
  TotalOrder (λ g h, generation_leb g h = true) ∧
  (∀ g h, generation_cmp g h = Eq ↔ g = h) ∧
  (∀ g h, generation_cmp h g = CompOpp (generation_cmp g h)) ∧
  (∀ g h, generation_ltb g h = true ↔
     is_new_incarnation h g = true ∨
     (incarnation g = incarnation h ∧ age g < age h)).
Proof.
  split; [|split_and!].
  - repeat split.
    + intros g. gen_lia.
    + intros g h k ??. gen_lia.
    + intros g h ??. gen_lia.
    + intros g h. unfold strict. rewrite !generation_leb_le. gen_lia.
  - intros g h. pose proof (generation_cmp_spec g h) as Hs.
    destruct (generation_cmp g h); split; intros; subst; try done; gen_lia.
  - intros g h. pose proof (generation_cmp_spec g h). pose proof (generation_cmp_spec h g).
    destruct (generation_cmp g h), (generation_cmp h g); subst; try done; gen_lia.
  - intros g h. unfold is_new_incarnation. rewrite generation_ltb_lt, Z.ltb_lt. done.
Qed.
