(* ===== verification/Clock.v ===== *)
(** Time ([traits/clock.rs]): durations and instants as nanosecond counts, the
    [Clock] trait as a type class, the [SystemClock] and the manually advanced
    [TestClock]. *)
From stdpp Require Import prelude.
From S2P Require Import Prelude.

(** A [std::time::Duration] and a [std::time::Instant], in nanoseconds. *)
Definition Duration : Type := Z.
Definition Instant : Type := Z.

Global Instance Duration_eq_dec : EqDecision Duration := _.

Definition nanos_per_milli : Z := 1000000.
Definition nanos_per_sec : Z := 1000000000.

(** [Duration::from_secs], [from_millis], [as_millis] (a [u128]). *)
Definition from_secs (n : Z) : Duration := n * nanos_per_sec.
Definition from_millis (n : Z) : Duration := n * nanos_per_milli.
Definition as_millis (d : Duration) : Z := d / nanos_per_milli.

(** [Instant::duration_since] saturates at zero, [checked_duration_since] is
    [None] when the argument is later. *)
Definition duration_since (now earlier : Instant) : Duration := Z.max 0 (now - earlier).
Definition checked_duration_since (now earlier : Instant) : option Duration :=
  if now <? earlier then None else Some (now - earlier).

(** The [Clock] trait: what the other components know of time. *)
Class Clock (C : Type) : Type := {
  now : C → Instant;
  unix_ms : C → Z
}.

(** [SystemClock]: a reading of the operating system's monotonic clock and of
    its wall clock, the latter relative to the Unix epoch. *)
Record SystemClock : Type := mkSystemClock {
  os_instant : Instant;
  os_since_epoch : Z
}.

(** [duration_since(UNIX_EPOCH).unwrap_or_default().as_millis() as i64]. *)
Definition system_unix_ms (c : SystemClock) : Z :=
  as_i64 (as_millis (if os_since_epoch c <? 0 then 0 else os_since_epoch c)).

Global Instance SystemClock_clock : Clock SystemClock := {|
  now := os_instant;
  unix_ms := system_unix_ms
|}.

(** [TestClock]. *)
Record TestClock : Type := mkTestClock {
  start_instant : Instant;
  elapsed_ms : Z;
  base_unix_ms : Z
}.

(** [TestClock::with_base_unix_ms]; the first argument is the [Instant::now()]
    the constructor reads. *)
Definition with_base_unix_ms (started : Instant) (base : Z) : TestClock :=
  mkTestClock started 0 base.

(** [TestClock::new] reads the wall clock as [SystemClock] does. *)
Definition test_clock_new (c : SystemClock) : TestClock :=
  with_base_unix_ms (os_instant c) (system_unix_ms c).

(** [TestClock::advance]: [fetch_add] on an [AtomicI64] wraps. *)
Definition advance (c : TestClock) (d : Duration) : TestClock :=
  mkTestClock (start_instant c)
    (i64_add (elapsed_ms c) (as_i64 (as_millis d))) (base_unix_ms c).

(** [TestClock::elapsed]. *)
Definition elapsed (c : TestClock) : Duration := from_millis (as_u64 (elapsed_ms c)).

Definition test_now (c : TestClock) : Instant := start_instant c + elapsed c.
Definition test_unix_ms (c : TestClock) : Z := i64_add (base_unix_ms c) (elapsed_ms c).

Global Instance TestClock_clock : Clock TestClock := {|
  now := test_now;
  unix_ms := test_unix_ms
|}.

(** The clock has been running for a while that fits the counters. *)
Definition test_clock_ok (c : TestClock) : Prop :=
  0 ≤ elapsed_ms c ∧ is_i64 (base_unix_ms c) ∧ is_i64 (base_unix_ms c + elapsed_ms c)
  ∧ is_i64 (elapsed_ms c).

Lemma duration_since_nonneg t u : 0 ≤ duration_since t u.
Proof. unfold duration_since. lia. Qed.

(** The two ways the code compares an age with a bound agree. *)
Lemma duration_since_checked t u m :
  0 ≤ m →
  (m <? duration_since t u) =
  match checked_duration_since t u with Some d => m <? d | None => false end.
Proof.
  intros. unfold duration_since, checked_duration_since.
  destruct (Z.ltb_spec t u); [apply Z.ltb_ge; lia|]. by rewrite Z.max_r by lia.
Qed.

Lemma as_millis_from_millis n : as_millis (from_millis n) = n.
Proof. unfold as_millis, from_millis. apply Z.div_mul. done. Qed.

(** Advancing a test clock moves its monotonic and its wall-clock readings
    together, by exactly the whole milliseconds of the duration, as long as the
    counters do not overflow. *)
Theorem test_clock_advance_together (c : TestClock) (d : Duration) :
  test_clock_ok c → 0 ≤ d → is_i64 (elapsed_ms c + as_millis d) →
  is_i64 (base_unix_ms c + (elapsed_ms c + as_millis d)) →
  test_clock_ok (advance c d) ∧
  now (advance c d) - now c = from_millis (as_millis d) ∧
  unix_ms (advance c d) - unix_ms c = as_millis d.
Proof.
  intros (He & Hb & Hs & Hi) Hd Hsum Hbase.
  assert (0 ≤ as_millis d) by (apply Z.div_pos; [done|done]).
  assert (is_i64 (as_millis d)) by (unfold is_i64 in *; lia).
  assert (elapsed_ms (advance c d) = elapsed_ms c + as_millis d) as Hadv.
  { simpl. unfold i64_add. by rewrite !as_i64_small by
      (rewrite ?as_i64_small by done; done). }
  split_and!.
  - unfold test_clock_ok. rewrite Hadv. simpl. unfold is_i64 in *. lia.
  - simpl. unfold test_now, elapsed, from_millis. rewrite Hadv. simpl.
    rewrite !as_u64_small by (unfold is_i64, is_u64, u64_modulus in *; lia). lia.
  - simpl. unfold test_unix_ms, i64_add. rewrite Hadv. simpl.
    rewrite !as_i64_small by done. lia.
Qed.

Lemma test_clock_advance_together_witness :
  let c := with_base_unix_ms 0 1000000 in
  now (advance c (from_secs 15)) - now c = from_millis 15000 ∧
  unix_ms (advance c (from_secs 15)) - unix_ms c = 15000.
Proof.
  pose proof (test_clock_advance_together (with_base_unix_ms 0 1000000) (from_secs 15)) as H.
  apply H; [vm_compute; intuition discriminate|discriminate|vm_compute; intuition discriminate..].
Defined.
