(* ===== verification/Types.v ===== *)
(** The plain data of the crate: envelopes ([types/envelope.rs]), configuration
    ([types/config.rs]), errors ([types/errors.rs], [traits/persistence.rs]), wire
    messages ([types/sync_message.rs], [WireMessage] of [engine.rs]) and the actor
    messages of [messages/]. *)
From stdpp Require Import prelude gmap strings pretty.
From S2P Require Import Prelude Node Clock.

(** ** Envelopes *)

(** [StateObject<S>]. *)
Record StateObject (S : Type) : Type := mkStateObject {
  so_generation : Generation;
  so_storage_version : Z;
  so_value : S;
  so_created_time : Z;
  so_modified_time : Z
}.
Arguments mkStateObject {S}.
Arguments so_generation {S}.
Arguments so_storage_version {S}.
Arguments so_value {S}.
Arguments so_created_time {S}.
Arguments so_modified_time {S}.

(** [StateObject::age] and [StateObject::incarnation]. *)
Definition so_age {S} (s : StateObject S) : Z := age (so_generation s).
Definition so_incarnation {S} (s : StateObject S) : Z := incarnation (so_generation s).

(** [StateViewObject<V>]. *)
Record StateViewObject (V : Type) : Type := mkStateViewObject {
  vo_generation : Generation;
  vo_wire_version : Z;
  vo_value : V;
  vo_created_time : Z;
  vo_modified_time : Z;
  vo_synced_at : Instant;
  vo_pending_remote_generation : option Generation;
  vo_source_node : NodeId
}.
Arguments mkStateViewObject {V}.
Arguments vo_generation {V}.
Arguments vo_wire_version {V}.
Arguments vo_value {V}.
Arguments vo_created_time {V}.
Arguments vo_modified_time {V}.
Arguments vo_synced_at {V}.
Arguments vo_pending_remote_generation {V}.
Arguments vo_source_node {V}.

(** [updated.pending_remote_generation = Some(incoming)]. *)
Definition set_pending {V} (vo : StateViewObject V) (p : option Generation) :
    StateViewObject V :=
  mkStateViewObject (vo_generation vo) (vo_wire_version vo) (vo_value vo)
    (vo_created_time vo) (vo_modified_time vo) (vo_synced_at vo) p (vo_source_node vo).

(** ** Configuration *)

Inductive PushMode : Type := ActivePush | ActiveFeedLazyPull.

Record ChangeFeedConfig : Type := mkChangeFeedConfig { batch_interval : Duration }.

(** [ChangeFeedConfig::default]. *)
Definition ChangeFeedConfig_default : ChangeFeedConfig :=
  mkChangeFeedConfig (from_secs 1).

Record SyncStrategy : Type := mkSyncStrategy {
  push_mode : option PushMode;
  periodic_full_sync : option Duration;
  pull_on_query : bool;
  change_feed_config : ChangeFeedConfig
}.

Definition active_push : SyncStrategy :=
  mkSyncStrategy (Some ActivePush) None false ChangeFeedConfig_default.
Definition feed_lazy_pull : SyncStrategy :=
  mkSyncStrategy (Some ActiveFeedLazyPull) None true ChangeFeedConfig_default.
Definition feed_with_periodic_sync (interval : Duration) : SyncStrategy :=
  mkSyncStrategy (Some ActiveFeedLazyPull) (Some interval) true ChangeFeedConfig_default.
Definition periodic_only (interval : Duration) : SyncStrategy :=
  mkSyncStrategy None (Some interval) false ChangeFeedConfig_default.

Record StateConfig : Type := mkStateConfig {
  sync_strategy : SyncStrategy;
  pull_timeout : Duration;
  version_mismatch_policy : VersionMismatchPolicy
}.

(** [StateConfig::default]. *)
Definition StateConfig_default : StateConfig :=
  mkStateConfig active_push (from_secs 5) KeepStalePolicy.

(** [SyncUrgency] ([traits/state.rs]). *)
Inductive SyncUrgency : Type :=
| UrgencyImmediate
| UrgencyDelayed (d : Duration)
| UrgencySuppress
| UrgencyDefault.

(** ** Errors and their [Display] *)

Inductive RegistryError : Type :=
| StateNotRegistered (name : string)
| TypeMismatch (name expected actual : string)
| DuplicateName (name : string).

Definition registry_error_display (e : RegistryError) : string :=
  match e with
  | StateNotRegistered name => "state not registered: " +:+ name
  | TypeMismatch name expected actual =>
      "type mismatch for '" +:+ name +:+ "': expected " +:+ expected +:+ ", got " +:+ actual
  | DuplicateName name => "duplicate state name: " +:+ name
  end.

Inductive QueryError : Type :=
| QueryRegistry (e : RegistryError)
| QueryStalePeer (node_id : NodeId) (reason : string)
| QueryActorStopped.

(** [display_node] prints a node identifier; it belongs to the actor framework. *)
Definition query_error_display (display_node : NodeId → string) (e : QueryError) : string :=
  match e with
  | QueryRegistry e => "query failed: " +:+ registry_error_display e
  | QueryStalePeer node_id reason => "stale peer " +:+ display_node node_id +:+ ": " +:+ reason
  | QueryActorStopped => "query failed: actor stopped"
  end.

(** [From<RegistryError> for QueryError]. *)
Definition query_error_from (e : RegistryError) : QueryError := QueryRegistry e.

Inductive MutationError : Type :=
| PersistenceFailed (msg : string)
| MutationActorStopped.

Definition mutation_error_display (e : MutationError) : string :=
  match e with
  | PersistenceFailed msg => "persistence failed: " +:+ msg
  | MutationActorStopped => "mutation failed: actor stopped"
  end.

Inductive DeserializeError : Type :=
| UnknownVersion (version : Z)
| Malformed (msg : string).

(** [DeserializeError::unknown_version]. *)
Definition unknown_version (version : Z) : DeserializeError := UnknownVersion version.

Definition deserialize_error_display (e : DeserializeError) : string :=
  match e with
  | UnknownVersion v => "unknown version: " +:+ pretty v
  | Malformed msg => "malformed data: " +:+ msg
  end.

(** [PersistError] ([traits/persistence.rs]). *)
Inductive PersistError : Type :=
| StorageUnavailable (msg : string)
| DeserializationFailed (msg : string)
| PersistIo (msg : string).

Definition persist_error_display (e : PersistError) : string :=
  match e with
  | StorageUnavailable msg => "storage unavailable: " +:+ msg
  | DeserializationFailed msg => "deserialization failed: " +:+ msg
  | PersistIo msg => "I/O error: " +:+ msg
  end.

(** ** Wire messages *)

(** [SyncMessage]. *)
Inductive SyncMessage : Type :=
| FullSnapshot (state_name : string) (source_node : NodeId) (generation : Generation)
    (wire_version : Z) (data : bytes)
| DeltaUpdate (state_name : string) (source_node : NodeId) (generation : Generation)
    (wire_version : Z) (data : bytes)
| RequestSnapshot (state_name : string) (requester : NodeId).

(** [ChangeNotification]. *)
Record ChangeNotification : Type := mkChangeNotification {
  cn_state_name : string;
  cn_source_node : NodeId;
  cn_generation : Generation
}.

(** [BatchedChangeFeed]. *)
Record BatchedChangeFeed : Type := mkBatchedChangeFeed {
  bf_source_node : NodeId;
  bf_notifications : list ChangeNotification
}.

(** [WireMessage] ([engine.rs]). *)
Inductive WireMessage : Type :=
| WireSync (m : SyncMessage)
| WireFeed (f : BatchedChangeFeed).

Global Instance SyncMessage_eq_dec : EqDecision SyncMessage.
Proof. solve_decision. Defined.
Global Instance ChangeNotification_eq_dec : EqDecision ChangeNotification.
Proof. solve_decision. Defined.
Global Instance BatchedChangeFeed_eq_dec : EqDecision BatchedChangeFeed.
Proof. solve_decision. Defined.
Global Instance WireMessage_eq_dec : EqDecision WireMessage.
Proof. solve_decision. Defined.

Global Instance SyncMessage_countable : Countable SyncMessage.
Proof.
  apply (inj_countable'
    (λ m, match m with
          | FullSnapshot n s g w d => inl (inl (n, s, g, w, d))
          | DeltaUpdate n s g w d => inl (inr (n, s, g, w, d))
          | RequestSnapshot n r => inr (n, r)
          end)
    (λ x, match x with
          | inl (inl (n, s, g, w, d)) => FullSnapshot n s g w d
          | inl (inr (n, s, g, w, d)) => DeltaUpdate n s g w d
          | inr (n, r) => RequestSnapshot n r
          end)).
  by intros [].
Defined.
Global Instance ChangeNotification_countable : Countable ChangeNotification.
Proof.
  apply (inj_countable' (λ n, (cn_state_name n, cn_source_node n, cn_generation n))
    (λ p, mkChangeNotification p.1.1 p.1.2 p.2)).
  by intros [].
Defined.
Global Instance BatchedChangeFeed_countable : Countable BatchedChangeFeed.
Proof.
  apply (inj_countable' (λ f, (bf_source_node f, bf_notifications f))
    (λ p, mkBatchedChangeFeed p.1 p.2)).
  by intros [].
Defined.
Global Instance WireMessage_countable : Countable WireMessage.
Proof.
  apply (inj_countable' (λ m, match m with WireSync s => inl s | WireFeed f => inr f end)
    (λ x, match x with inl s => WireSync s | inr f => WireFeed f end)).
  by intros [].
Defined.

(** ** Messages of the shard, change-feed and sync-engine actors *)

(** [SimpleShardMsg<S>]; the reply channels carry [Result<(), MutationError>] and
    belong to the actor runtime. *)
Inductive SimpleShardMsg (S : Type) : Type :=
| SimpleMutate (closure : S → S)
| SimpleInboundSnapshot (source : NodeId) (generation : Generation)
    (wire_version : Z) (data : bytes)
| SimpleNodeJoined (node_id : NodeId)
| SimpleNodeLeft (node_id : NodeId)
| SimpleMarkStale (source : NodeId) (generation : Generation).

(** [DeltaShardMsg<S, V, VD, DC>]. *)
Inductive DeltaShardMsg (S DC : Type) : Type :=
| DeltaMutateWithDelta (closure : S → S * DC)
| DeltaMutate (closure : S → S)
| DeltaInboundSnapshot (source : NodeId) (generation : Generation)
    (wire_version : Z) (data : bytes)
| DeltaInboundDelta (source : NodeId) (generation : Generation)
    (wire_version : Z) (data : bytes)
| DeltaNodeJoined (node_id : NodeId)
| DeltaNodeLeft (node_id : NodeId)
| DeltaMarkStale (source : NodeId) (generation : Generation).

(** Their [Debug], which leaves the closures and the data out; [debug_node] prints a node
    identifier, which belongs to the actor framework. *)
Section ShardMsgDebug.
Context (debug_node : NodeId → string).

(** What [derive(Debug)] prints. *)
Definition generation_debug (g : Generation) : string :=
  "Generation { incarnation: " +:+ pretty (incarnation g) +:+ ", age: " +:+ pretty (age g) +:+ " }".

Definition inbound_debug (constructor : string) (source : NodeId) (generation : Generation)
    (wire_version : Z) : string :=
  constructor +:+ " { source: " +:+ debug_node source +:+ ", generation: " +:+
    generation_debug generation +:+ ", wire_version: " +:+ pretty wire_version +:+ ", .. }".
Definition mark_stale_debug (source : NodeId) (generation : Generation) : string :=
  "MarkStale { source: " +:+ debug_node source +:+ ", generation: " +:+
    generation_debug generation +:+ " }".

Definition simple_shard_msg_debug {S} (m : SimpleShardMsg S) : string :=
  match m with
  | SimpleMutate _ _ => "Mutate { .. }"
  | SimpleInboundSnapshot _ source generation wire_version _ =>
      inbound_debug "InboundSnapshot" source generation wire_version
  | SimpleNodeJoined _ id => "NodeJoined(" +:+ debug_node id +:+ ")"
  | SimpleNodeLeft _ id => "NodeLeft(" +:+ debug_node id +:+ ")"
  | SimpleMarkStale _ source generation => mark_stale_debug source generation
  end.

(** The [_Phantom] variant, which the code calls unreachable, is not a constructor. *)
Definition delta_shard_msg_debug {S DC} (m : DeltaShardMsg S DC) : string :=
  match m with
  | DeltaMutateWithDelta _ _ _ => "MutateWithDelta { .. }"
  | DeltaMutate _ _ _ => "Mutate { .. }"
  | DeltaInboundSnapshot _ _ source generation wire_version _ =>
      inbound_debug "InboundSnapshot" source generation wire_version
  | DeltaInboundDelta _ _ source generation wire_version _ =>
      inbound_debug "InboundDelta" source generation wire_version
  | DeltaNodeJoined _ _ id => "NodeJoined(" +:+ debug_node id +:+ ")"
  | DeltaNodeLeft _ _ id => "NodeLeft(" +:+ debug_node id +:+ ")"
  | DeltaMarkStale _ _ source generation => mark_stale_debug source generation
  end.
End ShardMsgDebug.

(** [ChangeFeedMsg]. *)
Inductive ChangeFeedMsg : Type :=
| FeedNotifyChange (state_name : string) (generation : Generation)
| FeedFlush.

(** [SyncEngineMsg]. *)
Inductive SyncEngineMsg : Type :=
| OutboundSnapshot (state_name : string) (generation : Generation)
    (wire_version : Z) (data : bytes)
| OutboundDelta (state_name : string) (generation : Generation)
    (wire_version : Z) (data : bytes)
| PullSnapshot (state_name : string) (target : NodeId).
