(* ===== verification/ViewMap.v ===== *)
(** The concurrent view map ([core/view_map.rs]).

    [ViewMap] keeps the two levels of the code: an outer map from node
    identifiers to cells, and the cells (the per-node [ArcSwap]s) with their
    contents.  Operations on existing nodes write a cell, joins and leaves
    publish a new outer map that shares the remaining cells.

    [ViewMapOps] and [ViewMapLaws] are the interface the shard is written
    against: every operation acts on [vm_contents] as on a finite map.  The
    two-level map and the plain map [gmap NodeId (StateViewObject V)] both
    implement it. *)
From stdpp Require Import prelude gmap fin_maps.
From S2P Require Import Prelude Node Clock Types.

(** ** The interface *)

Class ViewMapOps (V M : Type) : Type := {
  vm_new : NodeId → StateViewObject V → M;
  vm_get : M → NodeId → option (StateViewObject V);
  vm_update : M → NodeId → StateViewObject V → M * bool;
  vm_insert_node : M → NodeId → StateViewObject V → M * bool;
  vm_upsert : M → NodeId → StateViewObject V → M;
  vm_remove_node : M → NodeId → M * bool;
  vm_contains : M → NodeId → bool;
  vm_len : M → nat;
  vm_snapshot : M → gmap NodeId (StateViewObject V);
  vm_node_ids : M → list NodeId;
  vm_stale_peers : M → NodeId → Duration → Instant → list NodeId;
  vm_update_if : M → NodeId →
    (option (StateViewObject V) → option (StateViewObject V)) → M * bool;
  (** The finite map an implementation represents, and its representation
      invariant. *)
  vm_contents : M → gmap NodeId (StateViewObject V);
  vm_wf : M → Prop
}.

(** A view counts as stale when a newer generation was announced or the last
    synchronisation is older than [max_staleness]. *)
Definition view_stale {V} (t : Instant) (max_staleness : Duration)
    (vo : StateViewObject V) : bool :=
  bool_decide (is_Some (vo_pending_remote_generation vo))
  || (max_staleness <? duration_since t (vo_synced_at vo)).

(** The test of [stale_peers] on one entry. *)
Definition stale_peer {V} (local_node : NodeId) (t : Instant) (max_staleness : Duration)
    (id : NodeId) (vo : StateViewObject V) : bool :=
  negb (bool_decide (id = local_node)) && view_stale t max_staleness vo.

(** ** The specification: operations on a finite map *)
Section Spec.
Context `{HashIter} {V : Type}.
Local Abbreviation M := (gmap NodeId (StateViewObject V)).

Definition spec_update (m : M) k v : M * bool :=
  match m !! k with Some _ => (<[k:=v]> m, true) | None => (m, false) end.
Definition spec_insert_node (m : M) k v : M * bool :=
  match m !! k with Some _ => (m, false) | None => (<[k:=v]> m, true) end.
Definition spec_remove_node (m : M) k : M * bool :=
  match m !! k with Some _ => (delete k m, true) | None => (m, false) end.
Definition spec_update_if (m : M) k f : M * bool :=
  match f (m !! k) with Some v => (<[k:=v]> m, true) | None => (m, false) end.
Definition spec_stale_peers (m : M) (l : NodeId) d t : list NodeId :=
  keys_where (stale_peer l t d) m.
End Spec.

Class ViewMapLaws `{HashIter} (V M : Type) `{ViewMapOps V M} : Prop := {
  new_spec k v : vm_wf (vm_new k v) ∧ vm_contents (vm_new k v) = {[k := v]};
  get_spec m k : vm_wf m → vm_get m k = vm_contents m !! k;
  update_spec m k v : vm_wf m →
    vm_wf (vm_update m k v).1 ∧
    (vm_contents (vm_update m k v).1, (vm_update m k v).2) =
      spec_update (vm_contents m) k v;
  insert_node_spec m k v : vm_wf m →
    vm_wf (vm_insert_node m k v).1 ∧
    (vm_contents (vm_insert_node m k v).1, (vm_insert_node m k v).2) =
      spec_insert_node (vm_contents m) k v;
  upsert_spec m k v : vm_wf m →
    vm_wf (vm_upsert m k v) ∧ vm_contents (vm_upsert m k v) = <[k:=v]> (vm_contents m);
  remove_node_spec m k : vm_wf m →
    vm_wf (vm_remove_node m k).1 ∧
    (vm_contents (vm_remove_node m k).1, (vm_remove_node m k).2) =
      spec_remove_node (vm_contents m) k;
  contains_spec m k : vm_wf m →
    vm_contains m k = bool_decide (is_Some (vm_contents m !! k));
  len_spec m : vm_wf m → vm_len m = size (vm_contents m);
  snapshot_spec m : vm_wf m → vm_snapshot m = vm_contents m;
  node_ids_spec m : vm_wf m → vm_node_ids m ≡ₚ (map_to_list (vm_contents m)).*1;
  stale_peers_spec m l d t : vm_wf m →
    vm_stale_peers m l d t ≡ₚ spec_stale_peers (vm_contents m) l d t;
  update_if_spec m k f : vm_wf m →
    vm_wf (vm_update_if m k f).1 ∧
    (vm_contents (vm_update_if m k f).1, (vm_update_if m k f).2) =
      spec_update_if (vm_contents m) k f
}.

(** ** The two-level map of the code *)

(** The identity of an [Arc<ArcSwap<StateViewObject<V>>>]. *)
Definition Cell : Type := positive.

Record ViewMap (V : Type) : Type := mkViewMap {
  cells : gmap Cell (StateViewObject V);  (** what every allocated cell holds *)
  inner : gmap NodeId Cell                (** the published outer map *)
}.
Arguments mkViewMap {V}.
Arguments cells {V}.
Arguments inner {V}.

Section ViewMap.
Context `{HashIter} {V : Type}.
Implicit Types (m : ViewMap V) (view : StateViewObject V).

(** [entry.store(Arc::new(view))]. *)
Definition cell_store m (l : Cell) view : ViewMap V :=
  mkViewMap (<[l:=view]> (cells m)) (inner m).

(** [entry.load_full()]. *)
Definition cell_load m (l : Cell) : option (StateViewObject V) := cells m !! l.

(** Clone the outer map, add a freshly allocated cell, publish. *)
Definition publish_new m (node_id : NodeId) view : ViewMap V :=
  let l := fresh (dom (cells m)) in
  mkViewMap (<[l:=view]> (cells m)) (<[node_id:=l]> (inner m)).

Definition view_map_new (node_id : NodeId) (initial_view : StateViewObject V) : ViewMap V :=
  publish_new (mkViewMap ∅ ∅) node_id initial_view.

Definition view_map_get m (node_id : NodeId) : option (StateViewObject V) :=
  l ← inner m !! node_id; cell_load m l.

Definition view_map_update m (node_id : NodeId) view : ViewMap V * bool :=
  match inner m !! node_id with
  | Some entry => (cell_store m entry view, true)
  | None => (m, false)
  end.

Definition view_map_insert_node m (node_id : NodeId) view : ViewMap V * bool :=
  if bool_decide (is_Some (inner m !! node_id)) then (m, false)
  else (publish_new m node_id view, true).

Definition view_map_upsert m (node_id : NodeId) view : ViewMap V :=
  match inner m !! node_id with
  | Some entry => cell_store m entry view
  | None => publish_new m node_id view
  end.

(** The removed cell stays allocated: readers may still hold its [Arc]. *)
Definition view_map_remove_node m (node_id : NodeId) : ViewMap V * bool :=
  if bool_decide (is_Some (inner m !! node_id))
  then (mkViewMap (cells m) (delete node_id (inner m)), true)
  else (m, false).

Definition view_map_contains m (node_id : NodeId) : bool :=
  bool_decide (is_Some (inner m !! node_id)).

Definition view_map_len m : nat := size (inner m).

(** One load of the outer map, one load per cell, collected into a map. *)
Definition view_map_snapshot m : gmap NodeId (StateViewObject V) :=
  list_to_map (omap (λ kl : NodeId * Cell, v ← cell_load m kl.2; Some (kl.1, v))
    (hm_iter (inner m))).

Definition view_map_node_ids m : list NodeId := (hm_iter (inner m)).*1.

Definition view_map_stale_peers m (local_node : NodeId) (max_staleness : Duration)
    (t : Instant) : list NodeId :=
  keys_where (λ id entry,
    negb (bool_decide (id = local_node)) &&
    match cell_load m entry with
    | Some vo => view_stale t max_staleness vo
    | None => false
    end) (inner m).

Definition view_map_update_if m (node_id : NodeId)
    (f : option (StateViewObject V) → option (StateViewObject V)) : ViewMap V * bool :=
  match inner m !! node_id with
  | Some entry =>
      match f (cell_load m entry) with
      | Some new_view => (cell_store m entry new_view, true)
      | None => (m, false)
      end
  | None =>
      match f None with
      | Some new_view => (publish_new m node_id new_view, true)
      | None => (m, false)
      end
  end.

Definition view_map_contents m : gmap NodeId (StateViewObject V) :=
  omap (cell_load m) (inner m).

(** No dangling entry, and no cell shared by two nodes. *)
Definition view_map_wf m : Prop :=
  (∀ k l, inner m !! k = Some l → is_Some (cells m !! l)) ∧
  (∀ k k' l, inner m !! k = Some l → inner m !! k' = Some l → k = k').

Global Instance ViewMap_ops : ViewMapOps V (ViewMap V) := {|
  vm_new := view_map_new;
  vm_get := view_map_get;
  vm_update := view_map_update;
  vm_insert_node := view_map_insert_node;
  vm_upsert := view_map_upsert;
  vm_remove_node := view_map_remove_node;
  vm_contains := view_map_contains;
  vm_len := view_map_len;
  vm_snapshot := view_map_snapshot;
  vm_node_ids := view_map_node_ids;
  vm_stale_peers := view_map_stale_peers;
  vm_update_if := view_map_update_if;
  vm_contents := view_map_contents;
  vm_wf := view_map_wf
|}.
End ViewMap.

(** The plain map as an implementation. *)
Section SpecMap.
Context `{HashIter} {V : Type}.

Definition SpecMap : Type := gmap NodeId (StateViewObject V).

Global Instance SpecMap_ops : ViewMapOps V SpecMap := {|
  vm_new k v := {[k := v]};
  vm_get m k := m !! k;
  vm_update := spec_update;
  vm_insert_node := spec_insert_node;
  vm_upsert m k v := <[k:=v]> m;
  vm_remove_node := spec_remove_node;
  vm_contains m k := bool_decide (is_Some (m !! k));
  vm_len := size;
  vm_snapshot m := m;
  vm_node_ids m := (map_to_list m).*1;
  vm_stale_peers := spec_stale_peers;
  vm_update_if := spec_update_if;
  vm_contents m := m;
  vm_wf _ := True
|}.

Global Instance SpecMap_laws : ViewMapLaws V SpecMap.
Proof.
  split; simpl; intros; rewrite <-?surjective_pairing; done || by split.
Qed.
End SpecMap.
Arguments SpecMap : clear implicits.

(** ** The two-level map implements the interface *)
Section ViewMapProofs.
Context `{HashIter} {V : Type}.
Implicit Types (m : ViewMap V) (view : StateViewObject V).

Lemma contents_lookup m k :
  view_map_contents m !! k = (l ← inner m !! k; cells m !! l).
Proof. unfold view_map_contents. by rewrite lookup_omap. Qed.

Lemma contents_wf_lookup m k l :
  view_map_wf m → inner m !! k = Some l →
  ∃ v, cells m !! l = Some v ∧ view_map_contents m !! k = Some v.
Proof.
  intros [Hd _] Hk. destruct (Hd k l Hk) as [v Hv].
  exists v. by rewrite contents_lookup, Hk.
Qed.

Lemma contents_None m k : inner m !! k = None → view_map_contents m !! k = None.
Proof. intros Hk. by rewrite contents_lookup, Hk. Qed.

Lemma contents_is_Some m k :
  view_map_wf m → is_Some (inner m !! k) ↔ is_Some (view_map_contents m !! k).
Proof.
  intros Hwf. destruct (inner m !! k) as [l|] eqn:Hk.
  - destruct (contents_wf_lookup m k l Hwf Hk) as (v & _ & ->). split; eauto.
  - by rewrite (contents_None _ _ Hk).
Qed.

Lemma cell_store_wf m k l view :
  view_map_wf m → inner m !! k = Some l → view_map_wf (cell_store m l view).
Proof.
  intros [Hd Hi] Hk. split; simpl; [|done].
  intros k' l' Hk'. rewrite lookup_insert. case_decide; eauto.
Qed.

Lemma cell_store_contents m k l view :
  view_map_wf m → inner m !! k = Some l →
  view_map_contents (cell_store m l view) = <[k:=view]> (view_map_contents m).
Proof.
  intros [Hd Hi] Hk. apply map_eq. intros k'.
  rewrite contents_lookup, lookup_insert, contents_lookup. simpl.
  case_decide; subst.
  - rewrite Hk. simpl. apply lookup_insert_eq.
  - destruct (inner m !! k') as [l'|] eqn:Hk'; simpl; [|done].
    rewrite lookup_insert_ne; [done|]. intros ->. eauto.
Qed.

Lemma fresh_cell m k l :
  view_map_wf m → inner m !! k = Some l → l ≠ fresh (dom (cells m)).
Proof.
  intros [Hd _] Hk ->. apply (is_fresh (dom (cells m))), elem_of_dom. eauto.
Qed.

Lemma publish_new_wf m k view :
  view_map_wf m → view_map_wf (publish_new m k view).
Proof.
  intros Hwf. pose proof (fresh_cell m) as Hf. destruct Hwf as [Hd Hi] eqn:HE.
  split; simpl.
  - intros k' l' [[<- <-]|[Hne Hk']]%lookup_insert_Some.
    + rewrite lookup_insert_eq. eauto.
    + rewrite lookup_insert. case_decide; eauto.
  - intros k1 k2 l [[<- <-]|[Hne Hk1]]%lookup_insert_Some
      [[<- Heq]|[Hne' Hk2]]%lookup_insert_Some; try done; try (by edestruct Hf);
      subst; eauto; by edestruct Hf.
Qed.

Lemma publish_new_contents m k view :
  view_map_wf m → inner m !! k = None →
  view_map_contents (publish_new m k view) = <[k:=view]> (view_map_contents m).
Proof.
  intros Hwf Hk. apply map_eq. intros k'.
  rewrite contents_lookup, lookup_insert, contents_lookup. simpl.
  rewrite lookup_insert. case_decide; subst; simpl; [apply lookup_insert_eq|].
  destruct (inner m !! k') as [l'|] eqn:Hk'; simpl; [|done].
  rewrite lookup_insert_ne; [done|]. intros <-. by eapply fresh_cell.
Qed.

Lemma remove_wf m k :
  view_map_wf m → view_map_wf (mkViewMap (cells m) (delete k (inner m))).
Proof.
  intros [Hd Hi]. split; simpl.
  - intros k' l' [_ Hk']%lookup_delete_Some. eauto.
  - intros k1 k2 l [_ ?]%lookup_delete_Some [_ ?]%lookup_delete_Some. eauto.
Qed.

Lemma remove_contents m k :
  view_map_contents (mkViewMap (cells m) (delete k (inner m))) =
  delete k (view_map_contents m).
Proof.
  apply map_eq. intros k'. rewrite contents_lookup. simpl.
  rewrite !lookup_delete. case_decide; [done|]. by rewrite contents_lookup.
Qed.

Lemma view_map_dom m : view_map_wf m → dom (view_map_contents m) = dom (inner m).
Proof.
  intros Hwf. apply set_eq. intros k. rewrite !elem_of_dom.
  by rewrite contents_is_Some.
Qed.

Lemma view_map_snapshot_contents m :
  view_map_snapshot m = view_map_contents m.
Proof.
  apply map_eq. intros k. rewrite contents_lookup. apply option_eq. intros v.
  unfold view_map_snapshot. rewrite <- elem_of_list_to_map.
  - rewrite list_elem_of_omap. split.
    + intros ([k' l] & Hin & Hload). simpl in *. rewrite elem_of_hm_iter in Hin.
      unfold cell_load in Hload. destruct (cells m !! l) eqn:El; simplify_eq/=.
      by rewrite Hin.
    + intros Hb. destruct (inner m !! k) as [l|] eqn:Hk; simplify_eq/=.
      exists (k, l). rewrite elem_of_hm_iter. simpl. unfold cell_load. by rewrite Hb.
  - eapply sublist_NoDup; [apply (NoDup_hm_iter_fst (inner m))|].
    induction (hm_iter (inner m)) as [|[k' l] kl IH]; simpl; [done|].
    destruct (cell_load m l); simpl; by constructor.
Qed.

Lemma view_map_stale_peers_keys m l d t :
  view_map_wf m →
  view_map_stale_peers m l d t ≡ₚ spec_stale_peers (view_map_contents m) l d t.
Proof.
  intros Hwf. apply NoDup_Permutation; [apply NoDup_keys_where..|].
  intros k. unfold view_map_stale_peers, spec_stale_peers.
  rewrite !elem_of_keys_where. unfold stale_peer, cell_load. split.
  - intros (c & Hc & Hp). destruct (contents_wf_lookup m k c Hwf Hc) as (v & Hv & Hcv).
    rewrite Hv in Hp. eauto.
  - intros (v & Hv & Hp). rewrite contents_lookup in Hv.
    destruct (inner m !! k) as [c|] eqn:Hc; simplify_eq/=. exists c. by rewrite Hv.
Qed.

Lemma view_map_node_ids_contents m :
  view_map_wf m → view_map_node_ids m ≡ₚ (map_to_list (view_map_contents m)).*1.
Proof.
  intros Hwf. unfold view_map_node_ids.
  apply NoDup_Permutation; [apply NoDup_hm_iter_fst|apply NoDup_fst_map_to_list|].
  intros k. rewrite !list_elem_of_fmap. split.
  - intros ([k' l] & -> & Hin). rewrite elem_of_hm_iter in Hin.
    destruct (contents_wf_lookup m k' l Hwf Hin) as (v & _ & Hv).
    exists (k', v). by rewrite elem_of_map_to_list.
  - intros ([k' v] & -> & Hin%elem_of_map_to_list).
    rewrite contents_lookup in Hin.
    destruct (inner m !! k') as [l|] eqn:Hl; simplify_eq/=.
    exists (k', l). by rewrite elem_of_hm_iter.
Qed.

Lemma view_map_update_if_contents m k f :
  view_map_wf m →
  view_map_wf (view_map_update_if m k f).1 ∧
  (view_map_contents (view_map_update_if m k f).1, (view_map_update_if m k f).2) =
    spec_update_if (view_map_contents m) k f.
Proof.
  intros Hwf. unfold view_map_update_if, spec_update_if.
  destruct (inner m !! k) as [l|] eqn:Hk.
  - destruct (contents_wf_lookup m k l Hwf Hk) as (u & Hu & ->).
    unfold cell_load. rewrite Hu. destruct (f (Some u)); [|done].
    split; [by eapply cell_store_wf|]. by erewrite <- cell_store_contents.
  - rewrite (contents_None _ _ Hk). destruct (f None); [|done].
    split; [by apply publish_new_wf|]. simpl. by rewrite publish_new_contents.
Qed.

Global Instance ViewMap_laws : ViewMapLaws V (ViewMap V).
Proof.
  split; simpl.
  - intros k v. assert (view_map_wf (@mkViewMap V ∅ ∅)) as Hwf.
    { split; simpl; intros; by rewrite lookup_empty in *. }
    split; [by apply publish_new_wf|]. unfold view_map_new.
    by rewrite publish_new_contents.
  - intros m k _. by rewrite contents_lookup.
  - intros m k v Hwf. unfold view_map_update, spec_update.
    destruct (inner m !! k) as [l|] eqn:Hk.
    + destruct (contents_wf_lookup m k l Hwf Hk) as (u & _ & ->).
      split; [by eapply cell_store_wf|]. by erewrite <- cell_store_contents.
    + by rewrite (contents_None _ _ Hk).
  - intros m k v Hwf. unfold view_map_insert_node, spec_insert_node.
    case_bool_decide as Hk.
    + apply contents_is_Some in Hk as [u Hu]; [|done]. by rewrite Hu.
    + apply eq_None_not_Some in Hk. rewrite (contents_None _ _ Hk).
      split; [by apply publish_new_wf|]. simpl. by rewrite publish_new_contents.
  - intros m k v Hwf. unfold view_map_upsert. destruct (inner m !! k) as [l|] eqn:Hk.
    + split; [by eapply cell_store_wf|by eapply cell_store_contents].
    + split; [by apply publish_new_wf|by apply publish_new_contents].
  - intros m k Hwf. unfold view_map_remove_node, spec_remove_node.
    case_bool_decide as Hk.
    + apply contents_is_Some in Hk as [u Hu]; [|done]. rewrite Hu.
      split; [by apply remove_wf|]. simpl. by rewrite remove_contents.
    + apply eq_None_not_Some in Hk. by rewrite (contents_None _ _ Hk).
  - intros m k Hwf. unfold view_map_contains. apply bool_decide_ext.
    by apply contents_is_Some.
  - intros m Hwf. unfold view_map_len. by rewrite <- !size_dom, view_map_dom.
  - intros m _. apply view_map_snapshot_contents.
  - apply view_map_node_ids_contents.
  - intros m l d t. apply view_map_stale_peers_keys.
  - apply view_map_update_if_contents.
Qed.
End ViewMapProofs.

(** ** Sequences of operations *)
Section Sequences.
Context {V : Type}.

Inductive ViewMapOp : Type :=
| OpGet (k : NodeId)
| OpUpdate (k : NodeId) (v : StateViewObject V)
| OpInsertNode (k : NodeId) (v : StateViewObject V)
| OpUpsert (k : NodeId) (v : StateViewObject V)
| OpRemoveNode (k : NodeId)
| OpUpdateIf (k : NodeId) (f : option (StateViewObject V) → option (StateViewObject V))
| OpContains (k : NodeId)
| OpLen
| OpSnapshot
| OpNodeIds
| OpStalePeers (local_node : NodeId) (max_staleness : Duration) (t : Instant).

(** What the caller observes; lists of nodes as sets, since their order is that
    of a hash map. *)
Inductive ViewMapObs : Type :=
| ObsUnit
| ObsBool (b : bool)
| ObsView (v : option (StateViewObject V))
| ObsLen (n : nat)
| ObsSnapshot (s : gmap NodeId (StateViewObject V))
| ObsNodes (s : gset NodeId).

Definition run_op {M} `{ViewMapOps V M} (m : M) (op : ViewMapOp) : M * ViewMapObs :=
  match op with
  | OpGet k => (m, ObsView (vm_get m k))
  | OpUpdate k v => let '(m', b) := vm_update m k v in (m', ObsBool b)
  | OpInsertNode k v => let '(m', b) := vm_insert_node m k v in (m', ObsBool b)
  | OpUpsert k v => (vm_upsert m k v, ObsUnit)
  | OpRemoveNode k => let '(m', b) := vm_remove_node m k in (m', ObsBool b)
  | OpUpdateIf k f => let '(m', b) := vm_update_if m k f in (m', ObsBool b)
  | OpContains k => (m, ObsBool (vm_contains m k))
  | OpLen => (m, ObsLen (vm_len m))
  | OpSnapshot => (m, ObsSnapshot (vm_snapshot m))
  | OpNodeIds => (m, ObsNodes (list_to_set (vm_node_ids m)))
  | OpStalePeers l d t => (m, ObsNodes (list_to_set (vm_stale_peers m l d t)))
  end.

Fixpoint run_ops {M} `{ViewMapOps V M} (m : M) (ops : list ViewMapOp) :
    M * list ViewMapObs :=
  match ops with
  | [] => (m, [])
  | op :: ops =>
      let '(m1, o) := run_op m op in
      let '(m2, os) := run_ops m1 ops in
      (m2, o :: os)
  end.
End Sequences.
Arguments ViewMapOp : clear implicits.
Arguments ViewMapObs : clear implicits.

Section Refinement.
Context `{HashIter} {V M : Type} `{!ViewMapOps V M} `{!ViewMapLaws V M}.
Implicit Types m : M.

Lemma pair_spec {A B} (p : A * B) (q : A * B) : (p.1, p.2) = q → p = q.
Proof. by destruct p. Qed.

(** One operation of any implementation simulates the same operation of the
    plain map. *)
Lemma run_op_simulation m op :
  vm_wf m →
  vm_wf (run_op m op).1 ∧
  (vm_contents (run_op m op).1, (run_op m op).2) =
    run_op (M := SpecMap V) (vm_contents m) op.
Proof.
  intros Hwf. destruct op as [k|k v|k v|k v|k|k f|k| | | |l d t]; simpl.
  - by rewrite get_spec.
  - destruct (update_spec m k v Hwf) as [? Heq]. simpl in *.
    destruct (vm_update m k v); simpl in *. by rewrite <- Heq.
  - destruct (insert_node_spec m k v Hwf) as [? Heq].
    destruct (vm_insert_node m k v); simpl in *. by rewrite <- Heq.
  - destruct (upsert_spec m k v Hwf) as [? Heq]. by rewrite Heq.
  - destruct (remove_node_spec m k Hwf) as [? Heq].
    destruct (vm_remove_node m k); simpl in *. by rewrite <- Heq.
  - destruct (update_if_spec m k f Hwf) as [? Heq].
    destruct (vm_update_if m k f); simpl in *. by rewrite <- Heq.
  - by rewrite contains_spec.
  - by rewrite len_spec.
  - by rewrite snapshot_spec.
  - by rewrite (node_ids_spec m Hwf).
  - by rewrite (stale_peers_spec m l d t Hwf).
Qed.

Lemma run_ops_simulation ops : ∀ m,
  vm_wf m →
  vm_wf (run_ops m ops).1 ∧
  (vm_contents (run_ops m ops).1, (run_ops m ops).2) =
    run_ops (M := SpecMap V) (vm_contents m) ops.
Proof.
  induction ops as [|op ops IH]; intros m Hwf; simpl; [done|].
  destruct (run_op_simulation m op Hwf) as [Hwf1 Heq1].
  destruct (run_op m op) as [m1 o]. simpl in *. rewrite <- Heq1.
  destruct (IH m1 Hwf1) as [Hwf2 Heq2].
  destruct (run_ops m1 ops) as [m2 os]. simpl in *. by rewrite <- Heq2.
Qed.
End Refinement.

(** [C20] The two-level map refines a plain finite map: from [ViewMap::new], any
    sequence of its operations returns what the same operations return on a map
    from nodes to views, and leaves the same contents; joins and leaves never
    make two nodes share a cell. *)
Theorem view_map_refines_map `{HashIter} {V} (k : NodeId) (v : StateViewObject V)
    (ops : list (ViewMapOp V)) :
  let concrete := run_ops (view_map_new k v) ops in
  let abstract := run_ops (M := SpecMap V) {[k := v]} ops in
  concrete.2 = abstract.2 ∧ view_map_contents concrete.1 = abstract.1 ∧
  view_map_wf concrete.1.
Proof.
  intros concrete abstract. destruct (new_spec (M := ViewMap V) k v) as [Hwf Hc].
  destruct (run_ops_simulation ops _ Hwf) as [Hwf' Heq]. rewrite Hc in Heq.
  exact (conj (f_equal snd Heq) (conj (f_equal fst Heq) Hwf')).
Qed.

(** ** Consequences of the laws the shard uses *)
Section Derived.
Context `{HashIter} {V M : Type} `{!ViewMapOps V M} `{!ViewMapLaws V M}.
Implicit Types (m : M) (f : option (StateViewObject V) → option (StateViewObject V)).

Lemma update_contents m k v :
  vm_wf m → is_Some (vm_contents m !! k) →
  vm_contents (vm_update m k v).1 = <[k:=v]> (vm_contents m).
Proof.
  intros Hwf [u Hu]. destruct (update_spec m k v Hwf) as [_ Heq].
  unfold spec_update in Heq. rewrite Hu in Heq. by simplify_eq.
Qed.

Lemma update_if_contents m k f :
  vm_wf m →
  vm_contents (vm_update_if m k f).1 =
    match f (vm_contents m !! k) with
    | Some v => <[k:=v]> (vm_contents m) | None => vm_contents m
    end ∧
  (vm_update_if m k f).2 = bool_decide (is_Some (f (vm_contents m !! k))).
Proof.
  intros Hwf. destruct (update_if_spec m k f Hwf) as [_ Heq].
  unfold spec_update_if in Heq. by destruct (f _); simplify_eq.
Qed.

Lemma insert_node_contents m k v :
  vm_wf m →
  vm_contents (vm_insert_node m k v).1 =
    match vm_contents m !! k with
    | Some _ => vm_contents m | None => <[k:=v]> (vm_contents m)
    end.
Proof.
  intros Hwf. destruct (insert_node_spec m k v Hwf) as [_ Heq].
  unfold spec_insert_node in Heq. by destruct (vm_contents m !! k); simplify_eq.
Qed.

Lemma remove_node_contents m k :
  vm_wf m → vm_contents (vm_remove_node m k).1 = delete k (vm_contents m).
Proof.
  intros Hwf. destruct (remove_node_spec m k Hwf) as [_ Heq].
  unfold spec_remove_node in Heq.
  destruct (vm_contents m !! k) eqn:E; simplify_eq; [done|].
  by rewrite delete_id.
Qed.

Lemma update_wf m k v : vm_wf m → vm_wf (vm_update m k v).1.
Proof. intros. by apply update_spec. Qed.
Lemma update_if_wf m k f : vm_wf m → vm_wf (vm_update_if m k f).1.
Proof. intros. by apply update_if_spec. Qed.
Lemma insert_node_wf m k v : vm_wf m → vm_wf (vm_insert_node m k v).1.
Proof. intros. by apply insert_node_spec. Qed.
Lemma remove_node_wf m k : vm_wf m → vm_wf (vm_remove_node m k).1.
Proof. intros. by apply remove_node_spec. Qed.

Lemma elem_of_stale_peers m l d t k :
  vm_wf m →
  k ∈ vm_stale_peers m l d t ↔
  ∃ vo, vm_contents m !! k = Some vo ∧ stale_peer l t d k vo = true.
Proof.
  intros Hwf. rewrite (stale_peers_spec m l d t Hwf). apply elem_of_keys_where.
Qed.
End Derived.
#[export] Hint Resolve update_wf update_if_wf insert_node_wf remove_node_wf : dstate.
