(* ===== verification/Readers.v ===== *)
(** Readers that run concurrently with the one writer of a [ViewMap]
    ([core/view_map.rs], "Concurrency" and "Writer Safety").

    The writer is the actor of the shard: its operations come one after the other, and
    each has one visible effect, a store into a cell or the publication of an outer map.
    A reader loads the outer map once and then, one after the other, the cells it wants;
    between any two of its loads the writer may do anything, and other readers too.  The
    system keeps, as a ghost, the [past]: the contents after every operation. *)
From stdpp Require Import prelude gmap fin_maps relations.
From S2P Require Import Prelude Node Clock Types ViewMap.

(** ** The effects of the writer *)
Section Writer.
Context `{HashIter} {V : Type}.
Implicit Types (m : ViewMap V) (k : NodeId) (l : Cell) (v : StateViewObject V).

Inductive write m : ViewMap V → Prop :=
| write_none : write m m
| write_store k l v : inner m !! k = Some l → write m (cell_store m l v)
| write_publish k v : inner m !! k = None → write m (publish_new m k v)
| write_remove k : write m (mkViewMap (cells m) (delete k (inner m))).

Lemma run_op_write m (op : ViewMapOp V) : write m (run_op m op).1.
Proof.
  destruct op as [k|k v|k v|k v|k|k f|k| | | |l d t]; simpl; try apply write_none.
  - unfold view_map_update. destruct (inner m !! k) eqn:Hk; [by eapply write_store|apply write_none].
  - unfold view_map_insert_node. case_bool_decide as Hk; [apply write_none|].
    apply write_publish. by apply eq_None_not_Some.
  - unfold view_map_upsert. destruct (inner m !! k) eqn:Hk; [by eapply write_store|by apply write_publish].
  - unfold view_map_remove_node. case_bool_decide; [apply write_remove|apply write_none].
  - unfold view_map_update_if. destruct (inner m !! k) eqn:Hk.
    + destruct (f _); [by eapply write_store|apply write_none].
    + destruct (f None); [by apply write_publish|apply write_none].
Qed.

(** A cell that the outer map does not mention. *)
Definition unlinked m l : Prop := ∀ k, inner m !! k ≠ Some l.

Lemma write_wf m m' : view_map_wf m → write m m' → view_map_wf m'.
Proof.
  intros Hwf [|k l v Hk|k v Hk|k]; [done|by eapply cell_store_wf|by apply publish_new_wf|by apply remove_wf].
Qed.

(** Cells stay allocated; an unlinked one is never written nor linked again. *)
Lemma write_unlinked m m' l v :
  write m m' → cells m !! l = Some v → unlinked m l → cells m' !! l = Some v ∧ unlinked m' l.
Proof.
  intros [|k l' v' Hk|k v' Hk|k] Hl Hu; [done|..]; unfold unlinked in *; simpl.
  - split; [|done]. rewrite lookup_insert_ne; [done|]. intros ->. by destruct (Hu k).
  - assert (fresh (dom (cells m)) ≠ l) as Hne.
    { intros <-. apply (is_fresh (dom (cells m))), elem_of_dom. eauto. }
    rewrite lookup_insert_ne by done. split; [done|]. intros k'. rewrite lookup_insert.
    case_decide; [congruence|apply Hu].
  - split; [done|]. intros k' [_ Hk']%lookup_delete_Some. by destruct (Hu k').
Qed.

(** A linked cell stays linked to its node, or is unlinked as it is. *)
Lemma write_linked m m' k l :
  view_map_wf m → write m m' → inner m !! k = Some l →
  inner m' !! k = Some l ∨ (unlinked m' l ∧ cells m' !! l = cells m !! l).
Proof.
  intros [Hd Hinj] [|k' l' v' Hk'|k' v' Hk'|k'] Hk; simpl; [by left|by left|..].
  - left. rewrite lookup_insert_ne; [done|]. congruence.
  - destruct (decide (k' = k)) as [->|Hne]; [right|left; by rewrite lookup_delete_ne].
    split; [|done]. intros k2. simpl. intros [Hne Hk2]%lookup_delete_Some. by destruct Hne; eauto.
Qed.
End Writer.

(** ** The system *)

(** What a reader was asked for: [get], [snapshot] and [stale_peers]. *)
Inductive request : Type :=
| ReadGet (k : NodeId)
| ReadSnapshot
| ReadStale (local_node : NodeId).

(** The entries still to load, what was loaded, and the length of the past when the reader
    loaded the outer map. *)
Record reader (V : Type) : Type := mkReader {
  rd_request : request;
  rd_todo : list (NodeId * Cell);
  rd_done : list (NodeId * StateViewObject V);
  rd_start : nat
}.
Arguments mkReader {V}.
Arguments rd_request {V}.
Arguments rd_todo {V}.
Arguments rd_done {V}.
Arguments rd_start {V}.

Record system (V : Type) : Type := mkSystem {
  memory : ViewMap V;
  threads : gmap nat (reader V);
  past : list (gmap NodeId (StateViewObject V))
}.
Arguments mkSystem {V}.
Arguments memory {V}.
Arguments threads {V}.
Arguments past {V}.

Section System.
Context `{HashIter} {V : Type}.
Implicit Types (m : ViewMap V) (r : reader V) (s : system V) (k : NodeId) (l : Cell).
Local Abbreviation view := (StateViewObject V).

(** The cells a reader wants, by the outer map it loaded. *)
Definition plan m (q : request) : list (NodeId * Cell) :=
  match q with
  | ReadGet k => (λ l, (k, l)) <$> option_list (inner m !! k)
  | ReadSnapshot => hm_iter (inner m)
  | ReadStale local_node => filter (λ e, e.1 ≠ local_node) (hm_iter (inner m))
  end.

(** What a reader returns once it has loaded everything. *)
Definition get_result r : option view := snd <$> head (rd_done r).
Definition snapshot_result r : gmap NodeId view := list_to_map (rd_done r).
Definition stale_result (t : Instant) (max_staleness : Duration) r : list NodeId :=
  (filter (λ e, view_stale t max_staleness e.2 = true) (rd_done r)).*1.

Definition load_next r (v : view) : reader V :=
  match rd_todo r with
  | (k, _) :: todo => mkReader (rd_request r) todo (rd_done r ++ [(k, v)]) (rd_start r)
  | [] => r
  end.

Inductive sys_step s : system V → Prop :=
| sys_write op :
    let m := (run_op (memory s) op).1 in
    sys_step s (mkSystem m (threads s) (past s ++ [view_map_contents m]))
| sys_start i q :
    threads s !! i = None →
    sys_step s (mkSystem (memory s)
      (<[i := mkReader q (plan (memory s) q) [] (length (past s) - 1)]> (threads s)) (past s))
| sys_load i r k l todo v :
    threads s !! i = Some r → rd_todo r = (k, l) :: todo → cell_load (memory s) l = Some v →
    sys_step s (mkSystem (memory s) (<[i := load_next r v]> (threads s)) (past s))
| sys_return i r :
    threads s !! i = Some r → rd_todo r = [] →
    sys_step s (mkSystem (memory s) (delete i (threads s)) (past s)).

Definition sys_init (k : NodeId) (v : view) : system V :=
  let m := view_map_new k v in mkSystem m ∅ [view_map_contents m].

(** ** The invariant *)
Implicit Types (P : list (gmap NodeId view)).

(** At some moment of the past since [n], node [k] had the view [v]. *)
Definition was P (n : nat) k (v : view) : Prop :=
  ∃ n' c, (n ≤ n')%nat ∧ P !! n' = Some c ∧ c !! k = Some v.

(** The cell holds what its node had at some moment since [n], and if the node does not
    have it any more, nobody writes it. *)
Definition entry_ok m P (n : nat) k l : Prop :=
  ∃ v, cells m !! l = Some v ∧ was P n k v ∧ (inner m !! k = Some l ∨ unlinked m l).

(** The past ends now. *)
Definition memory_ok m P : Prop := view_map_wf m ∧ last P = Some (view_map_contents m).

Record reader_ok m P r : Prop := {
  ro_todo : ∀ k l, (k, l) ∈ rd_todo r → entry_ok m P (rd_start r) k l;
  ro_done : ∀ k v, (k, v) ∈ rd_done r → was P (rd_start r) k v;
  ro_plan : ∃ m0, P !! rd_start r = Some (view_map_contents m0) ∧ view_map_wf m0 ∧
    (rd_done r).*1 ++ (rd_todo r).*1 = (plan m0 (rd_request r)).*1
}.

Definition sys_ok s : Prop :=
  memory_ok (memory s) (past s) ∧
  ∀ i r, threads s !! i = Some r → reader_ok (memory s) (past s) r.

Lemma was_now m P n k v :
  memory_ok m P → (n < length P)%nat → view_map_contents m !! k = Some v → was P n k v.
Proof.
  intros [_ Hl] Hn Hv. exists (length P - 1)%nat, (view_map_contents m).
  split_and!; [lia| |done]. rewrite last_lookup in Hl. by rewrite Nat.sub_1_r.
Qed.

Lemma start_bound m P r : reader_ok m P r → (rd_start r < length P)%nat.
Proof. intros [_ _ (m0 & Hm & _)]. by apply lookup_lt_Some in Hm. Qed.

(** *** Writes *)
Lemma write_memory_ok m P m' :
  memory_ok m P → write m m' → memory_ok m' (P ++ [view_map_contents m']).
Proof. intros [Hwf _] Hw. split; [by eapply write_wf|apply last_snoc]. Qed.

Lemma was_later P c n k v : was P n k v → was (P ++ [c]) n k v.
Proof.
  intros (n' & c' & Hn & Hc & Hv). exists n', c'. split_and!; [done| |done].
  by apply lookup_app_l_Some.
Qed.

Lemma write_entry_ok m P m' n k l :
  memory_ok m P → write m m' → (n < length P)%nat → entry_ok m P n k l →
  entry_ok m' (P ++ [view_map_contents m']) n k l.
Proof.
  intros Hm Hw Hn (v & Hv & Hwas%(was_later _ (view_map_contents m')) & Hl).
  pose proof (write_memory_ok _ _ _ Hm Hw) as Hm'.
  destruct Hl as [Hl|Hu].
  2: { destruct (write_unlinked _ _ _ _ Hw Hv Hu). exists v. split_and!; [done..|by right]. }
  destruct (write_linked _ _ _ _ (proj1 Hm) Hw Hl) as [Hl'|[Hu Hc]].
  2: { exists v. split_and!; [congruence|done|by right]. }
  destruct (proj1 (proj1 Hm') k l Hl') as [v' Hv']. exists v'. split_and!; [done| |by left].
  eapply was_now; [done|rewrite length_app; simpl; lia|].
  by rewrite contents_lookup, Hl'.
Qed.

Lemma write_reader_ok m P m' r :
  memory_ok m P → write m m' → reader_ok m P r → reader_ok m' (P ++ [view_map_contents m']) r.
Proof.
  intros Hm Hw Hr. pose proof (start_bound _ _ _ Hr) as Hb. destruct Hr as [Htodo Hdone (m0 & Hm0 & Hp)].
  split.
  - intros k l Hkl. eapply write_entry_ok; eauto.
  - intros k v Hkv. apply was_later. eauto.
  - exists m0. split; [by apply lookup_app_l_Some|done].
Qed.

(** *** Starts and loads *)
Lemma elem_of_plan m q k l : (k, l) ∈ plan m q → inner m !! k = Some l.
Proof.
  destruct q as [k'| |ln]; simpl.
  - intros (l' & [= -> ->] & Hl)%list_elem_of_fmap. destruct (inner m !! k'); simpl in Hl;
      [by apply list_elem_of_singleton in Hl as ->|by apply elem_of_nil in Hl].
  - by rewrite elem_of_hm_iter.
  - intros [_ Hin]%list_elem_of_filter. by apply elem_of_hm_iter.
Qed.

Lemma start_reader_ok m P q :
  memory_ok m P → reader_ok m P (mkReader q (plan m q) [] (length P - 1)).
Proof.
  intros Hm. pose proof Hm as [Hwf Hlast]. assert (0 < length P)%nat as Hlen.
  { destruct P; [done|simpl; lia]. }
  split; simpl.
  - intros k l Hl%elem_of_plan. destruct (contents_wf_lookup m k l Hwf Hl) as (v & Hv & Hc).
    exists v. split_and!; [done| |by left]. eapply was_now; [done|lia|done].
  - by intros k v ?%elem_of_nil.
  - exists m. split_and!; [|done|done]. rewrite last_lookup in Hlast. by rewrite Nat.sub_1_r.
Qed.

Lemma load_reader_ok m P r k l todo v :
  reader_ok m P r → rd_todo r = (k, l) :: todo → cell_load m l = Some v → reader_ok m P (load_next r v).
Proof.
  intros [Htodo Hdone (m0 & Hm0 & Hwf & Hp)] Ht Hv. unfold load_next. rewrite Ht in *. split; simpl.
  - intros k' l' ?. apply Htodo. by right.
  - intros k' v' [?|Hin]%elem_of_app; [by apply Hdone|].
    apply list_elem_of_singleton in Hin as [= -> ->].
    destruct (Htodo k l ltac:(by left)) as (v' & Hv' & ? & _). unfold cell_load in Hv. congruence.
  - exists m0. split_and!; [done|done|]. rewrite <- Hp, fmap_app, <- app_assoc. done.
Qed.

Lemma sys_step_ok s s' : sys_ok s → sys_step s s' → sys_ok s'.
Proof.
  intros [Hm Hr] [op m|i q Hi|i r k l todo v Hi Ht Hv|i r Hi Ht].
  - pose proof (run_op_write (memory s) op) as Hw. fold m in Hw.
    split; simpl; [by apply write_memory_ok with (memory s)|].
    intros i r Hir. eapply write_reader_ok; eauto.
  - split; [done|]. simpl. intros j r [[<- <-]|[_ Hj]]%lookup_insert_Some; [|eauto].
    by apply start_reader_ok.
  - split; [done|]. simpl. intros j r' [[<- <-]|[_ Hj]]%lookup_insert_Some; [|eauto].
    eapply load_reader_ok; eauto.
  - split; [done|]. simpl. intros j r' [_ Hj]%lookup_delete_Some. eauto.
Qed.

Lemma sys_reach_ok k v s : rtc sys_step (sys_init k v) s → sys_ok s.
Proof.
  assert (sys_ok (sys_init k v)) as Hinit.
  { split; [|intros i r; simpl; by rewrite lookup_empty]. split; [|done].
    exact (proj1 (new_spec (M := ViewMap V) k v)). }
  intros Hr. revert Hinit. induction Hr; eauto using sys_step_ok.
Qed.

(** *** What the readers return *)
Lemma NoDup_keys_filter {A B} (Q : A * B → Prop) `{∀ x, Decision (Q x)} (kvs : list (A * B)) :
  NoDup kvs.*1 → NoDup (filter Q kvs).*1.
Proof.
  induction kvs as [|x kvs IH]; [done|]. rewrite fmap_cons. intros [Hx Hnd]%NoDup_cons.
  rewrite filter_cons. case_decide; [|auto]. rewrite fmap_cons. apply NoDup_cons. split; [|auto].
  intros (y & Heq & [_ Hy]%list_elem_of_filter)%list_elem_of_fmap. apply Hx. rewrite Heq.
  by apply list_elem_of_fmap_2.
Qed.

Lemma done_plan m P r :
  reader_ok m P r → rd_todo r = [] →
  ∃ m0, P !! rd_start r = Some (view_map_contents m0) ∧ view_map_wf m0 ∧
    (rd_done r).*1 = (plan m0 (rd_request r)).*1.
Proof.
  intros [_ _ (m0 & Hm0 & Hwf & Hp)] Ht. rewrite Ht, app_nil_r in Hp. eauto.
Qed.

Lemma get_returns m P r k :
  reader_ok m P r → rd_todo r = [] → rd_request r = ReadGet k →
  ∃ n c, (rd_start r ≤ n)%nat ∧ P !! n = Some c ∧ get_result r = c !! k.
Proof.
  intros Hr Ht Hq. destruct (done_plan _ _ _ Hr Ht) as (m0 & Hm0 & Hwf & Hp). rewrite Hq in Hp.
  simpl in Hp. unfold get_result. destruct (rd_done r) as [|[k' v] rest] eqn:Hd; simpl in *.
  - exists (rd_start r), (view_map_contents m0). split_and!; [done|done|].
    destruct (inner m0 !! k) eqn:Hk; [done|]. by rewrite contents_None.
  - destruct (inner m0 !! k) as [l|]; simpl in Hp; [|done]. injection Hp as -> _.
    destruct (ro_done _ _ _ Hr k v) as (n & c & ? & ? & ?); [rewrite Hd; by left|eauto].
Qed.

Lemma snapshot_returns m P r :
  reader_ok m P r → rd_todo r = [] → rd_request r = ReadSnapshot →
  ∃ c, P !! rd_start r = Some c ∧ dom (snapshot_result r) = dom c ∧
    ∀ k v, snapshot_result r !! k = Some v → was P (rd_start r) k v.
Proof.
  intros Hr Ht Hq. destruct (done_plan _ _ _ Hr Ht) as (m0 & Hm0 & Hwf & Hp). rewrite Hq in Hp.
  simpl in Hp. exists (view_map_contents m0). split_and!; [done| |].
  - rewrite view_map_dom by done. unfold snapshot_result. rewrite dom_list_to_map_L, Hp.
    apply set_eq. intros k. rewrite elem_of_list_to_set, elem_of_dom, list_elem_of_fmap. split.
    + intros ([k' l] & -> & Hin). apply elem_of_hm_iter in Hin. by exists l.
    + intros [l Hl]. exists (k, l). by rewrite elem_of_hm_iter.
  - intros k v Hkv%elem_of_list_to_map_2. by apply (ro_done _ _ _ Hr).
Qed.

Lemma stale_returns m P r ln t d :
  reader_ok m P r → rd_todo r = [] → rd_request r = ReadStale ln →
  ∃ c, P !! rd_start r = Some c ∧
    (∀ k, k ∈ stale_result t d r → is_Some (c !! k) ∧ k ≠ ln) ∧
    (∀ k, is_Some (c !! k) → k ≠ ln →
       ∃ v, was P (rd_start r) k v ∧ (k ∈ stale_result t d r ↔ view_stale t d v = true)).
Proof.
  intros Hr Ht Hq. destruct (done_plan _ _ _ Hr Ht) as (m0 & Hm0 & Hwf & Hp). rewrite Hq in Hp.
  simpl in Hp. exists (view_map_contents m0). split; [done|].
  assert (∀ k, k ∈ (rd_done r).*1 ↔ is_Some (view_map_contents m0 !! k) ∧ k ≠ ln) as Hkeys.
  { intros k. rewrite Hp, <- contents_is_Some, list_elem_of_fmap by done. split.
    - intros ([k' l] & -> & [Hne Hin]%list_elem_of_filter). apply elem_of_hm_iter in Hin. eauto.
    - intros [[l Hl] Hne]. exists (k, l). split; [done|]. apply list_elem_of_filter.
      by rewrite elem_of_hm_iter. }
  assert (NoDup (rd_done r).*1) as Hnd.
  { rewrite Hp. apply NoDup_keys_filter, NoDup_hm_iter_fst. }
  unfold stale_result. split.
  - intros k ([k' v] & -> & [_ Hin]%list_elem_of_filter)%list_elem_of_fmap.
    apply Hkeys. by apply list_elem_of_fmap_2.
  - intros k Hk Hne. assert (k ∈ (rd_done r).*1) as Hin by by apply Hkeys.
    apply list_elem_of_fmap in Hin as ([k' v] & -> & Hin). exists v. simpl.
    split; [by apply (ro_done _ _ _ Hr)|]. rewrite list_elem_of_fmap. split.
    + intros ([k2 v2] & Heq & [Hst Hin2]%list_elem_of_filter). simpl in *. subst k2.
      apply elem_of_list_to_map_1 in Hin, Hin2; [|done..]. by simplify_eq.
    + intros Hst. exists (k', v). split; [done|]. by apply list_elem_of_filter.
Qed.
End System.

(** [C13] Lock-free reads.  Whatever the writer and the other readers do meanwhile, a reader
    never meets a cell that is gone; a [get] returns what the node had at some moment
    between its two loads; a [snapshot] has exactly the nodes of the moment it loaded the
    outer map, each with a view it had at some moment since; and [stale_peers] decides on
    such views about exactly the other nodes. *)
Theorem reads_are_linearizable `{HashIter} {V} (k0 : NodeId) (v0 : StateViewObject V)
    (s : system V) (i : nat) (r : reader V) :
  rtc sys_step (sys_init k0 v0) s → threads s !! i = Some r →
  (∀ k l todo, rd_todo r = (k, l) :: todo → is_Some (cell_load (memory s) l)) ∧
  (rd_todo r = [] →
   match rd_request r with
   | ReadGet k => ∃ n c, (rd_start r ≤ n)%nat ∧ past s !! n = Some c ∧ get_result r = c !! k
   | ReadSnapshot => ∃ c, past s !! rd_start r = Some c ∧ dom (snapshot_result r) = dom c ∧
       ∀ k v, snapshot_result r !! k = Some v → was (past s) (rd_start r) k v
   | ReadStale ln => ∀ t d, ∃ c, past s !! rd_start r = Some c ∧
       (∀ k, k ∈ stale_result t d r → is_Some (c !! k) ∧ k ≠ ln) ∧
       (∀ k, is_Some (c !! k) → k ≠ ln → ∃ v, was (past s) (rd_start r) k v ∧
          (k ∈ stale_result t d r ↔ view_stale t d v = true))
   end).
Proof.
  intros Hr Hi. destruct (sys_reach_ok _ _ _ Hr) as [_ Hok]. specialize (Hok i r Hi). split.
  - intros k l todo Ht. destruct (ro_todo _ _ _ Hok k l) as (v & Hv & _); [rewrite Ht; by left|].
    by exists v.
  - intros Ht. destruct (rd_request r) eqn:Hq.
    + by eapply get_returns.
    + by eapply snapshot_returns.
    + intros t d. by eapply stale_returns.
Qed.
