(* ===== verification/ShardCore.v ===== *)
(** The shard state machine ([core/shard_core.rs]): the local state, the view
    map, mutations in one and two phases, inbound snapshots and deltas,
    staleness, cluster membership and local queries.

    A [&mut self] or [&self] method returns the shard after the call; the shared
    clock is an argument of the methods that read it. *)
From stdpp Require Import prelude gmap fin_maps pretty strings.
From S2P Require Import Prelude Node Clock Types ViewMap.

(** ** Parameters and results of the operations *)

Record InboundSnapshot (V : Type) : Type := mkInboundSnapshot {
  snap_source : NodeId;
  snap_generation : Generation;
  snap_wire_version : Z;
  snap_view : V;
  snap_created_time : Z;
  snap_modified_time : Z
}.
Arguments mkInboundSnapshot {V}.
Arguments snap_source {V}.
Arguments snap_generation {V}.
Arguments snap_wire_version {V}.
Arguments snap_view {V}.
Arguments snap_created_time {V}.
Arguments snap_modified_time {V}.

Record MutationOutcome (V : Type) : Type := mkMutationOutcome {
  mo_generation : Generation;
  mo_view : V
}.
Arguments mkMutationOutcome {V}.
Arguments mo_generation {V}.
Arguments mo_view {V}.

Record DeltaMutationOutcome (V VD : Type) : Type := mkDeltaMutationOutcome {
  dmo_generation : Generation;
  dmo_view : V;
  dmo_view_delta : VD
}.
Arguments mkDeltaMutationOutcome {V VD}.
Arguments dmo_generation {V VD}.
Arguments dmo_view {V VD}.
Arguments dmo_view_delta {V VD}.

Record PreparedMutation (S V : Type) : Type := mkPreparedMutation {
  pm_base_generation : Generation;
  pm_new_state : StateObject S;
  pm_view : V
}.
Arguments mkPreparedMutation {S V}.
Arguments pm_base_generation {S V}.
Arguments pm_new_state {S V}.
Arguments pm_view {S V}.

Record PreparedDeltaMutation (S V VD : Type) : Type := mkPreparedDeltaMutation {
  pdm_base_generation : Generation;
  pdm_new_state : StateObject S;
  pdm_view : V;
  pdm_view_delta : VD
}.
Arguments mkPreparedDeltaMutation {S V VD}.
Arguments pdm_base_generation {S V VD}.
Arguments pdm_new_state {S V VD}.
Arguments pdm_view {S V VD}.
Arguments pdm_view_delta {S V VD}.

(** [PreparedMutation::state] and [PreparedDeltaMutation::state]: what the caller
    persists before it commits. *)
Definition prepared_state {S V} (pm : PreparedMutation S V) : StateObject S :=
  pm_new_state pm.
Definition prepared_delta_state {S V VD} (pm : PreparedDeltaMutation S V VD) : StateObject S :=
  pdm_new_state pm.

Inductive AcceptResult : Type := Accepted | Discarded.

Inductive DeltaAcceptResult : Type :=
| DeltaApplied
| DeltaDiscarded
| GapDetected (local incoming : Generation)
| UnknownPeer.

Global Instance AcceptResult_eq_dec : EqDecision AcceptResult.
Proof. solve_decision. Defined.
Global Instance DeltaAcceptResult_eq_dec : EqDecision DeltaAcceptResult.
Proof. solve_decision. Defined.

Inductive QueryResult (R : Type) : Type :=
| QueryFresh (r : R)
| StalePeersDetected (stale_peers : list NodeId) (r : R).
Arguments QueryFresh {R}.
Arguments StalePeersDetected {R}.

(** [ShardCore<S, V>]; [M] is the view map. *)
Record ShardCore (S M : Type) : Type := mkShard {
  sh_node_id : NodeId;
  sh_state : StateObject S;
  sh_views : M
}.
Arguments mkShard {S M}.
Arguments sh_node_id {S M}.
Arguments sh_state {S M}.
Arguments sh_views {S M}.

(** [ShardCore::should_accept]. *)
Definition should_accept (incoming local : Generation) : bool :=
  generation_ltb local incoming.

(** [new_state_object]. *)
Definition new_state_object {S C} `{Clock C} (value : S) (incarnation : Z) (clk : C) :
    StateObject S :=
  mkStateObject (generation_new incarnation 0) 0 value (unix_ms clk) (unix_ms clk).

(** [generation.age += 1; modified_time = clock.unix_ms()] on a state whose value
    the mutation has replaced. *)
Definition bump_state {S C} `{Clock C} (st : StateObject S) (value : S) (clk : C) :
    StateObject S :=
  mkStateObject
    (mkGeneration (incarnation (so_generation st)) (u64_add (age (so_generation st)) 1))
    (so_storage_version st) value (so_created_time st) (unix_ms clk).

(** [.filter(|p| generation < *p)]: keep a pending generation the update has not
    caught up with. *)
Definition pending_after (generation : Generation) (pending : option Generation) :
    option Generation :=
  p ← pending; if generation_ltb generation p then Some p else None.
Arguments pending_after : simpl never.

Section ShardCore.
Context `{HashIter} {S V M C : Type} `{ViewMapOps V M} `{Clock C}.
Implicit Types (sh : ShardCore S M) (clk : C).

(** The entry of the local node as [new] and [update_own_view] build it. *)
Definition own_view_object (node_id : NodeId) (st : StateObject S) (view : V) (t : Instant) :
    StateViewObject V :=
  mkStateViewObject (so_generation st) (so_storage_version st) view
    (so_created_time st) (so_modified_time st) t None node_id.

(** [ShardCore::new]. *)
Definition shard_new (node_id : NodeId) (st : StateObject S) (initial_view : V) clk :
    ShardCore S M :=
  let initial_vo := own_view_object node_id st initial_view (now clk) in
  mkShard node_id st (vm_new node_id initial_vo).

(** [get_view], [snapshot], [view_count]. *)
Definition get_view sh (id : NodeId) : option (StateViewObject V) := vm_get (sh_views sh) id.
Definition snapshot sh : gmap NodeId (StateViewObject V) := vm_snapshot (sh_views sh).
Definition view_count sh : nat := vm_len (sh_views sh).

(** [update_own_view]. *)
Definition update_own_view sh (view : V) clk : ShardCore S M :=
  mkShard (sh_node_id sh) (sh_state sh)
    (vm_update (sh_views sh) (sh_node_id sh)
      (own_view_object (sh_node_id sh) (sh_state sh) view (now clk))).1.

Definition set_state sh (st : StateObject S) : ShardCore S M :=
  mkShard (sh_node_id sh) st (sh_views sh).

(** *** Mutations in one step *)

Definition apply_mutation sh (mutate_fn : S → S) (project_fn : S → V) clk :
    ShardCore S M * MutationOutcome V :=
  let sh := set_state sh (bump_state (sh_state sh) (mutate_fn (so_value (sh_state sh))) clk) in
  let view := project_fn (so_value (sh_state sh)) in
  let sh := update_own_view sh view clk in
  (sh, mkMutationOutcome (so_generation (sh_state sh)) view).

Definition apply_mutation_with_delta {DC VD} sh (mutate_fn : S → S * DC)
    (project_view_fn : S → V) (project_delta_fn : DC → VD) clk :
    ShardCore S M * DeltaMutationOutcome V VD :=
  let '(value, delta_change) := mutate_fn (so_value (sh_state sh)) in
  let sh := set_state sh (bump_state (sh_state sh) value clk) in
  let view := project_view_fn (so_value (sh_state sh)) in
  let view_delta := project_delta_fn delta_change in
  let sh := update_own_view sh view clk in
  (sh, mkDeltaMutationOutcome (so_generation (sh_state sh)) view view_delta).

(** *** Mutations in two phases *)

Definition prepare_mutation sh (mutate_fn : S → S) (project_fn : S → V) clk :
    PreparedMutation S V :=
  let new_state := bump_state (sh_state sh) (mutate_fn (so_value (sh_state sh))) clk in
  mkPreparedMutation (so_generation (sh_state sh)) new_state
    (project_fn (so_value new_state)).

(** [assert_eq!] on the base generation. *)
Definition commit_mutation sh (prepared : PreparedMutation S V) clk :
    outcome (ShardCore S M * MutationOutcome V) :=
  if bool_decide (pm_base_generation prepared = so_generation (sh_state sh)) then
    let sh := set_state sh (pm_new_state prepared) in
    let sh := update_own_view sh (pm_view prepared) clk in
    Done (sh, mkMutationOutcome (so_generation (sh_state sh)) (pm_view prepared))
  else Panicked "commit_mutation: another mutation was committed in between".

Definition prepare_mutation_with_delta {DC VD} sh (mutate_fn : S → S * DC)
    (project_view_fn : S → V) (project_delta_fn : DC → VD) clk :
    PreparedDeltaMutation S V VD :=
  let '(value, delta_change) := mutate_fn (so_value (sh_state sh)) in
  let new_state := bump_state (sh_state sh) value clk in
  mkPreparedDeltaMutation (so_generation (sh_state sh)) new_state
    (project_view_fn (so_value new_state)) (project_delta_fn delta_change).

Definition commit_delta_mutation {VD} sh (prepared : PreparedDeltaMutation S V VD) clk :
    outcome (ShardCore S M * DeltaMutationOutcome V VD) :=
  if bool_decide (pdm_base_generation prepared = so_generation (sh_state sh)) then
    let sh := set_state sh (pdm_new_state prepared) in
    let sh := update_own_view sh (pdm_view prepared) clk in
    Done (sh, mkDeltaMutationOutcome (so_generation (sh_state sh)) (pdm_view prepared)
      (pdm_view_delta prepared))
  else Panicked "commit_delta_mutation: base generation mismatch".

(** *** Inbound updates *)

Definition set_views sh (m : M) : ShardCore S M :=
  mkShard (sh_node_id sh) (sh_state sh) m.

(** The closure [accept_inbound_snapshot] passes to [update_if]. *)
Definition snapshot_update (snap : InboundSnapshot V) (t : Instant)
    (existing : option (StateViewObject V)) : option (StateViewObject V) :=
  let accept := match existing with
                | Some e => should_accept (snap_generation snap) (vo_generation e)
                | None => true
                end in
  if negb accept then None
  else
    let pending := pending_after (snap_generation snap)
                     (existing ≫= vo_pending_remote_generation) in
    Some (mkStateViewObject (snap_generation snap) (snap_wire_version snap) (snap_view snap)
      (snap_created_time snap) (snap_modified_time snap) t pending (snap_source snap)).

Definition accept_inbound_snapshot sh (snap : InboundSnapshot V) clk :
    ShardCore S M * AcceptResult :=
  let '(m, accepted) :=
    vm_update_if (sh_views sh) (snap_source snap) (snapshot_update snap (now clk)) in
  (set_views sh m, if accepted : bool then Accepted else Discarded).

Definition accept_inbound_delta sh (source : NodeId) (generation : Generation)
    (wire_version : Z) (apply_fn : V → V) clk : ShardCore S M * DeltaAcceptResult :=
  match vm_get (sh_views sh) source with
  | None => (sh, UnknownPeer)
  | Some existing =>
      let local := vo_generation existing in
      if incarnation generation <? incarnation local then (sh, DeltaDiscarded)
      else if incarnation local <? incarnation generation
      then (sh, GapDetected local generation)
      else if negb (age generation =? u64_add (age local) 1) then
        if age generation <=? age local then (sh, DeltaDiscarded)
        else (sh, GapDetected local generation)
      else
        let new_view := apply_fn (vo_value existing) in
        let pending := pending_after generation (vo_pending_remote_generation existing) in
        (set_views sh
           (vm_update (sh_views sh) source
              (mkStateViewObject generation wire_version new_view (vo_created_time existing)
                 (unix_ms clk) (now clk) pending source)).1,
         DeltaApplied)
  end.

(** *** Staleness *)

Definition stale_peers sh (max_staleness : Duration) clk : list NodeId :=
  vm_stale_peers (sh_views sh) (sh_node_id sh) max_staleness (now clk).

Definition mark_stale sh (source : NodeId) (incarnation age : Z) : ShardCore S M :=
  let incoming := generation_new incarnation age in
  set_views sh
    (vm_update_if (sh_views sh) source (λ existing,
       e ← existing;
       if generation_leb incoming (vo_generation e) then None
       else Some (set_pending e (Some incoming)))).1.

(** *** Cluster events *)

Definition placeholder_view (node_id : NodeId) (default_view : V) (t : Instant) :
    StateViewObject V :=
  mkStateViewObject generation_zero 0 default_view 0 0 t
    (Some (generation_new 1 0)) node_id.

Definition shard_on_node_joined sh (node_id : NodeId) (default_view : V) clk : ShardCore S M :=
  if bool_decide (node_id = sh_node_id sh) then sh
  else set_views sh
    (vm_insert_node (sh_views sh) node_id (placeholder_view node_id default_view (now clk))).1.

Definition shard_on_node_left sh (node_id : NodeId) : ShardCore S M :=
  if bool_decide (node_id = sh_node_id sh) then sh
  else set_views sh (vm_remove_node (sh_views sh) node_id).1.

(** *** Queries *)

Definition query_local {R} sh (max_staleness : Duration)
    (project : gmap NodeId (StateViewObject V) → R) clk : QueryResult R :=
  let snap := vm_snapshot (sh_views sh) in
  let stale := keys_where (stale_peer (sh_node_id sh) (now clk) max_staleness) snap in
  let result := project snap in
  if bool_decide (stale = []) then QueryFresh result
  else StalePeersDetected stale result.

(** The entry of a node, as the theorems read it. *)
Definition entry sh (id : NodeId) : option (StateViewObject V) :=
  vm_contents (sh_views sh) !! id.
End ShardCore.

(** ** What the operations do to the contents of the view map *)
Section Contents.
Context `{HashIter} {S V M C : Type} `{!ViewMapOps V M} `{!ViewMapLaws V M} `{Clock C}.
Implicit Types (sh : ShardCore S M) (clk : C).

Definition contents sh : gmap NodeId (StateViewObject V) := vm_contents (sh_views sh).
Definition shard_wf sh : Prop := vm_wf (sh_views sh).

Lemma shard_new_contents id st v clk :
  shard_wf (shard_new id st v clk) ∧
  contents (shard_new id st v clk) = {[id := own_view_object id st v (now clk)]}.
Proof. apply new_spec. Qed.

Lemma get_view_contents sh id : shard_wf sh → get_view sh id = contents sh !! id.
Proof. apply get_spec. Qed.

Lemma update_own_view_contents sh v clk :
  shard_wf sh → is_Some (contents sh !! sh_node_id sh) →
  contents (update_own_view sh v clk) =
    <[sh_node_id sh := own_view_object (sh_node_id sh) (sh_state sh) v (now clk)]>
      (contents sh).
Proof. apply update_contents. Qed.

Lemma accept_snapshot_contents sh snap clk :
  shard_wf sh →
  contents (accept_inbound_snapshot sh snap clk).1 =
    match snapshot_update snap (now clk) (contents sh !! snap_source snap) with
    | Some v => <[snap_source snap := v]> (contents sh)
    | None => contents sh
    end ∧
  ((accept_inbound_snapshot sh snap clk).2 = Accepted ↔
   is_Some (snapshot_update snap (now clk) (contents sh !! snap_source snap))).
Proof.
  intros Hwf. unfold accept_inbound_snapshot.
  destruct (update_if_contents (sh_views sh) (snap_source snap)
    (snapshot_update snap (now clk)) Hwf) as [Hc Hb].
  destruct (vm_update_if _ _ _) as [m b]; simpl in *. unfold contents; simpl.
  rewrite Hc, Hb. split; [done|]. case_bool_decide; naive_solver.
Qed.

Lemma mark_stale_contents sh src i a :
  shard_wf sh →
  contents (mark_stale sh src i a) =
    match contents sh !! src with
    | Some e =>
        if generation_leb (generation_new i a) (vo_generation e) then contents sh
        else <[src := set_pending e (Some (generation_new i a))]> (contents sh)
    | None => contents sh
    end.
Proof.
  intros Hwf. unfold mark_stale, contents; simpl.
  destruct (update_if_contents (sh_views sh) src (λ existing,
    e ← existing; if generation_leb (generation_new i a) (vo_generation e) then None
       else Some (set_pending e (Some (generation_new i a)))) Hwf) as [-> _].
  destruct (vm_contents (sh_views sh) !! src); simpl; [|done].
  by destruct (generation_leb _ _).
Qed.

Lemma node_joined_contents sh id v clk :
  shard_wf sh →
  contents (shard_on_node_joined sh id v clk) =
    if bool_decide (id = sh_node_id sh) then contents sh
    else match contents sh !! id with
         | Some _ => contents sh
         | None => <[id := placeholder_view id v (now clk)]> (contents sh)
         end.
Proof.
  intros Hwf. unfold shard_on_node_joined. case_bool_decide; [done|].
  unfold contents; simpl. by rewrite insert_node_contents.
Qed.

Lemma node_left_contents sh id :
  shard_wf sh →
  contents (shard_on_node_left sh id) =
    if bool_decide (id = sh_node_id sh) then contents sh else delete id (contents sh).
Proof.
  intros Hwf. unfold shard_on_node_left. case_bool_decide; [done|].
  unfold contents; simpl. by rewrite remove_node_contents.
Qed.

(** *** No operation breaks the representation, renames the node or, but for
    mutations, touches the state. *)
Lemma update_own_view_frame sh v clk :
  (shard_wf sh → shard_wf (update_own_view sh v clk)) ∧
  sh_node_id (update_own_view sh v clk) = sh_node_id sh ∧
  sh_state (update_own_view sh v clk) = sh_state sh.
Proof. unfold shard_wf. simpl. eauto with dstate. Qed.

Lemma accept_snapshot_frame sh snap clk :
  (shard_wf sh → shard_wf (accept_inbound_snapshot sh snap clk).1) ∧
  sh_node_id (accept_inbound_snapshot sh snap clk).1 = sh_node_id sh ∧
  sh_state (accept_inbound_snapshot sh snap clk).1 = sh_state sh.
Proof.
  unfold shard_wf, accept_inbound_snapshot. split; [|by case_match].
  intros Hwf. apply (update_if_wf _ (snap_source snap) (snapshot_update snap (now clk))) in Hwf.
  by destruct (vm_update_if _ _ _).
Qed.

Lemma accept_delta_frame sh src g w f clk :
  (shard_wf sh → shard_wf (accept_inbound_delta sh src g w f clk).1) ∧
  sh_node_id (accept_inbound_delta sh src g w f clk).1 = sh_node_id sh ∧
  sh_state (accept_inbound_delta sh src g w f clk).1 = sh_state sh.
Proof.
  unfold accept_inbound_delta, shard_wf. split_and!; repeat case_match; simpl;
    eauto with dstate.
Qed.

Lemma mark_stale_frame sh src i a :
  (shard_wf sh → shard_wf (mark_stale sh src i a)) ∧
  sh_node_id (mark_stale sh src i a) = sh_node_id sh ∧
  sh_state (mark_stale sh src i a) = sh_state sh.
Proof. unfold shard_wf. simpl. eauto with dstate. Qed.

Lemma node_joined_frame sh id v clk :
  (shard_wf sh → shard_wf (shard_on_node_joined sh id v clk)) ∧
  sh_node_id (shard_on_node_joined sh id v clk) = sh_node_id sh ∧
  sh_state (shard_on_node_joined sh id v clk) = sh_state sh.
Proof. unfold shard_on_node_joined, shard_wf. case_match; simpl; eauto with dstate. Qed.

Lemma node_left_frame sh id :
  (shard_wf sh → shard_wf (shard_on_node_left sh id)) ∧
  sh_node_id (shard_on_node_left sh id) = sh_node_id sh ∧
  sh_state (shard_on_node_left sh id) = sh_state sh.
Proof. unfold shard_on_node_left, shard_wf. case_match; simpl; eauto with dstate. Qed.
End Contents.

(** ** The invariant of a shard *)
Section Invariant.
Context `{HashIter} {S V M C : Type} `{!ViewMapOps V M} `{!ViewMapLaws V M} `{Clock C}.
Context (project : S → V).
Implicit Types (sh : ShardCore S M) (clk : C).

(** The node's own entry is the projection of its state, under the state's
    generation and never pending; every entry is filed under its owner. *)
Definition shard_inv sh : Prop :=
  shard_wf sh ∧
  (∃ t, contents sh !! sh_node_id sh =
     Some (own_view_object (sh_node_id sh) (sh_state sh) (project (so_value (sh_state sh))) t)) ∧
  (∀ id vo, contents sh !! id = Some vo → vo_source_node vo = id).

(** The operations of a shard whose host projects with [project] and delivers
    only messages of other nodes.  The code enforces neither: the host passes the
    projection to each mutation, and nothing rejects a snapshot that names the node itself
    (engine.rs, line 715).  [ShardProps.shard_call] has the calls without these limits. *)
Inductive shard_step sh : ShardCore S M → Prop :=
| step_mutate f clk : shard_step sh (apply_mutation sh f project clk).1
| step_mutate_delta {DC VD} (f : S → S * DC) (pd : DC → VD) clk :
    shard_step sh (apply_mutation_with_delta sh f project pd clk).1
| step_commit sh0 f clk0 clk sh' out :
    commit_mutation sh (prepare_mutation sh0 f project clk0) clk = Done (sh', out) →
    shard_step sh sh'
| step_commit_delta {DC VD} sh0 (f : S → S * DC) (pd : DC → VD) clk0 clk sh' out :
    commit_delta_mutation sh (prepare_mutation_with_delta sh0 f project pd clk0) clk
      = Done (sh', out) →
    shard_step sh sh'
| step_snapshot snap clk :
    snap_source snap ≠ sh_node_id sh → shard_step sh (accept_inbound_snapshot sh snap clk).1
| step_delta src g w f clk :
    src ≠ sh_node_id sh → shard_step sh (accept_inbound_delta sh src g w f clk).1
| step_mark_stale src i a :
    src ≠ sh_node_id sh → shard_step sh (mark_stale sh src i a)
| step_join id v clk : shard_step sh (shard_on_node_joined sh id v clk)
| step_leave id : shard_step sh (shard_on_node_left sh id).

Lemma shard_new_inv id st clk : shard_inv (shard_new id st (project (so_value st)) clk).
Proof.
  destruct (shard_new_contents (S:=S) (M:=M) id st (project (so_value st)) clk) as [Hwf Hc].
  split_and!; [done|..]; rewrite Hc; simpl.
  - eexists. apply lookup_singleton_eq.
  - intros k vo [<- <-]%lookup_singleton_Some. done.
Qed.

(** Committing a state together with its projection re-establishes the
    invariant. *)
Lemma commit_inv sh st v clk :
  shard_inv sh → v = project (so_value st) →
  shard_inv (update_own_view (set_state sh st) v clk).
Proof.
  intros (Hwf & [t Hown] & Hsrc) ->.
  assert (is_Some (contents (set_state sh st) !! sh_node_id sh)) as Hsome by (eexists; done).
  split_and!; [by apply update_own_view_frame|..];
    rewrite update_own_view_contents by done; simpl.
  - eexists. apply lookup_insert_eq.
  - intros k vo [[<- <-]|[_ Hk]]%lookup_insert_Some; [done|]. by apply Hsrc.
Qed.

(** Changing the entry of another node keeps the invariant. *)
Lemma peer_update_inv sh m src vo :
  shard_inv sh → vm_wf m → src ≠ sh_node_id sh → vo_source_node vo = src →
  vm_contents m = <[src := vo]> (contents sh) → shard_inv (set_views sh m).
Proof.
  intros (Hwf & [t Hown] & Hsrc) Hm Hne Hvo Hc.
  split_and!; [done|..]; unfold contents; simpl; rewrite Hc.
  - exists t. by rewrite lookup_insert_ne.
  - intros k vo' [[<- <-]|[_ Hk]]%lookup_insert_Some; [done|]. by apply Hsrc.
Qed.

Lemma accept_snapshot_inv sh snap clk :
  shard_inv sh → snap_source snap ≠ sh_node_id sh →
  shard_inv (accept_inbound_snapshot sh snap clk).1.
Proof.
  intros Hinv Hne. pose proof Hinv as (Hwf & [t Hown] & Hsrc).
  destruct (accept_snapshot_frame (S:=S) sh snap clk) as (Hwf' & Hid & Hst).
  destruct (accept_snapshot_contents sh snap clk Hwf) as [Hc _].
  destruct (snapshot_update _ _ _) as [vo|] eqn:Hu.
  - assert (vo_source_node vo = snap_source snap) as Hvo.
    { unfold snapshot_update in Hu. repeat case_match; by simplify_eq/=. }
    split_and!; [by apply Hwf'|..]; rewrite Hc.
    + rewrite Hid, Hst. exists t. by rewrite lookup_insert_ne.
    + intros k vo' [[<- <-]|[_ Hk]]%lookup_insert_Some; [done|]. by apply Hsrc.
  - split_and!; [by apply Hwf'|..]; rewrite Hc; [|done]. rewrite Hid, Hst. eauto.
Qed.

Lemma accept_delta_inv sh src g w f clk :
  shard_inv sh → src ≠ sh_node_id sh →
  shard_inv (accept_inbound_delta sh src g w f clk).1.
Proof.
  intros Hinv Hne. pose proof Hinv as (Hwf & _ & _). unfold accept_inbound_delta.
  rewrite get_spec by done. destruct (vm_contents (sh_views sh) !! src) eqn:He; [|done].
  repeat case_match; try done. simpl.
  eapply (peer_update_inv _ _ src); [done|by apply update_wf|done| |].
  2: by apply update_contents; eauto.
  done.
Qed.

Lemma mark_stale_inv sh src i a :
  shard_inv sh → src ≠ sh_node_id sh → shard_inv (mark_stale sh src i a).
Proof.
  intros Hinv Hne. pose proof Hinv as (Hwf & [t Hown] & Hsrc).
  pose proof (mark_stale_contents sh src i a Hwf) as Hc.
  destruct (mark_stale_frame (S:=S) sh src i a) as (Hwf' & Hid & Hst).
  split_and!; [by apply Hwf'|..]; rewrite Hc, ?Hid, ?Hst.
  - exists t. repeat case_match; try done. by rewrite lookup_insert_ne.
  - intros k vo. destruct (contents sh !! src) as [e|] eqn:He; [|by apply Hsrc].
    case_match; [by apply Hsrc|].
    intros [[<- <-]|[_ Hk]]%lookup_insert_Some; simpl; by apply Hsrc.
Qed.

Lemma node_joined_inv sh id v clk :
  shard_inv sh → shard_inv (shard_on_node_joined sh id v clk).
Proof.
  intros (Hwf & [t Hown] & Hsrc).
  destruct (node_joined_frame (S:=S) sh id v clk) as (Hwf' & Hid & Hst).
  split_and!; [by apply Hwf'|..]; rewrite node_joined_contents, ?Hid, ?Hst by done;
    case_bool_decide; eauto.
  - exists t. case_match; [done|]. by rewrite lookup_insert_ne.
  - case_match; [done|]. intros k vo [[<- <-]|[_ Hk]]%lookup_insert_Some; [done|].
    by apply Hsrc.
Qed.

Lemma node_left_inv sh id : shard_inv sh → shard_inv (shard_on_node_left sh id).
Proof.
  intros (Hwf & [t Hown] & Hsrc).
  destruct (node_left_frame (S:=S) sh id) as (Hwf' & Hid & Hst).
  split_and!; [by apply Hwf'|..]; rewrite node_left_contents, ?Hid, ?Hst by done;
    case_bool_decide; eauto.
  - exists t. by rewrite lookup_delete_ne.
  - intros k vo [_ Hk]%lookup_delete_Some. by apply Hsrc.
Qed.

Lemma shard_step_inv sh sh' : shard_inv sh → shard_step sh sh' → shard_inv sh'.
Proof.
  intros Hinv [f clk|DC VD f pd clk|sh0 f clk0 clk ?? Hc|DC VD sh0 f pd clk0 clk ?? Hc
    |snap clk|src g w f clk|src i a|id v clk|id].
  - by apply commit_inv.
  - unfold apply_mutation_with_delta. destruct (f _). by apply commit_inv.
  - unfold commit_mutation in Hc. case_bool_decide; simplify_eq. by apply commit_inv.
  - unfold commit_delta_mutation, prepare_mutation_with_delta in Hc.
    destruct (f _). case_bool_decide; simplify_eq. by apply commit_inv.
  - by apply accept_snapshot_inv.
  - by apply accept_delta_inv.
  - by apply mark_stale_inv.
  - by apply node_joined_inv.
  - by apply node_left_inv.
Qed.
End Invariant.
#[export] Hint Resolve accept_snapshot_inv accept_delta_inv mark_stale_inv node_joined_inv
  node_left_inv : dstate.
