(* ===== verification/ShardProps.v ===== *)
(** Theorems about the shard: its invariant over all reachable states, the two
    phases of a mutation, acceptance of snapshots and deltas, order-insensitive
    convergence, monotone generations, staleness and queries. *)
From stdpp Require Import prelude gmap fin_maps pretty strings relations.
From S2P Require Import Prelude Node Clock Types ViewMap ShardCore.

(** ** Reachable shards *)
Section Reachable.
Context `{HashIter} {S V M C : Type} `{!ViewMapOps V M} `{!ViewMapLaws V M} `{Clock C}.
Context (project : S → V).
Implicit Types (sh : ShardCore S M) (clk : C).

Lemma shard_step_node_id sh sh' :
  shard_step project sh sh' → sh_node_id sh' = sh_node_id sh.
Proof.
  intros [f clk|DC VD f pd clk|sh0 f clk0 clk ?? Hc|DC VD sh0 f pd clk0 clk ?? Hc
    |snap clk|src g w f clk|src i a|id v clk|id]; try done.
  - unfold apply_mutation_with_delta. by destruct (f _).
  - unfold commit_mutation in Hc. by case_bool_decide; simplify_eq.
  - unfold commit_delta_mutation in Hc. by case_bool_decide; simplify_eq.
  - by apply accept_snapshot_frame.
  - by apply accept_delta_frame.
  - by apply node_joined_frame.
  - by apply node_left_frame.
Qed.

Lemma shard_reachable sh sh' :
  rtc (shard_step project) sh sh' → shard_inv project sh →
  shard_inv project sh' ∧ sh_node_id sh' = sh_node_id sh.
Proof.
  induction 1 as [|sh1 sh2 sh3 Hstep _ IH]; intros Hinv; [done|].
  destruct IH as [? ->]; [by eapply shard_step_inv|]. split; [done|].
  by apply shard_step_node_id.
Qed.
End Reachable.

(** ** Two-phase mutations *)
Section TwoPhase.
Context `{HashIter} {S V M C : Type} `{ViewMapOps V M} `{Clock C}.
Implicit Types (sh : ShardCore S M) (clk : C).

(** A run of one-step mutations, each at its own time. *)
Definition apply_mutations (project : S → V) sh (ms : list ((S → S) * C)) : ShardCore S M :=
  foldl (λ sh m, (apply_mutation sh m.1 project m.2).1) sh ms.

Lemma apply_mutations_generation project ms : ∀ sh,
  is_u64 (age (so_generation (sh_state sh))) →
  so_generation (sh_state (apply_mutations project sh ms)) =
    mkGeneration (incarnation (so_generation (sh_state sh)))
      (wrap64 (age (so_generation (sh_state sh)) + Z.of_nat (length ms))).
Proof.
  induction ms as [|m ms IH]; intros sh Hu; simpl.
  - rewrite Z.add_0_r, wrap64_small by done. by destruct (so_generation _).
  - fold (apply_mutations project). rewrite IH by apply u64_add_range. simpl. f_equal.
    unfold u64_add, wrap64. rewrite Zplus_mod_idemp_l. f_equal. lia.
Qed.
End TwoPhase.

(** [C26] Preparing a mutation and committing it is the one-step mutation, for the
    plain and the delta-aware variant; and once other mutations were committed in
    between (fewer than 2^64 of them) the commit panics and nothing is lost. *)
Theorem two_phase_mutation `{HashIter} {S V M C DC VD} `{ViewMapOps V M} `{Clock C}
    (sh : ShardCore S M) (f : S → S) (fd : S → S * DC) (project : S → V) (pd : DC → VD)
    (clk : C) :
  commit_mutation sh (prepare_mutation sh f project clk) clk =
    Done (apply_mutation sh f project clk) ∧
  commit_delta_mutation sh (prepare_mutation_with_delta sh fd project pd clk) clk =
    Done (apply_mutation_with_delta sh fd project pd clk) ∧
  (∀ ms, is_u64 (age (so_generation (sh_state sh))) →
     0 < Z.of_nat (length ms) < u64_modulus →
     (∃ msg, commit_mutation (apply_mutations project sh ms)
               (prepare_mutation sh f project clk) clk = Panicked msg) ∧
     (∃ msg, commit_delta_mutation (apply_mutations project sh ms)
               (prepare_mutation_with_delta sh fd project pd clk) clk = Panicked msg)).
Proof.
  split_and!.
  - unfold commit_mutation, prepare_mutation; simpl. by rewrite bool_decide_eq_true_2.
  - unfold commit_delta_mutation, prepare_mutation_with_delta, apply_mutation_with_delta.
    destruct (fd _); simpl. by rewrite bool_decide_eq_true_2.
  - intros ms Hu Hlen.
    assert (so_generation (sh_state sh) ≠ so_generation (sh_state (apply_mutations project sh ms)))
      as Hne.
    { rewrite apply_mutations_generation by done. intros Heq%(f_equal age).
      simpl in Heq. revert Heq Hu Hlen. width_lia. }
    unfold commit_mutation, commit_delta_mutation, prepare_mutation_with_delta.
    destruct (fd _); simpl. rewrite !bool_decide_eq_false_2 by done. eauto.
Qed.

(** ** Acceptance of snapshots *)
Section Snapshots.
Context `{HashIter} {S V M C : Type} `{!ViewMapOps V M} `{!ViewMapLaws V M} `{Clock C}.
Implicit Types (sh : ShardCore S M) (clk : C) (s : InboundSnapshot V).

Lemma snapshot_update_Some s t e :
  is_Some (snapshot_update s t e) ↔
  (∀ vo, e = Some vo → vo_generation vo <g snap_generation s).
Proof.
  unfold snapshot_update, should_accept. destruct e as [vo|]; simpl; [|naive_solver].
  destruct (generation_ltb _ _) eqn:E; simpl; gen_norm.
  - split; [naive_solver|eauto].
  - split; [by intros [? ?]|]. intros Hv. specialize (Hv vo eq_refl). gen_lia.
Qed.

(** What an accepted snapshot leaves in the map. *)
Definition snapshot_entry s (t : Instant) (pending : option Generation) : StateViewObject V :=
  mkStateViewObject (snap_generation s) (snap_wire_version s) (snap_view s)
    (snap_created_time s) (snap_modified_time s) t
    (pending_after (snap_generation s) pending) (snap_source s).

Lemma snapshot_update_eq s t e :
  (∀ vo, e = Some vo → vo_generation vo <g snap_generation s) →
  snapshot_update s t e = Some (snapshot_entry s t (e ≫= vo_pending_remote_generation)).
Proof.
  intros Hv. unfold snapshot_update, should_accept.
  destruct e as [vo|]; simpl; [|done].
  by rewrite (proj2 (generation_ltb_lt _ _) (Hv vo eq_refl)).
Qed.

Lemma pending_after_spec g p q :
  pending_after g p = Some q ↔ p = Some q ∧ g <g q.
Proof.
  destruct p as [p|]; [|by split; [|intros [??]]]. unfold pending_after; simpl.
  destruct (generation_ltb g p) eqn:E; gen_norm; split; intros; destruct_and?; simplify_eq.
  - done.
  - done.
  - gen_lia.
Qed.

Lemma pending_after_twice g h p :
  g ≤g h → pending_after h (pending_after g p) = pending_after h p.
Proof.
  intros Hgh. apply option_eq. intros q. rewrite !pending_after_spec.
  split; [naive_solver|]. intros [-> ?]. split_and!; try done. gen_lia.
Qed.
End Snapshots.

(** A snapshot is accepted exactly when the peer has no entry or an older
    one; it then replaces the peer's entry, keeping an announced generation only
    while it is still ahead, and leaves every other entry; a discarded snapshot
    changes nothing. *)
Theorem accept_inbound_snapshot_spec `{HashIter} {S V M C} `{!ViewMapOps V M} `{!ViewMapLaws V M} `{Clock C}
    (sh sh' : ShardCore S M) (snap : InboundSnapshot V) (clk : C) (r : AcceptResult) :
  shard_wf sh → accept_inbound_snapshot sh snap clk = (sh', r) →
  let e := get_view sh (snap_source snap) in
  sh_state sh' = sh_state sh ∧
  (r = Accepted ↔ ∀ vo, e = Some vo → vo_generation vo <g snap_generation snap) ∧
  (r = Accepted → contents sh' =
     <[snap_source snap :=
         snapshot_entry snap (now clk) (e ≫= vo_pending_remote_generation)]> (contents sh)) ∧
  (r = Discarded → contents sh' = contents sh).
Proof.
  intros Hwf Hacc e. pose proof (accept_snapshot_contents sh snap clk Hwf) as [Hc Hr].
  pose proof (accept_snapshot_frame (S:=S) sh snap clk) as (_ & _ & Hst).
  rewrite Hacc in *; simpl in *.
  unfold e. rewrite get_view_contents by done. split; [done|]. split; [|split].
  - rewrite Hr. apply snapshot_update_Some.
  - intros Hok. apply Hr in Hok. rewrite Hc.
    rewrite snapshot_update_eq; [done|]. exact (proj1 (snapshot_update_Some _ _ _) Hok).
  - intros ->. rewrite Hc. destruct (snapshot_update _ _ _); [|done].
    destruct Hr as [_ Hr]. by discriminate Hr.
Qed.

(** ** Delivery order does not matter *)
Section Convergence.
Context `{HashIter} {S V M C : Type} `{!ViewMapOps V M} `{!ViewMapLaws V M} `{Clock C}.
Implicit Types (sh : ShardCore S M) (clk : C) (s : InboundSnapshot V).

(** Delivers snapshots one after the other, each at its own time. *)
Definition deliver_snapshots sh (l : list (InboundSnapshot V * C)) : ShardCore S M :=
  foldl (λ sh p, (accept_inbound_snapshot sh p.1 p.2).1) sh l.

(** A view without the local time of its synchronisation. *)
Definition timeless (vo : StateViewObject V) : StateViewObject V :=
  mkStateViewObject (vo_generation vo) (vo_wire_version vo) (vo_value vo)
    (vo_created_time vo) (vo_modified_time vo) 0
    (vo_pending_remote_generation vo) (vo_source_node vo).

(** [e] is where the entry [e0] of [id] ends after the snapshots [l]: at least
    as new as each of them, and [e0] itself or the entry of one of them. *)
Definition settled_from (id : NodeId) (e0 e : option (StateViewObject V))
    (l : list (InboundSnapshot V)) : Prop :=
  (∀ s, s ∈ l → snap_source s = id →
     ∃ vo, e = Some vo ∧ snap_generation s ≤g vo_generation vo) ∧
  (e = e0 ∨
   ∃ s, s ∈ l ∧ snap_source s = id ∧
     (∀ vo0, e0 = Some vo0 → vo_generation vo0 <g snap_generation s) ∧
     timeless <$> e =
       Some (timeless (snapshot_entry s 0 (e0 ≫= vo_pending_remote_generation)))).

Lemma deliver_wf l : ∀ sh, shard_wf sh → shard_wf (deliver_snapshots sh l).
Proof.
  induction l as [|p l IH]; intros sh Hwf; [done|]. apply IH.
  by apply accept_snapshot_frame.
Qed.

Lemma settled_skip id e0 e s l :
  settled_from id e0 e l → snap_source s ≠ id → settled_from id e0 e (s :: l).
Proof.
  intros [Hge Hfrom] Hne. split.
  - intros s' [->|Hin]%elem_of_cons Hs'; [done|eauto].
  - destruct Hfrom as [->|(s' & ? & ? & ? & ?)]; [by left|right].
    exists s'. split; [by right|done].
Qed.

Lemma settled_stale id e0 e s l vo0 :
  settled_from id e0 e l → e0 = Some vo0 → snap_generation s ≤g vo_generation vo0 →
  settled_from id e0 e (s :: l).
Proof.
  intros [Hge Hfrom] -> Hle. split.
  - intros s' [->|Hin]%elem_of_cons Hs'; [|eauto].
    destruct Hfrom as [->|(s' & Hin & Hsrc & Hlt & _)]; [by eauto|].
    destruct (Hge s' Hin Hsrc) as (vo & -> & ?). exists vo. split; [done|].
    specialize (Hlt _ eq_refl). gen_lia.
  - destruct Hfrom as [->|(s' & ? & ? & ? & ?)]; [by left|right].
    exists s'. split; [by right|done].
Qed.

Lemma settled_fresh id e0 e1 e s l :
  (∀ vo, e0 = Some vo → vo_generation vo <g snap_generation s) →
  snap_source s = id →
  timeless <$> e1 = Some (timeless (snapshot_entry s 0 (e0 ≫= vo_pending_remote_generation))) →
  settled_from id e1 e l → settled_from id e0 e (s :: l).
Proof.
  intros Hlt Hsrc He1 [Hge Hfrom]. destruct e1 as [vo1|]; [|done].
  simpl in He1. injection He1 as Hg Hw Hv Hc Hm Hp Hn.
  split.
  - intros s' [->|Hin]%elem_of_cons Hs'; [|eauto].
    destruct Hfrom as [->|(s' & Hin & Hsrc' & Hlt' & _)].
    + exists vo1. split; [done|]. gen_lia.
    + destruct (Hge s' Hin Hsrc') as (vo & -> & ?). exists vo. split; [done|].
      specialize (Hlt' _ eq_refl). rewrite Hg in Hlt'. gen_lia.
  - right. destruct Hfrom as [->|(s' & Hin & Hsrc' & Hlt' & Heq)].
    + exists s. split_and!; [by left|done|done|]. simpl. unfold timeless; simpl.
      rewrite Hg, Hw, Hv, Hc, Hm, Hp, Hn. done.
    + specialize (Hlt' _ eq_refl). rewrite Hg in Hlt'.
      exists s'. split_and!; [by right|done| |].
      * intros vo0 ->. specialize (Hlt _ eq_refl). gen_lia.
      * rewrite Heq. simpl. unfold timeless, snapshot_entry; simpl. rewrite Hp.
        rewrite pending_after_twice; [done|]. gen_lia.
Qed.

Lemma deliver_settled l id : ∀ sh,
  shard_wf sh →
  settled_from id (contents sh !! id) (contents (deliver_snapshots sh l) !! id) (l.*1).
Proof.
  induction l as [|[s clk] l IH]; intros sh Hwf.
  { split; [set_solver|by left]. }
  change (deliver_snapshots sh ((s, clk) :: l))
    with (deliver_snapshots (accept_inbound_snapshot sh s clk).1 l). simpl.
  destruct (accept_snapshot_contents sh s clk Hwf) as [Hc _].
  assert (shard_wf (accept_inbound_snapshot sh s clk).1) as Hwf'
    by by apply accept_snapshot_frame.
  specialize (IH _ Hwf'). destruct (decide (snap_source s = id)) as [<-|Hne].
  - destruct (snapshot_update _ _ _) as [vo|] eqn:Hu; rewrite Hc in IH.
    + assert (∀ vo0, contents sh !! snap_source s = Some vo0 →
        vo_generation vo0 <g snap_generation s) as Hlt
        by (eapply snapshot_update_Some; eauto).
      rewrite snapshot_update_eq in Hu by done. simplify_eq.
      eapply settled_fresh; [done|done| |done]. by rewrite lookup_insert_eq.
    + destruct (contents sh !! snap_source s) as [vo0|] eqn:He0; [|done].
      eapply settled_stale; [done|done|].
      unfold snapshot_update, should_accept in Hu.
      destruct (generation_ltb _ _) eqn:E; [done|]. by gen_norm.
  - apply settled_skip; [|done]. rewrite Hc in IH.
    destruct (snapshot_update _ _ _); [|done]. by rewrite lookup_insert_ne in IH.
Qed.

(** Snapshots of one generation of one node are the same snapshot. *)
Definition coherent (l : list (InboundSnapshot V)) : Prop :=
  ∀ s1 s2, s1 ∈ l → s2 ∈ l → snap_source s1 = snap_source s2 →
    snap_generation s1 = snap_generation s2 → s1 = s2.

Lemma settled_unique id e0 e1 e2 l1 l2 :
  coherent l1 → (∀ s, s ∈ l1 ↔ s ∈ l2) →
  settled_from id e0 e1 l1 → settled_from id e0 e2 l2 →
  timeless <$> e1 = timeless <$> e2.
Proof.
  intros Hcoh Hsame [Hge1 Hfrom1] [Hge2 Hfrom2].
  assert (∀ la e s, timeless <$> e = Some (timeless (snapshot_entry s 0 la)) →
    ∃ vo, e = Some vo ∧ vo_generation vo = snap_generation s) as Hgen.
  { intros la [vo|] s Heq; [|done]. exists vo. split; [done|].
    by apply (f_equal (fmap (M := option) vo_generation)) in Heq; simplify_eq/=. }
  destruct Hfrom1 as [->|(s1 & Hin1 & Hs1 & Hlt1 & He1)],
    Hfrom2 as [->|(s2 & Hin2 & Hs2 & Hlt2 & He2)]; [done|..].
  - destruct (Hge1 s2 (proj2 (Hsame _) Hin2) Hs2) as (vo & -> & ?).
    specialize (Hlt2 _ eq_refl). exfalso. gen_lia.
  - destruct (Hge2 s1 (proj1 (Hsame _) Hin1) Hs1) as (vo & -> & ?).
    specialize (Hlt1 _ eq_refl). exfalso. gen_lia.
  - assert (s1 = s2) as ->; [|by rewrite He1, He2].
    destruct (Hgen _ _ _ He1) as (vo1 & -> & Hg1).
    destruct (Hgen _ _ _ He2) as (vo2 & -> & Hg2).
    destruct (Hge1 s2 (proj2 (Hsame _) Hin2) Hs2) as (? & [= <-] & ?).
    destruct (Hge2 s1 (proj1 (Hsame _) Hin1) Hs1) as (? & [= <-] & ?).
    apply Hcoh; [done|by apply Hsame|congruence|].
    rewrite Hg1, Hg2 in *. gen_lia.
Qed.
End Convergence.

(** [C19] Convergence: two shards that start alike and receive the same
    snapshots, of any number of peers, in any order and with any duplication, end
    with the same views (up to the local time of the last synchronisation),
    provided a generation of a peer names one snapshot ([coherent]).  Of two different
    snapshots of one generation the first to arrive would stay, and a migration makes such
    a pair ([Durable.migrated_view_is_discarded]). *)
Theorem snapshot_delivery_converges `{HashIter} {S V M C} `{!ViewMapOps V M} `{!ViewMapLaws V M} `{Clock C}
    (sh : ShardCore S M) (l1 l2 : list (InboundSnapshot V * C)) :
  shard_wf sh → coherent l1.*1 → (∀ s, s ∈ l1.*1 ↔ s ∈ l2.*1) →
  timeless <$> contents (deliver_snapshots sh l1) =
  timeless <$> contents (deliver_snapshots sh l2).
Proof.
  intros Hwf Hcoh Hsame. apply map_eq. intros id. rewrite !lookup_fmap.
  eapply settled_unique; [done|done|by apply deliver_settled..].
Qed.

(** ** Acceptance of deltas *)
Section Deltas.
Context `{HashIter} {S V M C : Type} `{!ViewMapOps V M} `{!ViewMapLaws V M} `{Clock C}.
Implicit Types (sh : ShardCore S M) (clk : C).

(** The generation a delta must carry to extend [g]. *)
Definition next_generation (g : Generation) : Generation :=
  mkGeneration (incarnation g) (u64_add (age g) 1).

(** The entry an applied delta leaves. *)
Definition delta_entry (e : StateViewObject V) (g : Generation) (w : Z) (f : V → V) clk :
    StateViewObject V :=
  mkStateViewObject g w (f (vo_value e)) (vo_created_time e) (unix_ms clk) (now clk)
    (pending_after g (vo_pending_remote_generation e)) (vo_source_node e).

Lemma accept_delta_result sh src g w f clk :
  shard_wf sh →
  (accept_inbound_delta sh src g w f clk).2 =
    match contents sh !! src with
    | None => UnknownPeer
    | Some e =>
        let l := vo_generation e in
        if bool_decide (g = next_generation l) then DeltaApplied
        else if generation_leb g l then DeltaDiscarded else GapDetected l g
    end.
Proof.
  intros Hwf. unfold accept_inbound_delta. rewrite get_spec by done.
  fold (contents sh). destruct (contents sh !! src) as [e|]; [|done]. simpl.
  destruct g as [i a], (vo_generation e) as [j b] eqn:Eg. simpl.
  destruct (Z.ltb_spec i j); [|destruct (Z.ltb_spec j i)]; simpl.
  - rewrite bool_decide_eq_false_2 by (unfold next_generation; simpl; intros [=]; lia).
    by rewrite (proj2 (generation_leb_le _ _)) by (unfold gen_le; simpl; lia).
  - rewrite bool_decide_eq_false_2 by (unfold next_generation; simpl; intros [=]; lia).
    by rewrite (proj2 (generation_leb_gt _ _)) by (unfold gen_lt; simpl; lia).
  - assert (i = j) as -> by lia. destruct (Z.eqb_spec a (u64_add b 1)) as [->|Hne]; simpl.
    + by rewrite bool_decide_eq_true_2.
    + rewrite bool_decide_eq_false_2 by (unfold next_generation; simpl; by intros [=]).
      destruct (Z.leb_spec a b).
      * by rewrite (proj2 (generation_leb_le _ _)) by (unfold gen_le; simpl; lia).
      * by rewrite (proj2 (generation_leb_gt _ _)) by (unfold gen_lt; simpl; lia).
Qed.

Lemma accept_delta_contents sh src g w f clk :
  shard_wf sh → (∀ e, contents sh !! src = Some e → vo_source_node e = src) →
  contents (accept_inbound_delta sh src g w f clk).1 =
    match contents sh !! src with
    | Some e =>
        if bool_decide (g = next_generation (vo_generation e))
        then <[src := delta_entry e g w f clk]> (contents sh)
        else contents sh
    | None => contents sh
    end.
Proof.
  intros Hwf Hsrc. pose proof (accept_delta_result sh src g w f clk Hwf) as Hr.
  revert Hr. unfold accept_inbound_delta. rewrite get_spec by done.
  fold (contents sh). destruct (contents sh !! src) as [e|] eqn:He; [|done].
  repeat case_match; simpl; intros Hr; repeat case_bool_decide; try done;
    try (by repeat case_match).
  unfold contents at 1; simpl. rewrite update_contents; [|done|by eexists].
  unfold delta_entry. by rewrite (Hsrc e eq_refl).
Qed.

(** A run of deltas of one peer. *)
Definition deliver_deltas sh (src : NodeId) (w : Z)
    (l : list (Generation * (V → V) * C)) : ShardCore S M :=
  foldl (λ sh d, (accept_inbound_delta sh src d.1.1 w d.1.2 d.2).1) sh l.

(** The deltas continue the generation [g] without a gap. *)
Fixpoint consecutive (g : Generation) (l : list (Generation * (V → V) * C)) : Prop :=
  match l with
  | [] => True
  | d :: l => d.1.1 = next_generation g ∧ consecutive d.1.1 l
  end.
End Deltas.

(** [C24] A delta is applied exactly when it is the successor of the peer's
    current view, which it then updates; without an entry the peer is unknown; a
    delta that is not newer is discarded and a newer one reports the gap with both
    generations.  In all these cases but the first nothing changes. *)
Theorem accept_inbound_delta_spec `{HashIter} {S V M C} `{!ViewMapOps V M} `{!ViewMapLaws V M} `{Clock C}
    (sh sh' : ShardCore S M) (src : NodeId) (g : Generation) (w : Z) (f : V → V) (clk : C)
    (r : DeltaAcceptResult) :
  shard_wf sh → (∀ e, get_view sh src = Some e → vo_source_node e = src) →
  accept_inbound_delta sh src g w f clk = (sh', r) →
  sh_state sh' = sh_state sh ∧
  match get_view sh src with
  | None => r = UnknownPeer ∧ contents sh' = contents sh
  | Some e =>
      let l := vo_generation e in
      (r = DeltaApplied ∧ g = next_generation l ∧
       contents sh' = <[src := delta_entry e g w f clk]> (contents sh)) ∨
      (r = DeltaDiscarded ∧ g ≠ next_generation l ∧ g ≤g l ∧ contents sh' = contents sh) ∨
      (r = GapDetected l g ∧ g ≠ next_generation l ∧ l <g g ∧ contents sh' = contents sh)
  end.
Proof.
  intros Hwf Hsrc Hacc. rewrite get_view_contents in * by done.
  pose proof (accept_delta_result sh src g w f clk Hwf) as Hr.
  pose proof (accept_delta_contents sh src g w f clk Hwf Hsrc) as Hc.
  pose proof (accept_delta_frame (S:=S) sh src g w f clk) as (_ & _ & Hst).
  rewrite Hacc in *. simpl in *. split; [done|].
  destruct (contents sh !! src) as [e|]; [|done].
  case_bool_decide; [by left|right].
  destruct (generation_leb g (vo_generation e)) eqn:E; gen_norm; [by left|by right].
Qed.

(** Deltas carried in order reconstruct the view: if the local view of a peer
    has generation [g] and the deltas are the next ones, all of them are applied
    and the view ends at the last generation with the deltas' effects composed in
    order; and a snapshot of that generation is then a duplicate. *)
Theorem delta_chain_reconstructs `{HashIter} {S V M C} `{!ViewMapOps V M} `{!ViewMapLaws V M} `{Clock C}
    (l : list (Generation * (V → V) * C)) (src : NodeId) (w : Z) :
  ∀ (sh : ShardCore S M) (e : StateViewObject V),
  shard_wf sh → contents sh !! src = Some e → vo_source_node e = src →
  consecutive (vo_generation e) l →
  ∃ e', contents (deliver_deltas sh src w l) !! src = Some e' ∧
    vo_value e' = foldl (λ v d, d.1.2 v) (vo_value e) l ∧
    vo_generation e' = default (vo_generation e) (last (map (λ d, d.1.1) l)) ∧
    (∀ snap clk, snap_source snap = src → snap_generation snap = vo_generation e' →
       (accept_inbound_snapshot (deliver_deltas sh src w l) snap clk).2 = Discarded).
Proof.
  induction l as [|[[g f] clk] l IH]; intros sh e Hwf He Hsrc Hcons.
  - exists e. split_and!; try done. intros snap clk <- Hg. simpl.
    pose proof (accept_snapshot_contents sh snap clk Hwf) as [_ Hr].
    rewrite snapshot_update_Some, He in Hr.
    destruct ((accept_inbound_snapshot sh snap clk).2); [|done].
    destruct Hr as [Hr _]. specialize (Hr eq_refl _ eq_refl). exfalso. gen_lia.
  - destruct Hcons as [Hg Hcons]. simpl in *.
    assert (contents (accept_inbound_delta sh src g w f clk).1 !! src
      = Some (delta_entry e g w f clk)) as He1.
    { rewrite accept_delta_contents; [|done|by rewrite He; intros ? [= <-]].
      rewrite He, bool_decide_eq_true_2 by done. apply lookup_insert_eq. }
    destruct (IH _ _ (proj1 (accept_delta_frame (S:=S) sh src g w f clk) Hwf) He1 Hsrc Hcons)
      as (e' & He' & Hv & Hgen & Hdup).
    exists e'. split_and!; [done|done| |done]. rewrite Hgen, last_cons.
    by destruct (last (map _ l)).
Qed.

(** ** Any calls at all

    What a call is about, and the calls of a host that restricts nothing: any message, also
    one that names the local node as its source, any projection, and the commit of any
    prepared mutation. *)
Inductive ShardEvent : Type :=
| EvMutation
| EvSnapshot (source : NodeId) (generation : Generation)
| EvDelta (source : NodeId) (generation : Generation)
| EvNotification (source : NodeId) (generation : Generation)
| EvJoin (id : NodeId)
| EvLeave (id : NodeId).

Section Calls.
Context `{HashIter} {S V M C : Type} `{!ViewMapOps V M} `{!ViewMapLaws V M} `{Clock C}.
Implicit Types (sh : ShardCore S M) (clk : C).

Inductive shard_call sh : ShardEvent → ShardCore S M → Prop :=
| do_mutate f (project : S → V) clk :
    shard_call sh EvMutation (apply_mutation sh f project clk).1
| do_mutate_delta {DC VD} (f : S → S * DC) (project : S → V) (pd : DC → VD) clk :
    shard_call sh EvMutation (apply_mutation_with_delta sh f project pd clk).1
| do_commit (pm : PreparedMutation S V) clk sh' out :
    commit_mutation sh pm clk = Done (sh', out) → shard_call sh EvMutation sh'
| do_commit_delta {VD} (pm : PreparedDeltaMutation S V VD) clk sh' out :
    commit_delta_mutation sh pm clk = Done (sh', out) → shard_call sh EvMutation sh'
| do_snapshot snap clk :
    shard_call sh (EvSnapshot (snap_source snap) (snap_generation snap))
      (accept_inbound_snapshot sh snap clk).1
| do_delta src g w f clk :
    shard_call sh (EvDelta src g) (accept_inbound_delta sh src g w f clk).1
| do_mark_stale src i a :
    shard_call sh (EvNotification src (generation_new i a)) (mark_stale sh src i a)
| do_join id v clk : shard_call sh (EvJoin id) (shard_on_node_joined sh id v clk)
| do_leave id : shard_call sh (EvLeave id) (shard_on_node_left sh id).

(** A call whose event satisfies [ok]. *)
Definition shard_calls (ok : ShardEvent → Prop) sh sh' : Prop := ∃ ev, ok ev ∧ shard_call sh ev sh'.

(** The own view exists and every view is filed under its owner. *)
Definition shard_filed sh : Prop :=
  shard_wf sh ∧ is_Some (contents sh !! sh_node_id sh) ∧
  (∀ id vo, contents sh !! id = Some vo → vo_source_node vo = id).

Lemma shard_inv_filed project sh : shard_inv project sh → shard_filed sh.
Proof. intros (? & [t Hown] & ?). split_and!; [done|by eexists|done]. Qed.

(** What one call can do to the entries: nothing, write the entry of one node, or drop the
    entry of another node. *)
Inductive entries_after (l : NodeId) (m : gmap NodeId (StateViewObject V)) :
    ShardEvent → gmap NodeId (StateViewObject V) → Prop :=
| entries_same ev : entries_after l m ev m
| entries_own (st : StateObject S) v t :
    entries_after l m EvMutation (<[l := own_view_object l st v t]> m)
| entries_snapshot s t vo :
    snapshot_update s t (m !! snap_source s) = Some vo →
    entries_after l m (EvSnapshot (snap_source s) (snap_generation s)) (<[snap_source s := vo]> m)
| entries_delta src e w f clk :
    m !! src = Some e →
    let g := next_generation (vo_generation e) in
    entries_after l m (EvDelta src g) (<[src := delta_entry e g w f clk]> m)
| entries_pending src e g :
    m !! src = Some e → vo_generation e <g g →
    entries_after l m (EvNotification src g) (<[src := set_pending e (Some g)]> m)
| entries_joined id v t :
    m !! id = None → entries_after l m (EvJoin id) (<[id := placeholder_view id v t]> m)
| entries_left id : id ≠ l → entries_after l m (EvLeave id) (delete id m).

Lemma commit_entries sh st v clk :
  shard_filed sh →
  let sh' := update_own_view (set_state sh st) v clk in
  shard_wf sh' ∧ sh_node_id sh' = sh_node_id sh ∧
  entries_after (sh_node_id sh) (contents sh) EvMutation (contents sh').
Proof.
  intros (Hwf & Hown & _) sh'. split_and!; [by apply update_own_view_frame|done|].
  unfold sh'. rewrite update_own_view_contents by done. apply entries_own.
Qed.

Lemma call_entries sh ev sh' :
  shard_filed sh → shard_call sh ev sh' →
  shard_wf sh' ∧ sh_node_id sh' = sh_node_id sh ∧
  entries_after (sh_node_id sh) (contents sh) ev (contents sh').
Proof.
  intros Hf Hc. pose proof Hf as (Hwf & _ & Hsrc).
  destruct Hc as [f project clk|DC VD f project pd clk|pm clk sh' out Hc|VD pm clk sh' out Hc
    |snap clk|src g w f clk|src i a|id v clk|id].
  - by apply commit_entries.
  - unfold apply_mutation_with_delta. destruct (f _). by apply commit_entries.
  - unfold commit_mutation in Hc. case_bool_decide; simplify_eq. by apply commit_entries.
  - unfold commit_delta_mutation in Hc. case_bool_decide; simplify_eq. by apply commit_entries.
  - destruct (accept_snapshot_frame (S:=S) sh snap clk) as (Hwf' & ? & _).
    split_and!; [by apply Hwf'|done|]. destruct (accept_snapshot_contents sh snap clk Hwf) as [-> _].
    destruct (snapshot_update _ _ _) eqn:Hu; [by eapply entries_snapshot|apply entries_same].
  - destruct (accept_delta_frame (S:=S) sh src g w f clk) as (Hwf' & ? & _).
    split_and!; [by apply Hwf'|done|]. rewrite accept_delta_contents by auto.
    destruct (contents sh !! src) eqn:He; [|apply entries_same].
    case_bool_decide as Hg; [subst g; by apply entries_delta|apply entries_same].
  - destruct (mark_stale_frame (S:=S) sh src i a) as (Hwf' & ? & _).
    split_and!; [by apply Hwf'|done|]. rewrite mark_stale_contents by done.
    destruct (contents sh !! src) eqn:He; [|apply entries_same].
    destruct (generation_leb _ _) eqn:Hg; [apply entries_same|]. gen_norm. by apply entries_pending.
  - destruct (node_joined_frame (S:=S) sh id v clk) as (Hwf' & ? & _).
    split_and!; [by apply Hwf'|done|]. rewrite node_joined_contents by done.
    case_bool_decide; [apply entries_same|].
    destruct (contents sh !! id) eqn:He; [apply entries_same|by apply entries_joined].
  - destruct (node_left_frame (S:=S) sh id) as (Hwf' & ? & _).
    split_and!; [by apply Hwf'|done|]. rewrite node_left_contents by done.
    case_bool_decide; [apply entries_same|by apply entries_left].
Qed.

Lemma snapshot_update_source (s : InboundSnapshot V) t e vo :
  snapshot_update s t e = Some vo → vo_source_node vo = snap_source s.
Proof. unfold snapshot_update. intros ?. by repeat case_match; simplify_eq/=. Qed.

Lemma call_filed sh ev sh' :
  shard_filed sh → shard_call sh ev sh' → shard_filed sh' ∧ sh_node_id sh' = sh_node_id sh.
Proof.
  intros Hf Hc. destruct (call_entries _ _ _ Hf Hc) as (Hwf' & Hid & He). split; [|done].
  destruct Hf as (_ & Hown & Hsrc). split; [done|]. rewrite Hid.
  assert (∀ k vo, vo_source_node vo = k →
    is_Some (<[k := vo]> (contents sh) !! sh_node_id sh) ∧
    ∀ id x, <[k := vo]> (contents sh) !! id = Some x → vo_source_node x = id) as Hins.
  { intros k vo Hk. split; [by apply lookup_insert_is_Some'; right|].
    intros id x [[<- <-]|[_ ?]]%lookup_insert_Some; auto. }
  destruct He as [ev|st v t|s t vo Hu|src e w f clk He|src e g He Hg|id v t Hn|id Hne].
  - done.
  - by apply Hins.
  - apply Hins. by apply (snapshot_update_source _ _ _ _ Hu).
  - apply Hins. simpl. by apply Hsrc.
  - apply Hins. simpl. by apply Hsrc.
  - by apply Hins.
  - split; [by rewrite lookup_delete_ne|]. by intros k x [_ ?]%lookup_delete_Some; auto.
Qed.

Lemma shard_calls_filed ok sh sh' :
  rtc (shard_calls ok) sh sh' → shard_filed sh → shard_filed sh' ∧ sh_node_id sh' = sh_node_id sh.
Proof.
  induction 1 as [|sh1 sh2 sh3 (ev & _ & Hc) _ IH]; intros Hf; [done|].
  destruct (call_filed _ _ _ Hf Hc) as [Hf' <-]. by apply IH.
Qed.

(** A mutation makes the own view right, whatever it was before. *)
Lemma mutation_restores project sh f clk :
  shard_filed sh → shard_inv project (apply_mutation sh f project clk).1.
Proof.
  intros (Hwf & Hown & Hsrc). unfold apply_mutation. simpl.
  set (st := bump_state _ _ _). set (sh1 := update_own_view _ _ _).
  assert (contents sh1 = <[sh_node_id sh := own_view_object (sh_node_id sh) st
    (project (so_value st)) (now clk)]> (contents sh)) as Hc.
  { unfold sh1. by rewrite update_own_view_contents by done. }
  split_and!; [by apply update_own_view_frame|..]; rewrite Hc.
  - eexists. apply lookup_insert_eq.
  - intros k vo [[<- <-]|[_ Hk]]%lookup_insert_Some; auto.
Qed.

(** The own view is the projection of the state, under the state's generation and never
    pending. *)
Definition own_view_exact (project : S → V) sh : Prop :=
  ∃ vo, get_view sh (sh_node_id sh) = Some vo ∧
    vo_value vo = project (so_value (sh_state sh)) ∧
    vo_generation vo = so_generation (sh_state sh) ∧
    vo_pending_remote_generation vo = None.

Lemma shard_inv_exact project sh : shard_inv project sh → own_view_exact project sh.
Proof. intros (Hwf & [t Hown] & _). eexists. by rewrite get_view_contents. Qed.
End Calls.

(** [C21] From [ShardCore::new], under any calls whatever (any messages, also of the node
    itself, any projections, any commits), the node's own view exists and every view is
    filed under the node that owns it.  As long as all mutations use one projection and
    messages come from other nodes ([shard_step]), the own view is also the projection of
    the current state under the current generation, and never pending; and if it was lost,
    the next mutation makes it so again.  The restriction is needed, as a snapshot that
    names the node itself is accepted ([self_snapshot_overwrites_own_view]). *)
Theorem shard_reachable_invariant `{HashIter} {S V M C} `{!ViewMapOps V M} `{!ViewMapLaws V M} `{Clock C}
    (project : S → V) (id : NodeId) (st : StateObject S) (v : V) (clk : C) (sh : ShardCore S M) :
  rtc (shard_calls (C:=C) (λ _, True)) (shard_new id st v clk) sh →
  sh_node_id sh = id ∧ is_Some (get_view sh id) ∧
  (∀ k vo, get_view sh k = Some vo → vo_source_node vo = k) ∧
  (∀ sh', v = project (so_value st) →
     rtc (shard_step (C:=C) project) (shard_new id st v clk) sh' → own_view_exact project sh') ∧
  (∀ f (clk' : C) sh',
     rtc (shard_step (C:=C) project) (apply_mutation sh f project clk').1 sh' →
     own_view_exact project sh').
Proof.
  intros Hr. destruct (shard_new_contents (S:=S) (M:=M) id st v clk) as [Hwf0 Hc0].
  destruct (shard_calls_filed _ _ _ Hr) as [Hf Hid].
  { split_and!; [done|..]; rewrite Hc0; simpl; [by rewrite lookup_singleton_eq|].
    by intros k vo [<- <-]%lookup_singleton_Some. }
  pose proof Hf as (Hwf & Hown & Hsrc). simpl in Hid. subst id. split_and!; [done|..].
  - by rewrite get_view_contents.
  - intros k vo. rewrite get_view_contents by done. apply Hsrc.
  - intros sh' -> Hr'. apply shard_inv_exact. eapply shard_reachable; [done|apply shard_new_inv].
  - intros f clk' sh' Hr'. apply shard_inv_exact.
    eapply shard_reachable; [done|by apply mutation_restores].
Qed.

(** ** Generations only grow *)
Section Growth.
Context `{HashIter} {S V M C : Type} `{!ViewMapOps V M} `{!ViewMapLaws V M} `{Clock C}.
Implicit Types (sh : ShardCore S M) (clk : C) (e : StateViewObject V).

(** The entry of [k] in [m'] is not older than the one in [m]. *)
Definition grown (k : NodeId) (m m' : gmap NodeId (StateViewObject V)) : Prop :=
  ∀ e e', m !! k = Some e → m' !! k = Some e' → 0 ≤ age (vo_generation e) < u64_max →
    vo_generation e ≤g vo_generation e'.

Lemma grown_same k m : grown k m m.
Proof. intros e e' He He'. simplify_eq. gen_lia. Qed.

Lemma grown_insert k m j vo :
  (∀ e, m !! j = Some e → 0 ≤ age (vo_generation e) < u64_max → vo_generation e ≤g vo_generation vo) →
  grown k m (<[j := vo]> m).
Proof.
  intros Hvo e e' He [[-> ->]|[_ ?]]%lookup_insert_Some; [by apply Hvo|]. simplify_eq. gen_lia.
Qed.

Lemma commit_grown project sh k st v clk :
  shard_inv project sh → so_generation st = next_generation (so_generation (sh_state sh)) →
  grown k (contents sh) (contents (update_own_view (set_state sh st) v clk)).
Proof.
  intros (Hwf & [t Hown] & _) Hst. rewrite update_own_view_contents by (done || by eexists).
  apply grown_insert. intros e He Hage. change (contents sh !! sh_node_id sh = Some e) in He.
  rewrite Hown in He. simplify_eq. simpl in *. rewrite Hst. unfold next_generation. rewrite u64_succ_small by done. gen_lia.
Qed.

Lemma snapshot_grown sh k snap clk :
  shard_wf sh → grown k (contents sh) (contents (accept_inbound_snapshot sh snap clk).1).
Proof.
  intros Hwf. destruct (accept_snapshot_contents sh snap clk Hwf) as [-> _].
  destruct (snapshot_update _ _ _) as [vo|] eqn:Hu; [|apply grown_same].
  apply grown_insert. intros e He _. rewrite He in Hu.
  pose proof (proj1 (snapshot_update_Some _ _ _) (mk_is_Some _ _ Hu) _ eq_refl) as Hlt.
  rewrite snapshot_update_eq in Hu by (by intros ? [= <-]). simplify_eq. simpl. gen_lia.
Qed.

Lemma delta_grown sh k src g w f clk :
  shard_wf sh → (∀ e, contents sh !! src = Some e → vo_source_node e = src) →
  grown k (contents sh) (contents (accept_inbound_delta sh src g w f clk).1).
Proof.
  intros Hwf Hsrc. rewrite accept_delta_contents by done.
  destruct (contents sh !! src) as [x|] eqn:Hx; [|apply grown_same].
  case_bool_decide as Hg; [|apply grown_same]. apply grown_insert. intros e He Hage. simplify_eq.
  simpl. unfold next_generation. rewrite u64_succ_small by done. gen_lia.
Qed.

Lemma mark_stale_grown sh k src i a :
  shard_wf sh → grown k (contents sh) (contents (mark_stale sh src i a)).
Proof.
  intros Hwf. rewrite mark_stale_contents by done.
  destruct (contents sh !! src) as [x|] eqn:Hx; [|apply grown_same].
  case_match; [apply grown_same|]. apply grown_insert. intros e He _. simplify_eq. simpl. gen_lia.
Qed.

Lemma joined_grown sh k id v clk :
  shard_wf sh → grown k (contents sh) (contents (shard_on_node_joined sh id v clk)).
Proof.
  intros Hwf. rewrite node_joined_contents by done. case_bool_decide; [apply grown_same|].
  destruct (contents sh !! id) eqn:Hx; [apply grown_same|]. apply grown_insert. congruence.
Qed.

Lemma left_grown sh k id :
  shard_wf sh → grown k (contents sh) (contents (shard_on_node_left sh id)).
Proof.
  intros Hwf. rewrite node_left_contents by done. case_bool_decide; [apply grown_same|].
  intros e e' He [_ ?]%lookup_delete_Some. simplify_eq. gen_lia.
Qed.
End Growth.

(** [C25] In one step of the shard, the generation of an entry that stays never
    decreases, as long as its age counter is below the largest [u64], where it would
    wrap. *)
Theorem generations_grow `{HashIter} {S V M C} `{!ViewMapOps V M} `{!ViewMapLaws V M} `{Clock C}
    (project : S → V) (sh sh' : ShardCore S M) (k : NodeId) (e e' : StateViewObject V) :
  shard_inv project sh → shard_step project sh sh' →
  contents sh !! k = Some e → contents sh' !! k = Some e' →
  0 ≤ age (vo_generation e) < u64_max →
  vo_generation e ≤g vo_generation e'.
Proof.
  intros Hinv Hstep He He' Hage. pose proof Hinv as (Hwf & _ & Hsrc).
  enough (grown k (contents sh) (contents sh')) as Hg by exact (Hg e e' He He' Hage).
  destruct Hstep as [f clk|DC VD f pd clk|sh0 f clk0 clk ?? Hc|DC VD sh0 f pd clk0 clk ?? Hc
      |snap clk Hne|src g w f clk Hne|src i a Hne|id v clk|id].
  - by eapply commit_grown.
  - unfold apply_mutation_with_delta. destruct (f _). by eapply commit_grown.
  - unfold commit_mutation in Hc. case_bool_decide as Hb; simplify_eq/=.
    eapply commit_grown; [done|]. simpl. by rewrite Hb.
  - unfold commit_delta_mutation, prepare_mutation_with_delta in Hc.
    destruct (f _). case_bool_decide as Hb; simplify_eq/=.
    eapply commit_grown; [done|]. simpl in *. by rewrite Hb.
  - by apply snapshot_grown.
  - apply delta_grown; eauto.
  - by apply mark_stale_grown.
  - by apply joined_grown.
  - by apply left_grown.
Qed.

(** ** Staleness and queries *)

(** A local query reports exactly the peers that are stale: those, other than
    the node itself, with an announced newer generation or a last synchronisation
    older than the bound.  It is fresh when there is none, always carries the
    projection of the whole view map, lists no peer twice and agrees with
    [stale_peers]. *)
Theorem query_local_spec `{HashIter} {S V M C R} `{!ViewMapOps V M} `{!ViewMapLaws V M}
    `{Clock C} (sh : ShardCore S M) (d : Duration)
    (project : gmap NodeId (StateViewObject V) → R) (clk : C) :
  shard_wf sh →
  let stale := match query_local sh d project clk with
               | QueryFresh _ => [] | StalePeersDetected l _ => l
               end in
  (∀ id, id ∈ stale ↔ id ≠ sh_node_id sh ∧ ∃ vo, get_view sh id = Some vo ∧
     (is_Some (vo_pending_remote_generation vo) ∨ d < duration_since (now clk) (vo_synced_at vo))) ∧
  NoDup stale ∧
  (stale_peers sh d clk ≡ₚ stale) ∧
  query_local sh d project clk =
    (if bool_decide (stale = []) then QueryFresh (project (snapshot sh))
     else StalePeersDetected stale (project (snapshot sh))).
Proof.
  intros Hwf stale.
  assert (stale = keys_where (stale_peer (sh_node_id sh) (now clk) d) (contents sh)) as Hstale.
  { unfold stale, query_local. rewrite snapshot_spec by done. fold (contents sh).
    case_bool_decide as Hn; [by rewrite Hn|done]. }
  split_and!.
  - intros id. rewrite Hstale, elem_of_keys_where, get_view_contents by done.
    setoid_rewrite andb_true_iff. setoid_rewrite negb_true_iff.
    setoid_rewrite orb_true_iff. setoid_rewrite bool_decide_eq_false.
    setoid_rewrite bool_decide_eq_true. setoid_rewrite Z.ltb_lt. naive_solver.
  - rewrite Hstale. apply NoDup_keys_where.
  - rewrite Hstale. unfold stale_peers. by rewrite stale_peers_spec.
  - rewrite Hstale. unfold query_local, snapshot. rewrite snapshot_spec by done. done.
Qed.

(** The stale peers of a node, as a set. *)
Definition is_stale `{HashIter} {S V M C} `{!ViewMapOps V M} `{Clock C}
    (sh : ShardCore S M) (d : Duration) (clk : C) (id : NodeId) : Prop :=
  id ∈ stale_peers sh d clk.

Section Freshness.
Context `{HashIter} {S V M C : Type} `{!ViewMapOps V M} `{!ViewMapLaws V M} `{Clock C}.
Implicit Types (sh : ShardCore S M) (clk : C).

Lemma is_stale_contents sh d clk id :
  shard_wf sh →
  is_stale sh d clk id ↔
  ∃ vo, contents sh !! id = Some vo ∧ stale_peer (sh_node_id sh) (now clk) d id vo = true.
Proof. apply elem_of_stale_peers. Qed.

Lemma stale_peer_pending l t d id (vo : StateViewObject V) :
  id ≠ l → is_Some (vo_pending_remote_generation vo) → stale_peer l t d id vo = true.
Proof.
  intros Hne Hp. unfold stale_peer, view_stale.
  by rewrite bool_decide_eq_false_2, bool_decide_eq_true_2.
Qed.

Lemma pending_entry_stale sh d clk id vo :
  shard_wf sh → id ≠ sh_node_id sh → contents sh !! id = Some vo →
  is_Some (vo_pending_remote_generation vo) → is_stale sh d clk id.
Proof.
  intros ????. apply is_stale_contents; [done|]. exists vo. split; [done|].
  by apply stale_peer_pending.
Qed.

Lemma fresh_entry_not_stale sh d clk id vo :
  shard_wf sh → 0 ≤ d → contents sh !! id = Some vo →
  vo_pending_remote_generation vo = None → vo_synced_at vo = now clk →
  ¬ is_stale sh d clk id.
Proof.
  intros Hwf Hd Hc Hp Hs. rewrite is_stale_contents by done.
  intros (vo' & ? & Hst). simplify_eq. revert Hst.
  unfold stale_peer, view_stale, duration_since. rewrite Hp, Hs, Z.sub_diag.
  rewrite (bool_decide_eq_false_2 (is_Some None)) by (by intros [? ?]). simpl.
  destruct (Z.ltb_spec d (Z.max 0 0)); [lia|]. by rewrite andb_false_r.
Qed.
End Freshness.

(** ** How long an announcement lasts *)
Section Announcements.
Context `{HashIter} {S V M C : Type} `{!ViewMapOps V M} `{!ViewMapLaws V M} `{Clock C}.
Context (id : NodeId) (g : Generation).
Implicit Types (sh : ShardCore S M) (m : gmap NodeId (StateViewObject V)) (vo : StateViewObject V).

(** The view of [id] has reached [g], or a generation at or past [g] is pending. *)
Definition awaited m : Prop :=
  ∃ vo, m !! id = Some vo ∧ is_u64 (age (vo_generation vo)) ∧
    (g ≤g vo_generation vo ∨ ∃ q, vo_pending_remote_generation vo = Some q ∧ g ≤g q).

(** The calls that keep it so: all but a notification for an older generation, the
    departure of [id], and a delta at which the age wraps.  An age is a [u64]. *)
Definition keeps_announcement (ev : ShardEvent) : Prop :=
  match ev with
  | EvMutation | EvJoin _ => True
  | EvSnapshot k g' => k = id → is_u64 (age g')
  | EvDelta k g' => k = id → 0 < age g'
  | EvNotification k g' => k = id → g ≤g g'
  | EvLeave k => k ≠ id
  end.

Lemma awaited_insert_ne m k vo : k ≠ id → awaited m → awaited (<[k := vo]> m).
Proof. intros Hne (x & ? & ?). exists x. by rewrite lookup_insert_ne. Qed.

Lemma awaited_insert m vo :
  is_u64 (age (vo_generation vo)) →
  g ≤g vo_generation vo ∨ (∃ q, vo_pending_remote_generation vo = Some q ∧ g ≤g q) →
  awaited (<[id := vo]> m).
Proof. intros ??. exists vo. by rewrite lookup_insert_eq. Qed.

(** A newer generation keeps what is still ahead of it. *)
Lemma awaited_after vo h :
  vo_generation vo ≤g h →
  g ≤g vo_generation vo ∨ (∃ q, vo_pending_remote_generation vo = Some q ∧ g ≤g q) →
  g ≤g h ∨ ∃ q, pending_after h (vo_pending_remote_generation vo) = Some q ∧ g ≤g q.
Proof.
  intros Hh [?|(q & -> & Hq)]; [left; gen_lia|].
  destruct (decide (h <g q)) as [Hlt|Hge]; [right; exists q; by rewrite pending_after_spec|].
  left. gen_lia.
Qed.

Lemma awaited_entries l m ev m' :
  entries_after (S:=S) (C:=C) l m ev m' → id ≠ l → keeps_announcement ev → awaited m → awaited m'.
Proof.
  intros He Hl Hk Hm.
  destruct He as [ev|st v t|s t vo Hu|src e w f clk Hx g'|src e g' Hx Hg|k v t Hn|k Hne]; simpl in Hk.
  - done.
  - by apply awaited_insert_ne.
  - destruct (decide (snap_source s = id)) as [Hs|]; [|by apply awaited_insert_ne].
    rewrite Hs in *. destruct Hm as (x & Hx & _ & Hg). rewrite Hx in Hu.
    pose proof (proj1 (snapshot_update_Some _ _ _) (mk_is_Some _ _ Hu) _ eq_refl) as Hlt.
    rewrite snapshot_update_eq in Hu by (by intros ? [= <-]). injection Hu as <-.
    apply awaited_insert; simpl; [by apply Hk|]. apply awaited_after; [gen_lia|done].
  - destruct (decide (src = id)) as [Hs|]; [|by apply awaited_insert_ne].
    rewrite Hs in *. destruct Hm as (y & Hy & Hu & Hg). simplify_eq. specialize (Hk eq_refl).
    assert (age g' = age (vo_generation e) + 1) as Hage.
    { revert Hk. unfold g', next_generation; simpl. revert Hu. width_lia. }
    apply awaited_insert; simpl; [apply u64_add_range|]. apply awaited_after; [|done].
    subst g'. unfold next_generation in *. simpl in Hage. gen_lia.
  - destruct (decide (src = id)) as [Hs|]; [|by apply awaited_insert_ne].
    rewrite Hs in *. destruct Hm as (y & Hy & Hu & _). simplify_eq.
    apply awaited_insert; simpl; [done|]. right. exists g'. auto.
  - apply awaited_insert_ne; [|done]. intros Hs. rewrite Hs in *. destruct Hm as (? & ? & _). congruence.
  - destruct Hm as (x & ? & ?). exists x. by rewrite lookup_delete_ne.
Qed.

Lemma awaited_calls sh sh' :
  rtc (shard_calls (C:=C) keeps_announcement) sh sh' →
  id ≠ sh_node_id sh → shard_filed sh → awaited (contents sh) →
  id ≠ sh_node_id sh' ∧ shard_filed sh' ∧ awaited (contents sh').
Proof.
  induction 1 as [|sh1 sh2 sh3 (ev & Hk & Hc) _ IH]; intros Hne Hf Ha; [done|].
  destruct (call_entries _ _ _ Hf Hc) as (_ & _ & He).
  destruct (call_filed _ _ _ Hf Hc) as [Hf' Hid].
  apply IH; [by rewrite Hid|done|]. by eapply awaited_entries.
Qed.
End Announcements.

(** A notification ahead of the view, and then one snapshot: the peer is stale, and stays
    stale exactly when the snapshot is older than the announcement. *)
Lemma notification_then_snapshot `{HashIter} {S V M C} `{!ViewMapOps V M}
    `{!ViewMapLaws V M} `{Clock C} (sh : ShardCore S M) (id : NodeId) (vo : StateViewObject V)
    (i a : Z) (snap : InboundSnapshot V) (clk : C) (d : Duration) :
  shard_wf sh → id ≠ sh_node_id sh → get_view sh id = Some vo →
  vo_generation vo <g generation_new i a → snap_source snap = id → 0 ≤ d →
  let sh1 := mark_stale sh id i a in
  let sh2 := (accept_inbound_snapshot sh1 snap clk).1 in
  is_stale sh1 d clk id ∧
  (is_stale sh2 d clk id ↔ snap_generation snap <g generation_new i a).
Proof.
  intros Hwf Hne Hvo Hlt Hsrc Hd sh1 sh2. rewrite get_view_contents in Hvo by done.
  destruct (mark_stale_frame (S:=S) sh id i a) as (Hwf1%(λ f, f Hwf) & Hid1 & _).
  fold sh1 in Hwf1, Hid1.
  assert (contents sh1 !! id = Some (set_pending vo (Some (generation_new i a)))) as Hc1.
  { unfold sh1. rewrite mark_stale_contents, Hvo by done.
    rewrite (proj2 (generation_leb_gt _ _) Hlt). apply lookup_insert_eq. }
  destruct (accept_snapshot_frame (S:=S) sh1 snap clk) as (Hwf2%(λ f, f Hwf1) & Hid2 & _).
  fold sh2 in Hwf2, Hid2.
  destruct (accept_snapshot_contents sh1 snap clk Hwf1) as [Hc2 _].
  rewrite Hsrc, Hc1 in Hc2.
  split; [by eapply pending_entry_stale; [done|congruence|done|eexists]|].
  destruct (decide (vo_generation vo <g snap_generation snap)) as [Hacc|Hrej].
  - rewrite snapshot_update_eq in Hc2 by (by intros ? [= <-]). simpl in Hc2.
    assert (contents sh2 !! id = Some (snapshot_entry snap (now clk) (Some (generation_new i a))))
      as Hc2' by (unfold sh2; rewrite Hc2; apply lookup_insert_eq).
    split; [|intros Hb; eapply pending_entry_stale; [done|congruence|done|]].
    + intros Hst. apply dec_stable. intros Hge. revert Hst.
      eapply fresh_entry_not_stale; [done|done|done| |done]. simpl.
      destruct (pending_after (snap_generation snap) (Some (generation_new i a))) eqn:Ep;
        [|done].
      apply pending_after_spec in Ep as [[= <-] ?]. done.
    + exists (generation_new i a). simpl. by apply pending_after_spec.
  - assert (snapshot_update snap (now clk) (Some (set_pending vo (Some (generation_new i a))))
      = None) as Hn.
    { apply eq_None_not_Some. rewrite snapshot_update_Some. intros Hv.
      apply Hrej. by apply (Hv _ eq_refl). }
    rewrite Hn in Hc2. split; [intros _; gen_lia|].
    intros _. eapply pending_entry_stale; [done|congruence|unfold sh2; by rewrite Hc2|by eexists].
Qed.

(** [C29] A change-feed notification for a newer generation [g] makes the peer stale,
    whatever the bound.  From then on, along any calls of the shard, the view of the peer
    has reached [g] or the peer is stale in every query, whatever the bound and the time.
    The first snapshot ends it exactly when it has reached [g].  The calls are any but the
    departure of the peer, a delta at which the age wraps, and a notification of the peer
    for a generation below [g]: that one does end it ([late_notification_forgets_newer]). *)
Theorem notification_stale_until_caught_up `{HashIter} {S V M C} `{!ViewMapOps V M}
    `{!ViewMapLaws V M} `{Clock C} (sh sh' : ShardCore S M) (id : NodeId) (vo : StateViewObject V)
    (i a : Z) :
  shard_filed sh → id ≠ sh_node_id sh → get_view sh id = Some vo →
  is_u64 (age (vo_generation vo)) → vo_generation vo <g generation_new i a →
  let g := generation_new i a in
  let marked := mark_stale sh id i a in
  rtc (shard_calls (C:=C) (keeps_announcement id g)) marked sh' →
  (∀ d (clk : C), is_stale marked d clk id) ∧
  (∃ vo', get_view sh' id = Some vo' ∧
     (g ≤g vo_generation vo' ∨ ∀ d (clk : C), is_stale sh' d clk id)) ∧
  (∀ snap (clk : C) d, snap_source snap = id → 0 ≤ d →
     is_stale (accept_inbound_snapshot marked snap clk).1 d clk id ↔ snap_generation snap <g g).
Proof.
  intros Hf Hne Hvo Hu Hlt g marked Hr. pose proof Hf as (Hwf & _).
  assert (shard_call (C:=C) sh (EvNotification id g) marked) as Hcall by apply do_mark_stale.
  destruct (call_filed _ _ _ Hf Hcall) as [Hfm Hid].
  pose proof Hvo as Hc. rewrite get_view_contents in Hc by done.
  assert (contents marked = <[id := set_pending vo (Some g)]> (contents sh)) as Hm.
  { unfold marked. rewrite mark_stale_contents, Hc by done.
    by rewrite (proj2 (generation_leb_gt _ _) Hlt). }
  assert (awaited id g (contents marked)) as Ha.
  { rewrite Hm. apply awaited_insert; [done|]. right. exists g. split; [done|gen_lia]. }
  assert (id ≠ sh_node_id marked) as Hnem by by rewrite Hid.
  destruct (awaited_calls id g _ _ Hr Hnem Hfm Ha) as (Hne' & (Hwf' & _) & x & Hx & _ & Hg).
  split_and!.
  - intros d clk. eapply (pending_entry_stale _ _ _ _ (set_pending vo (Some g)));
      [apply Hfm|done| |by exists g]. rewrite Hm. apply lookup_insert_eq.
  - exists x. rewrite get_view_contents by done. split; [done|].
    destruct Hg as [?|(q & Hq & _)]; [by left|right]. intros d clk.
    eapply (pending_entry_stale _ _ _ _ x); [done..|by exists q].
  - intros snap clk d Hs Hd.
    by destruct (notification_then_snapshot sh id vo i a snap clk d) as [_ ?].
Qed.

(** Of two change-feed notifications ahead of the local view the last one
    wins, even when it is the older: the shard then forgets the higher announced
    generation, and a snapshot of the lower one makes the peer look fresh. *)
Theorem late_notification_forgets_newer `{HashIter} {S V M C} `{!ViewMapOps V M}
    `{!ViewMapLaws V M} `{Clock C} (sh : ShardCore S M) (id : NodeId) (vo : StateViewObject V)
    (newer older : Generation) (snap : InboundSnapshot V) (clk : C) (d : Duration) :
  shard_wf sh → get_view sh id = Some vo →
  vo_generation vo <g older → older <g newer →
  snap_source snap = id → snap_generation snap = older → 0 ≤ d →
  let sh2 := mark_stale (mark_stale sh id (incarnation newer) (age newer))
               id (incarnation older) (age older) in
  contents sh2 = contents (mark_stale sh id (incarnation older) (age older)) ∧
  ¬ is_stale (accept_inbound_snapshot sh2 snap clk).1 d clk id.
Proof.
  intros Hwf Hvo Hlt Hlt' Hsrc Hgen Hd sh2. rewrite get_view_contents in Hvo by done.
  destruct newer as [i a], older as [j b]. simpl in *.
  destruct (mark_stale_frame (S:=S) sh id i a) as (Hwf1%(λ f, f Hwf) & _).
  destruct (mark_stale_frame (S:=S) (mark_stale sh id i a) id j b) as (Hwf2%(λ f, f Hwf1) & _).
  fold sh2 in Hwf2.
  assert (contents sh2 = <[id := set_pending vo (Some (mkGeneration j b))]> (contents sh)) as Hc2.
  { unfold sh2. rewrite !mark_stale_contents, Hvo by done.
    rewrite (proj2 (generation_leb_gt _ _)) by gen_lia.
    rewrite lookup_insert_eq. simpl.
    rewrite (proj2 (generation_leb_gt _ _)) by gen_lia. by rewrite insert_insert_eq. }
  split.
  - rewrite Hc2, mark_stale_contents, Hvo by done.
    by rewrite (proj2 (generation_leb_gt _ _)) by gen_lia.
  - destruct (accept_snapshot_frame (S:=S) sh2 snap clk) as (Hwf3%(λ f, f Hwf2) & _).
    destruct (accept_snapshot_contents sh2 snap clk Hwf2) as [Hc3 _].
    rewrite Hsrc, Hc2, lookup_insert_eq, snapshot_update_eq in Hc3
      by (intros ? [= <-]; simpl; by rewrite Hgen).
    eapply fresh_entry_not_stale; [done|done|rewrite Hc3; apply lookup_insert_eq| |done].
    simpl. rewrite Hgen. destruct (pending_after _ _) eqn:Ep; [|done].
    apply pending_after_spec in Ep as [[= <-] ?]. exfalso. gen_lia.
Qed.

(** A joining node gets a placeholder that every query counts as stale; the
    first snapshot of a real incarnation replaces it and makes the peer fresh.  A
    join of a known node or of the node itself changes nothing, and after a leave the
    node has no view. *)
Theorem join_then_snapshot_fresh `{HashIter} {S V M C} `{!ViewMapOps V M}
    `{!ViewMapLaws V M} `{Clock C} (sh : ShardCore S M) (id : NodeId) (v : V)
    (snap : InboundSnapshot V) (clk : C) (d : Duration) :
  shard_wf sh → snap_source snap = id → gen_u64 (snap_generation snap) →
  0 < incarnation (snap_generation snap) → 0 ≤ d →
  let joined := shard_on_node_joined sh id v clk in
  let synced := accept_inbound_snapshot joined snap clk in
  (id = sh_node_id sh ∨ is_Some (get_view sh id) → contents joined = contents sh) ∧
  (id ≠ sh_node_id sh → get_view sh id = None →
     is_stale joined d clk id ∧ synced.2 = Accepted ∧ ¬ is_stale synced.1 d clk id ∧
     vo_value <$> get_view synced.1 id = Some (snap_view snap)) ∧
  (id ≠ sh_node_id sh → get_view (shard_on_node_left joined id) id = None).
Proof.
  intros Hwf Hsrc Hu Hinc Hd joined synced.
  destruct (node_joined_frame (S:=S) sh id v clk) as (Hwf1%(λ f, f Hwf) & Hid1 & _).
  fold joined in Hwf1, Hid1.
  pose proof (node_joined_contents sh id v clk Hwf) as Hj. fold joined in Hj.
  rewrite get_view_contents by done. split_and!.
  - rewrite Hj. intros [->|[vo ->]]; by case_bool_decide.
  - intros Hne Hnone. rewrite bool_decide_eq_false_2, Hnone in Hj by done.
    destruct (accept_snapshot_frame (S:=S) joined snap clk) as (Hwf2%(λ f, f Hwf1) & _).
    destruct (accept_snapshot_contents joined snap clk Hwf1) as [Hc2 Hr2].
    fold synced in Hwf2, Hc2, Hr2.
    rewrite Hsrc, Hj, lookup_insert_eq in Hc2, Hr2.
    assert (∀ vo, Some (placeholder_view id v (now clk)) = Some vo →
      vo_generation vo <g snap_generation snap) as Hlt.
    { intros vo [= <-]. destruct Hu. unfold is_u64 in *. simpl. gen_lia. }
    rewrite snapshot_update_eq in Hc2, Hr2 by done. simpl in Hc2.
    assert (contents synced.1 !! id = Some (snapshot_entry snap (now clk)
      (Some (generation_new 1 0)))) as He2 by (rewrite Hc2; apply lookup_insert_eq).
    split_and!.
    + eapply pending_entry_stale; [done|congruence|rewrite Hj; apply lookup_insert_eq|].
      by eexists.
    + apply Hr2. by eexists.
    + eapply fresh_entry_not_stale; [done|done|done| |done]. simpl.
      destruct (pending_after _ _) eqn:Ep; [|done].
      apply pending_after_spec in Ep as [[= <-] ?]. destruct Hu. unfold is_u64 in *.
      exfalso. gen_lia.
    + by rewrite get_view_contents, He2.
  - intros Hne. destruct (node_left_frame (S:=S) joined id) as (Hwf2%(λ f, f Hwf1) & _).
    rewrite get_view_contents, node_left_contents by done.
    rewrite bool_decide_eq_false_2 by congruence. apply lookup_delete_eq.
Qed.
