(* ===== verification/SyncLogic.v ===== *)
(** Outbound synchronisation decisions ([core/sync_logic.rs]) and the buffer of
    suppressed deltas ([core/delta_accumulator.rs]). *)
From stdpp Require Import prelude strings list.
From S2P Require Import Prelude Node Clock Types.

(** [SyncAction]. *)
Inductive SyncAction : Type :=
| BroadcastSnapshot
| BroadcastDelta
| NotifyChangeFeed
| ScheduleDelayedSync (d : Duration)
| SuppressSync.

Global Instance SyncAction_eq_dec : EqDecision SyncAction.
Proof. solve_decision. Defined.

(** [SyncLogic]. *)
Record SyncLogic : Type := mkSyncLogic {
  sl_state_name : string;
  sl_strategy : SyncStrategy;
  supports_delta : bool
}.

(** [SyncLogic::new]. *)
Definition sync_logic_new (state_name : string) (strategy : SyncStrategy)
    (supports_delta : bool) : SyncLogic :=
  mkSyncLogic state_name strategy supports_delta.

Definition broadcast_action (l : SyncLogic) : SyncAction :=
  if supports_delta l then BroadcastDelta else BroadcastSnapshot.

Definition resolve_action (l : SyncLogic) (urgency : SyncUrgency) : SyncAction :=
  match urgency with
  | UrgencyImmediate => broadcast_action l
  | UrgencyDelayed d => ScheduleDelayedSync d
  | UrgencySuppress => SuppressSync
  | UrgencyDefault =>
      match push_mode (sl_strategy l) with
      | Some ActivePush => broadcast_action l
      | Some ActiveFeedLazyPull => NotifyChangeFeed
      | None => SuppressSync
      end
  end.

Definition should_periodic_sync (l : SyncLogic) : bool :=
  bool_decide (is_Some (periodic_full_sync (sl_strategy l))).

Definition periodic_interval (l : SyncLogic) : option Duration :=
  periodic_full_sync (sl_strategy l).

(** The action depends on the push mode only for the default urgency:
    [Immediate] broadcasts under every strategy, [Delayed] and [Suppress] never do,
    [Default] follows the mode; a broadcast is a delta exactly when the state
    supports deltas; and nothing is ever notified to the change feed outside the
    lazy-pull mode. *)
Theorem resolve_action_matrix (l : SyncLogic) (u : SyncUrgency) :
  let a := resolve_action l u in
  (u = UrgencyImmediate → a = broadcast_action l) ∧
  (∀ d, u = UrgencyDelayed d ↔ a = ScheduleDelayedSync d) ∧
  (a = SuppressSync ↔
     u = UrgencySuppress ∨ (u = UrgencyDefault ∧ push_mode (sl_strategy l) = None)) ∧
  (a = NotifyChangeFeed ↔
     u = UrgencyDefault ∧ push_mode (sl_strategy l) = Some ActiveFeedLazyPull) ∧
  (a = BroadcastDelta → supports_delta l = true) ∧
  (a = BroadcastSnapshot → supports_delta l = false) ∧
  (a = broadcast_action l ↔
     u = UrgencyImmediate ∨
     (u = UrgencyDefault ∧ push_mode (sl_strategy l) = Some ActivePush)).
Proof.
  intros a. unfold a, resolve_action, broadcast_action.
  destruct u, (push_mode (sl_strategy l)) as [[]|], (supports_delta l);
    split_and!; naive_solver.
Qed.

(** ** [DeltaAccumulator<VD>] *)
Section DeltaAccumulator.
Context {VD : Type}.

Record DeltaAccumulator : Type := mkDeltaAccumulator { buffer : list VD }.

Definition accumulator_new : DeltaAccumulator := mkDeltaAccumulator [].

(** [buffer.push(delta)]. *)
Definition accumulate (acc : DeltaAccumulator) (delta : VD) : DeltaAccumulator :=
  mkDeltaAccumulator (buffer acc ++ [delta]).

(** [Some(self.buffer.drain(..).collect())], or [None] on an empty buffer. *)
Definition accumulator_flush (acc : DeltaAccumulator) : DeltaAccumulator * option (list VD) :=
  match buffer acc with
  | [] => (acc, None)
  | _ :: _ => (accumulator_new, Some (buffer acc))
  end.

Definition accumulator_len (acc : DeltaAccumulator) : nat := length (buffer acc).
Definition accumulator_is_empty (acc : DeltaAccumulator) : bool :=
  bool_decide (buffer acc = []).

(** A run of the two operations; [None] is a flush.  Returns what the flushes
    handed out, in order. *)
Fixpoint run_accumulator (acc : DeltaAccumulator) (ops : list (option VD)) :
    DeltaAccumulator * list VD :=
  match ops with
  | [] => (acc, [])
  | Some d :: ops => run_accumulator (accumulate acc d) ops
  | None :: ops =>
      let '(acc1, out) := accumulator_flush acc in
      let '(acc2, outs) := run_accumulator acc1 ops in
      (acc2, default [] out ++ outs)
  end.

Lemma accumulator_flush_spec acc :
  default [] (accumulator_flush acc).2 = buffer acc ∧
  buffer (accumulator_flush acc).1 = [] ∧
  ((accumulator_flush acc).2 = None ↔ accumulator_is_empty acc = true).
Proof.
  destruct acc as [[|d b]]; unfold accumulator_flush, accumulator_is_empty; simpl;
    split_and!; by rewrite ?bool_decide_eq_true.
Qed.
End DeltaAccumulator.
Arguments DeltaAccumulator : clear implicits.

(** The accumulator neither loses, duplicates nor reorders deltas: over any
    run, what the flushes handed out followed by what is still buffered is what was
    accumulated, in order; and a flush empties the buffer. *)
Theorem accumulator_preserves_order {VD} (ops : list (option VD)) :
  let '(acc, out) := run_accumulator accumulator_new ops in
  out ++ buffer acc = omap id ops ∧
  buffer (accumulator_flush acc).1 = [] ∧
  ((accumulator_flush acc).2 = None ↔ accumulator_len acc = 0%nat).
Proof.
  assert (∀ acc : DeltaAccumulator VD,
    let '(acc', out) := run_accumulator acc ops in
    out ++ buffer acc' = buffer acc ++ omap id ops) as Hrun.
  { induction ops as [|[d|] ops IH]; intros acc; simpl.
    - by rewrite app_nil_r.
    - specialize (IH (accumulate acc d)). destruct (run_accumulator _ _).
      rewrite IH. simpl. by rewrite <- app_assoc.
    - destruct (accumulator_flush_spec acc) as (Hout & Hbuf & _).
      destruct (accumulator_flush acc) as [acc1 o]. simpl in *.
      specialize (IH acc1). destruct (run_accumulator acc1 ops).
      by rewrite <- app_assoc, IH, Hout, Hbuf. }
  specialize (Hrun accumulator_new). destruct (run_accumulator _ _) as [acc out].
  split_and!; [done|by apply accumulator_flush_spec|].
  unfold accumulator_flush, accumulator_len. by destruct (buffer acc).
Qed.
