(* ===== verification/ChangeFeed.v ===== *)
(** Change-feed batching and deduplication ([core/change_feed_logic.rs]). *)
From stdpp Require Import prelude gmap strings list.
From S2P Require Import Prelude Node Clock Types.

(** [ChangeFeedLogic]: pending notifications by state name and source node. *)
Record ChangeFeedLogic : Type := mkChangeFeed {
  cf_node_id : NodeId;
  cf_pending : gmap (string * NodeId) Generation
}.

(** [ChangeFeedLogic::new]. *)
Definition change_feed_new (node_id : NodeId) : ChangeFeedLogic := mkChangeFeed node_id ∅.

(** [entry(key).and_modify(..).or_insert(generation)]. *)
Definition notify_change (cf : ChangeFeedLogic) (state_name : string) (source_node : NodeId)
    (generation : Generation) : ChangeFeedLogic :=
  let key := (state_name, source_node) in
  mkChangeFeed (cf_node_id cf)
    (match cf_pending cf !! key with
     | Some existing =>
         <[key := if generation_ltb existing generation then generation else existing]>
           (cf_pending cf)
     | None => <[key := generation]> (cf_pending cf)
     end).

Section ChangeFeed.
Context `{HashIter}.

(** [ChangeFeedLogic::flush]: drains the pending map into a batch. *)
Definition change_feed_flush (cf : ChangeFeedLogic) :
    ChangeFeedLogic * option BatchedChangeFeed :=
  if bool_decide (cf_pending cf = ∅) then (cf, None)
  else
    let notifications := (λ '((state_name, source_node), generation),
      mkChangeNotification state_name source_node generation) <$> hm_iter (cf_pending cf) in
    (mkChangeFeed (cf_node_id cf) ∅,
     Some (mkBatchedChangeFeed (cf_node_id cf) notifications)).

Definition pending_count (cf : ChangeFeedLogic) : nat := size (cf_pending cf).

(** [ChangeFeedLogic::route_inbound_batch]. *)
Definition route_inbound_batch (batch : BatchedChangeFeed) (self_node_id : NodeId) :
    list (string * NodeId * Generation) :=
  if bool_decide (bf_source_node batch = self_node_id) then []
  else (λ n, (cn_state_name n, cn_source_node n, cn_generation n)) <$> bf_notifications batch.

Lemma flush_some cf cf' batch :
  change_feed_flush cf = (cf', Some batch) →
  cf_pending cf' = ∅ ∧ cf_node_id cf' = cf_node_id cf ∧
  bf_source_node batch = cf_node_id cf ∧
  (∀ n s g, mkChangeNotification n s g ∈ bf_notifications batch ↔
     cf_pending cf !! (n, s) = Some g) ∧
  length (bf_notifications batch) = pending_count cf.
Proof.
  unfold change_feed_flush. case_bool_decide; [done|]. intros [= <- <-]; simpl.
  split_and!; [done..| |].
  - intros n s g. rewrite list_elem_of_fmap. split.
    + intros ([[n' s'] g'] & Heq & Hin). simplify_eq/=. by rewrite elem_of_hm_iter in Hin.
    + intros Hk. exists (n, s, g). by rewrite elem_of_hm_iter.
  - by rewrite length_fmap, length_hm_iter.
Qed.

Lemma flush_none cf cf' :
  change_feed_flush cf = (cf', None) ↔ cf' = cf ∧ cf_pending cf = ∅.
Proof. unfold change_feed_flush. case_bool_decide; naive_solver. Qed.
End ChangeFeed.

(** A run of notifications. *)
Definition notify_all (cf : ChangeFeedLogic) (l : list (string * NodeId * Generation)) :
    ChangeFeedLogic :=
  foldl (λ cf '((n, s), g), notify_change cf n s g) cf l.

(** [g] is the highest generation the notifications [l] carry for [key], on top of
    what was pending. *)
Definition highest (key : string * NodeId) (g : Generation) (l : list (string * NodeId * Generation)) :
    Prop :=
  (key, g) ∈ l ∧ ∀ g', (key, g') ∈ l → g' ≤g g.

Lemma notify_change_lookup cf n s g key :
  cf_pending (notify_change cf n s g) !! key =
    if decide (key = (n, s))
    then Some (match cf_pending cf !! key with
               | Some e => if generation_ltb e g then g else e
               | None => g
               end)
    else cf_pending cf !! key.
Proof.
  unfold notify_change. case_decide as Hk; simpl.
  - subst. destruct (cf_pending cf !! (n, s)); by rewrite lookup_insert_eq.
  - destruct (cf_pending cf !! (n, s)); by rewrite lookup_insert_ne.
Qed.

Lemma notify_all_spec l : ∀ cf key,
  match cf_pending (notify_all cf l) !! key with
  | Some g =>
      ((key, g) ∈ l ∨ cf_pending cf !! key = Some g) ∧
      (∀ g', (key, g') ∈ l ∨ cf_pending cf !! key = Some g' → g' ≤g g)
  | None => cf_pending cf !! key = None ∧ ∀ g', (key, g') ∉ l
  end.
Proof.
  induction l as [|[[n s] g0] l IH]; intros cf key; simpl.
  { destruct (cf_pending cf !! key) as [g|]; split; [by right| |done|set_solver].
    intros g' [?|[= ->]]; [set_solver|]. gen_lia. }
  specialize (IH (notify_change cf n s g0) key). rewrite notify_change_lookup in IH.
  fold (notify_all (notify_change cf n s g0) l).
  destruct (cf_pending (notify_all _ l) !! key) as [g|].
  - destruct IH as [Hin Hmax]. case_decide as Hk; [subst|split; [set_solver|]].
    + destruct (cf_pending cf !! (n, s)) as [e|] eqn:Ee.
      * destruct (generation_ltb e g0) eqn:El; gen_norm; (split; [set_solver|]);
          intros g' [[?|?]%elem_of_cons|?]; simplify_eq; eauto;
          specialize (Hmax _ (or_intror eq_refl)); gen_lia.
      * split; [set_solver|]. intros g' [[?|?]%elem_of_cons|?]; simplify_eq; eauto.
    + intros g' [[?|?]%elem_of_cons|?]; simplify_eq; eauto.
  - case_decide as Hk; destruct IH; [done|]. split; [done|].
    intros g' [?|?]%elem_of_cons; set_solver.
Qed.

Lemma notify_all_node_id l : ∀ cf, cf_node_id (notify_all cf l) = cf_node_id cf.
Proof.
  induction l as [|[[n s] g] l IH]; intros cf; [done|].
  exact (IH (notify_change cf n s g)).
Qed.

(** [C32] Deduplication end to end: after any notifications and a flush, the batch
    a peer routes holds, for each state and source node that was notified, exactly
    one entry, and it carries the highest generation notified; nothing is left
    pending; without notifications there is no batch; and the sender itself routes
    nothing. *)
Theorem feed_batch_carries_maxima `{HashIter} (self peer : NodeId)
    (l : list (string * NodeId * Generation)) :
  match change_feed_flush (notify_all (change_feed_new self) l) with
  | (cf, None) => l = [] ∧ cf_pending cf = ∅
  | (cf, Some batch) =>
      cf_pending cf = ∅ ∧ l ≠ [] ∧
      route_inbound_batch batch self = [] ∧
      (peer ≠ self →
        (∀ key g, (key, g) ∈ route_inbound_batch batch peer ↔ highest key g l) ∧
        NoDup (route_inbound_batch batch peer).*1)
  end.
Proof.
  pose proof (notify_all_spec l (change_feed_new self)) as Hspec.
  destruct (change_feed_flush _) as [cf [batch|]] eqn:Hf.
  - pose proof (flush_some _ _ _ Hf) as (Hp & _ & Hsrc & Hin & Hlen).
    rewrite notify_all_node_id in Hsrc. simpl in Hsrc. split_and!; [done| | |].
    + intros ->. unfold change_feed_flush in Hf. by case_bool_decide.
    + unfold route_inbound_batch. by rewrite bool_decide_eq_true_2.
    + intros Hne. unfold route_inbound_batch. rewrite bool_decide_eq_false_2 by congruence.
      split.
      * intros [n s] g. specialize (Hspec (n, s)). unfold highest.
        assert (((n, s), g) ∈ ((λ n, (cn_state_name n, cn_source_node n, cn_generation n))
          <$> bf_notifications batch) ↔
          cf_pending (notify_all (change_feed_new self) l) !! (n, s) = Some g) as ->.
        { rewrite <- Hin, list_elem_of_fmap. split; [intros ([] & ? & ?); by simplify_eq/=|].
          intros. by exists (mkChangeNotification n s g). }
        destruct (cf_pending _ !! (n, s)) as [g1|]; simpl in Hspec.
        -- rewrite lookup_empty in Hspec. destruct Hspec as [[?|?] Hmax]; [|done].
           split; [intros [= <-]; naive_solver|]. intros [Hg Hm]. f_equal.
           apply (anti_symm gen_le); eauto.
        -- destruct Hspec as [_ Hno]. naive_solver.
      * revert Hf. unfold change_feed_flush. case_bool_decide; [done|].
        intros [= <- <-]; simpl. rewrite <- !list_fmap_compose.
        erewrite list_fmap_ext; [apply NoDup_hm_iter_fst|]. by intros ? [[??]?] _.
  - apply flush_none in Hf as [-> Hp]. split; [|done].
    destruct l as [|[[n s] g] l]; [done|]. specialize (Hspec (n, s)).
    rewrite Hp, lookup_empty in Hspec. destruct Hspec as [_ Hno]. destruct (Hno g). by left.
Qed.
