(* ===== verification/Versioning.v ===== *)
(** Wire-version policy and storage migration ([core/versioning_logic.rs]). *)
From stdpp Require Import prelude strings pretty.
From S2P Require Import Prelude Node Clock Types.

(** [VersionMismatchAction]. *)
Inductive VersionMismatchAction : Type :=
| KeepStale (wire_version : Z) (reason : string)
| DropView (wire_version : Z) (reason : string).

(** [InboundVersionResult<V>]. *)
Inductive InboundVersionResult (V : Type) : Type :=
| VersionOk (v : V)
| VersionMismatch (a : VersionMismatchAction)
| MalformedData (msg : string).
Arguments VersionOk {V}.
Arguments VersionMismatch {V}.
Arguments MalformedData {V}.

(** [VersioningLogic]. *)
Record VersioningLogic : Type := mkVersioning {
  vl_state_name : string;
  vl_policy : VersionMismatchPolicy;
  current_wire_version : Z;
  current_storage_version : Z
}.

(** [VersioningLogic::new]. *)
Definition versioning_new (state_name : string) (policy : VersionMismatchPolicy)
    (current_wire_version current_storage_version : Z) : VersioningLogic :=
  mkVersioning state_name policy current_wire_version current_storage_version.

(** The text of [format!] in [on_deserialize_error]. *)
Definition mismatch_reason (l : VersioningLogic) (wire_version : Z) : string :=
  "state '" +:+ vl_state_name l +:+ "': received wire_version=" +:+ pretty wire_version
  +:+ ", local outbound wire_version is " +:+ pretty (current_wire_version l).

Definition on_deserialize_error (l : VersioningLogic) (wire_version : Z) :
    VersionMismatchAction :=
  let reason := mismatch_reason l wire_version in
  match vl_policy l with
  | KeepStalePolicy => KeepStale wire_version reason
  | DropAndWait => DropView wire_version reason
  end.

Definition action_reason (a : VersionMismatchAction) : string :=
  match a with KeepStale _ r | DropView _ r => r end.

Section Versioning.
Context {V S : Type}.

Definition on_inbound (l : VersioningLogic) (data : bytes) (wire_version : Z)
    (deserialize_fn : bytes → Z → result V DeserializeError) : InboundVersionResult V :=
  match deserialize_fn data wire_version with
  | Ok value => VersionOk value
  | Err (UnknownVersion v) => VersionMismatch (on_deserialize_error l v)
  | Err (Malformed msg) => MalformedData msg
  end.

Definition try_load_with_migration (l : VersioningLogic) (data : bytes)
    (stored_version : Z) (deserialize_fn migrate_fn : bytes → Z → result S DeserializeError) :
    result S DeserializeError :=
  if stored_version =? current_storage_version l
  then deserialize_fn data stored_version
  else migrate_fn data stored_version.
End Versioning.

(** Inbound data is classified by the deserializer and the policy alone: the
    view when it is readable, the drop of the peer's view exactly for an unknown
    version under [DropAndWait], its retention exactly for an unknown version under
    [KeepStale], the error text for malformed data; stored data is migrated exactly
    when its version is not the current one. *)
Theorem versioning_classification {V S} (l : VersioningLogic) (data : bytes) (w : Z)
    (de : bytes → Z → result V DeserializeError)
    (load migrate : bytes → Z → result S DeserializeError) :
  (∀ v, on_inbound l data w de = VersionOk v ↔ de data w = Ok v) ∧
  (∀ msg, on_inbound l data w de = MalformedData msg ↔ de data w = Err (Malformed msg)) ∧
  (∀ u r, on_inbound l data w de = VersionMismatch (DropView u r) ↔
     de data w = Err (UnknownVersion u) ∧ vl_policy l = DropAndWait ∧ r = mismatch_reason l u) ∧
  (∀ u r, on_inbound l data w de = VersionMismatch (KeepStale u r) ↔
     de data w = Err (UnknownVersion u) ∧ vl_policy l = KeepStalePolicy ∧
     r = mismatch_reason l u) ∧
  try_load_with_migration l data (current_storage_version l) load migrate =
    load data (current_storage_version l) ∧
  (∀ s, s ≠ current_storage_version l →
     try_load_with_migration l data s load migrate = migrate data s).
Proof.
  unfold on_inbound, on_deserialize_error, try_load_with_migration.
  rewrite Z.eqb_refl. split_and!.
  1-4: intros; destruct (de data w) as [|[]], (vl_policy l); naive_solver.
  - done.
  - intros s Hs. by rewrite (proj2 (Z.eqb_neq _ _) Hs).
Qed.
