(* ===== verification/Startup.v ===== *)
(** Start-up from persisted storage ([core/persistence_startup_logic.rs]), the
    [StatePersistence] trait ([traits/persistence.rs]) and its two test
    implementations ([test_support/test_persist.rs]). *)
From stdpp Require Import prelude strings.
From S2P Require Import Prelude Node Clock Types.

(** [StartupOutcome<S>]. *)
Inductive StartupOutcome (S : Type) : Type :=
| Fresh (state : StateObject S)
| Restored (state : StateObject S)
| Migrated (state : StateObject S) (from_version : Z)
| FallbackToEmpty (state : StateObject S) (reason : string).
Arguments Fresh {S}.
Arguments Restored {S}.
Arguments Migrated {S}.
Arguments FallbackToEmpty {S}.

(** [into_state] consumes the outcome, [state] borrows from it. *)
Definition into_state {S} (o : StartupOutcome S) : StateObject S :=
  match o with
  | Fresh st | Restored st => st
  | Migrated st _ => st
  | FallbackToEmpty st _ => st
  end.
Definition outcome_state {S} (o : StartupOutcome S) : StateObject S :=
  match o with
  | Fresh st | Restored st | Migrated st _ | FallbackToEmpty st _ => st
  end.

(** [PersistenceStartupLogic]. *)
Record PersistenceStartupLogic : Type := mkStartup { ps_storage_version : Z }.

Section Startup.
Context {S C : Type} `{Clock C}.

Definition fresh_state (l : PersistenceStartupLogic) (value : S) (clk : C) : StateObject S :=
  mkStateObject (generation_new (as_u64 (unix_ms clk)) 0) (ps_storage_version l) value
    (unix_ms clk) (unix_ms clk).

Definition fresh_state_at_least (l : PersistenceStartupLogic) (value : S) (clk : C)
    (old_incarnation : Z) : StateObject S :=
  let incarnation := Z.max (as_u64 (unix_ms clk)) (u64_add old_incarnation 1) in
  mkStateObject (generation_new incarnation 0) (ps_storage_version l) value
    (unix_ms clk) (unix_ms clk).

Definition initialize (l : PersistenceStartupLogic)
    (load_result : result (option (StateObject S)) PersistError) (default_value : S)
    (clk : C) (migrate_fn : S → Z → result S string) : StartupOutcome S :=
  match load_result with
  | Err e => FallbackToEmpty (fresh_state l default_value clk) (persist_error_display e)
  | Ok None => Fresh (fresh_state l default_value clk)
  | Ok (Some loaded) =>
      if so_storage_version loaded =? ps_storage_version l then Restored loaded
      else
        match migrate_fn (so_value loaded) (so_storage_version loaded) with
        | Ok migrated_value =>
            Migrated (mkStateObject (so_generation loaded) (ps_storage_version l)
              migrated_value (so_created_time loaded) (so_modified_time loaded))
              (so_storage_version loaded)
        | Err reason =>
            FallbackToEmpty (fresh_state_at_least l default_value clk
              (so_incarnation loaded)) reason
        end
  end.

(** [StatePersistence<S>]: [St] is the storage; [save] returns it updated. *)
Class StatePersistence (St D : Type) : Type := {
  persist_save : St → StateObject S → option D → St * result () PersistError;
  persist_load : St → result (option (StateObject S)) PersistError
}.

(** [InMemoryPersistence]: one optional envelope. *)
Record InMemoryPersistence : Type := mkInMemory { stored : option (StateObject S) }.
Definition in_memory_new : InMemoryPersistence := mkInMemory None.

Definition in_memory_save (p : InMemoryPersistence) (st : StateObject S) (d : option ()) :
    InMemoryPersistence * result () PersistError := (mkInMemory (Some st), Ok ()).
Definition in_memory_load (p : InMemoryPersistence) :
    result (option (StateObject S)) PersistError := Ok (stored p).

Global Instance InMemory_persistence : StatePersistence InMemoryPersistence () := {|
  persist_save := in_memory_save;
  persist_load := in_memory_load
|}.

(** [FailingPersistence]. *)
Record FailingPersistence : Type := mkFailing {}.
Definition failing_error : PersistError :=
  StorageUnavailable "FailingPersistence always fails".
Definition failing_save (p : FailingPersistence) (st : StateObject S) (d : option ()) :
    FailingPersistence * result () PersistError := (p, Err failing_error).
Definition failing_load (p : FailingPersistence) :
    result (option (StateObject S)) PersistError := Err failing_error.

Global Instance Failing_persistence : StatePersistence FailingPersistence () := {|
  persist_save := failing_save;
  persist_load := failing_load
|}.
End Startup.

(** [C33] Start-up from a loaded state never goes back: the restored or migrated state keeps
    the loaded generation, and the fallback after a failed migration takes the default
    value under a strictly higher incarnation, at least the clock's and at age zero, as long
    as the loaded incarnation is not the last [u64] (there it wraps,
    [fallback_wraps_at_last_incarnation]).  The storage version is always the current one. *)
Theorem initialize_never_regresses {S C} `{Clock C} (l : PersistenceStartupLogic)
    (loaded : StateObject S) (default_value : S) (clk : C)
    (migrate_fn : S → Z → result S string) :
  0 ≤ so_incarnation loaded < u64_max →
  let o := initialize l (Ok (Some loaded)) default_value clk migrate_fn in
  so_storage_version (outcome_state o) = ps_storage_version l ∧
  match o with
  | Fresh _ => False
  | Restored st => st = loaded
  | Migrated st v =>
      v = so_storage_version loaded ∧ so_generation st = so_generation loaded ∧
      migrate_fn (so_value loaded) v = Ok (so_value st)
  | FallbackToEmpty st reason =>
      so_value st = default_value ∧ so_incarnation loaded < so_incarnation st ∧
      as_u64 (unix_ms clk) ≤ so_incarnation st ∧ age (so_generation st) = 0 ∧
      so_generation loaded <g so_generation st ∧
      migrate_fn (so_value loaded) (so_storage_version loaded) = Err reason
  end.
Proof.
  intros Hinc o. unfold o, initialize.
  destruct (Z.eqb_spec (so_storage_version loaded) (ps_storage_version l)); [done|].
  destruct (migrate_fn _ _) eqn:Hm; [done|]. simpl. split_and!; try done.
  all: unfold so_incarnation in *; simpl; rewrite u64_succ_small by done; try lia. gen_lia.
Qed.

Lemma initialize_never_regresses_witness :
  let loaded := mkStateObject (mkGeneration 5000000 7) 1 10%nat 0 0 in
  let clk := with_base_unix_ms 0 1000000 in
  let o := initialize (mkStartup 2) (Ok (Some loaded)) 0%nat clk (λ _ _, Err "unsupported"%string) in
  so_storage_version (outcome_state o) = 2 ∧ so_incarnation loaded < so_incarnation (outcome_state o).
Proof.
  pose proof (initialize_never_regresses (mkStartup 2)
    (mkStateObject (mkGeneration 5000000 7) 1 10%nat 0 0) 0%nat (with_base_unix_ms 0 1000000)
    (λ _ _, Err "unsupported"%string)) as H.
  destruct H as [H1 H2]; [by vm_compute|]. split; [exact H1|]. apply H2.
Defined.

(** [C34] The guarantee stops at the last incarnation: there the increment wraps to
    zero and the fallback falls behind the loaded state unless the clock is ahead. *)
Theorem fallback_wraps_at_last_incarnation {S C} `{Clock C} (l : PersistenceStartupLogic)
    (default_value : S) (clk : C) :
  unix_ms clk ≠ -1 → is_i64 (unix_ms clk) →
  so_incarnation (fresh_state_at_least l default_value clk u64_max) < u64_max.
Proof.
  intros Hne Hi. unfold so_incarnation, fresh_state_at_least; simpl.
  revert Hne Hi. width_lia.
Qed.

Lemma fallback_wraps_at_last_incarnation_witness :
  so_incarnation (fresh_state_at_least (mkStartup 1) 0%nat (with_base_unix_ms 0 1000000) u64_max)
    < u64_max.
Proof.
  apply (fallback_wraps_at_last_incarnation (mkStartup 1) 0%nat (with_base_unix_ms 0 1000000));
    [done|by vm_compute].
Defined.

(** Saving then starting up again restores the saved envelope unchanged when
    its storage version is current, whatever was stored before; storage that fails
    reports its error in the fallback's reason. *)
Theorem save_then_restart {S C} `{Clock C} (l : PersistenceStartupLogic)
    (p : InMemoryPersistence (S := S)) (st : StateObject S) (d : option ()) (default_value : S)
    (clk : C) (migrate_fn : S → Z → result S string) :
  so_storage_version st = ps_storage_version l →
  initialize l (persist_load (persist_save p st d).1) default_value clk migrate_fn = Restored st ∧
  (persist_save p st d).2 = Ok () ∧
  initialize l (persist_load mkFailing) default_value clk migrate_fn =
    FallbackToEmpty (fresh_state l default_value clk)
      "storage unavailable: FailingPersistence always fails".
Proof. intros Hv. split_and!; [|done..]. simpl. by rewrite (proj2 (Z.eqb_eq _ _) Hv). Qed.

Lemma save_then_restart_witness :
  let st := mkStateObject (mkGeneration 3 9) 1 42%nat 0 0 in
  initialize (mkStartup 1) (persist_load (persist_save (in_memory_new (S := nat)) st None).1) 0%nat
    (with_base_unix_ms 0 1000000) (λ v _, Ok v) = Restored st.
Proof.
  exact (proj1 (save_then_restart (mkStartup 1) in_memory_new
    (mkStateObject (mkGeneration 3 9) 1 42%nat 0 0) None 0%nat (with_base_unix_ms 0 1000000)
    (λ v _, Ok v) eq_refl)).
Defined.
