(* ===== verification/Durable.v ===== *)
(** A shard that persists before it commits, across crashes ([core/shard_core.rs],
    two-phase mutations; [core/persistence_startup_logic.rs]; [traits/persistence.rs]).

    The host prepares a mutation, saves the prepared state, and commits it once the save
    has succeeded; a failed save drops it.  It may crash between any two of these, and
    boots again from what the storage then holds, at a later time of its clock.  Ghost
    records keep every view that became visible, with its generation, and the clock at the
    last boot. *)
From stdpp Require Import prelude gmap fin_maps strings relations.
From S2P Require Import Prelude Node Clock Types ViewMap ShardCore ShardProps Startup.

(** What a storage promises: after a successful save it loads what was saved, after a
    failed one what it loaded before. *)
Class PersistenceLaws (S St D : Type) `{StatePersistence S St D} : Prop := {
  save_then_load p st d p' :
    persist_save p st d = (p', Ok ()) → persist_load p' = Ok (Some st);
  failed_save_load p st d p' e :
    persist_save p st d = (p', Err e) → persist_load p' = persist_load p
}.

Global Instance in_memory_laws {S} : PersistenceLaws S InMemoryPersistence ().
Proof. split; simpl; [by intros p st d p' [= <-]|done]. Qed.
Global Instance failing_laws {S} : PersistenceLaws S FailingPersistence ().
Proof. split; simpl; [done|by intros [] st d [] e]. Qed.

Section Durable.
Context `{HashIter} {S V M C St D : Type} `{!ViewMapOps V M} `{!ViewMapLaws V M} `{Clock C}.
Context `{!StatePersistence St D} `{!PersistenceLaws S St D}.
Context (id : NodeId) (p : S → V) (l : PersistenceStartupLogic) (default_value : S)
  (migrate_fn : S → Z → result S string).
Implicit Types (sh : ShardCore S M) (clk : C) (st : StateObject S) (g : Generation) (v : V).

Record Durable : Type := mkDurable {
  du_shard : option (ShardCore S M);
  du_prepared : option (PreparedMutation S V * bool);  (** and whether it was saved *)
  du_storage : St;
  du_visible : list (Generation * V);
  du_clock : Z  (** the incarnation the clock gave at the last boot *)
}.
Implicit Types (d : Durable).

Definition boot_outcome d clk : StartupOutcome S :=
  initialize l (persist_load (du_storage d)) default_value clk migrate_fn.

(** A node boots at a time the clock did not show at any earlier boot: of the clock, only
    that is assumed.  Every way to start is covered. *)
Inductive durable_step d : Durable → Prop :=
| du_boot clk :
    du_shard d = None → du_clock d < as_u64 (unix_ms clk) →
    let st := into_state (boot_outcome d clk) in
    let view := p (so_value st) in
    durable_step d (mkDurable (Some (shard_new id st view clk)) None (du_storage d)
      ((so_generation st, view) :: du_visible d) (as_u64 (unix_ms clk)))
| du_prepare sh f clk :
    du_shard d = Some sh → du_prepared d = None → age (so_generation (sh_state sh)) < u64_max →
    durable_step d (mkDurable (Some sh) (Some (prepare_mutation sh f p clk, false))
      (du_storage d) (du_visible d) (du_clock d))
| du_save pm x storage r :
    du_prepared d = Some (pm, false) → persist_save (du_storage d) (pm_new_state pm) x = (storage, r) →
    durable_step d (mkDurable (du_shard d)
      (match r with Ok _ => Some (pm, true) | Err _ => None end) storage (du_visible d) (du_clock d))
| du_commit sh pm clk sh' out :
    du_shard d = Some sh → du_prepared d = Some (pm, true) →
    commit_mutation sh pm clk = Done (sh', out) →
    durable_step d (mkDurable (Some sh') None (du_storage d)
      ((mo_generation out, mo_view out) :: du_visible d) (du_clock d))
| du_peers sh sh' :
    du_shard d = Some sh → shard_step (C:=C) p sh sh' → sh_state sh' = sh_state sh →
    durable_step d (mkDurable (Some sh') (du_prepared d) (du_storage d) (du_visible d) (du_clock d))
| du_crash : durable_step d (mkDurable None None (du_storage d) (du_visible d) (du_clock d)).

(** The state that the storage brings back, as it is or migrated; [None] when a start takes
    the default value under a new incarnation. *)
Definition recovered (storage : St) : option (StateObject S) :=
  match persist_load storage with
  | Ok (Some loaded) =>
      if so_storage_version loaded =? ps_storage_version l then Some loaded
      else match migrate_fn (so_value loaded) (so_storage_version loaded) with
           | Ok value => Some (mkStateObject (so_generation loaded) (ps_storage_version l) value
                                (so_created_time loaded) (so_modified_time loaded))
           | Err _ => None
           end
  | _ => None
  end.

(** A node that was down, after an earlier history of the same node, perhaps under an older
    version of its software. *)
Definition durable_init (storage : St) (visible : list (Generation * V)) (clock : Z) : Durable :=
  mkDurable None None storage visible clock.

(** ** The invariant *)

(** Nothing visible is ahead of [st], nor differs from it at its generation. *)
Definition covers st (visible : list (Generation * V)) : Prop :=
  ∀ g v, (g, v) ∈ visible → g ≤g so_generation st ∧ (g = so_generation st → v = p (so_value st)).

(** The incarnations of what is visible and of what is stored were given by earlier boots. *)
Definition clock_ok d : Prop :=
  (∀ g v, (g, v) ∈ du_visible d → incarnation g ≤ du_clock d) ∧
  (∀ loaded, persist_load (du_storage d) = Ok (Some loaded) →
     0 ≤ so_incarnation loaded ≤ du_clock d).

(** An earlier history: no generation with two views, nothing ahead of the stored state,
    and all of it from earlier boots. *)
Definition past_ok d : Prop :=
  (∀ g v v', (g, v) ∈ du_visible d → (g, v') ∈ du_visible d → v = v') ∧
  (∀ loaded, persist_load (du_storage d) = Ok (Some loaded) →
     0 ≤ age (so_generation loaded) ∧ covers loaded (du_visible d)) ∧
  clock_ok d.

(** A migration keeps the view ([migrated_view_is_discarded] shows what happens else). *)
Definition migration_keeps_view : Prop :=
  ∀ value from value', migrate_fn value from = Ok value' → p value' = p value.

(** The prepared mutation is the next one. *)
Definition prepared_from sh (pm : PreparedMutation S V) : Prop :=
  ∃ f clk, pm = prepare_mutation sh f p clk ∧ age (so_generation (sh_state sh)) < u64_max.

Definition running_ok d sh : Prop :=
  shard_inv p sh ∧ 0 ≤ age (so_generation (sh_state sh)) ∧
  so_storage_version (sh_state sh) = ps_storage_version l ∧
  0 ≤ so_incarnation (sh_state sh) ≤ du_clock d ∧
  covers (sh_state sh) (du_visible d) ∧
  (so_generation (sh_state sh), p (so_value (sh_state sh))) ∈ du_visible d ∧
  match du_prepared d with
  | Some (pm, true) => prepared_from sh pm ∧ persist_load (du_storage d) = Ok (Some (pm_new_state pm))
  | Some (pm, false) =>
      prepared_from sh pm ∧ ∀ st, recovered (du_storage d) = Some st → st = sh_state sh
  | None => ∀ st, recovered (du_storage d) = Some st → st = sh_state sh
  end.

Definition durable_ok d : Prop :=
  (∀ g v v', (g, v) ∈ du_visible d → (g, v') ∈ du_visible d → v = v') ∧
  clock_ok d ∧
  match du_shard d with
  | Some sh => running_ok d sh
  | None => du_prepared d = None ∧
      ∀ st, recovered (du_storage d) = Some st →
        0 ≤ age (so_generation st) ∧ covers st (du_visible d)
  end.

Lemma covers_cons st visible g v :
  covers st visible → so_generation st <g g → ∀ st', so_generation st' = g → v = p (so_value st') →
  covers st' ((g, v) :: visible).
Proof.
  intros Hc Hlt st' <- Hv g' v' [[= -> ->]|Hin]%elem_of_cons; [split; [gen_lia|done]|].
  destruct (Hc g' v' Hin) as [Hle _]. split; [gen_lia|]. intros ->. exfalso. gen_lia.
Qed.

Lemma visible_cons visible st g v :
  (∀ g v v', (g, v) ∈ visible → (g, v') ∈ visible → v = v') →
  covers st visible → g = so_generation st → v = p (so_value st) →
  ∀ g' v1 v2, (g', v1) ∈ (g, v) :: visible → (g', v2) ∈ (g, v) :: visible → v1 = v2.
Proof.
  intros Hf Hc -> -> g' v1 v2 [H1|H1]%elem_of_cons [H2|H2]%elem_of_cons; simplify_eq; try done.
  - symmetry. by eapply Hc.
  - by eapply Hc.
  - by eapply Hf.
Qed.

(** What comes back keeps the generation of what was stored, and is of the current version. *)
Lemma recovered_loaded storage st :
  recovered storage = Some st →
  so_storage_version st = ps_storage_version l ∧
  ∃ loaded, persist_load storage = Ok (Some loaded) ∧ so_generation st = so_generation loaded ∧
    (st = loaded ∨ migrate_fn (so_value loaded) (so_storage_version loaded) = Ok (so_value st)).
Proof.
  unfold recovered. destruct (persist_load storage) as [[loaded|]|]; try done.
  destruct (Z.eqb_spec (so_storage_version loaded) (ps_storage_version l)).
  - intros [= <-]. split; [done|]. exists loaded. auto.
  - destruct (migrate_fn _ _) eqn:Hm; [|done]. intros [= <-]. split; [done|]. exists loaded. auto.
Qed.

(** A boot takes what is recovered, and otherwise the incarnation of the clock. *)
Lemma boot_state d clk :
  clock_ok d → du_clock d < as_u64 (unix_ms clk) →
  let st := into_state (boot_outcome d clk) in
  match recovered (du_storage d) with
  | Some st' => st = st'
  | None => so_storage_version st = ps_storage_version l ∧
      so_generation st = generation_new (as_u64 (unix_ms clk)) 0
  end.
Proof.
  intros [_ Hl] Hclk. unfold boot_outcome, initialize, recovered.
  destruct (persist_load (du_storage d)) as [[loaded|]|]; simpl; [|done..].
  destruct (so_storage_version loaded =? ps_storage_version l); [done|].
  destruct (migrate_fn _ _); simpl; [done|]. split; [done|]. f_equal.
  destruct (Hl loaded eq_refl) as [Hlo Hhi]. revert Hlo Hhi Hclk. unfold so_incarnation. width_lia.
Qed.

(** What a boot starts from. *)
Lemma boot_facts d clk :
  du_clock d < as_u64 (unix_ms clk) → du_shard d = None → durable_ok d →
  let st := into_state (boot_outcome d clk) in
  so_storage_version st = ps_storage_version l ∧ 0 ≤ age (so_generation st) ∧
  0 ≤ so_incarnation st ≤ as_u64 (unix_ms clk) ∧ covers st (du_visible d) ∧
  ∀ st', recovered (du_storage d) = Some st' → st' = st.
Proof.
  intros Hclk Hnone (_ & Hck & Hok). rewrite Hnone in Hok. destruct Hok as [_ Hok].
  pose proof (boot_state d clk Hck Hclk) as Hb. destruct Hck as [Hvis Hst]. simpl in *.
  destruct (recovered (du_storage d)) as [st'|] eqn:Hrec.
  - rewrite Hb. destruct (recovered_loaded _ _ Hrec) as (? & loaded & Hl & Hg & _).
    destruct (Hok st' eq_refl) as [? ?]. specialize (Hst loaded Hl). unfold so_incarnation in *.
    rewrite Hg in *. split_and!; try done; try lia. congruence.
  - destruct Hb as [? Hg]. unfold so_incarnation. rewrite Hg. simpl.
    pose proof (as_u64_range (unix_ms clk)). split_and!; try done; try width_lia.
    intros g v Hin. specialize (Hvis g v Hin). rewrite Hg. simpl.
    split; [gen_lia|]. intros ->. simpl in Hvis. lia.
Qed.

Lemma boot_ok d clk :
  durable_ok d → du_shard d = None → du_clock d < as_u64 (unix_ms clk) →
  let st := into_state (boot_outcome d clk) in
  durable_ok (mkDurable (Some (shard_new id st (p (so_value st)) clk)) None (du_storage d)
    ((so_generation st, p (so_value st)) :: du_visible d) (as_u64 (unix_ms clk))).
Proof.
  intros Hok Hnone Hclk st. destruct (boot_facts d clk Hclk Hnone Hok) as (Hv & Hage & Hi & Hc & Huse).
  fold st in Hv, Hage, Hi, Hc, Huse. destruct Hok as (Hf & [Hvis Hst] & _).
  split; [|split; [split|]]; simpl.
  - by apply (visible_cons _ st).
  - intros g v [[= -> ->]|Hin]%elem_of_cons; [by apply Hi|]. specialize (Hvis g v Hin). lia.
  - intros loaded Hl. specialize (Hst loaded Hl). lia.
  - split_and!; simpl; [apply shard_new_inv|done|done|lia|lia| |by left|done].
    intros g v [[= -> ->]|Hin]%elem_of_cons; [split; [gen_lia|done]|by apply Hc].
Qed.

Lemma prepared_next sh f clk :
  0 ≤ age (so_generation (sh_state sh)) < u64_max →
  let st := pm_new_state (prepare_mutation (M:=M) sh f p clk) in
  so_generation (sh_state sh) <g so_generation st ∧
  age (so_generation st) = age (so_generation (sh_state sh)) + 1 ∧
  so_incarnation st = so_incarnation (sh_state sh).
Proof. intros Hage. simpl. rewrite u64_succ_small by done. split_and!; [gen_lia|done..]. Qed.

(** Committing what was saved. *)
Lemma commit_ok d sh pm clk sh' out :
  durable_ok d → du_shard d = Some sh → du_prepared d = Some (pm, true) →
  commit_mutation sh pm clk = Done (sh', out) →
  durable_ok (mkDurable (Some sh') None (du_storage d)
    ((mo_generation out, mo_view out) :: du_visible d) (du_clock d)).
Proof.
  intros (Hf & [Hvis Hst] & Hok) Hsh Hpm Hcommit. rewrite Hsh in Hok.
  destruct Hok as (Hinv & Hage & Hver & Hi & Hc & _ & Hprep). rewrite Hpm in Hprep.
  destruct Hprep as [(f & clk0 & -> & Hmax) Hload].
  destruct (prepared_next sh f clk0 ltac:(lia)) as (Hlt & Hage' & Hi').
  unfold commit_mutation in Hcommit. rewrite bool_decide_eq_true_2 in Hcommit by done.
  set (st := pm_new_state (prepare_mutation sh f p clk0)) in *.
  change (Done (update_own_view (set_state sh st) (p (so_value st)) clk,
    mkMutationOutcome (so_generation st) (p (so_value st))) = Done (sh', out)) in Hcommit.
  assert (so_storage_version st = ps_storage_version l) as Hv' by done.
  clearbody st. injection Hcommit as <- <-. split; [|split; [split|]]; simpl.
  - apply (visible_cons _ st); [exact Hf| |done..].
    intros g v Hin. destruct (Hc g v Hin) as [Hle _]. split; [gen_lia|]. intros ->. exfalso. gen_lia.
  - intros g v [[= -> ->]|Hin]%elem_of_cons; [|by eapply Hvis]. unfold so_incarnation in *. lia.
  - exact Hst.
  - split_and!; simpl; [by apply commit_inv|lia|done|lia|lia| |by left|].
    + by apply (covers_cons (sh_state sh) _ _ _ Hc Hlt).
    + intros st' Hrec. destruct (recovered_loaded _ _ Hrec) as (_ & loaded & Hl & _ & Hor).
      revert Hrec. unfold recovered. rewrite Hload. rewrite Hv', Z.eqb_refl. by intros [= <-].
Qed.

(** A save changes neither what runs nor what is visible. *)
Lemma save_ok d pm x storage r :
  durable_ok d → du_prepared d = Some (pm, false) →
  persist_save (du_storage d) (pm_new_state pm) x = (storage, r) →
  durable_ok (mkDurable (du_shard d) (match r with Ok _ => Some (pm, true) | Err _ => None end)
    storage (du_visible d) (du_clock d)).
Proof.
  intros (Hf & [Hvis Hst] & Hok) Hpm Hsave. destruct (du_shard d) as [sh|] eqn:Hsh.
  2: { destruct Hok as [? _]. congruence. }
  destruct Hok as (Hinv & Hage & Hver & Hi & Hc & Hin & Hprep). rewrite Hpm in Hprep.
  destruct Hprep as [(f & clk & -> & Hmax) Hrec].
  destruct (prepared_next sh f clk ltac:(lia)) as (_ & _ & Hi'). split; [done|].
  destruct r as [[]|e].
  - pose proof (save_then_load _ _ _ _ Hsave) as Hload. split.
    + split; [done|]. simpl. rewrite Hload. intros loaded [= <-].
      unfold so_incarnation in *. simpl in *. lia.
    + unfold running_ok; simpl. split_and!; try done; try lia. by exists f, clk.
  - pose proof (failed_save_load _ _ _ _ _ Hsave) as Hload. split.
    + split; [done|]. simpl. by rewrite Hload.
    + unfold running_ok; simpl. split_and!; try done; try lia. unfold recovered in *. by rewrite Hload.
Qed.

(** What a crash leaves. *)
Lemma crash_ok d :
  durable_ok d → durable_ok (mkDurable None None (du_storage d) (du_visible d) (du_clock d)).
Proof.
  intros (Hf & Hck & Hok). split; [done|]. split; [done|]. split; [done|]. simpl.
  destruct (du_shard d) as [sh|]; [|by apply Hok].
  destruct Hok as (_ & Hage & _ & _ & Hc & _ & Hprep). intros st Hrec.
  destruct (du_prepared d) as [[pm []]|].
  - destruct Hprep as [(f & clk & -> & Hmax) Hload].
    destruct (prepared_next sh f clk ltac:(lia)) as (Hlt & Hage' & _).
    destruct (recovered_loaded _ _ Hrec) as (_ & loaded & Hl & Hg & _).
    assert (loaded = pm_new_state (prepare_mutation sh f p clk)) as -> by congruence.
    rewrite Hg. split; [lia|].
    intros g v Hin. destruct (Hc g v Hin) as [Hle _]. rewrite Hg.
    split; [gen_lia|]. intros ->. exfalso. gen_lia.
  - destruct Hprep as [_ Hu]. rewrite (Hu st Hrec). by split.
  - rewrite (Hprep st Hrec). by split.
Qed.

Lemma durable_step_ok d d' : durable_ok d → durable_step d d' → durable_ok d'.
Proof.
  intros Hok Hstep. destruct Hstep as [clk Hnone Hclk st view|sh f clk Hsh Hnone Hage
    |pm x storage r Hpm Hsave|sh pm clk sh' out Hsh Hpm Hcommit|sh sh' Hsh Hstep Hst|].
  - by apply boot_ok.
  - destruct Hok as (Hf & Hck & Hok). rewrite Hsh in Hok.
    destruct Hok as (? & ? & ? & ? & ? & ? & Hrec). rewrite Hnone in Hrec.
    split; [done|]. split; [done|]. unfold running_ok; simpl. split_and!; try done; try lia.
    by exists f, clk.
  - by eapply save_ok.
  - by eapply commit_ok.
  - destruct Hok as (Hf & Hck & Hok). split; [done|]. split; [done|]. simpl. rewrite Hsh in Hok.
    destruct Hok as (Hinv & ? & ? & ? & ? & ? & Hprep). unfold running_ok. rewrite Hst. simpl.
    split_and!; try done; try lia; [by eapply shard_step_inv|].
    destruct (du_prepared d) as [[pm []]|]; [destruct Hprep as [(f & clk & -> & ?) ?]..|done];
      (split; [|done]; exists f, clk; unfold prepare_mutation; by rewrite Hst).
  - by apply crash_ok.
Qed.

Lemma durable_reach_ok storage visible clock d :
  migration_keeps_view → past_ok (durable_init storage visible clock) →
  rtc durable_step (durable_init storage visible clock) d → durable_ok d.
Proof.
  intros Hkeep (Hf & Hpast & Hck) Hr. simpl in *.
  assert (durable_ok (durable_init storage visible clock)) as Hinit.
  { split; [done|]. split; [done|]. split; [done|]. simpl. intros st Hst.
    destruct (recovered_loaded _ _ Hst) as (_ & loaded & Hl & Hg & Hor).
    destruct (Hpast loaded Hl) as [? Hc]. rewrite Hg. split; [done|].
    intros g v Hin. destruct (Hc g v Hin) as [? Hv]. rewrite Hg. split; [done|].
    intros Heq. rewrite (Hv Heq). destruct Hor as [->|Hm]; [done|]. by rewrite (Hkeep _ _ _ Hm). }
  revert Hinit. clear Hf Hpast Hck. induction Hr; eauto using durable_step_ok.
Qed.
End Durable.

(** [C27] A node that persists before it commits never forks its history, wherever it
    crashes, whichever saves fail, and whatever comes from its peers in between.  It starts
    from the storage of an earlier history of the same node ([past_ok]), in any way the code
    has: fresh, restored, migrated or by falling back.  Assumed are that a storage loads
    what it last saved and a failed save changes nothing ([PersistenceLaws]), that every boot is at a time of the clock after
    that of every earlier boot, and that migrations keep the view.  Then no generation ever
    carries two different views, not even one before and one after a restart; what is
    visible is never ahead of the running state, whose view is visible; a saved mutation
    commits; and a crashed node boots, at any later time, at a generation at or past
    everything that was visible, with the same view if at the same generation. *)
Theorem durable_never_forks `{HashIter} {S V M C St D} `{!ViewMapOps V M} `{!ViewMapLaws V M}
    `{Clock C} `{!StatePersistence St D} `{!PersistenceLaws S St D}
    (id : NodeId) (p : S → V) (l : PersistenceStartupLogic) (default_value : S)
    (migrate_fn : S → Z → result S string) (storage : St) (visible : list (Generation * V))
    (clock : Z) (d : Durable (S:=S) (V:=V) (M:=M) (St:=St)) :
  migration_keeps_view p migrate_fn →
  past_ok (D:=D) p (durable_init (M:=M) storage visible clock) →
  rtc (durable_step (C:=C) (D:=D) id p l default_value migrate_fn)
    (durable_init storage visible clock) d →
  (∀ g v v', (g, v) ∈ du_visible d → (g, v') ∈ du_visible d → v = v') ∧
  (∀ sh, du_shard d = Some sh →
     covers p (sh_state sh) (du_visible d) ∧
     (∃ vo, get_view sh (sh_node_id sh) = Some vo ∧ (vo_generation vo, vo_value vo) ∈ du_visible d)) ∧
  (∀ sh pm (clk : C), du_shard d = Some sh → du_prepared d = Some (pm, true) →
     is_done (commit_mutation sh pm clk)) ∧
  (∀ clk : C, du_shard d = None → du_clock d < as_u64 (unix_ms clk) →
     covers p (into_state (boot_outcome (D:=D) l default_value migrate_fn d clk)) (du_visible d)).
Proof.
  intros Hkeep Hpast Hr.
  pose proof (durable_reach_ok id p l default_value migrate_fn _ _ _ d Hkeep Hpast Hr) as Hok.
  split_and!; [apply Hok|..].
  - intros sh Hsh. destruct Hok as (_ & _ & Hok). rewrite Hsh in Hok.
    destruct Hok as ((Hwf & [t Hown] & _) & _ & _ & _ & Hc & Hin & _). split; [done|].
    rewrite get_view_contents, Hown by done. by eexists.
  - intros sh pm clk Hsh Hpm. destruct Hok as (_ & _ & Hok). rewrite Hsh in Hok.
    destruct Hok as (_ & _ & _ & _ & _ & _ & Hprep). rewrite Hpm in Hprep.
    destruct Hprep as [(f & clk0 & -> & _) _]. unfold commit_mutation.
    rewrite bool_decide_eq_true_2 by done. by eexists.
  - intros clk Hnone Hclk. by destruct (boot_facts p l default_value migrate_fn d clk Hclk Hnone Hok)
      as (_ & _ & _ & ? & _).
Qed.

(** [C28] A migration changes the state but keeps its generation.  A peer that has the view
    from before it discards the snapshot of the migrated state, and keeps showing the old
    view. *)
Theorem migrated_view_is_discarded `{HashIter} {S V M C} `{!ViewMapOps V M} `{!ViewMapLaws V M}
    `{Clock C} (p : S → V) (l : PersistenceStartupLogic) (loaded st : StateObject S)
    (default_value : S) (migrate_fn : S → Z → result S string) (from_version : Z) (id : NodeId)
    (peer : ShardCore S M) (vo : StateViewObject V) (w created modified : Z) (clk1 clk2 : C) :
  initialize l (Ok (Some loaded)) default_value clk1 migrate_fn = Migrated st from_version →
  shard_wf peer → get_view peer id = Some vo → vo_generation vo = so_generation loaded →
  let snap := mkInboundSnapshot id (so_generation st) w (p (so_value st)) created modified in
  (accept_inbound_snapshot peer snap clk2).2 = Discarded ∧
  get_view (accept_inbound_snapshot peer snap clk2).1 id = Some vo.
Proof.
  intros Hinit Hwf Hvo Hg snap. pose proof (get_view_contents peer id Hwf) as Hget. rewrite Hvo in Hget.
  destruct (accept_snapshot_contents peer snap clk2 Hwf) as [Hc Hr].
  destruct (accept_snapshot_frame (S:=S) peer snap clk2) as (Hwf' & _ & _).
  assert (so_generation st = so_generation loaded) as Hst.
  { revert Hinit. unfold initialize. split_matches; by intros; simplify_eq. }
  assert (snapshot_update snap (now clk2) (contents peer !! id) = None) as Hnone.
  { rewrite <- Hget. unfold snapshot_update, should_accept. simpl. rewrite Hst, Hg.
    rewrite (proj2 (generation_ltb_ge _ _)); [done|gen_lia]. }
  simpl in Hc, Hr. rewrite Hnone in Hc, Hr. split.
  - destruct (accept_inbound_snapshot _ _ _) as [sh []]; simpl in *; [|done].
    by destruct (proj1 Hr eq_refl).
  - rewrite get_view_contents by auto. rewrite Hc. done.
Qed.
