(* ===== verification/Lifecycle.v ===== *)
(** Cluster membership ([core/lifecycle_logic.rs]): the set of departed nodes and
    the joins and leaves it coordinates with the shard. *)
From stdpp Require Import prelude gmap fin_sets.
From S2P Require Import Prelude Node Clock Types ViewMap ShardCore.

(** [JoinAction] and [LeaveAction]. *)
Inductive JoinAction : Type := SendSnapshotToPeer (target : NodeId).
Inductive LeaveAction : Type := PeerRemoved (node_id : NodeId).

(** [LifecycleLogic]. *)
Record LifecycleLogic : Type := mkLifecycle { departed_nodes : gset NodeId }.

Definition lifecycle_new : LifecycleLogic := mkLifecycle ∅.

Definition is_departed (l : LifecycleLogic) (id : NodeId) : bool :=
  bool_decide (id ∈ departed_nodes l).
Definition should_accept_from (l : LifecycleLogic) (id : NodeId) : bool :=
  negb (bool_decide (id ∈ departed_nodes l)).
Definition departed_count (l : LifecycleLogic) : nat := size (departed_nodes l).

Section Lifecycle.
Context `{HashIter} {S V M C : Type} `{!ViewMapOps V M} `{Clock C}.
Implicit Types (sh : ShardCore S M) (l : LifecycleLogic).

(** [LifecycleLogic::on_node_joined]. *)
Definition lifecycle_on_node_joined l sh (id : NodeId) (default_view : V) (clk : C) :
    LifecycleLogic * ShardCore S M * list JoinAction :=
  (mkLifecycle (departed_nodes l ∖ {[id]}),
   shard_on_node_joined sh id default_view clk,
   [SendSnapshotToPeer id]).

(** [LifecycleLogic::on_node_left]. *)
Definition lifecycle_on_node_left l sh (id : NodeId) :
    LifecycleLogic * ShardCore S M * LeaveAction :=
  (mkLifecycle ({[id]} ∪ departed_nodes l), shard_on_node_left sh id, PeerRemoved id).
End Lifecycle.

(** No view of a departed node, the local node apart. *)
Definition departed_hidden {S V M} `{ViewMapOps V M} (l : LifecycleLogic)
    (sh : ShardCore S M) : Prop :=
  ∀ id, id ∈ departed_nodes l → id ≠ sh_node_id sh → vm_contents (sh_views sh) !! id = None.

Section LifecycleProofs.
Context `{HashIter} {S V M C : Type} `{!ViewMapOps V M} `{!ViewMapLaws V M} `{Clock C}.
Implicit Types (sh : ShardCore S M) (l : LifecycleLogic).

Lemma should_accept_from_spec l id : should_accept_from l id = true ↔ id ∉ departed_nodes l.
Proof. unfold should_accept_from. by rewrite negb_true_iff, bool_decide_eq_false. Qed.

Lemma on_node_joined_hidden l sh id v clk :
  shard_wf sh → departed_hidden l sh →
  departed_hidden (lifecycle_on_node_joined l sh id v clk).1.1
    (lifecycle_on_node_joined l sh id v clk).1.2.
Proof.
  intros Hwf Hd k Hk Hne. simpl in *. apply elem_of_difference in Hk as [Hk Hki].
  destruct (node_joined_frame (S:=S) sh id v clk) as (_ & Hid & _). rewrite Hid in Hne.
  change (contents (shard_on_node_joined sh id v clk) !! k = None).
  rewrite node_joined_contents by done. specialize (Hd k Hk Hne).
  case_bool_decide; [done|]. destruct (contents sh !! id); [done|].
  rewrite lookup_insert_ne by set_solver. done.
Qed.

Lemma on_node_left_hidden l sh id :
  shard_wf sh → departed_hidden l sh →
  departed_hidden (lifecycle_on_node_left l sh id).1.1 (lifecycle_on_node_left l sh id).1.2.
Proof.
  intros Hwf Hd k Hk Hne. simpl in *.
  destruct (node_left_frame (S:=S) sh id) as (_ & Hid & _). rewrite Hid in Hne.
  change (contents (shard_on_node_left sh id) !! k = None).
  rewrite node_left_contents by done. case_bool_decide as Hself.
  - apply Hd; [|done]. set_solver.
  - destruct (decide (k = id)) as [->|Hki]; [apply lookup_delete_eq|].
    rewrite lookup_delete_ne by done. apply Hd; [set_solver|done].
Qed.

(** Dropping a view keeps departed nodes hidden. *)
Lemma shard_left_hidden l sh id :
  shard_wf sh → departed_hidden l sh → departed_hidden l (shard_on_node_left sh id).
Proof.
  intros Hwf Hd k Hk Hne. destruct (node_left_frame (S:=S) sh id) as (_ & Hid & _).
  rewrite Hid in Hne. change (contents (shard_on_node_left sh id) !! k = None).
  rewrite node_left_contents by done. specialize (Hd k Hk Hne).
  case_bool_decide; [done|]. rewrite lookup_delete. by case_decide.
Qed.

(** Updates of nodes that have not departed keep departed nodes hidden. *)
Lemma insert_hidden l sh sh' id vo :
  departed_hidden l sh → sh_node_id sh' = sh_node_id sh → id ∉ departed_nodes l →
  contents sh' = <[id := vo]> (contents sh) → departed_hidden l sh'.
Proof.
  intros Hd Hid Hni Hc k Hk Hne. rewrite Hid in Hne.
  change (contents sh' !! k = None). rewrite Hc, lookup_insert_ne by (intros ->; done).
  by apply Hd.
Qed.

Lemma same_hidden l sh sh' :
  departed_hidden l sh → sh_node_id sh' = sh_node_id sh → contents sh' = contents sh →
  departed_hidden l sh'.
Proof.
  intros Hd Hid Hc k Hk Hne. rewrite Hid in Hne. change (contents sh' !! k = None).
  rewrite Hc. by apply Hd.
Qed.
End LifecycleProofs.
