(* ===== verification/Diagnostics.v ===== *)
(** Synchronisation diagnostics ([core/diagnostics.rs]): counters, per-peer
    tracking, sync status and health. *)
From stdpp Require Import prelude gmap fin_maps strings.
From S2P Require Import Prelude Node Clock Types ViewMap ShardCore.

(** [PeerSyncStatus]. *)
Record PeerSyncStatus : Type := mkPeerSyncStatus {
  ps_node_id : NodeId;
  ps_local_age : Z;
  ps_remote_age : option Z;
  ps_gap_count : Z;
  ps_consecutive_failures : Z;
  ps_last_sync_time : option Z;
  ps_last_attempt_time : option Z;
  ps_last_error : option string;
  ps_last_sync_latency_ms : option Z
}.

(** [StateSyncMetrics]: ten [u64] counters. *)
Record StateSyncMetrics : Type := mkMetrics {
  total_mutations : Z;
  deltas_sent : Z;
  deltas_received : Z;
  snapshots_sent : Z;
  snapshots_received : Z;
  deltas_suppressed : Z;
  deltas_immediate : Z;
  sync_failures : Z;
  age_gaps_detected : Z;
  stale_deltas_discarded : Z
}.

Definition metrics_default : StateSyncMetrics := mkMetrics 0 0 0 0 0 0 0 0 0 0.

(** [HealthStatus] and [StateHealth]. *)
Inductive HealthStatus : Type := Healthy | Degraded | Unhealthy.

Record StateHealth : Type := mkStateHealth {
  h_state_name : string;
  healthy_peers : Z;
  stale_peers_count : Z;
  failing_peers : Z;
  h_status : HealthStatus
}.

(** [PeerDiagnostics]. *)
Record PeerDiagnostics : Type := mkPeerDiagnostics {
  consecutive_failures : Z;
  gap_count : Z;
  last_sync_time : option Z;
  last_attempt_time : option Z;
  last_error : option string;
  last_sync_latency_ms : option Z
}.

Definition peer_diagnostics_default : PeerDiagnostics :=
  mkPeerDiagnostics 0 0 None None None None.

(** [DiagnosticsLogic]. *)
Record DiagnosticsLogic : Type := mkDiagnostics {
  d_state_name : string;
  metrics : StateSyncMetrics;
  d_peers : gmap NodeId PeerDiagnostics
}.

Definition diagnostics_new (state_name : string) : DiagnosticsLogic :=
  mkDiagnostics state_name metrics_default ∅.

(** Adds to the ten counters; [add_metrics m d] is the pointwise sum. *)
Definition add_metrics (m d : StateSyncMetrics) : StateSyncMetrics :=
  mkMetrics
    (u64_add (total_mutations m) (total_mutations d))
    (u64_add (deltas_sent m) (deltas_sent d))
    (u64_add (deltas_received m) (deltas_received d))
    (u64_add (snapshots_sent m) (snapshots_sent d))
    (u64_add (snapshots_received m) (snapshots_received d))
    (u64_add (deltas_suppressed m) (deltas_suppressed d))
    (u64_add (deltas_immediate m) (deltas_immediate d))
    (u64_add (sync_failures m) (sync_failures d))
    (u64_add (age_gaps_detected m) (age_gaps_detected d))
    (u64_add (stale_deltas_discarded m) (stale_deltas_discarded d)).

(** One more of each counter. *)
Definition one_mutation : StateSyncMetrics := mkMetrics 1 0 0 0 0 0 0 0 0 0.
Definition one_delta_sent : StateSyncMetrics := mkMetrics 0 1 0 0 0 0 0 0 0 0.
Definition one_delta_received : StateSyncMetrics := mkMetrics 0 0 1 0 0 0 0 0 0 0.
Definition one_snapshot_sent : StateSyncMetrics := mkMetrics 0 0 0 1 0 0 0 0 0 0.
Definition one_snapshot_received : StateSyncMetrics := mkMetrics 0 0 0 0 1 0 0 0 0 0.
Definition one_delta_suppressed : StateSyncMetrics := mkMetrics 0 0 0 0 0 1 0 0 0 0.
Definition one_delta_immediate : StateSyncMetrics := mkMetrics 0 0 0 0 0 0 1 0 0 0.
Definition one_sync_failure : StateSyncMetrics := mkMetrics 0 0 0 0 0 0 0 1 0 0.
Definition one_age_gap : StateSyncMetrics := mkMetrics 0 0 0 0 0 0 0 0 1 0.
Definition one_stale_discarded : StateSyncMetrics := mkMetrics 0 0 0 0 0 0 0 0 0 1.

Definition count (d : DiagnosticsLogic) (m : StateSyncMetrics) : DiagnosticsLogic :=
  mkDiagnostics (d_state_name d) (add_metrics (metrics d) m) (d_peers d).

(** [self.peers.entry(peer).or_default()] and the update of the entry. *)
Definition update_peer (d : DiagnosticsLogic) (peer : NodeId)
    (f : PeerDiagnostics → PeerDiagnostics) : DiagnosticsLogic :=
  mkDiagnostics (d_state_name d) (metrics d)
    (<[peer := f (default peer_diagnostics_default (d_peers d !! peer))]> (d_peers d)).

Section Recording.
Context {C : Type} `{Clock C}.
Implicit Types (d : DiagnosticsLogic) (clk : C).

Definition record_sync_success d (peer : NodeId) (latency_ms : Z) clk : DiagnosticsLogic :=
  update_peer d peer (λ p,
    mkPeerDiagnostics 0 (gap_count p) (Some (unix_ms clk)) (Some (unix_ms clk)) None
      (Some latency_ms)).

Definition record_sync_failure d (peer : NodeId) (error : string) clk : DiagnosticsLogic :=
  count
    (update_peer d peer (λ p,
      mkPeerDiagnostics (u32_add (consecutive_failures p) 1) (gap_count p)
        (last_sync_time p) (Some (unix_ms clk)) (Some error) (last_sync_latency_ms p)))
    one_sync_failure.

Definition record_gap_detected d (peer : NodeId) : DiagnosticsLogic :=
  count
    (update_peer d peer (λ p,
      mkPeerDiagnostics (consecutive_failures p) (u64_add (gap_count p) 1)
        (last_sync_time p) (last_attempt_time p) (last_error p) (last_sync_latency_ms p)))
    one_age_gap.

Definition record_mutation d : DiagnosticsLogic := count d one_mutation.
Definition record_delta_sent d : DiagnosticsLogic := count d one_delta_sent.

Definition record_delta_received d (peer : NodeId) (latency_ms : Z) clk : DiagnosticsLogic :=
  record_sync_success (count d one_delta_received) peer latency_ms clk.

Definition record_snapshot_sent d : DiagnosticsLogic := count d one_snapshot_sent.

Definition record_snapshot_received d (peer : NodeId) (latency_ms : Z) clk : DiagnosticsLogic :=
  record_sync_success (count d one_snapshot_received) peer latency_ms clk.

Definition record_delta_suppressed d : DiagnosticsLogic := count d one_delta_suppressed.
Definition record_delta_immediate d : DiagnosticsLogic := count d one_delta_immediate.
Definition record_stale_delta_discarded d : DiagnosticsLogic := count d one_stale_discarded.

(** [remove_peer]. *)
Definition remove_peer d (peer : NodeId) : DiagnosticsLogic :=
  mkDiagnostics (d_state_name d) (metrics d) (delete peer (d_peers d)).
End Recording.

Section Queries.
Context `{HashIter} {S V M C : Type} `{!ViewMapOps V M} `{Clock C}.
Implicit Types (d : DiagnosticsLogic) (sh : ShardCore S M) (clk : C).

(** One row of [sync_status]. *)
Definition peer_status d (id : NodeId) (view : StateViewObject V) : PeerSyncStatus :=
  let diag := d_peers d !! id in
  mkPeerSyncStatus id (age (vo_generation view))
    (age <$> vo_pending_remote_generation view)
    (from_option gap_count 0 diag)
    (from_option consecutive_failures 0 diag)
    (diag ≫= last_sync_time) (diag ≫= last_attempt_time)
    (diag ≫= last_error) (diag ≫= last_sync_latency_ms).

Definition sync_status d sh : list PeerSyncStatus :=
  (λ '(id, view), peer_status d id view) <$> hm_iter (snapshot sh).

(** The two flags the health loop computes for a peer. *)
Definition health_stale (t : Instant) (max_staleness : Duration)
    (view : StateViewObject V) : bool :=
  bool_decide (is_Some (vo_pending_remote_generation view))
  || match checked_duration_since t (vo_synced_at view) with
     | Some d => max_staleness <? d
     | None => false
     end.
Definition health_failing d (id : NodeId) : bool :=
  match d_peers d !! id with Some p => 0 <? consecutive_failures p | None => false end.

(** The counters of the loop: healthy, stale, failing, total, each a [u32]. *)
Record HealthCounts : Type := mkHealthCounts {
  hc_healthy : Z; hc_stale : Z; hc_failing : Z; hc_total : Z
}.

Definition health_loop_body d (local_id : NodeId) (t : Instant) (max_staleness : Duration)
    (acc : HealthCounts) (row : NodeId * StateViewObject V) : HealthCounts :=
  let '(id, view) := row in
  if bool_decide (id = local_id) then acc
  else
    let total := u32_add (hc_total acc) 1 in
    let is_stale := health_stale t max_staleness view in
    let is_failing := health_failing d id in
    if is_stale || is_failing then
      mkHealthCounts (hc_healthy acc)
        (if is_stale then u32_add (hc_stale acc) 1 else hc_stale acc)
        (if is_failing then u32_add (hc_failing acc) 1 else hc_failing acc) total
    else mkHealthCounts (u32_add (hc_healthy acc) 1) (hc_stale acc) (hc_failing acc) total.

Definition classify_health (c : HealthCounts) : HealthStatus :=
  if (hc_stale c =? 0) && (hc_failing c =? 0) then Healthy
  else if (0 <? hc_total c) && (hc_total c / 2 <? hc_healthy c) then Degraded
  else Unhealthy.

Definition health_status d sh (max_staleness : Duration) clk : StateHealth :=
  let c := foldl (health_loop_body d (sh_node_id sh) (now clk) max_staleness)
             (mkHealthCounts 0 0 0 0) (hm_iter (snapshot sh)) in
  mkStateHealth (d_state_name d) (hc_healthy c) (hc_stale c) (hc_failing c)
    (classify_health c).
End Queries.

(** ** Counting peers *)
Section Health.
Context `{HashIter} {S V M C : Type} `{!ViewMapOps V M} `{!ViewMapLaws V M} `{Clock C}.
Implicit Types (d : DiagnosticsLogic) (sh : ShardCore S M) (clk : C).
Local Abbreviation row := (NodeId * StateViewObject V)%type.

(** How many rows satisfy a test. *)
Definition count_rows (p : row → bool) (l : list row) : Z :=
  Z.of_nat (length (filter (λ r, p r = true) l)).

Definition other_peer (local_id : NodeId) (r : row) : bool := negb (bool_decide (r.1 = local_id)).
Definition peer_stale (t : Instant) (ms : Duration) (local_id : NodeId) (r : row) : bool :=
  other_peer local_id r && health_stale t ms r.2.
Definition peer_failing d (local_id : NodeId) (r : row) : bool :=
  other_peer local_id r && health_failing d r.1.
Definition peer_healthy d (t : Instant) (ms : Duration) (local_id : NodeId) (r : row) : bool :=
  other_peer local_id r && negb (health_stale t ms r.2) && negb (health_failing d r.1).

Lemma count_rows_cons p r l :
  count_rows p (r :: l) = (if p r then 1 else 0) + count_rows p l.
Proof. unfold count_rows. rewrite filter_cons. destruct (p r); simpl; lia. Qed.

Lemma count_rows_nonneg p l : 0 ≤ count_rows p l ≤ Z.of_nat (length l).
Proof. unfold count_rows. pose proof (length_filter (λ r, p r = true) l). lia. Qed.

Lemma count_rows_zero p l : count_rows p l = 0 ↔ ∀ r, r ∈ l → p r = false.
Proof.
  induction l as [|r l IH]; [split; [set_solver|done]|].
  rewrite count_rows_cons. pose proof (count_rows_nonneg p l).
  setoid_rewrite elem_of_cons. destruct (p r) eqn:E.
  - split; [lia|]. intros Hall. by rewrite (Hall r) in E by tauto.
  - rewrite Z.add_0_l, IH. naive_solver.
Qed.

Lemma health_loop_counts d id t ms l : ∀ acc,
  let n := Z.of_nat (length l) in
  0 ≤ hc_healthy acc → 0 ≤ hc_stale acc → 0 ≤ hc_failing acc → 0 ≤ hc_total acc →
  hc_healthy acc + n < u32_modulus → hc_stale acc + n < u32_modulus →
  hc_failing acc + n < u32_modulus → hc_total acc + n < u32_modulus →
  foldl (health_loop_body d id t ms) acc l =
    mkHealthCounts (hc_healthy acc + count_rows (peer_healthy d t ms id) l)
      (hc_stale acc + count_rows (peer_stale t ms id) l)
      (hc_failing acc + count_rows (peer_failing d id) l)
      (hc_total acc + count_rows (other_peer id) l).
Proof.
  induction l as [|[k view] l IH]; intros [h s f tot] n; simpl in *; intros.
  { rewrite !Z.add_0_r. done. }
  unfold n in *. rewrite !count_rows_cons.
  unfold peer_healthy, peer_stale, peer_failing, other_peer; simpl.
  assert (∀ z, 0 ≤ z → z + 1 < u32_modulus → u32_add z 1 = z + 1) as Hadd.
  { intros z ??. unfold u32_add, wrap32. apply Z.mod_small. lia. }
  unfold peer_healthy, peer_stale, peer_failing, other_peer in IH.
  case_bool_decide; simpl; [rewrite IH by (simpl; lia); f_equal; simpl; lia|].
  destruct (health_stale t ms view), (health_failing d k); simpl;
    rewrite IH by (simpl; rewrite ?Hadd by lia; lia); simpl;
    rewrite !Hadd by lia; f_equal; lia.
Qed.

Lemma count_rows_perm p l l' : l ≡ₚ l' → count_rows p l = count_rows p l'.
Proof. intros Hp. unfold count_rows. by rewrite Hp. Qed.

Lemma count_rows_split d t ms id l :
  count_rows (other_peer id) l =
  count_rows (peer_healthy d t ms id) l +
  count_rows (λ r, peer_stale t ms id r || peer_failing d id r) l.
Proof.
  induction l as [|r l IH]; [done|]. rewrite !count_rows_cons, IH.
  unfold peer_healthy, peer_stale, peer_failing.
  destruct (other_peer id r), (health_stale t ms r.2), (health_failing d r.1); simpl; lia.
Qed.
End Health.

(** [C35] Health: the three counters are the numbers of peers (the local node
    excluded) that are stale, failing, or neither, whatever the iteration order; the
    status is [Healthy] exactly when no peer is stale or failing, [Degraded] exactly
    when some are but a strict majority is healthy, and [Unhealthy] otherwise. *)
Theorem health_status_spec `{HashIter} {S V M C} `{!ViewMapOps V M} `{!ViewMapLaws V M}
    `{Clock C} (d : DiagnosticsLogic) (sh : ShardCore S M) (ms : Duration) (clk : C) :
  shard_wf sh → Z.of_nat (size (contents sh)) < u32_modulus →
  let rows := map_to_list (contents sh) in
  let id := sh_node_id sh in
  let h := health_status d sh ms clk in
  let total := count_rows (other_peer id) rows in
  healthy_peers h = count_rows (peer_healthy d (now clk) ms id) rows ∧
  stale_peers_count h = count_rows (peer_stale (now clk) ms id) rows ∧
  failing_peers h = count_rows (peer_failing d id) rows ∧
  (h_status h = Healthy ↔ healthy_peers h = total) ∧
  (h_status h = Degraded ↔ healthy_peers h ≠ total ∧ total < 2 * healthy_peers h) ∧
  (h_status h = Unhealthy ↔ healthy_peers h ≠ total ∧ 2 * healthy_peers h ≤ total).
Proof.
  intros Hwf Hsize rows id h total.
  assert (hm_iter (snapshot sh) ≡ₚ rows) as Hrows.
  { unfold snapshot. rewrite snapshot_spec by done. apply hm_iter_perm. }
  assert (foldl (health_loop_body d id (now clk) ms) (mkHealthCounts 0 0 0 0)
    (hm_iter (snapshot sh)) =
    mkHealthCounts (count_rows (peer_healthy d (now clk) ms id) rows)
      (count_rows (peer_stale (now clk) ms id) rows)
      (count_rows (peer_failing d id) rows) total) as Hfold.
  { assert (Z.of_nat (length (hm_iter (snapshot sh))) < u32_modulus).
    { rewrite Hrows. unfold rows. by rewrite length_map_to_list. }
    rewrite health_loop_counts by (simpl; lia). simpl.
    by rewrite !(count_rows_perm _ _ _ Hrows). }
  unfold h, health_status. fold id. rewrite Hfold. simpl. split_and!; [done..| | |].
  all: unfold classify_health; simpl.
  all: pose proof (count_rows_split d (now clk) ms id rows) as Hsplit; fold total in Hsplit.
  all: pose proof (count_rows_nonneg (λ r, peer_stale (now clk) ms id r || peer_failing d id r) rows).
  all: pose proof (count_rows_nonneg (peer_stale (now clk) ms id) rows).
  all: pose proof (count_rows_nonneg (peer_failing d id) rows).
  all: pose proof (count_rows_nonneg (peer_healthy d (now clk) ms id) rows).
  all: assert (count_rows (λ r, peer_stale (now clk) ms id r || peer_failing d id r) rows = 0 ↔
    count_rows (peer_stale (now clk) ms id) rows = 0 ∧ count_rows (peer_failing d id) rows = 0)
    as Hz by (rewrite !count_rows_zero; setoid_rewrite orb_false_iff; naive_solver).
  all: destruct (Z.eqb_spec (count_rows (peer_stale (now clk) ms id) rows) 0),
    (Z.eqb_spec (count_rows (peer_failing d id) rows) 0), (Z.ltb_spec 0 total),
    (Z.ltb_spec (total / 2) (count_rows (peer_healthy d (now clk) ms id) rows)); simpl;
    split; intros; try done; Z.to_euclidean_division_equations; lia.
Qed.
