(* ===== verification/Engine.v ===== *)
(** The public engine ([engine.rs]): one [DistributedStateEngine] combines the
    shard, the sync decisions, the change feed, versioning, lifecycle and
    diagnostics.  Every method returns the engine after the call and the outbound
    actions; a method that can reach the [expect] of [own_view_value] returns an
    [outcome]. *)
From stdpp Require Import prelude gmap fin_maps strings pretty.
From S2P Require Import Prelude Node Clock Types ViewMap ShardCore SyncLogic ChangeFeed.
From S2P Require Import Versioning Lifecycle Diagnostics.

(** [EngineAction]. *)
Inductive EngineAction : Type :=
| BroadcastSync (message : SyncMessage)
| SendSync (target : NodeId) (message : SyncMessage)
| ScheduleDelayed (delay : Duration) (message : SyncMessage).

Global Instance EngineAction_eq_dec : EqDecision EngineAction.
Proof. solve_decision. Defined.

(** [MutateResult<V>] and [DeltaMutateResult<V, VD>]. *)
Record MutateResult (V : Type) : Type := mkMutateResult {
  mr_generation : Generation;
  mr_view : V;
  mr_actions : list EngineAction
}.
Arguments mkMutateResult {V}.
Arguments mr_generation {V}.
Arguments mr_view {V}.
Arguments mr_actions {V}.

Record DeltaMutateResult (V VD : Type) : Type := mkDeltaMutateResult {
  dmr_generation : Generation;
  dmr_view : V;
  dmr_view_delta : VD;
  dmr_actions : list EngineAction
}.
Arguments mkDeltaMutateResult {V VD}.
Arguments dmr_generation {V VD}.
Arguments dmr_view {V VD}.
Arguments dmr_view_delta {V VD}.
Arguments dmr_actions {V VD}.

(** [EngineQueryResult<R>]. *)
Inductive EngineQueryResult (R : Type) : Type :=
| EngineFresh (r : R)
| EngineStale (r : R) (stale_peers : list NodeId).
Arguments EngineFresh {R}.
Arguments EngineStale {R}.

(** The engine's public [HealthStatus], [SyncMetrics] and [EngineHealth]. *)
Inductive EngineHealthStatus : Type := EngineHealthy | EngineDegraded | EngineUnhealthy.

Record SyncMetrics : Type := mkSyncMetrics {
  sm_total_mutations : Z;
  sm_deltas_sent : Z;
  sm_deltas_received : Z;
  sm_snapshots_sent : Z;
  sm_snapshots_received : Z;
  sm_deltas_suppressed : Z;
  sm_deltas_immediate : Z;
  sm_sync_failures : Z;
  sm_age_gaps_detected : Z;
  sm_stale_deltas_discarded : Z
}.

Record EngineHealth : Type := mkEngineHealth {
  eh_state_name : string;
  eh_healthy_peers : Z;
  eh_stale_peers : Z;
  eh_failing_peers : Z;
  eh_status : EngineHealthStatus
}.

(** The closure types of the engine's fields. *)
Definition SerializeViewFn (V : Type) : Type := V → bytes.
Definition DeserializeViewFn (V : Type) : Type := bytes → Z → result V DeserializeError.
Definition InboundDeltaApplierFn (V : Type) : Type :=
  bytes → Z → V → result V DeserializeError.

(** [DistributedStateEngine<S, V>]. *)
Record DistributedStateEngine (S V M : Type) : Type := mkEngine {
  state_name : string;
  wire_version : Z;
  shard : ShardCore S M;
  sync_logic : SyncLogic;
  change_feed : ChangeFeedLogic;
  versioning : VersioningLogic;
  lifecycle : LifecycleLogic;
  diagnostics : DiagnosticsLogic;
  serialize_view : SerializeViewFn V;
  deserialize_view : DeserializeViewFn V;
  inbound_delta_applier : option (InboundDeltaApplierFn V)
}.
Arguments mkEngine {S V M}.
Arguments state_name {S V M}.
Arguments wire_version {S V M}.
Arguments shard {S V M}.
Arguments sync_logic {S V M}.
Arguments change_feed {S V M}.
Arguments versioning {S V M}.
Arguments lifecycle {S V M}.
Arguments diagnostics {S V M}.
Arguments serialize_view {S V M}.
Arguments deserialize_view {S V M}.
Arguments inbound_delta_applier {S V M}.

Section Engine.
Context `{HashIter} {S V M C : Type} `{!ViewMapOps V M} `{Clock C}.
Local Abbreviation engine := (DistributedStateEngine S V M).
Implicit Types (e : engine) (clk : C).

(** Field updates. *)
Definition set_shard e (sh : ShardCore S M) : engine :=
  mkEngine (state_name e) (wire_version e) sh (sync_logic e) (change_feed e) (versioning e)
    (lifecycle e) (diagnostics e) (serialize_view e) (deserialize_view e)
    (inbound_delta_applier e).
Definition set_change_feed e (cf : ChangeFeedLogic) : engine :=
  mkEngine (state_name e) (wire_version e) (shard e) (sync_logic e) cf (versioning e)
    (lifecycle e) (diagnostics e) (serialize_view e) (deserialize_view e)
    (inbound_delta_applier e).
Definition set_lifecycle e (l : LifecycleLogic) : engine :=
  mkEngine (state_name e) (wire_version e) (shard e) (sync_logic e) (change_feed e)
    (versioning e) l (diagnostics e) (serialize_view e) (deserialize_view e)
    (inbound_delta_applier e).
Definition map_diagnostics e (f : DiagnosticsLogic → DiagnosticsLogic) : engine :=
  mkEngine (state_name e) (wire_version e) (shard e) (sync_logic e) (change_feed e)
    (versioning e) (lifecycle e) (f (diagnostics e)) (serialize_view e) (deserialize_view e)
    (inbound_delta_applier e).

(** [DistributedStateEngine::new]. *)
Definition engine_new (name : string) (node_id : NodeId) (initial_value : S)
    (project_initial : S → V) (config : StateConfig) (wire_version : Z) clk
    (serialize_view : SerializeViewFn V) (deserialize_view : DeserializeViewFn V)
    (inbound_delta_applier : option (InboundDeltaApplierFn V)) : engine :=
  let supports_delta := bool_decide (is_Some inbound_delta_applier) in
  let state := new_state_object initial_value (as_u64 (unix_ms clk)) clk in
  let initial_view := project_initial (so_value state) in
  mkEngine name wire_version
    (shard_new node_id state initial_view clk)
    (sync_logic_new name (sync_strategy config) supports_delta)
    (change_feed_new node_id)
    (versioning_new name (version_mismatch_policy config) wire_version 1)
    lifecycle_new (diagnostics_new name)
    serialize_view deserialize_view inbound_delta_applier.

(** *** Internal helpers *)

Definition engine_node_id e : NodeId := sh_node_id (shard e).

(** [own_view_value]: panics when the own view is missing. *)
Definition own_view_value e : outcome V :=
  vo ← expect (get_view (shard e) (engine_node_id e)) "own view should always exist";
  Done (vo_value vo).

(** The [FullSnapshot] and [DeltaUpdate] of this node's current generation. *)
Definition own_snapshot e (data : bytes) : SyncMessage :=
  FullSnapshot (state_name e) (engine_node_id e) (so_generation (sh_state (shard e)))
    (wire_version e) data.
Definition own_delta e (data : bytes) : SyncMessage :=
  DeltaUpdate (state_name e) (engine_node_id e) (so_generation (sh_state (shard e)))
    (wire_version e) data.

Definition make_snapshot_request e (target : NodeId) : EngineAction :=
  SendSync target (RequestSnapshot (state_name e) (engine_node_id e)).

(** The notification of the current generation. *)
Definition notify_own_change e : engine :=
  set_change_feed e (notify_change (change_feed e) (state_name e) (engine_node_id e)
    (so_generation (sh_state (shard e)))).

(** [sync_action_to_engine_actions_snapshot]. *)
Definition sync_action_to_engine_actions_snapshot e (action : SyncAction) (view : V) :
    engine * list EngineAction :=
  match action with
  | BroadcastSnapshot | BroadcastDelta =>
      let data := serialize_view e view in
      let e := map_diagnostics e record_snapshot_sent in
      (e, [BroadcastSync (own_snapshot e data)])
  | NotifyChangeFeed => (notify_own_change e, [])
  | ScheduleDelayedSync delay =>
      let data := serialize_view e view in
      let e := map_diagnostics e record_snapshot_sent in
      (e, [ScheduleDelayed delay (own_snapshot e data)])
  | SuppressSync => (map_diagnostics e record_delta_suppressed, [])
  end.

(** [sync_action_to_engine_actions_delta]. *)
Definition sync_action_to_engine_actions_delta {VD} e (action : SyncAction) (view : V)
    (view_delta : VD) (serialize_delta : VD → bytes) : engine * list EngineAction :=
  match action with
  | BroadcastDelta =>
      let data := serialize_delta view_delta in
      let e := map_diagnostics e record_delta_sent in
      let e := map_diagnostics e record_delta_immediate in
      (e, [BroadcastSync (own_delta e data)])
  | BroadcastSnapshot =>
      let data := serialize_view e view in
      let e := map_diagnostics e record_snapshot_sent in
      (e, [BroadcastSync (own_snapshot e data)])
  | NotifyChangeFeed => (notify_own_change e, [])
  | ScheduleDelayedSync delay =>
      let data := serialize_delta view_delta in
      let e := map_diagnostics e record_delta_sent in
      (e, [ScheduleDelayed delay (own_delta e data)])
  | SuppressSync => (map_diagnostics e record_delta_suppressed, [])
  end.

(** *** Mutations *)

Definition mutate e (mutate_fn : S → S) (project_fn : S → V) (urgency : SyncUrgency) clk :
    engine * MutateResult V :=
  let '(sh, out) := apply_mutation (shard e) mutate_fn project_fn clk in
  let e := map_diagnostics (set_shard e sh) record_mutation in
  let sync_action := resolve_action (sync_logic e) urgency in
  let '(e, actions) := sync_action_to_engine_actions_snapshot e sync_action (mo_view out) in
  (e, mkMutateResult (mo_generation out) (mo_view out) actions).

Definition mutate_with_delta {DC VD} e (mutate_fn : S → S * DC) (project_view_fn : S → V)
    (project_delta_fn : DC → VD) (urgency : SyncUrgency) (serialize_delta : VD → bytes) clk :
    engine * DeltaMutateResult V VD :=
  let '(sh, out) :=
    apply_mutation_with_delta (shard e) mutate_fn project_view_fn project_delta_fn clk in
  let e := map_diagnostics (set_shard e sh) record_mutation in
  let sync_action := resolve_action (sync_logic e) urgency in
  let '(e, actions) := sync_action_to_engine_actions_delta e sync_action (dmo_view out)
                         (dmo_view_delta out) serialize_delta in
  (e, mkDeltaMutateResult (dmo_generation out) (dmo_view out) (dmo_view_delta out) actions).

(** *** Inbound handling *)

Definition handle_full_snapshot e (name : string) (source_node : NodeId)
    (generation : Generation) (wire_version : Z) (data : bytes) clk :
    engine * list EngineAction :=
  if negb (bool_decide (name = state_name e)) then (e, [])
  else if negb (should_accept_from (lifecycle e) source_node) then (e, [])
  else
    match on_inbound (versioning e) data wire_version (deserialize_view e) with
    | VersionMismatch (DropView _ reason) =>
        let e := map_diagnostics e (λ d, record_sync_failure d source_node reason clk) in
        (set_shard e (shard_on_node_left (shard e) source_node), [])
    | VersionMismatch (KeepStale _ reason) =>
        (map_diagnostics e (λ d, record_sync_failure d source_node reason clk), [])
    | MalformedData msg =>
        (map_diagnostics e (λ d,
           record_sync_failure d source_node ("malformed: " +:+ msg) clk), [])
    | VersionOk view =>
        let snap := mkInboundSnapshot source_node generation wire_version view
                      (unix_ms clk) (unix_ms clk) in
        let '(sh, r) := accept_inbound_snapshot (shard e) snap clk in
        let e := set_shard e sh in
        (match r with
         | Accepted =>
             map_diagnostics e (λ d, record_snapshot_received d source_node 0 clk)
         | Discarded => map_diagnostics e record_stale_delta_discarded
         end, [])
    end.

Definition delta_error_reason (err : DeserializeError) : string :=
  match err with
  | UnknownVersion v => "delta version mismatch: " +:+ pretty v
  | Malformed msg => "delta malformed: " +:+ msg
  end.

Definition handle_delta_update e (name : string) (source_node : NodeId)
    (generation : Generation) (wire_v : Z) (data : bytes) clk :
    engine * list EngineAction :=
  if negb (bool_decide (name = state_name e)) then (e, [])
  else if negb (should_accept_from (lifecycle e) source_node) then (e, [])
  else if negb (wire_v =? wire_version e) then
    let action := on_deserialize_error (versioning e) wire_v in
    let e := match action with
             | DropView _ _ => set_shard e (shard_on_node_left (shard e) source_node)
             | KeepStale _ _ => e
             end in
    (map_diagnostics e (λ d, record_sync_failure d source_node (action_reason action) clk), [])
  else
    match inbound_delta_applier e with
    | None => (e, [make_snapshot_request e source_node])
    | Some delta_applier =>
        match get_view (shard e) source_node with
        | None => (e, [make_snapshot_request e source_node])
        | Some current_view =>
            let local := vo_generation current_view in
            if negb (incarnation generation =? incarnation local)
               || negb (age generation =? u64_add (age local) 1)
            then
              if generation_leb generation local
              then (map_diagnostics e record_stale_delta_discarded, [])
              else (map_diagnostics e (λ d, record_gap_detected d source_node),
                    [make_snapshot_request e source_node])
            else
              match delta_applier data wire_v (vo_value current_view) with
              | Err err =>
                  (map_diagnostics e (λ d,
                     record_sync_failure d source_node (delta_error_reason err) clk),
                   [make_snapshot_request e source_node])
              | Ok new_view =>
                  let '(sh, r) := accept_inbound_delta (shard e) source_node generation
                                    wire_v (λ _, new_view) clk in
                  let e := set_shard e sh in
                  match r with
                  | DeltaApplied =>
                      (map_diagnostics e (λ d, record_delta_received d source_node 0 clk), [])
                  | GapDetected _ _ =>
                      (map_diagnostics e (λ d, record_gap_detected d source_node),
                       [make_snapshot_request e source_node])
                  | DeltaDiscarded => (map_diagnostics e record_stale_delta_discarded, [])
                  | UnknownPeer => (e, [make_snapshot_request e source_node])
                  end
              end
        end
    end.

Definition handle_request_snapshot e (name : string) (requester : NodeId) :
    outcome (engine * list EngineAction) :=
  if negb (bool_decide (name = state_name e)) then Done (e, [])
  else if negb (should_accept_from (lifecycle e) requester) then Done (e, [])
  else
    v ← own_view_value e;
    let data := serialize_view e v in
    let e := map_diagnostics e record_snapshot_sent in
    Done (e, [SendSync requester (own_snapshot e data)]).

Definition handle_inbound_sync e (msg : SyncMessage) clk : outcome (engine * list EngineAction) :=
  match msg with
  | FullSnapshot name source_node generation wire_version data =>
      Done (handle_full_snapshot e name source_node generation wire_version data clk)
  | DeltaUpdate name source_node generation wire_version data =>
      Done (handle_delta_update e name source_node generation wire_version data clk)
  | RequestSnapshot name requester => handle_request_snapshot e name requester
  end.

(** One routed notification of [handle_inbound_change_feed]. *)
Definition feed_entry e (entry : string * NodeId * Generation) : engine :=
  let '(name, source, gen) := entry in
  if negb (bool_decide (name = state_name e)) then e
  else if negb (should_accept_from (lifecycle e) source) then e
  else set_shard e (mark_stale (shard e) source (incarnation gen) (age gen)).

Definition handle_inbound_change_feed e (feed : BatchedChangeFeed) : engine :=
  foldl feed_entry e (route_inbound_batch feed (engine_node_id e)).

Definition handle_inbound e (msg : WireMessage) clk : outcome (engine * list EngineAction) :=
  match msg with
  | WireSync m => handle_inbound_sync e m clk
  | WireFeed f => Done (handle_inbound_change_feed e f, [])
  end.

(** *** Change feed *)

Definition flush_change_feed e : engine * option BatchedChangeFeed :=
  let '(cf, batch) := change_feed_flush (change_feed e) in
  (set_change_feed e cf, batch).

Definition pending_change_feed_count e : nat := pending_count (change_feed e).

(** *** Cluster lifecycle *)

(** The loop over the join actions. *)
Fixpoint send_join_snapshots e (join_actions : list JoinAction) :
    outcome (engine * list EngineAction) :=
  match join_actions with
  | [] => Done (e, [])
  | SendSnapshotToPeer target :: rest =>
      v ← own_view_value e;
      let data := serialize_view e v in
      let e := map_diagnostics e record_snapshot_sent in
      let action := SendSync target (own_snapshot e data) in
      '(e, actions) ← send_join_snapshots e rest;
      Done (e, action :: actions)
  end.

Definition engine_on_node_joined e (id : NodeId) (default_view : V) clk :
    outcome (engine * list EngineAction) :=
  let '(l, sh, join_actions) :=
    lifecycle_on_node_joined (lifecycle e) (shard e) id default_view clk in
  send_join_snapshots (set_lifecycle (set_shard e sh) l) join_actions.

Definition engine_on_node_left e (id : NodeId) : engine :=
  let '(l, sh, _) := lifecycle_on_node_left (lifecycle e) (shard e) id in
  map_diagnostics (set_lifecycle (set_shard e sh) l) (λ d, remove_peer d id).

Definition engine_should_accept_from e (id : NodeId) : bool :=
  should_accept_from (lifecycle e) id.

(** *** Query and periodic sync *)

Definition query {R} e (max_staleness : Duration)
    (project : gmap NodeId (StateViewObject V) → R) clk :
    EngineQueryResult R * list EngineAction :=
  match query_local (shard e) max_staleness project clk with
  | QueryFresh r => (EngineFresh r, [])
  | StalePeersDetected stale r =>
      (EngineStale r stale,
       if pull_on_query (sl_strategy (sync_logic e)) then
         make_snapshot_request e <$>
           filter (λ peer, should_accept_from (lifecycle e) peer = true) stale
       else [])
  end.

Definition periodic_sync e : outcome (engine * list EngineAction) :=
  if negb (should_periodic_sync (sync_logic e)) then Done (e, [])
  else
    v ← own_view_value e;
    let data := serialize_view e v in
    let e := map_diagnostics e record_snapshot_sent in
    Done (e, [BroadcastSync (own_snapshot e data)]).

(** *** Accessors *)

Definition engine_periodic_interval e : option Duration := periodic_interval (sync_logic e).
Definition engine_state e : StateObject S := sh_state (shard e).
Definition engine_view_count e : nat := view_count (shard e).
Definition engine_get_view e (id : NodeId) : option (StateViewObject V) :=
  get_view (shard e) id.
Definition engine_snapshot e : gmap NodeId (StateViewObject V) := snapshot (shard e).
Definition engine_sync_strategy e : SyncStrategy := sl_strategy (sync_logic e).

Definition engine_metrics e : SyncMetrics :=
  let m := metrics (diagnostics e) in
  mkSyncMetrics (total_mutations m) (deltas_sent m) (deltas_received m) (snapshots_sent m)
    (snapshots_received m) (deltas_suppressed m) (deltas_immediate m) (sync_failures m)
    (age_gaps_detected m) (stale_deltas_discarded m).

Definition engine_health e (max_staleness : Duration) clk : EngineHealth :=
  let h := health_status (diagnostics e) (shard e) max_staleness clk in
  mkEngineHealth (h_state_name h) (healthy_peers h) (stale_peers_count h) (failing_peers h)
    (match h_status h with
     | Healthy => EngineHealthy
     | Degraded => EngineDegraded
     | Unhealthy => EngineUnhealthy
     end).

(** *** Runs of an engine *)

(** A call of the hosting framework, with the time it is made at. *)
Inductive EngineOp : Type :=
| OpMutate (mutate_fn : S → S) (project_fn : S → V) (urgency : SyncUrgency) (clk : C)
| OpMutateDelta {DC VD : Type} (mutate_fn : S → S * DC) (project_view_fn : S → V)
    (project_delta_fn : DC → VD) (urgency : SyncUrgency) (serialize_delta : VD → bytes)
    (clk : C)
| OpInbound (msg : WireMessage) (clk : C)
| OpFlushFeed
| OpJoin (id : NodeId) (default_view : V) (clk : C)
| OpLeave (id : NodeId)
| OpPeriodicSync.

(** The messages an operation hands to the host. *)
Definition run_engine_op e (op : EngineOp) :
    outcome (engine * list EngineAction * option BatchedChangeFeed) :=
  match op with
  | OpMutate f p u clk => let '(e, r) := mutate e f p u clk in Done (e, mr_actions r, None)
  | OpMutateDelta f pv pd u ser clk =>
      let '(e, r) := mutate_with_delta e f pv pd u ser clk in Done (e, dmr_actions r, None)
  | OpInbound msg clk => '(e, acts) ← handle_inbound e msg clk; Done (e, acts, None)
  | OpFlushFeed => let '(e, batch) := flush_change_feed e in Done (e, [], batch)
  | OpJoin id v clk => '(e, acts) ← engine_on_node_joined e id v clk; Done (e, acts, None)
  | OpLeave id => Done (engine_on_node_left e id, [], None)
  | OpPeriodicSync => '(e, acts) ← periodic_sync e; Done (e, acts, None)
  end.

Fixpoint run_engine e (ops : list EngineOp) : outcome engine :=
  match ops with
  | [] => Done e
  | op :: ops => '(e, _, _) ← run_engine_op e op; run_engine e ops
  end.
End Engine.
Arguments EngineOp : clear implicits.
