(* ===== verification/EngineProps.v ===== *)
(** Theorems about one engine: no sequence of calls panics, departed nodes stay
    hidden, the own view stays right; what each inbound message does; what the
    counters count; and the two protocols between two engines, push and lazy
    pull. *)
From stdpp Require Import prelude gmap fin_maps strings pretty relations.
From S2P Require Import Prelude Node Clock Types ViewMap ShardCore ShardProps SyncLogic.
From S2P Require Import ChangeFeed Versioning Lifecycle Diagnostics Engine.

(** ** What an engine does to its membership and its shard

    [host_step src_ok proj_ok] is one elementary change; messages come from nodes
    that satisfy [src_ok] and have not departed, mutations project with functions
    that satisfy [proj_ok]. *)
Section HostSteps.
Context `{HashIter} {S V M C : Type} `{!ViewMapOps V M} `{!ViewMapLaws V M} `{Clock C}.
Implicit Types (sh : ShardCore S M) (l : LifecycleLogic) (clk : C).
Local Abbreviation host := (LifecycleLogic * ShardCore S M)%type.

Inductive host_step (src_ok : NodeId → Prop) (proj_ok : (S → V) → Prop) : host → host → Prop :=
| host_mutate l sh f p clk :
    proj_ok p → host_step src_ok proj_ok (l, sh) (l, (apply_mutation sh f p clk).1)
| host_mutate_delta {DC VD} l sh (f : S → S * DC) p (pd : DC → VD) clk :
    proj_ok p →
    host_step src_ok proj_ok (l, sh) (l, (apply_mutation_with_delta sh f p pd clk).1)
| host_snapshot l sh snap clk :
    src_ok (snap_source snap) → snap_source snap ∉ departed_nodes l →
    host_step src_ok proj_ok (l, sh) (l, (accept_inbound_snapshot sh snap clk).1)
| host_delta l sh src g w f clk :
    src_ok src → src ∉ departed_nodes l →
    host_step src_ok proj_ok (l, sh) (l, (accept_inbound_delta sh src g w f clk).1)
| host_mark_stale l sh src i a :
    src_ok src → src ∉ departed_nodes l →
    host_step src_ok proj_ok (l, sh) (l, mark_stale sh src i a)
| host_drop l sh src :
    host_step src_ok proj_ok (l, sh) (l, shard_on_node_left sh src)
| host_join l sh id v clk :
    host_step src_ok proj_ok (l, sh) (lifecycle_on_node_joined l sh id v clk).1
| host_leave l sh id :
    host_step src_ok proj_ok (l, sh) (lifecycle_on_node_left l sh id).1.

(** What holds after any calls at all. *)
Definition host_ok (h : host) : Prop :=
  shard_wf h.2 ∧
  is_Some (contents h.2 !! sh_node_id h.2) ∧
  departed_hidden h.1 h.2 ∧
  (∀ id vo, contents h.2 !! id = Some vo → vo_source_node vo = id).

Lemma host_ok_insert l sh sh' id vo :
  host_ok (l, sh) → shard_wf sh' → sh_node_id sh' = sh_node_id sh → id ∉ departed_nodes l →
  vo_source_node vo = id → contents sh' = <[id := vo]> (contents sh) → host_ok (l, sh').
Proof.
  intros (Hwf & Hown & Hd & Hsrc) Hwf' Hid Hni Hvo Hc. simpl in *.
  split_and!; simpl; [done| | |].
  - rewrite Hc, Hid, lookup_insert. case_decide; eauto.
  - eapply insert_hidden; eauto.
  - rewrite Hc. intros k v [[<- <-]|[_ Hk]]%lookup_insert_Some; eauto.
Qed.

Lemma host_ok_same l sh sh' :
  host_ok (l, sh) → shard_wf sh' → sh_node_id sh' = sh_node_id sh →
  contents sh' = contents sh → host_ok (l, sh').
Proof.
  intros (Hwf & Hown & Hd & Hsrc) Hwf' Hid Hc. simpl in *.
  split_and!; simpl; rewrite ?Hc, ?Hid; try done. by eapply same_hidden.
Qed.

(** The entry of the local node may be written even while the node counts itself
    as departed. *)
Lemma host_ok_own l sh st v clk :
  host_ok (l, sh) → host_ok (l, update_own_view (set_state sh st) v clk).
Proof.
  intros (Hwf & Hown & Hd & Hsrc). simpl in *.
  assert (is_Some (contents (set_state sh st) !! sh_node_id sh)) as Hsome by done.
  split_and!; simpl; [by apply update_own_view_frame|..].
  - rewrite update_own_view_contents by done. simpl. rewrite lookup_insert_eq. eauto.
  - intros k Hk Hne. change (contents (update_own_view (set_state sh st) v clk) !! k = None).
    rewrite update_own_view_contents by done. simpl in *.
    rewrite lookup_insert_ne by done. by apply Hd.
  - rewrite update_own_view_contents by done. simpl.
    intros k vo [[<- <-]|[_ Hk]]%lookup_insert_Some; [done|]. by apply Hsrc.
Qed.

Lemma host_ok_left l sh id : host_ok (l, sh) → host_ok (l, shard_on_node_left sh id).
Proof.
  intros (Hwf & Hown & Hd & Hsrc). simpl in *.
  destruct (node_left_frame (S:=S) sh id) as (Hwf' & Hid & _).
  split_and!; simpl; [by apply Hwf'| |by apply shard_left_hidden|];
    rewrite node_left_contents, ?Hid by done; case_bool_decide; try done.
  - by rewrite lookup_delete_ne.
  - intros k vo [_ Hk]%lookup_delete_Some. by apply Hsrc.
Qed.

Lemma host_ok_join l sh id v clk :
  host_ok (l, sh) → host_ok (lifecycle_on_node_joined l sh id v clk).1.
Proof.
  intros (Hwf & Hown & Hd & Hsrc). simpl in *.
  destruct (node_joined_frame (S:=S) sh id v clk) as (Hwf' & Hid & _).
  split_and!; simpl; [by apply Hwf'| |by apply (on_node_joined_hidden l sh id v clk)|];
    rewrite node_joined_contents, ?Hid by done; case_bool_decide; try done.
  - destruct (contents sh !! id); [done|]. by rewrite lookup_insert_ne.
  - destruct (contents sh !! id); [done|].
    intros k vo [[<- <-]|[_ Hk]]%lookup_insert_Some; [done|]. by apply Hsrc.
Qed.

Lemma host_ok_leave l sh id : host_ok (l, sh) → host_ok (lifecycle_on_node_left l sh id).1.
Proof.
  intros Hok. pose proof (host_ok_left _ _ id Hok) as (? & ? & _ & ?).
  destruct Hok as (Hwf & _ & Hd & _). split_and!; try done.
  by apply (on_node_left_hidden l sh id).
Qed.

Lemma host_step_ok src_ok proj_ok h h' :
  host_step src_ok proj_ok h h' → host_ok h → host_ok h'.
Proof.
  intros [l sh f p clk _|DC VD l sh f p pd clk _|l sh snap clk _ Hni|l sh src g w f clk _ Hni
    |l sh src i a _ Hni|l sh src|l sh id v clk|l sh id] Hok;
    pose proof Hok as (Hwf & _ & _ & Hsrc); simpl in *.
  - by apply host_ok_own.
  - unfold apply_mutation_with_delta. destruct (f _). by apply host_ok_own.
  - destruct (accept_snapshot_frame (S:=S) sh snap clk) as (Hwf' & Hid & _).
    destruct (accept_snapshot_contents sh snap clk Hwf) as [Hc _].
    destruct (snapshot_update _ _ _) as [vo|] eqn:Hu; [|by apply (host_ok_same _ _ _ Hok (Hwf' Hwf))].
    eapply host_ok_insert; [done|by apply Hwf'|done|done| |done].
    unfold snapshot_update in Hu. by repeat case_match; simplify_eq/=.
  - destruct (accept_delta_frame (S:=S) sh src g w f clk) as (Hwf' & Hid & _).
    pose proof (accept_delta_contents sh src g w f clk Hwf (Hsrc src)) as Hc.
    destruct (contents sh !! src) as [e|] eqn:He; [|by apply (host_ok_same _ _ _ Hok (Hwf' Hwf))].
    case_bool_decide; [|by apply (host_ok_same _ _ _ Hok (Hwf' Hwf))].
    eapply host_ok_insert; [exact Hok|by apply Hwf'|done|done| |exact Hc]. exact (Hsrc _ _ He).
  - destruct (mark_stale_frame (S:=S) sh src i a) as (Hwf' & Hid & _).
    pose proof (mark_stale_contents sh src i a Hwf) as Hc.
    destruct (contents sh !! src) as [e|] eqn:He; [|by apply (host_ok_same _ _ _ Hok (Hwf' Hwf))].
    case_match; [by apply (host_ok_same _ _ _ Hok (Hwf' Hwf))|].
    eapply host_ok_insert; [exact Hok|by apply Hwf'|done|done| |exact Hc]. exact (Hsrc _ _ He).
  - by apply host_ok_left.
  - by apply host_ok_join.
  - by apply host_ok_leave.
Qed.

Lemma host_steps_ok src_ok proj_ok h h' :
  rtc (host_step src_ok proj_ok) h h' → host_ok h → host_ok h'.
Proof. induction 1; eauto using host_step_ok. Qed.

Lemma host_step_node_id src_ok proj_ok h h' :
  host_step src_ok proj_ok h h' → sh_node_id h'.2 = sh_node_id h.2.
Proof.
  intros [l sh f p clk _|DC VD l sh f p pd clk _|l sh snap clk _ _|l sh src g w f clk _ _
    |l sh src i a _ _|l sh src|l sh id v clk|l sh id]; simpl; try done.
  - unfold apply_mutation_with_delta. by destruct (f _).
  - apply accept_snapshot_frame.
  - apply accept_delta_frame.
  - apply node_left_frame.
  - apply node_joined_frame.
  - apply node_left_frame.
Qed.

Lemma host_steps_node_id src_ok proj_ok h h' :
  rtc (host_step src_ok proj_ok) h h' → sh_node_id h'.2 = sh_node_id h.2.
Proof. induction 1 as [|h1 h2 h3 Hs _ IH]; [done|]. by rewrite IH, (host_step_node_id _ _ _ _ Hs). Qed.

(** With messages of other nodes and one projection, the steps are steps of the
    shard. *)
Lemma host_step_shard project self h h' :
  host_step (λ s, s ≠ self) (λ p, p = project) h h' → sh_node_id h.2 = self →
  shard_step project h.2 h'.2.
Proof. intros [] Hid; simpl in *; subst; by constructor. Qed.

Lemma host_steps_shard project self h h' :
  rtc (host_step (λ s, s ≠ self) (λ p, p = project)) h h' → sh_node_id h.2 = self →
  rtc (shard_step project) h.2 h'.2.
Proof.
  induction 1 as [|h1 h2 h3 Hs _ IH]; intros Hid; [done|].
  apply (host_step_shard project self) in Hs; [|done].
  econstructor; [done|]. apply IH. by erewrite shard_step_node_id.
Qed.
End HostSteps.

(** ** Engine calls as host steps *)
Section Calls.
Context `{HashIter} {S V M C : Type} `{!ViewMapOps V M} `{!ViewMapLaws V M} `{Clock C}.
Local Abbreviation engine := (DistributedStateEngine S V M).
Implicit Types (e : engine) (clk : C).

Definition host e : LifecycleLogic * ShardCore S M := (lifecycle e, shard e).

(** The parts of an engine no call changes. *)
Definition static e :=
  (state_name e, wire_version e, sync_logic e, versioning e,
   (serialize_view e, deserialize_view e, inbound_delta_applier e)).

(** Every entry a message carries comes from a node that satisfies [src_ok]. *)
Definition msg_ok (src_ok : NodeId → Prop) (msg : WireMessage) : Prop :=
  match msg with
  | WireSync (FullSnapshot _ src _ _ _) | WireSync (DeltaUpdate _ src _ _ _) => src_ok src
  | WireSync (RequestSnapshot _ _) => True
  | WireFeed f => ∀ n, n ∈ bf_notifications f → src_ok (cn_source_node n)
  end.

Definition op_ok (src_ok : NodeId → Prop) (proj_ok : (S → V) → Prop)
    (op : EngineOp S V C) : Prop :=
  match op with
  | OpMutate _ p _ _ | OpMutateDelta _ p _ _ _ _ => proj_ok p
  | OpInbound msg _ => msg_ok src_ok msg
  | _ => True
  end.

Section Steps.
Context (src_ok : NodeId → Prop) (proj_ok : (S → V) → Prop).
Local Abbreviation steps := (rtc (host_step src_ok proj_ok (C:=C))).

(** What a call may change. *)
Definition call_ok e e' : Prop := steps (host e) (host e') ∧ static e' = static e.

Lemma call_ok_same e e' : host e' = host e → static e' = static e → call_ok e e'.
Proof. intros Hh Hs. split; [by rewrite Hh|done]. Qed.

Lemma call_ok_step e e' :
    host_step src_ok proj_ok (C:=C) (host e) (host e') → static e' = static e → call_ok e e'.
Proof. intros Hh Hs. split; [by apply rtc_once|done]. Qed.

Lemma call_ok_trans e1 e2 e3 : call_ok e1 e2 → call_ok e2 e3 → call_ok e1 e3.
Proof. intros [? ?] [? ?]. split; [by etrans|congruence]. Qed.

Lemma accept_source_ok e src :
    should_accept_from (lifecycle e) src = true → src ∉ departed_nodes (lifecycle e).
Proof. apply should_accept_from_spec. Qed.

Lemma snapshot_action_same e a v :
    host (sync_action_to_engine_actions_snapshot e a v).1 = host e ∧
    static (sync_action_to_engine_actions_snapshot e a v).1 = static e.
Proof. by destruct a. Qed.

Lemma delta_action_same {VD} e a v (d : VD) ser :
    host (sync_action_to_engine_actions_delta e a v d ser).1 = host e ∧
    static (sync_action_to_engine_actions_delta e a v d ser).1 = static e.
Proof. by destruct a. Qed.

Lemma mutate_ok e f p u clk : proj_ok p → call_ok e (mutate e f p u clk).1.
Proof.
  intros Hp. unfold mutate. destruct (apply_mutation _ _ _ _) as [sh out] eqn:Ha.
  set (e1 := map_diagnostics (set_shard e sh) record_mutation).
  pose proof (snapshot_action_same e1 (resolve_action (sync_logic e1) u) (mo_view out))
    as [Hh Hs].
  destruct (sync_action_to_engine_actions_snapshot _ _ _). simpl in *.
  apply call_ok_step; [|by rewrite Hs]. rewrite Hh.
  replace (host e1) with (lifecycle e, (apply_mutation (shard e) f p clk).1)
    by by rewrite Ha. by apply host_mutate.
Qed.

Lemma mutate_with_delta_ok {DC VD} e (f : S → S * DC) p (pd : DC → VD) u ser clk :
    proj_ok p → call_ok e (mutate_with_delta e f p pd u ser clk).1.
Proof.
  intros Hp. unfold mutate_with_delta.
  destruct (apply_mutation_with_delta _ _ _ _ _) as [sh out] eqn:Ha.
  set (e1 := map_diagnostics (set_shard e sh) record_mutation).
  pose proof (delta_action_same e1 (resolve_action (sync_logic e1) u) (dmo_view out)
    (dmo_view_delta out) ser) as [Hh Hs].
  destruct (sync_action_to_engine_actions_delta _ _ _ _ _). simpl in *.
  apply call_ok_step; [|by rewrite Hs]. rewrite Hh.
  replace (host e1) with (lifecycle e, (apply_mutation_with_delta (shard e) f p pd clk).1)
    by by rewrite Ha. by apply host_mutate_delta.
Qed.

Lemma full_snapshot_ok e n src g w data clk :
    src_ok src → call_ok e (handle_full_snapshot e n src g w data clk).1.
Proof.
  intros Hsrc. unfold handle_full_snapshot. case_bool_decide; simpl; [|by apply call_ok_same].
  destruct (should_accept_from _ _) eqn:Hacc; simpl; [|by apply call_ok_same].
  apply accept_source_ok in Hacc.
  destruct (on_inbound _ _ _ _) as [v|[]|]; simpl;
    [|by apply call_ok_same|by apply call_ok_step; [apply host_drop|]|by apply call_ok_same].
  destruct (accept_inbound_snapshot _ _ _) as [sh r] eqn:Ha.
  pose proof (host_snapshot src_ok proj_ok (lifecycle e) (shard e)
    (mkInboundSnapshot src g w v (unix_ms clk) (unix_ms clk)) clk Hsrc Hacc) as Hs.
  rewrite Ha in Hs. by apply call_ok_step; destruct r.
Qed.

Lemma delta_update_ok e n src g w data clk :
    src_ok src → call_ok e (handle_delta_update e n src g w data clk).1.
Proof.
  intros Hsrc. unfold handle_delta_update. case_bool_decide; simpl; [|by apply call_ok_same].
  destruct (should_accept_from _ _) eqn:Hacc; simpl; [|by apply call_ok_same].
  apply accept_source_ok in Hacc.
  destruct (negb (w =? wire_version e)); simpl.
  { destruct (on_deserialize_error _ _);
      [by apply call_ok_same|by apply call_ok_step; [apply host_drop|]]. }
  destruct (inbound_delta_applier e) as [applier|]; [|by apply call_ok_same].
  destruct (get_view _ _) as [view|]; [|by apply call_ok_same].
  destruct (negb _ || negb _); [destruct (generation_leb _ _); by apply call_ok_same|].
  destruct (applier _ _ _) as [v|err]; [|by apply call_ok_same].
  destruct (accept_inbound_delta _ _ _ _ _ _) as [sh r] eqn:Ha.
  pose proof (host_delta src_ok proj_ok (lifecycle e) (shard e) src g w (λ _, v) clk
    Hsrc Hacc) as Hs.
  rewrite Ha in Hs. by apply call_ok_step; destruct r.
Qed.

Lemma change_feed_ok e f :
    msg_ok src_ok (WireFeed f) → call_ok e (handle_inbound_change_feed e f).
Proof.
  intros Hok. unfold handle_inbound_change_feed.
  assert (∀ n s g, (n, s, g) ∈ route_inbound_batch f (engine_node_id e) → src_ok s) as Hr.
  { unfold route_inbound_batch. case_bool_decide; [set_solver|].
    intros n s g (x & ? & Hin)%list_elem_of_fmap. simplify_eq. by apply Hok. }
  remember (route_inbound_batch f (engine_node_id e)) as l eqn:El. clear El.
  revert e. induction l as [|[[n s] g] l IH]; intros e; simpl; [by apply call_ok_same|].
  eapply call_ok_trans; [|apply IH; intros n' s' g' Hin; apply (Hr n' s' g'); by right].
  unfold feed_entry. case_bool_decide; simpl; [|by apply call_ok_same].
  destruct (should_accept_from _ _) eqn:Hacc; simpl; [|by apply call_ok_same].
  apply accept_source_ok in Hacc. apply call_ok_step; [|done].
  apply host_mark_stale; [|done]. apply (Hr n s g). by left.
Qed.

Lemma request_snapshot_ok e n r e' acts :
    handle_request_snapshot e n r = Done (e', acts) → call_ok e e'.
Proof.
  unfold handle_request_snapshot, own_view_value.
  case_bool_decide; simpl; [|intros [= <- _]; by apply call_ok_same].
  destruct (should_accept_from _ _); simpl; [|intros [= <- _]; by apply call_ok_same].
  destruct (get_view _ _); simpl; intros [= <- _]. by apply call_ok_same.
Qed.

Lemma handle_inbound_ok e msg clk e' acts :
    msg_ok src_ok msg → handle_inbound e msg clk = Done (e', acts) → call_ok e e'.
Proof.
  destruct msg as [[n src g w d|n src g w d|n r]|f]; simpl; intros Hok.
  - intros [= Heq]. replace e' with (handle_full_snapshot e n src g w d clk).1
      by by rewrite Heq. by apply full_snapshot_ok.
  - intros [= Heq]. replace e' with (handle_delta_update e n src g w d clk).1
      by by rewrite Heq. by apply delta_update_ok.
  - apply request_snapshot_ok.
  - intros [= <- _]. by apply change_feed_ok.
Qed.

Lemma send_join_same l : ∀ e e' acts,
    send_join_snapshots e l = Done (e', acts) → host e' = host e ∧ static e' = static e.
Proof.
  induction l as [|[t] l IH]; intros e e' acts; simpl; [by intros [= <- _]|].
  destruct (own_view_value e); simpl; [|done].
  destruct (send_join_snapshots _ l) as [[e1 a1]|] eqn:Hr; simpl; [|done].
  intros [= <- _]. by apply IH in Hr.
Qed.

Lemma run_engine_op_ok e op e' acts b :
    op_ok src_ok proj_ok op → run_engine_op e op = Done (e', acts, b) → call_ok e e'.
Proof.
  destruct op as [f p u clk|DC VD f p pd u ser clk|msg clk| |id v clk|id| ]; simpl; intros Hok.
  - intros Heq. replace e' with (mutate e f p u clk).1
      by (by destruct (mutate e f p u clk); simplify_eq/=). by apply mutate_ok.
  - intros Heq. replace e' with (mutate_with_delta e f p pd u ser clk).1
      by (by destruct (mutate_with_delta e f p pd u ser clk); simplify_eq/=).
    by apply mutate_with_delta_ok.
  - destruct (handle_inbound e msg clk) as [[e1 a1]|] eqn:Hh; [|done].
    intros [= <- _ _]. by eapply handle_inbound_ok.
  - unfold flush_change_feed. destruct (change_feed_flush _). intros [= <- _ _].
    by apply call_ok_same.
  - destruct (engine_on_node_joined e id v clk) as [[e1 a1]|] eqn:Hj; [|done].
    intros [= <- _ _]. apply send_join_same in Hj as [Hh Hs].
    apply call_ok_step; [|done]. rewrite Hh. apply (host_join _ _ (lifecycle e) (shard e) id v clk).
  - intros [= <- _ _]. apply call_ok_step; [|done]. apply (host_leave _ _ (lifecycle e) (shard e) id).
  - unfold periodic_sync. destruct (should_periodic_sync _); simpl;
      [|intros [= <- _ _]; by apply call_ok_same].
    destruct (own_view_value e); simpl; intros [= <- _ _]. by apply call_ok_same.
Qed.

Lemma run_engine_ok ops : ∀ e e',
    Forall (op_ok src_ok proj_ok) ops → run_engine e ops = Done e' → call_ok e e'.
Proof.
  induction ops as [|op ops IH]; intros e e' Hok; simpl.
  { intros [= <-]. by apply call_ok_same. }
  apply Forall_cons in Hok as [Hop Hok].
  destruct (run_engine_op e op) as [[[e1 a1] b1]|] eqn:Hr; simpl; [|done].
  intros Hrun. eapply call_ok_trans; [by eapply run_engine_op_ok|by apply IH].
Qed.
End Steps.
End Calls.

(** ** No call panics *)
Section Totality.
Context `{HashIter} {S V M C : Type} `{!ViewMapOps V M} `{!ViewMapLaws V M} `{Clock C}.
Local Abbreviation engine := (DistributedStateEngine S V M).
Implicit Types (e : engine) (clk : C).

Definition anything {A : Type} (_ : A) : Prop := True.

Lemma op_ok_anything (op : EngineOp S V C) : op_ok anything anything op.
Proof. by destruct op as [| |[[]|]| | | |]. Qed.

Lemma own_view_value_done e : host_ok (host e) → is_done (own_view_value e).
Proof.
  intros (Hwf & [vo Hvo] & _). simpl in *. unfold own_view_value, engine_node_id.
  rewrite get_view_contents, Hvo by done. by eexists.
Qed.

Lemma own_view_value_diag e f : own_view_value (map_diagnostics e f) = own_view_value e.
Proof. done. Qed.

Lemma send_join_done l : ∀ e, host_ok (host e) → is_done (send_join_snapshots e l).
Proof.
  induction l as [|[t] l IH]; intros e Hok; simpl; [by eexists|].
  destruct (own_view_value_done e Hok) as [v ->]. simpl.
  destruct (IH (map_diagnostics e record_snapshot_sent) Hok) as [[e1 a1] ->]. by eexists.
Qed.

Lemma request_snapshot_done e n r : host_ok (host e) → is_done (handle_request_snapshot e n r).
Proof.
  intros Hok. unfold handle_request_snapshot. repeat case_match; try by eexists.
  destruct (own_view_value_done e Hok) as [v ->]. by eexists.
Qed.

Lemma run_engine_op_done e (op : EngineOp S V C) :
  host_ok (host e) → ∃ e' acts b, run_engine_op e op = Done (e', acts, b) ∧ host_ok (host e').
Proof.
  intros Hok.
  assert (is_done (run_engine_op e op)) as [[[e' acts] b] Hr].
  { destruct op as [| |[[]|] clk| |id v clk| |]; simpl; try by repeat case_match; eexists.
    - apply is_done_bind; [by apply request_snapshot_done|]. intros [??] _. by eexists.
    - apply is_done_bind; [|by intros [??] _; eexists]. apply send_join_done.
      apply (host_ok_join (lifecycle e) (shard e) id v clk Hok).
    - apply is_done_bind; [|by intros [??] _; eexists]. unfold periodic_sync.
      case_match; [by eexists|]. destruct (own_view_value_done e Hok) as [v ->]. by eexists. }
  exists e', acts, b. split; [done|].
  destruct (run_engine_op_ok anything anything e op e' acts b (op_ok_anything op) Hr) as [Hs _].
  by eapply host_steps_ok.
Qed.

(** Calls and deliveries keep a node in order. *)
Definition node_good (id : NodeId) e : Prop := host_ok (host e) ∧ engine_node_id e = id.

Lemma node_good_call id e (op : EngineOp S V C) e' acts b :
  node_good id e → run_engine_op e op = Done (e', acts, b) → node_good id e'.
Proof.
  intros [Hok Hid] Hr.
  destruct (run_engine_op_ok anything anything e op e' acts b (op_ok_anything op) Hr) as [Hs _].
  split; [by eapply host_steps_ok|]. unfold engine_node_id in *. rewrite <- Hid.
  exact (host_steps_node_id _ _ _ _ Hs).
Qed.

Lemma run_engine_done (ops : list (EngineOp S V C)) : ∀ e,
  host_ok (host e) → ∃ e', run_engine e ops = Done e' ∧ host_ok (host e').
Proof.
  induction ops as [|op ops IH]; intros e Hok; simpl; [by exists e|].
  destruct (run_engine_op_done e op Hok) as (e1 & a & b & -> & Hok1). apply (IH e1 Hok1).
Qed.

Lemma engine_new_ok name id x (p : S → V) cfg w clk ser de ap :
  let e := engine_new name id x p cfg w clk ser de ap in
  host_ok (host e) ∧ shard_inv p (shard e).
Proof.
  intros e. assert (shard_inv p (shard e)) as Hinv by apply shard_new_inv.
  split; [|done]. destruct Hinv as (Hwf & [t Hown] & Hsrc).
  split_and!; simpl; [done|by eexists| |done]. intros k Hk. by apply elem_of_empty in Hk.
Qed.
(** What an engine is after calls that project with [p] and deliver messages of
    other nodes. *)
Lemma run_engine_new_inv name id x (p : S → V) cfg w clk ser de ap (ops : list (EngineOp S V C)) e :
  let e0 := engine_new name id x p cfg w clk ser de ap in
  Forall (op_ok (λ s, s ≠ id) (λ q, q = p)) ops → run_engine e0 ops = Done e →
  host_ok (host e) ∧ shard_inv p (shard e) ∧ engine_node_id e = id ∧ static e = static e0.
Proof.
  intros e0 Hops Hrun. destruct (engine_new_ok name id x p cfg w clk ser de ap) as [Hok Hinv].
  destruct (run_engine_ok _ _ _ _ _ Hops Hrun) as [Hsteps Hstatic].
  split; [by eapply host_steps_ok|]. apply (host_steps_shard p id) in Hsteps; [|done].
  by destruct (shard_reachable p _ _ Hsteps Hinv).
Qed.
End Totality.

(** [C14] Whatever calls a host makes, in whatever order and with whatever messages,
    also ones that claim to come from the node itself, the engine completes them all:
    the own view never disappears, so the [expect] of [own_view_value] never panics.
    Nodes that left and did not rejoin have no view, and every view is filed under the
    node it came from. *)
Theorem engine_never_panics `{HashIter} {S V M C} `{!ViewMapOps V M} `{!ViewMapLaws V M} `{Clock C}
    (name : string) (id : NodeId) (x : S) (p : S → V) (cfg : StateConfig) (w : Z) (clk : C)
    (ser : SerializeViewFn V) (de : DeserializeViewFn V) (ap : option (InboundDeltaApplierFn V))
    (ops : list (EngineOp S V C)) :
  ∃ e : DistributedStateEngine S V M,
    run_engine (engine_new name id x p cfg w clk ser de ap) ops = Done e ∧
    is_Some (get_view (shard e) (engine_node_id e)) ∧
    (∀ k, engine_should_accept_from e k = false → k ≠ engine_node_id e →
       get_view (shard e) k = None) ∧
    (∀ k vo, get_view (shard e) k = Some vo → vo_source_node vo = k).
Proof.
  destruct (engine_new_ok (M:=M) name id x p cfg w clk ser de ap) as [Hok _].
  destruct (run_engine_done ops _ Hok) as (e & Hrun & Hwf & Hown & Hd & Hsrc).
  exists e. split; [done|]. unfold engine_node_id. setoid_rewrite get_view_contents; [|done..].
  split_and!; [done| |done]. intros k Hk Hne. apply Hd; [|done].
  unfold engine_should_accept_from, should_accept_from in Hk.
  by rewrite negb_false_iff, bool_decide_eq_true in Hk.
Qed.

(** [C15] With messages of other nodes only, and mutations that project with the
    function the engine was created with, the own view is at all times the projection
    of the current state under the current generation, and this is what a snapshot
    request is answered with. *)
Theorem engine_serves_current_state `{HashIter} {S V M C} `{!ViewMapOps V M} `{!ViewMapLaws V M} `{Clock C}
    (name : string) (id : NodeId) (x : S) (p : S → V) (cfg : StateConfig) (w : Z) (clk : C)
    (ser : SerializeViewFn V) (de : DeserializeViewFn V) (ap : option (InboundDeltaApplierFn V))
    (ops : list (EngineOp S V C)) (e : DistributedStateEngine S V M) (requester : NodeId) :
  Forall (op_ok (λ s, s ≠ id) (λ q, q = p)) ops →
  run_engine (engine_new name id x p cfg w clk ser de ap) ops = Done e →
  let st := sh_state (shard e) in
  (∃ vo, get_view (shard e) id = Some vo ∧ vo_value vo = p (so_value st) ∧
     vo_generation vo = so_generation st ∧ vo_pending_remote_generation vo = None) ∧
  (engine_should_accept_from e requester = true →
   snd <$> handle_request_snapshot e name requester =
     Done [SendSync requester
             (FullSnapshot name id (so_generation st) w (ser (p (so_value st))))]).
Proof.
  intros Hops Hrun st.
  destruct (run_engine_new_inv (M:=M) name id x p cfg w clk ser de ap ops e Hops Hrun)
    as (_ & (Hwf & [t Hown] & _) & Hid & Hstatic). change (sh_node_id (shard e) = id) in Hid.
  rewrite Hid in Hown. change (contents (shard e) !! id =
    Some (own_view_object id st (p (so_value st)) t)) in Hown.
  assert (get_view (shard e) id = Some (own_view_object id st (p (so_value st)) t)) as Hg
    by by rewrite get_view_contents.
  split; [by eexists|]. intros Hacc. unfold static in Hstatic. simpl in Hstatic.
  injection Hstatic as Hn Hw _ _ Hser _ _.
  unfold handle_request_snapshot, own_view_value, own_snapshot, engine_node_id. simpl.
  unfold engine_should_accept_from in Hacc. rewrite Hn, bool_decide_eq_true_2, Hacc by done. simpl.
  by rewrite Hid, Hg, Hw, Hser.
Qed.

(** ** What the inbound handlers do *)
Section Inbound.
Context `{HashIter} {S V M C : Type} `{!ViewMapOps V M} `{!ViewMapLaws V M} `{Clock C}.
Local Abbreviation engine := (DistributedStateEngine S V M).
Implicit Types (e : engine) (clk : C).

(** The snapshot a readable [FullSnapshot] message becomes. *)
Definition received_snapshot (src : NodeId) (g : Generation) (w : Z) (v : V) clk :
    InboundSnapshot V :=
  mkInboundSnapshot src g w v (unix_ms clk) (unix_ms clk).

Lemma full_snapshot_readable e src g w data clk v :
  should_accept_from (lifecycle e) src = true → deserialize_view e data w = Ok v →
  handle_full_snapshot e (state_name e) src g w data clk =
    (let '(sh, r) := accept_inbound_snapshot (shard e) (received_snapshot src g w v clk) clk in
     map_diagnostics (set_shard e sh) (λ d,
       if decide (r = Accepted) then record_snapshot_received d src 0 clk
       else record_stale_delta_discarded d), []).
Proof.
  intros Hacc Hde. unfold handle_full_snapshot.
  rewrite bool_decide_eq_true_2, Hacc by done. simpl. unfold on_inbound. rewrite Hde.
  fold (received_snapshot src g w v clk). by destruct (accept_inbound_snapshot _ _ _) as [sh []].
Qed.

(** The effect of a readable snapshot on the view map. *)
Lemma full_snapshot_contents e src g w data clk v :
  shard_wf (shard e) →
  should_accept_from (lifecycle e) src = true → deserialize_view e data w = Ok v →
  let e' := (handle_full_snapshot e (state_name e) src g w data clk).1 in
  shard_wf (shard e') ∧ sh_node_id (shard e') = sh_node_id (shard e) ∧
  sh_state (shard e') = sh_state (shard e) ∧
  contents (shard e') =
    match snapshot_update (received_snapshot src g w v clk) (now clk)
            (contents (shard e) !! src) with
    | Some vo => <[src := vo]> (contents (shard e))
    | None => contents (shard e)
    end.
Proof.
  intros Hwf Hacc Hde e'. unfold e'. rewrite (full_snapshot_readable _ _ _ _ _ _ v) by done.
  set (snap := received_snapshot src g w v clk).
  destruct (accept_snapshot_frame (S:=S) (shard e) snap clk) as (Hwf' & Hid & Hst).
  destruct (accept_snapshot_contents (shard e) snap clk Hwf) as [Hc _].
  destruct (accept_inbound_snapshot _ _ _) as [sh r]. by auto.
Qed.

Lemma full_snapshot_same e n src g w data clk :
  (handle_full_snapshot e n src g w data clk).2 = [] ∧
  static (handle_full_snapshot e n src g w data clk).1 = static e ∧
  lifecycle (handle_full_snapshot e n src g w data clk).1 = lifecycle e.
Proof.
  unfold handle_full_snapshot. case_bool_decide; simpl; [|done].
  destruct (should_accept_from _ _); simpl; [|done].
  destruct (on_inbound _ _ _ _) as [v|[]|]; try done.
  by destruct (accept_inbound_snapshot _ _ _) as [sh []].
Qed.

(** A generation is ahead of an entry that is missing or older. *)
Definition ahead (g : Generation) (old : option (StateViewObject V)) : bool :=
  match old with Some vo => generation_ltb (vo_generation vo) g | None => true end.

Lemma snapshot_update_ahead (s : InboundSnapshot V) t old :
  snapshot_update s t old =
    if ahead (snap_generation s) old
    then Some (snapshot_entry s t (old ≫= vo_pending_remote_generation)) else None.
Proof.
  unfold snapshot_update, should_accept, ahead. destruct old; [|done].
  by destruct (generation_ltb _ _).
Qed.

Lemma not_next_generation g l :
  negb (incarnation g =? incarnation l) || negb (age g =? u64_add (age l) 1) =
    negb (bool_decide (g = next_generation l)).
Proof.
  destruct g as [i a], l as [j b]; simpl. unfold next_generation; simpl.
  destruct (Z.eqb_spec i j); simpl; [subst|by rewrite bool_decide_eq_false_2 by congruence].
  destruct (Z.eqb_spec a (u64_add b 1)); simpl;
    by rewrite ?bool_decide_eq_true_2, ?bool_decide_eq_false_2 by congruence.
Qed.
End Inbound.

(** [C22] A snapshot of this state from a node that has not departed never triggers
    a message and touches only the sender's entry.  Readable and newer, it replaces
    the entry and counts as received; readable but not newer, it is counted as
    discarded; unreadable, it counts as a failure, and the sender's view is dropped
    exactly for an unknown version under [DropAndWait]. *)
Theorem full_snapshot_spec `{HashIter} {S V M C} `{!ViewMapOps V M} `{!ViewMapLaws V M} `{Clock C}
    (e : DistributedStateEngine S V M) (src : NodeId) (g : Generation) (w : Z) (data : bytes)
    (clk : C) :
  shard_wf (shard e) → engine_should_accept_from e src = true →
  let old := get_view (shard e) src in
  let '(e', actions) := handle_full_snapshot e (state_name e) src g w data clk in
  let counted m := metrics (diagnostics e') = add_metrics (metrics (diagnostics e)) m in
  actions = [] ∧
  (∀ k, k ≠ src → get_view (shard e') k = get_view (shard e) k) ∧
  match deserialize_view e data w with
  | Ok v =>
      if ahead g old then
        counted one_snapshot_received ∧
        get_view (shard e') src = Some (snapshot_entry (received_snapshot src g w v clk) (now clk)
          (old ≫= vo_pending_remote_generation))
      else counted one_stale_discarded ∧ get_view (shard e') src = old
  | Err (UnknownVersion _) =>
      counted one_sync_failure ∧
      get_view (shard e') src =
        if decide (vl_policy (versioning e) = DropAndWait ∧ src ≠ engine_node_id e)
        then None else old
  | Err (Malformed _) => counted one_sync_failure ∧ get_view (shard e') src = old
  end.
Proof.
  intros Hwf Hacc old. unfold engine_should_accept_from in Hacc.
  destruct (deserialize_view e data w) as [v|[u|msg]] eqn:Hde.
  - pose proof (full_snapshot_contents e src g w data clk v Hwf Hacc Hde) as (Hwf' & _ & _ & Hc).
    rewrite snapshot_update_ahead in Hc. revert Hwf' Hc.
    rewrite (full_snapshot_readable _ _ _ _ _ _ v) by done.
    pose proof (accept_snapshot_contents (shard e) (received_snapshot src g w v clk) clk Hwf) as [_ Hr].
    rewrite snapshot_update_ahead in Hr. simpl in Hr.
    destruct (accept_inbound_snapshot _ _ _) as [sh r]. simpl in *. intros Hwf' Hc.
    unfold old. rewrite !(get_view_contents _ src) by done. rewrite Hc.
    destruct (ahead g _).
    + assert (r = Accepted) as -> by (apply Hr; eauto). split_and!; try done.
      * intros k Hk. by rewrite !get_view_contents, Hc, lookup_insert_ne.
      * apply lookup_insert_eq.
    + destruct r; [by destruct (proj1 Hr eq_refl)|]. split_and!; try done.
      intros k _. by rewrite !get_view_contents, Hc.
  - unfold handle_full_snapshot. rewrite bool_decide_eq_true_2, Hacc by done. simpl.
    unfold on_inbound, on_deserialize_error. rewrite Hde. simpl. unfold old.
    destruct (vl_policy (versioning e)).
    { by rewrite decide_False by (by intros [? _]). }
    destruct (node_left_frame (S:=S) (shard e) src) as (Hwf' & _ & _).
    split_and!; [done| |done|].
    + intros k Hk. rewrite !get_view_contents by (simpl; auto). simpl. rewrite node_left_contents by done.
      case_bool_decide; [done|]. by rewrite lookup_delete_ne.
    + rewrite !get_view_contents by (simpl; auto). simpl. rewrite node_left_contents by done. unfold engine_node_id.
      case_bool_decide; case_decide; try tauto. apply lookup_delete_eq.
  - unfold handle_full_snapshot. rewrite bool_decide_eq_true_2, Hacc by done. simpl.
    unfold on_inbound. by rewrite Hde.
Qed.

(** Without the restriction to other nodes this fails: nothing stops a
    snapshot that claims to come from the node itself.  If it carries a higher
    generation, it replaces the node's own view, and the node then serves the
    foreign view as its own. *)
Theorem self_snapshot_overwrites_own_view `{HashIter} {S V M C} `{!ViewMapOps V M} `{!ViewMapLaws V M} `{Clock C}
    (name : string) (id : NodeId) (x : S) (p : S → V) (cfg : StateConfig) (w : Z) (clk : C)
    (ser : SerializeViewFn V) (de : DeserializeViewFn V) (ap : option (InboundDeltaApplierFn V))
    (g : Generation) (data : bytes) (v : V) :
  generation_new (as_u64 (unix_ms clk)) 0 <g g → de data w = Ok v →
  let e := engine_new (M:=M) name id x p cfg w clk ser de ap in
  let e' := (handle_full_snapshot e name id g w data clk).1 in
  sh_state (shard e') = sh_state (shard e) ∧
  vo_value <$> get_view (shard e') id = Some v.
Proof.
  intros Hg Hde e e'.
  destruct (engine_new_ok (M:=M) name id x p cfg w clk ser de ap) as [(Hwf & _) (_ & [t Hown] & _)].
  simpl in Hwf, Hown.
  change (shard_new id (new_state_object x (as_u64 (unix_ms clk)) clk) (p x) clk) with (shard e)
    in Hwf, Hown.
  destruct (full_snapshot_contents e id g w data clk v Hwf eq_refl Hde) as (Hwf' & _ & Hst & Hc).
  split; [exact Hst|]. unfold e'. change name with (state_name e) at 1.
  rewrite get_view_contents, Hc by done.
  rewrite Hown, snapshot_update_eq by (intros vo [= <-]; done). by rewrite lookup_insert_eq.
Qed.

(** ** Inbound deltas *)
Section InboundDeltas.
Context `{HashIter} {S V M C : Type} `{!ViewMapOps V M} `{!ViewMapLaws V M} `{Clock C}.
Local Abbreviation engine := (DistributedStateEngine S V M).
Implicit Types (e : engine) (clk : C).

(** What an engine decides to do with a delta of this state from an accepted
    sender. *)
Inductive DeltaDecision : Type :=
| ApplyDelta (current : StateViewObject V) (v : V)
| PullInstead
| IgnoreDelta
| UnsupportedVersion.

Definition decide_delta e (src : NodeId) (g : Generation) (w : Z) (data : bytes) :
    DeltaDecision :=
  if negb (w =? wire_version e) then UnsupportedVersion
  else
    match inbound_delta_applier e, contents (shard e) !! src with
    | Some applier, Some c =>
        if bool_decide (g = next_generation (vo_generation c)) then
          match applier data w (vo_value c) with Ok v => ApplyDelta c v | Err _ => PullInstead end
        else if generation_leb g (vo_generation c) then IgnoreDelta else PullInstead
    | _, _ => PullInstead
    end.

Lemma delta_update_decided e src g w data clk :
  host_ok (host e) → should_accept_from (lifecycle e) src = true →
  let '(e', actions) := handle_delta_update e (state_name e) src g w data clk in
  shard_wf (shard e') ∧ sh_state (shard e') = sh_state (shard e) ∧
  match decide_delta e src g w data with
  | ApplyDelta c v =>
      actions = [] ∧
      contents (shard e') = <[src := delta_entry c g w (λ _, v) clk]> (contents (shard e))
  | PullInstead =>
      actions = [make_snapshot_request e src] ∧ contents (shard e') = contents (shard e)
  | IgnoreDelta => actions = [] ∧ contents (shard e') = contents (shard e)
  | UnsupportedVersion =>
      actions = [] ∧
      contents (shard e') =
        (if decide (vl_policy (versioning e) = DropAndWait ∧ src ≠ engine_node_id e)
         then delete src (contents (shard e)) else contents (shard e))
  end.
Proof.
  intros (Hwf & _ & _ & Hsrc) Hacc. simpl in Hwf, Hsrc.
  unfold handle_delta_update, decide_delta. rewrite bool_decide_eq_true_2, Hacc by done.
  destruct (Z.eqb_spec w (wire_version e)) as [->|]; simpl.
  2: { unfold on_deserialize_error. destruct (vl_policy (versioning e)).
    { rewrite decide_False by (by intros [? _]). done. }
    destruct (node_left_frame (S:=S) (shard e) src) as (Hwf' & _ & Hst). simpl.
    rewrite node_left_contents by done. unfold engine_node_id.
    split_and!; [auto|done..|]. case_bool_decide; case_decide; tauto. }
  destruct (inbound_delta_applier e) as [applier|]; [|done].
  rewrite get_view_contents by done. destruct (contents (shard e) !! src) as [c|] eqn:Hc; [|done].
  rewrite not_next_generation. case_bool_decide as Hg; simpl; [|by destruct (generation_leb _ _)].
  destruct (applier _ _ _) as [v|err]; [|done].
  pose proof (accept_delta_result (shard e) src g (wire_version e) (λ _, v) clk Hwf) as Hr.
  pose proof (accept_delta_contents (shard e) src g (wire_version e) (λ _, v) clk Hwf (Hsrc src)) as Hcs.
  destruct (accept_delta_frame (S:=S) (shard e) src g (wire_version e) (λ _, v) clk)
    as (Hwf' & _ & Hst).
  rewrite Hc in Hr, Hcs. simpl in Hr. rewrite bool_decide_eq_true_2 in Hr, Hcs by done.
  destruct (accept_inbound_delta _ _ _ _ _ _) as [sh r]. simpl in *. subst r. by auto.
Qed.

(** When the decision is to apply, and when it is to pull. *)
Lemma decide_delta_apply e src g w data c v :
  decide_delta e src g w data = ApplyDelta c v ↔
  w = wire_version e ∧ ∃ ap, inbound_delta_applier e = Some ap ∧
    contents (shard e) !! src = Some c ∧ g = next_generation (vo_generation c) ∧
    ap data w (vo_value c) = Ok v.
Proof.
  unfold decide_delta. destruct (Z.eqb_spec w (wire_version e)); simpl; [|naive_solver].
  destruct (inbound_delta_applier e) as [ap|], (contents (shard e) !! src) as [x|];
    try naive_solver.
  case_bool_decide as Hg; [destruct (ap data w (vo_value x)) eqn:Hap|destruct (generation_leb _ _)];
    (split; [intros [=]; subst; eauto 10|]);
    intros (_ & ? & [= <-] & [= <-] & ? & ?); congruence.
Qed.

Lemma decide_delta_pull e src g w data :
  decide_delta e src g w data = PullInstead ↔
  w = wire_version e ∧ ∀ ap c, inbound_delta_applier e = Some ap →
    contents (shard e) !! src = Some c →
    if bool_decide (g = next_generation (vo_generation c))
    then ∃ err, ap data w (vo_value c) = Err err else vo_generation c <g g.
Proof.
  unfold decide_delta. destruct (Z.eqb_spec w (wire_version e)); simpl; [|naive_solver].
  destruct (inbound_delta_applier e) as [ap|], (contents (shard e) !! src) as [x|];
    try naive_solver.
  destruct (bool_decide _) eqn:Hb.
  - destruct (ap data w (vo_value x)) eqn:Hap; split; try done.
    + intros [_ Ha]. specialize (Ha _ _ eq_refl eq_refl). rewrite Hb in Ha. destruct Ha. congruence.
    + intros _. split; [done|]. intros ?? [= <-] [= <-]. rewrite Hb. eauto.
  - destruct (generation_leb _ _) eqn:Hle.
    + split; [done|]. intros [_ Ha]. specialize (Ha _ _ eq_refl eq_refl). rewrite Hb in Ha.
      apply generation_leb_le in Hle. exfalso. gen_lia.
    + apply generation_leb_gt in Hle. split; [|done]. intros _. split; [done|].
      intros ?? [= <-] [= <-]. by rewrite Hb.
Qed.

Lemma decide_delta_version e src g w data :
  decide_delta e src g w data = UnsupportedVersion ↔ w ≠ wire_version e.
Proof.
  unfold decide_delta. destruct (Z.eqb_spec w (wire_version e)); simpl; [|done].
  repeat case_match; naive_solver.
Qed.

Lemma delta_update_same e n src g w data clk :
  let e' := (handle_delta_update e n src g w data clk).1 in
  static e' = static e ∧ lifecycle e' = lifecycle e ∧ engine_node_id e' = engine_node_id e.
Proof.
  unfold handle_delta_update. case_bool_decide; simpl; [|done].
  destruct (should_accept_from _ _); simpl; [|done].
  destruct (negb (w =? wire_version e)).
  { destruct (on_deserialize_error _ _); [done|]. split_and!; [done..|].
    apply (node_left_frame (shard e) src). }
  destruct (inbound_delta_applier e) as [ap|]; [|done].
  destruct (get_view _ _) as [c|]; [|done].
  destruct (negb _ || negb _); [by destruct (generation_leb _ _)|].
  destruct (ap _ _ _) as [v|]; [|done].
  destruct (accept_delta_frame (S:=S) (shard e) src g w (λ _, v) clk) as (_ & Hid & _).
  by destruct (accept_inbound_delta _ _ _ _ _ _) as [sh []].
Qed.
End InboundDeltas.
Arguments DeltaDecision : clear implicits.

(** [C23] The delta protocol.  A delta of this state is applied exactly when its wire
    version is the engine's, the engine applies deltas, the delta is the successor of
    the sender's view and the applier succeeds: the view then advances by one age.
    Otherwise the view stays (or, for another wire version under [DropAndWait], goes),
    and a snapshot is requested from the sender exactly when the engine may be behind:
    no applier, no view, a gap, or an error of the applier.  The check [accept_inbound_delta]
    repeats never contradicts the engine's own. *)
Theorem delta_update_spec `{HashIter} {S V M C} `{!ViewMapOps V M} `{!ViewMapLaws V M} `{Clock C}
    (e : DistributedStateEngine S V M) (src : NodeId) (g : Generation) (w : Z) (data : bytes)
    (clk : C) :
  host_ok (host e) → engine_should_accept_from e src = true →
  let old := get_view (shard e) src in
  let '(e', actions) := handle_delta_update e (state_name e) src g w data clk in
  let applies v := w = wire_version e ∧ ∃ ap c, inbound_delta_applier e = Some ap ∧ old = Some c ∧
    g = next_generation (vo_generation c) ∧ ap data w (vo_value c) = Ok v in
  let behind := w = wire_version e ∧ ∀ ap c, inbound_delta_applier e = Some ap → old = Some c →
    if bool_decide (g = next_generation (vo_generation c))
    then ∃ err, ap data w (vo_value c) = Err err else vo_generation c <g g in
  (∀ v, applies v → ∃ vo, get_view (shard e') src = Some vo ∧ vo_value vo = v ∧ vo_generation vo = g) ∧
  (actions = [make_snapshot_request e src] ↔ behind) ∧
  (actions = [] ∨ actions = [make_snapshot_request e src]) ∧
  ((∀ v, ¬ applies v) → get_view (shard e') src =
     if decide (w ≠ wire_version e ∧ vl_policy (versioning e) = DropAndWait ∧ src ≠ engine_node_id e)
     then None else old) ∧
  (∀ k, k ≠ src → get_view (shard e') k = get_view (shard e) k).
Proof.
  intros Hok Hacc old. pose proof Hok as (Hwf & _). simpl in Hwf.
  pose proof (delta_update_decided e src g w data clk Hok Hacc) as Hd.
  destruct (handle_delta_update _ _ _ _ _ _ _) as [e' actions].
  destruct Hd as (Hwf' & _ & Hd). intros applies behind.
  assert (old = contents (shard e) !! src) as Hold by by apply get_view_contents.
  assert (∀ v, applies v ↔ ∃ c, decide_delta e src g w data = ApplyDelta c v) as Happ
    by (intros v; unfold applies; rewrite Hold; setoid_rewrite decide_delta_apply; naive_solver).
  assert (behind ↔ decide_delta e src g w data = PullInstead) as Hpull
    by (unfold behind; by rewrite Hold, decide_delta_pull).
  assert (w ≠ wire_version e ↔ decide_delta e src g w data = UnsupportedVersion) as Hver
    by (by rewrite decide_delta_version).
  clearbody applies behind old. subst old. rewrite Hpull. setoid_rewrite Happ.
  setoid_rewrite (get_view_contents (shard e')); [|done..].
  setoid_rewrite (get_view_contents (shard e)); [|done]. clear Happ Hpull.
  destruct (decide_delta e src g w data) as [c v| | |]; destruct Hd as [-> Hc];
    [rewrite decide_False by (intros [Hw _]; by apply Hver in Hw)..|]; rewrite Hc.
  - rewrite lookup_insert_eq. split_and!; try naive_solver. intros k Hk. by apply lookup_insert_ne.
  - split_and!; naive_solver.
  - split_and!; naive_solver.
  - split_and!; try naive_solver.
    + intros _. repeat case_decide; try tauto. apply lookup_delete_eq.
    + intros k Hk. case_decide; [by apply lookup_delete_ne|done].
Qed.
