(* ===== verification/Accounting.v ===== *)
(** The engine's counters: over any run, the counters of mutations, sent deltas and
    sent snapshots agree with the calls made and the messages handed out. *)
From stdpp Require Import prelude gmap fin_maps strings.
From S2P Require Import Prelude Node Clock Types ViewMap ShardCore SyncLogic ChangeFeed.
From S2P Require Import Versioning Lifecycle Diagnostics Engine EngineProps.

Section Accounting.
Context `{HashIter} {S V M C : Type} `{!ViewMapOps V M} `{!ViewMapLaws V M} `{Clock C}.
Local Abbreviation engine := (DistributedStateEngine S V M).
Implicit Types (e : engine) (clk : C) (acts : list EngineAction).

(** The message of an action. *)
Definition action_message (a : EngineAction) : SyncMessage :=
  match a with BroadcastSync m | SendSync _ m | ScheduleDelayed _ m => m end.
Definition is_full_snapshot (m : SyncMessage) : bool :=
  match m with FullSnapshot _ _ _ _ _ => true | _ => false end.
Definition is_delta_update (m : SyncMessage) : bool :=
  match m with DeltaUpdate _ _ _ _ _ => true | _ => false end.

Definition count_messages (p : SyncMessage → bool) acts : Z :=
  Z.of_nat (length (filter (λ a, p (action_message a) = true) acts)).

Definition is_mutation (op : EngineOp S V C) : bool :=
  match op with OpMutate _ _ _ _ | OpMutateDelta _ _ _ _ _ _ => true | _ => false end.
Definition count_mutations (ops : list (EngineOp S V C)) : Z :=
  Z.of_nat (length (filter (λ op, is_mutation op = true) ops)).

(** A run that also collects what it hands out. *)
Fixpoint run_engine_trace e (ops : list (EngineOp S V C)) : outcome (engine * list EngineAction) :=
  match ops with
  | [] => Done (e, [])
  | op :: ops =>
      '(e, acts, _) ← run_engine_op e op;
      '(e, rest) ← run_engine_trace e ops;
      Done (e, acts ++ rest)
  end.

Definition emetrics e : StateSyncMetrics := metrics (diagnostics e).

(** The three counters are machine words. *)
Definition counters_ok e : Prop :=
  is_u64 (total_mutations (emetrics e)) ∧ is_u64 (deltas_sent (emetrics e)) ∧
  is_u64 (snapshots_sent (emetrics e)).

(** From [e] to [e'] the counters grew by [k], [d] and [s]. *)
Definition counted e e' (k d s : Z) : Prop :=
  total_mutations (emetrics e') = wrap64 (total_mutations (emetrics e) + k) ∧
  deltas_sent (emetrics e') = wrap64 (deltas_sent (emetrics e) + d) ∧
  snapshots_sent (emetrics e') = wrap64 (snapshots_sent (emetrics e) + s).

Lemma counted_ok e e' k d s : counted e e' k d s → counters_ok e'.
Proof. intros (H1 & H2 & H3). unfold counters_ok. rewrite H1, H2, H3. auto with dstate. Qed.

Lemma counted_same e e' : counters_ok e → emetrics e' = emetrics e → counted e e' 0 0 0.
Proof. intros (?&?&?) Heq. unfold counted. rewrite Heq, !Z.add_0_r, !wrap64_small; auto. Qed.

Lemma counted_add e e' m :
  emetrics e' = add_metrics (emetrics e) m →
  counted e e' (total_mutations m) (deltas_sent m) (snapshots_sent m).
Proof. unfold counted. by intros ->. Qed.

Lemma counted_trans e1 e2 e3 k d s k' d' s' :
  counted e1 e2 k d s → counted e2 e3 k' d' s' → counted e1 e3 (k + k') (d + d') (s + s').
Proof.
  intros (H1 & H2 & H3) (H1' & H2' & H3'). unfold counted.
  rewrite H1', H2', H3', H1, H2, H3. unfold wrap64. rewrite !Zplus_mod_idemp_l.
  split_and!; f_equal; lia.
Qed.

Lemma count_messages_app p a b :
  count_messages p (a ++ b) = count_messages p a + count_messages p b.
Proof. unfold count_messages. rewrite filter_app, length_app. lia. Qed.

(** A call that hands out [acts] and performs [k] mutations. *)
Definition call_counted e e' (k : Z) acts : Prop :=
  counters_ok e →
  counted e e' k (count_messages is_delta_update acts) (count_messages is_full_snapshot acts).

Lemma call_counted_same e e' acts :
  emetrics e' = emetrics e → count_messages is_delta_update acts = 0 →
  count_messages is_full_snapshot acts = 0 → call_counted e e' 0 acts.
Proof. intros Heq Hd Hs Hok. rewrite Hd, Hs. by apply counted_same. Qed.

Lemma call_counted_add e e' m acts k :
  emetrics e' = add_metrics (emetrics e) m → total_mutations m = k →
  count_messages is_delta_update acts = deltas_sent m →
  count_messages is_full_snapshot acts = snapshots_sent m → call_counted e e' k acts.
Proof. intros Heq <- Hd Hs _. rewrite Hd, Hs. by apply counted_add. Qed.

(** Sending after the mutation was counted. *)
Lemma call_counted_mutation e e1 e' acts :
  emetrics e1 = add_metrics (emetrics e) one_mutation → call_counted e1 e' 0 acts →
  call_counted e e' 1 acts.
Proof.
  intros Heq Hc _. pose proof (counted_add _ _ _ Heq) as H1.
  exact (counted_trans _ _ _ _ _ _ _ _ _ H1 (Hc (counted_ok _ _ _ _ _ H1))).
Qed.

Lemma call_counted_trans e1 e2 e3 a b k k' :
  call_counted e1 e2 k a → call_counted e2 e3 k' b → call_counted e1 e3 (k + k') (a ++ b).
Proof.
  intros Ha Hb Hok. rewrite !count_messages_app.
  eapply counted_trans; [by apply Ha|]. apply Hb. by eapply counted_ok, Ha.
Qed.

Local Ltac same := by apply call_counted_same.
Local Ltac adds m := by apply (call_counted_add _ _ m).

Lemma snapshot_action_counted e a v :
  let '(e', acts) := sync_action_to_engine_actions_snapshot e a v in call_counted e e' 0 acts.
Proof.
  destruct a; simpl; try same; try adds one_snapshot_sent. adds one_delta_suppressed.
Qed.

Lemma delta_action_counted {VD} e a v (d : VD) ser :
  let '(e', acts) := sync_action_to_engine_actions_delta e a v d ser in call_counted e e' 0 acts.
Proof.
  destruct a; simpl; try same; try adds one_delta_sent; try adds one_snapshot_sent;
    [|adds one_delta_suppressed].
  eapply (call_counted_trans _ (map_diagnostics e record_delta_sent) _ [_] [] 0 0);
    [adds one_delta_sent|adds one_delta_immediate].
Qed.

Lemma full_snapshot_counted e n src g w data clk :
  let '(e', acts) := handle_full_snapshot e n src g w data clk in call_counted e e' 0 acts.
Proof.
  unfold handle_full_snapshot. case_bool_decide; simpl; [|same].
  destruct (should_accept_from _ _); simpl; [|same].
  destruct (on_inbound _ _ _ _) as [v|[]|]; try adds one_sync_failure.
  destruct (accept_inbound_snapshot _ _ _) as [sh []];
    [adds one_snapshot_received|adds one_stale_discarded].
Qed.

Lemma delta_update_counted e n src g w data clk :
  let '(e', acts) := handle_delta_update e n src g w data clk in call_counted e e' 0 acts.
Proof.
  unfold handle_delta_update. case_bool_decide; simpl; [|same].
  destruct (should_accept_from _ _); simpl; [|same].
  destruct (negb (w =? wire_version e)).
  { destruct (on_deserialize_error _ _); adds one_sync_failure. }
  destruct (inbound_delta_applier e) as [ap|]; [|same].
  destruct (get_view _ _) as [c|]; [|same].
  destruct (negb _ || negb _).
  { destruct (generation_leb _ _); [adds one_stale_discarded|adds one_age_gap]. }
  destruct (ap _ _ _); [|adds one_sync_failure].
  destruct (accept_inbound_delta _ _ _ _ _ _) as [sh []];
    [adds one_delta_received|adds one_stale_discarded|adds one_age_gap|same].
Qed.

Lemma change_feed_metrics e f : emetrics (handle_inbound_change_feed e f) = emetrics e.
Proof.
  unfold handle_inbound_change_feed.
  remember (route_inbound_batch f (engine_node_id e)) as l eqn:El. clear El. revert e.
  induction l as [|[[n s] g] l IH]; intros e; simpl; [done|].
  rewrite IH. unfold feed_entry. by repeat case_match.
Qed.

Lemma request_snapshot_counted e n r e' acts :
  handle_request_snapshot e n r = Done (e', acts) → call_counted e e' 0 acts.
Proof.
  unfold handle_request_snapshot.
  case_bool_decide; simpl; [|intros [= <- <-]; same].
  destruct (should_accept_from _ _); simpl; [|intros [= <- <-]; same].
  destruct (own_view_value e); simpl; intros [= <- <-]. adds one_snapshot_sent.
Qed.

Lemma handle_inbound_counted e msg clk e' acts :
  handle_inbound e msg clk = Done (e', acts) → call_counted e e' 0 acts.
Proof.
  destruct msg as [[n s g w d|n s g w d|n r]|f]; simpl.
  - pose proof (full_snapshot_counted e n s g w d clk).
    destruct (handle_full_snapshot _ _ _ _ _ _ _). by intros [= <- <-].
  - pose proof (delta_update_counted e n s g w d clk).
    destruct (handle_delta_update _ _ _ _ _ _ _). by intros [= <- <-].
  - apply request_snapshot_counted.
  - intros [= <- <-]. apply call_counted_same; [|done..]. apply change_feed_metrics.
Qed.

Lemma send_join_counted l : ∀ e e' acts,
  send_join_snapshots e l = Done (e', acts) → call_counted e e' 0 acts.
Proof.
  induction l as [|[t] l IH]; intros e e' acts; simpl; [intros [= <- <-]; same|].
  destruct (own_view_value e); simpl; [|done].
  destruct (send_join_snapshots _ l) as [[e1 a1]|] eqn:Hr; simpl; [|done].
  intros [= <- <-]. apply IH in Hr.
  eapply (call_counted_trans _ (map_diagnostics e record_snapshot_sent) _ [_] a1 0 0);
    [adds one_snapshot_sent|done].
Qed.

Lemma run_engine_op_counted e op e' acts b :
  run_engine_op e op = Done (e', acts, b) → call_counted e e' (count_mutations [op]) acts.
Proof.
  destruct op as [f p u clk|DC VD f p pd u ser clk|msg clk| |id v clk|id| ]; simpl.
  - unfold mutate. destruct (apply_mutation _ _ _ _) as [sh out].
    set (e1 := map_diagnostics (set_shard e sh) record_mutation).
    pose proof (snapshot_action_counted e1 (resolve_action (sync_logic e1) u) (mo_view out)) as Hc.
    destruct (sync_action_to_engine_actions_snapshot _ _ _). intros [= <- <- _].
    by apply (call_counted_mutation _ e1).
  - unfold mutate_with_delta. destruct (apply_mutation_with_delta _ _ _ _ _) as [sh out].
    set (e1 := map_diagnostics (set_shard e sh) record_mutation).
    pose proof (delta_action_counted e1 (resolve_action (sync_logic e1) u) (dmo_view out)
      (dmo_view_delta out) ser) as Hc.
    destruct (sync_action_to_engine_actions_delta _ _ _ _ _). intros [= <- <- _].
    by apply (call_counted_mutation _ e1).
  - destruct (handle_inbound e msg clk) as [[e1 a1]|] eqn:Hh; [|done].
    intros [= <- <- _]. by eapply handle_inbound_counted.
  - unfold flush_change_feed. destruct (change_feed_flush _). intros [= <- <- _]. same.
  - destruct (engine_on_node_joined e id v clk) as [[e1 a1]|] eqn:Hj; [|done].
    intros [= <- <- _]. by apply send_join_counted in Hj.
  - intros [= <- <- _]. same.
  - unfold periodic_sync. destruct (should_periodic_sync _); simpl;
      [|intros [= <- <- _]; same].
    destruct (own_view_value e); simpl; intros [= <- <- _]. adds one_snapshot_sent.
Qed.

Lemma count_mutations_cons op ops :
  count_mutations (op :: ops) = count_mutations [op] + count_mutations ops.
Proof.
  unfold count_mutations. change (op :: ops) with ([op] ++ ops).
  rewrite filter_app, length_app. lia.
Qed.

Lemma run_engine_trace_counted ops : ∀ e e' acts,
  run_engine_trace e ops = Done (e', acts) → call_counted e e' (count_mutations ops) acts.
Proof.
  induction ops as [|op ops IH]; intros e e' acts; simpl; [intros [= <- <-]; same|].
  destruct (run_engine_op e op) as [[[e1 a1] b1]|] eqn:Hr; simpl; [|done].
  destruct (run_engine_trace e1 ops) as [[e2 a2]|] eqn:Ht; simpl; [|done].
  intros [= <- <-]. rewrite count_mutations_cons.
  eapply call_counted_trans; [by eapply run_engine_op_counted|by apply IH].
Qed.

(** Collecting the actions does not change the run. *)
Lemma run_engine_trace_run ops : ∀ e, fst <$> run_engine_trace e ops = run_engine e ops.
Proof.
  induction ops as [|op ops IH]; intros e; simpl; [done|].
  destruct (run_engine_op e op) as [[[e1 a1] b1]|]; simpl; [|done].
  rewrite <- IH. by destruct (run_engine_trace e1 ops) as [[??]|].
Qed.
End Accounting.

(** [C30] The counters account for the traffic: any run of an engine completes, and
    afterwards [total_mutations] is the number of mutation calls, [snapshots_sent] the
    number of full snapshots and [deltas_sent] the number of deltas among the messages
    the run handed out (as [u64] counters, that is modulo 2^64). *)
Theorem messages_are_counted `{HashIter} {S V M C} `{!ViewMapOps V M} `{!ViewMapLaws V M} `{Clock C}
    (name : string) (id : NodeId) (x : S) (p : S → V) (cfg : StateConfig) (w : Z) (clk : C)
    (ser : SerializeViewFn V) (de : DeserializeViewFn V) (ap : option (InboundDeltaApplierFn V))
    (ops : list (EngineOp S V C)) :
  ∃ (e : DistributedStateEngine S V M) acts,
    run_engine_trace (engine_new name id x p cfg w clk ser de ap) ops = Done (e, acts) ∧
    sm_total_mutations (engine_metrics e) = wrap64 (count_mutations ops) ∧
    sm_snapshots_sent (engine_metrics e) = wrap64 (count_messages is_full_snapshot acts) ∧
    sm_deltas_sent (engine_metrics e) = wrap64 (count_messages is_delta_update acts).
Proof.
  set (e0 := engine_new _ _ _ _ _ _ _ _ _ _).
  destruct (run_engine_done ops e0) as (e & Hrun & _); [apply engine_new_ok|].
  rewrite <- run_engine_trace_run in Hrun.
  destruct (run_engine_trace e0 ops) as [[e1 acts]|] eqn:Ht; [|done].
  simpl in Hrun. injection Hrun as ->. exists e, acts. split; [done|].
  apply run_engine_trace_counted in Ht. destruct Ht as (H1 & H2 & H3); [done|].
  split_and!; [exact H1|exact H3|exact H2].
Qed.
