(* ===== verification/Protocol.v ===== *)
(** The protocols between two engines that host the same state on different
    nodes: pushing a snapshot, pushing a delta with a pull when the receiver cannot
    apply it, and the lazy pull after a change-feed notification. *)
From stdpp Require Import prelude gmap fin_maps strings.
From S2P Require Import Prelude Node Clock Types ViewMap ShardCore ShardProps SyncLogic.
From S2P Require Import ChangeFeed Versioning Lifecycle Diagnostics Engine EngineProps.

Section Link.
Context `{HashIter} {S V M C : Type} `{!ViewMapOps V M} `{!ViewMapLaws V M} `{Clock C}.
Context (p : S → V).
Local Abbreviation engine := (DistributedStateEngine S V M).
Implicit Types (a b e : engine) (clk : C).

(** [a] and [b] host the same state on two nodes, accept each other, and [b] reads
    the views [a] writes. *)
Record link a b : Prop := {
  link_name : state_name b = state_name a;
  link_distinct : engine_node_id a ≠ engine_node_id b;
  link_accepts : should_accept_from (lifecycle b) (engine_node_id a) = true;
  link_accepted : should_accept_from (lifecycle a) (engine_node_id b) = true;
  link_codec : ∀ v, deserialize_view b (serialize_view a v) (wire_version a) = Ok v
}.

Definition generation_of a : Generation := so_generation (sh_state (shard a)).

(** [b] has [a]'s current view. *)
Definition current a b : Prop :=
  ∃ vo, get_view (shard b) (engine_node_id a) = Some vo ∧
    vo_value vo = p (so_value (sh_state (shard a))) ∧ vo_generation vo = generation_of a.

(** [b]'s view of [a], if any, has an older generation. *)
Definition behind a b : Prop :=
  ahead (generation_of a) (contents (shard b) !! engine_node_id a) = true.

(** Calls change neither the static parts nor the node, so links survive them. *)
Definition same_link e e' : Prop :=
  static e' = static e ∧ lifecycle e' = lifecycle e ∧ engine_node_id e' = engine_node_id e.

Lemma link_same a b a' b' : link a b → same_link a a' → same_link b b' → link a' b'.
Proof.
  intros [] (Ha & Hla & Hia) (Hb & Hlb & Hib). unfold static in *. simplify_eq.
  split; congruence.
Qed.

Lemma same_link_refl e : same_link e e.
Proof. by split_and!. Qed.

(** A snapshot request is answered with the current view, and answering changes
    only a counter. *)
Lemma answer_request a r :
  shard_inv p (shard a) → should_accept_from (lifecycle a) r = true →
  ∃ a', handle_request_snapshot a (state_name a) r =
      Done (a', [SendSync r (own_snapshot a
                   (serialize_view a (p (so_value (sh_state (shard a))))))]) ∧
    shard a' = shard a ∧ same_link a a'.
Proof.
  intros (Hwf & [t Hown] & _) Hacc. exists (map_diagnostics a record_snapshot_sent).
  split; [|by split_and!]. unfold handle_request_snapshot, own_view_value.
  rewrite bool_decide_eq_true_2, Hacc by done. simpl. unfold engine_node_id.
  rewrite get_view_contents, Hown by done. done.
Qed.

(** Receiving the current snapshot. *)
Lemma receive_current a b clk :
  link a b → shard_wf (shard b) → behind a b →
  let msg := own_snapshot a (serialize_view a (p (so_value (sh_state (shard a))))) in
  ∃ b', handle_inbound_sync b msg clk = Done (b', []) ∧ current a b' ∧ same_link b b' ∧
    shard_wf (shard b') ∧
    (∀ d, 0 ≤ d →
       (∀ vo q, contents (shard b) !! engine_node_id a = Some vo →
          vo_pending_remote_generation vo = Some q → q ≤g generation_of a) →
       ¬ is_stale (shard b') d clk (engine_node_id a)).
Proof.
  intros Hl Hwf Hbehind msg. unfold handle_inbound_sync, msg, own_snapshot.
  rewrite <- (link_name _ _ Hl).
  pose proof (full_snapshot_contents b (engine_node_id a) (generation_of a) (wire_version a)
    _ clk _ Hwf (link_accepts _ _ Hl) (link_codec _ _ Hl (p (so_value (sh_state (shard a))))))
    as (Hwf' & Hid & _ & Hc).
  pose proof (full_snapshot_same b (state_name b) (engine_node_id a) (generation_of a)
    (wire_version a) (serialize_view a (p (so_value (sh_state (shard a))))) clk)
    as (Hacts & Hst & Hli).
  unfold generation_of in *. destruct (handle_full_snapshot _ _ _ _ _ _ _) as [b' acts].
  simpl in *. subst acts. rewrite snapshot_update_ahead in Hc. simpl in Hc.
  unfold behind, generation_of in Hbehind. rewrite Hbehind in Hc.
  exists b'. split_and!; try done.
  - eexists. rewrite get_view_contents, Hc, lookup_insert_eq by done. by split_and!.
  - intros d Hd Hpend.
    eapply fresh_entry_not_stale; [done|done|rewrite Hc; apply lookup_insert_eq| |done].
    simpl. destruct (contents (shard b) !! _) as [vo|] eqn:Hvo; [|done]. simpl.
    destruct (pending_after _ _) as [q|] eqn:Hq; [|done].
    apply pending_after_spec in Hq as [Hq Hlt].
    specialize (Hpend vo q eq_refl Hq). exfalso. gen_lia.
Qed.

(** One pull: request, answer, receipt. *)
Lemma pull_round_trip a b clk :
  link a b → shard_inv p (shard a) → shard_wf (shard b) → behind a b →
  ∃ a' reply b',
    handle_inbound_sync a (RequestSnapshot (state_name b) (engine_node_id b)) clk =
      Done (a', [SendSync (engine_node_id b) reply]) ∧
    handle_inbound_sync b reply clk = Done (b', []) ∧
    shard a' = shard a ∧ current a' b' ∧ same_link b b' ∧
    (∀ d, 0 ≤ d →
       (∀ vo q, contents (shard b) !! engine_node_id a = Some vo →
          vo_pending_remote_generation vo = Some q → q ≤g generation_of a) →
       ¬ is_stale (shard b') d clk (engine_node_id a)).
Proof.
  intros Hl Hinv Hwf Hbehind.
  destruct (answer_request a (engine_node_id b) Hinv (link_accepted _ _ Hl))
    as (a' & Hans & Hsh & _).
  destruct (receive_current a b clk Hl Hwf Hbehind) as (b' & Hrec & Hcur & Hsame & _ & Hfresh).
  exists a', (own_snapshot a (serialize_view a (p (so_value (sh_state (shard a)))))), b'.
  split_and!; [|done..| |done|done].
  - simpl. by rewrite (link_name _ _ Hl).
  - unfold current, generation_of, engine_node_id in *. by rewrite Hsh.
Qed.

(** Receiving a delta of [a]'s current generation. *)
Lemma receive_delta a b ap data clk :
  link a b → host_ok (host b) → wire_version b = wire_version a →
  inbound_delta_applier b = Some ap → behind a b →
  ∃ b' acts, handle_inbound_sync b (own_delta a data) clk = Done (b', acts) ∧
    same_link b b' ∧ shard_wf (shard b') ∧
    ((∃ vo v, contents (shard b) !! engine_node_id a = Some vo ∧
        generation_of a = next_generation (vo_generation vo) ∧
        ap data (wire_version a) (vo_value vo) = Ok v ∧ acts = [] ∧
        get_view (shard b') (engine_node_id a) =
          Some (delta_entry vo (generation_of a) (wire_version a) (λ _, v) clk)) ∨
     ((∀ vo, contents (shard b) !! engine_node_id a = Some vo →
         generation_of a = next_generation (vo_generation vo) →
         ∃ err, ap data (wire_version a) (vo_value vo) = Err err) ∧
      acts = [make_snapshot_request b (engine_node_id a)] ∧
      contents (shard b') = contents (shard b))).
Proof.
  intros Hl Hok Hw Hap Hbehind. unfold handle_inbound_sync, own_delta.
  fold (generation_of a). rewrite <- (link_name _ _ Hl).
  pose proof (delta_update_decided b (engine_node_id a) (generation_of a) (wire_version a)
    data clk Hok (link_accepts _ _ Hl)) as Hd.
  pose proof (delta_update_same b (state_name b) (engine_node_id a) (generation_of a)
    (wire_version a) data clk) as Hs.
  destruct (handle_delta_update _ _ _ _ _ _ _) as [b' acts]. simpl in Hs.
  destruct Hd as (Hwf' & _ & Hd). exists b', acts. split_and!; [done..|].
  unfold decide_delta in Hd. rewrite Hw, Z.eqb_refl, Hap in Hd. simpl in Hd.
  unfold behind in Hbehind.
  destruct (contents (shard b) !! engine_node_id a) as [vo|] eqn:Hvo; [|by right].
  simpl in Hbehind. apply generation_ltb_lt in Hbehind. case_bool_decide as Hg.
  - destruct (ap _ _ _) as [v|err] eqn:Hv; destruct Hd as [-> Hc]; [left|right].
    + exists vo, v. split_and!; try done. by rewrite get_view_contents, Hc, lookup_insert_eq.
    + split_and!; [|done..]. intros ? [= <-] _. eauto.
  - rewrite (proj2 (generation_leb_gt _ _) Hbehind) in Hd. destruct Hd as [-> Hc].
    right. split_and!; [|done..]. by intros ? [= <-].
Qed.

(** *** Mutations *)

Lemma mutate_effect e f u clk :
  let '(e', r) := mutate e f p u clk in
  shard e' = (apply_mutation (shard e) f p clk).1 ∧ same_link e e' ∧
  generation_of e' = next_generation (generation_of e) ∧
  so_value (sh_state (shard e')) = f (so_value (sh_state (shard e))) ∧
  match resolve_action (sync_logic e) u with
  | BroadcastSnapshot | BroadcastDelta =>
      mr_actions r = [BroadcastSync (own_snapshot e'
        (serialize_view e' (p (so_value (sh_state (shard e'))))))]
  | NotifyChangeFeed =>
      mr_actions r = [] ∧
      change_feed e' = notify_change (change_feed e) (state_name e) (engine_node_id e)
        (generation_of e')
  | ScheduleDelayedSync d =>
      mr_actions r = [ScheduleDelayed d (own_snapshot e'
        (serialize_view e' (p (so_value (sh_state (shard e'))))))]
  | SuppressSync => mr_actions r = []
  end.
Proof. unfold mutate. simpl. by destruct (resolve_action (sync_logic e) u). Qed.

Lemma mutate_with_delta_effect {DC VD} e (f : S → S * DC) (pd : DC → VD) u ser clk :
  let '(e', r) := mutate_with_delta e f p pd u ser clk in
  let '(s', dc) := f (so_value (sh_state (shard e))) in
  shard e' = (apply_mutation_with_delta (shard e) f p pd clk).1 ∧ same_link e e' ∧
  generation_of e' = next_generation (generation_of e) ∧
  so_value (sh_state (shard e')) = s' ∧
  (resolve_action (sync_logic e) u = BroadcastDelta →
   dmr_actions r = [BroadcastSync (own_delta e' (ser (pd dc)))]).
Proof.
  unfold mutate_with_delta, apply_mutation_with_delta. destruct (f _) as [s' dc]. simpl.
  destruct (resolve_action (sync_logic e) u); simpl; by split_and!.
Qed.

Lemma mutation_inv sh f clk :
  shard_inv p sh → shard_inv p (apply_mutation (C:=C) sh f p clk).1.
Proof. intros. by apply commit_inv. Qed.

Lemma mutation_delta_inv {DC VD} sh (f : S → S * DC) (pd : DC → VD) clk :
  shard_inv p sh → shard_inv p (apply_mutation_with_delta (C:=C) sh f p pd clk).1.
Proof. intros. unfold apply_mutation_with_delta. destruct (f _). by apply commit_inv. Qed.

(** [b] has nothing of [a] that is ahead of [a]; its generation is a pair of
    [u64]s. *)
Definition not_ahead a b : Prop :=
  ∀ vo, contents (shard b) !! engine_node_id a = Some vo →
    gen_u64 (vo_generation vo) ∧ vo_generation vo ≤g generation_of a.

Lemma next_generation_inj g h :
  gen_u64 g → g ≤g h → 0 ≤ age h < u64_max → next_generation h = next_generation g → g = h.
Proof.
  intros [_ Hu] Hle Hh [= Hi Ha]. apply generation_eq. split; [done|].
  unfold gen_le in Hle. rewrite (u64_succ_small (age h)) in Ha by done. revert Ha Hu Hle Hh.
  rewrite <- Hi. width_lia.
Qed.

Lemma behind_after_mutation a a' b :
  not_ahead a b → engine_node_id a' = engine_node_id a →
  generation_of a' = next_generation (generation_of a) →
  0 ≤ age (generation_of a) < u64_max → behind a' b.
Proof.
  intros Hna Hid Hg Hage. unfold behind. rewrite Hid, Hg.
  destruct (contents (shard b) !! engine_node_id a) as [vo|] eqn:Hvo; [|done]. simpl.
  destruct (Hna vo Hvo) as [_ Hle]. apply generation_ltb_lt. unfold next_generation.
  rewrite u64_succ_small by done. gen_lia.
Qed.

(** A pushed snapshot arrives. *)
Lemma pushed_snapshot_received a b f u clk1 clk2 :
  link a b → shard_wf (shard b) → not_ahead a b → 0 ≤ age (generation_of a) < u64_max →
  resolve_action (sync_logic a) u = BroadcastSnapshot ∨
    resolve_action (sync_logic a) u = BroadcastDelta →
  let '(a', r) := mutate a f p u clk1 in
  let msg := own_snapshot a' (serialize_view a' (p (so_value (sh_state (shard a'))))) in
  mr_actions r = [BroadcastSync msg] ∧
  so_value (sh_state (shard a')) = f (so_value (sh_state (shard a))) ∧
  ∃ b', handle_inbound b (WireSync msg) clk2 = Done (b', []) ∧ current a' b'.
Proof.
  intros Hl Hwf Hna Hage Hu. pose proof (mutate_effect a f u clk1) as He.
  destruct (mutate a f p u clk1) as [a' r].
  destruct He as (_ & Hsame & Hgen & Hval & Hacts).
  destruct (receive_current a' b clk2) as (b' & Hrec & Hcur & _).
  - eapply link_same; [done..|apply same_link_refl].
  - done.
  - eapply behind_after_mutation; eauto. apply Hsame.
  - destruct Hu as [Hu|Hu]; rewrite Hu in Hacts; eauto.
Qed.
End Link.

(** Active push: after a mutation whose action is a broadcast of the snapshot,
    the one message handed out brings any linked engine that was not ahead of the
    sender exactly to the sender's new view and generation. *)
Theorem push_snapshot_delivers `{HashIter} {S V M C} `{!ViewMapOps V M} `{!ViewMapLaws V M} `{Clock C}
    (p : S → V) (a b : DistributedStateEngine S V M) (f : S → S) (u : SyncUrgency) (clk1 clk2 : C) :
  link a b → shard_wf (shard b) → not_ahead a b → 0 ≤ age (generation_of a) < u64_max →
  resolve_action (sync_logic a) u = BroadcastSnapshot →
  let '(a', r) := mutate a f p u clk1 in
  ∃ msg b', mr_actions r = [BroadcastSync msg] ∧
    handle_inbound b (WireSync msg) clk2 = Done (b', []) ∧
    current p a' b' ∧ so_value (sh_state (shard a')) = f (so_value (sh_state (shard a))).
Proof.
  intros Hl Hwf Hna Hage Hu.
  pose proof (pushed_snapshot_received p a b f u clk1 clk2 Hl Hwf Hna Hage (or_introl Hu)) as Hp.
  destruct (mutate a f p u clk1) as [a' r]. destruct Hp as (Hr & Hv & b' & Hb & Hc). eauto 10.
Qed.

(** [C16] Delta push: the delta of a mutation brings a linked engine that had the
    sender's previous view exactly to the new one; any other engine that was behind
    asks for a snapshot instead, and the answer brings it there. *)
Theorem push_delta_or_pull `{HashIter} {S V M C DC VD} `{!ViewMapOps V M} `{!ViewMapLaws V M} `{Clock C}
    (p : S → V) (pd : DC → VD) (ser : VD → bytes) (ap : InboundDeltaApplierFn V)
    (a b : DistributedStateEngine S V M) (f : S → S * DC) (u : SyncUrgency) (clk1 clk2 : C) :
  (∀ s, ap (ser (pd (f s).2)) (wire_version a) (p s) = Ok (p (f s).1)) →
  link a b → wire_version b = wire_version a → inbound_delta_applier b = Some ap →
  shard_inv p (shard a) → host_ok (host b) → not_ahead a b →
  (∀ vo, get_view (shard b) (engine_node_id a) = Some vo → vo_generation vo = generation_of a →
     vo_value vo = p (so_value (sh_state (shard a)))) →
  0 ≤ age (generation_of a) < u64_max →
  resolve_action (sync_logic a) u = BroadcastDelta →
  let '(a', r) := mutate_with_delta a f p pd u ser clk1 in
  ∃ msg b' acts, dmr_actions r = [BroadcastSync msg] ∧
    handle_inbound b (WireSync msg) clk2 = Done (b', acts) ∧
    if decide (vo_generation <$> get_view (shard b) (engine_node_id a) = Some (generation_of a))
    then acts = [] ∧ current p a' b'
    else ∃ request a'' reply b'',
      acts = [SendSync (engine_node_id a) request] ∧
      handle_inbound_sync a' request clk2 = Done (a'', [SendSync (engine_node_id b) reply]) ∧
      handle_inbound_sync b' reply clk2 = Done (b'', []) ∧ current p a'' b''.
Proof.
  intros Hcodec Hl Hw Hap Hinv Hok Hna Hval Hage Hu. pose proof Hok as (Hwf & _). simpl in Hwf.
  pose proof (mutate_with_delta_effect p a f pd u ser clk1) as He.
  pose proof (mutation_delta_inv p (shard a) f pd clk1 Hinv) as Hinv'.
  destruct (mutate_with_delta _ _ _ _ _ _ _) as [a' r].
  specialize (Hcodec (so_value (sh_state (shard a)))).
  destruct (f _) as [s' dc]. simpl in Hcodec.
  destruct He as (Hsh & Hsame & Hgen & Hs' & Hacts). specialize (Hacts Hu). rewrite <- Hsh in Hinv'.
  assert (link a' b) as Hl' by (eapply link_same; [done..|apply same_link_refl]).
  pose proof Hsame as (Hst & _ & Hid).
  assert (wire_version a' = wire_version a) as Hw' by (unfold static in Hst; congruence).
  assert (behind a' b) as Hb by (eapply behind_after_mutation; eauto).
  destruct (receive_delta a' b ap (ser (pd dc)) clk2) as (b' & acts & Hrec & Hsb & Hwf' & Hcase);
    [done..|congruence|done|done|].
  exists (own_delta a' (ser (pd dc))), b', acts. split_and!; [done..|].
  rewrite Hid, Hw' in Hcase. rewrite get_view_contents in Hval |- * by done.
  destruct Hcase as [(vo & v & Hvo & Hg & Hap' & -> & Hv)|(Herr & -> & Hc)].
  - rewrite Hvo in *. rewrite Hgen in Hg. simpl.
    assert (vo_generation vo = generation_of a) as Heq.
    { destruct (Hna vo Hvo). by apply next_generation_inj. }
    rewrite decide_True by congruence. split; [done|].
    eexists. rewrite Hid. split_and!; [done| |done]. simpl.
    rewrite (Hval vo eq_refl Heq), Hcodec in Hap'. congruence.
  - rewrite decide_False.
    + destruct (pull_round_trip p a' b' clk2) as (a'' & reply & b'' & Hreq & Hrep & _ & Hcur & _).
      * eapply link_same; [done|apply same_link_refl|done].
      * done.
      * done.
      * unfold behind in *. by rewrite Hc.
      * exists (RequestSnapshot (state_name b) (engine_node_id b)), a'', reply, b''.
        destruct Hsb as (Hstb & _ & Hidb). rewrite Hidb in Hreq.
        assert (state_name b' = state_name b) as Hnb by (unfold static in Hstb; congruence).
        rewrite Hnb in Hreq. by split_and!.
    + intros Heq. destruct (contents (shard b) !! engine_node_id a) as [vo|] eqn:Hvo; [|done].
      simpl in Heq. injection Heq as Heq.
      destruct (Herr vo eq_refl) as [err He]; [congruence|].
      rewrite (Hval vo eq_refl Heq), Hcodec in He. done.
Qed.

(** *** Suppressed changes *)
Section Suppressed.
Context `{HashIter} {S V M C DC VD : Type} `{!ViewMapOps V M} `{!ViewMapLaws V M} `{Clock C}.
Context (p : S → V) (pd : DC → VD) (ser : VD → bytes) (u : SyncUrgency).
Local Abbreviation engine := (DistributedStateEngine S V M).
Implicit Types (a b : engine) (clk : C).

(** Mutations of the same urgency, one after the other; the actions they hand out. *)
Definition mutate_all a (fs : list ((S → S * DC) * C)) : engine * list EngineAction :=
  foldl (λ '(a, acts) '(f, clk),
    let '(a, r) := mutate_with_delta a f p pd u ser clk in (a, acts ++ dmr_actions r)) (a, []) fs.

Lemma mutate_all_suppressed a fs :
  resolve_action (sync_logic a) u = SuppressSync → shard_inv p (shard a) →
  0 ≤ age (generation_of a) → age (generation_of a) + Z.of_nat (length fs) ≤ u64_max →
  let '(a', acts) := mutate_all a fs in
  acts = [] ∧ same_link a a' ∧ shard_inv p (shard a') ∧
  incarnation (generation_of a') = incarnation (generation_of a) ∧
  age (generation_of a') = age (generation_of a) + Z.of_nat (length fs) ∧
  so_value (sh_state (shard a')) = foldl (λ s f, (f.1 s).1) (so_value (sh_state (shard a))) fs.
Proof.
  intros Hu. unfold mutate_all. revert a Hu.
  induction fs as [|[f clk] fs IH]; intros a Hu Hinv Hpos Hmax; simpl in *.
  { split_and!; [done..|by apply same_link_refl|done|done|lia|done]. }
  pose proof (mutate_with_delta_effect p a f pd u ser clk) as He.
  pose proof (mutation_delta_inv p (shard a) f pd clk Hinv) as Hinv'.
  assert (dmr_actions (mutate_with_delta a f p pd u ser clk).2 = []) as Hnil.
  { unfold mutate_with_delta. destruct (apply_mutation_with_delta _ _ _ _ _) as [sh out]. simpl.
    by rewrite Hu. }
  destruct (mutate_with_delta _ _ _ _ _ _ _) as [a1 r]. simpl in Hnil. rewrite Hnil.
  destruct (f _) as [s' dc] eqn:Hf. destruct He as (Hsh & Hsame & Hgen & Hs' & _).
  rewrite <- Hsh in Hinv'. destruct Hsame as (Hst & Hlc & Hid).
  assert (sync_logic a1 = sync_logic a) as Hsl by (unfold static in Hst; congruence).
  assert (age (generation_of a1) = age (generation_of a) + 1) as Hage.
  { rewrite Hgen. simpl. apply u64_succ_small. lia. }
  specialize (IH a1). rewrite Hsl in IH. specialize (IH Hu Hinv' ltac:(lia) ltac:(lia)).
  destruct (foldl _ _ _) as [a' acts]. destruct IH as (-> & (? & ? & ?) & ? & Hi & Ha & Hv).
  split_and!; [done|by split_and!; congruence|done| |lia|].
  - rewrite Hi, Hgen. done.
  - by rewrite Hv, Hs'.
Qed.
End Suppressed.

(** [C17] Suppressed changes are sent to no one and are not part of the next delta: after at
    least one of them, the delta of the next mutation describes that mutation alone, and
    an engine that had the sender's view from before them does not apply it.  It keeps its
    view, asks for a snapshot, and the answer brings it all the changes. *)
Theorem suppressed_changes_recovered `{HashIter} {S V M C DC VD} `{!ViewMapOps V M}
    `{!ViewMapLaws V M} `{Clock C}
    (p : S → V) (pd : DC → VD) (ser : VD → bytes) (ap : InboundDeltaApplierFn V)
    (a b : DistributedStateEngine S V M) (quiet loud : SyncUrgency)
    (fs : list ((S → S * DC) * C)) (f : S → S * DC) (vo : StateViewObject V) (clk1 clk2 : C) :
  link a b → wire_version b = wire_version a → inbound_delta_applier b = Some ap →
  shard_inv p (shard a) → host_ok (host b) →
  contents (shard b) !! engine_node_id a = Some vo → vo_generation vo = generation_of a →
  0 ≤ age (generation_of a) → age (generation_of a) + Z.of_nat (length fs) < u64_max →
  resolve_action (sync_logic a) quiet = SuppressSync →
  resolve_action (sync_logic a) loud = BroadcastDelta → fs ≠ [] →
  let '(a1, acts) := mutate_all p pd ser quiet a fs in
  let '(a', r) := mutate_with_delta a1 f p pd loud ser clk1 in
  let s := foldl (λ s f, (f.1 s).1) (so_value (sh_state (shard a))) fs in
  ∃ b' request a'' reply b'',
    acts = [] ∧ dmr_actions r = [BroadcastSync (own_delta a' (ser (pd (f s).2)))] ∧
    handle_inbound b (WireSync (own_delta a' (ser (pd (f s).2)))) clk2 =
      Done (b', [SendSync (engine_node_id a) request]) ∧
    contents (shard b') = contents (shard b) ∧
    handle_inbound_sync a' request clk2 = Done (a'', [SendSync (engine_node_id b) reply]) ∧
    handle_inbound_sync b' reply clk2 = Done (b'', []) ∧ current p a'' b'' ∧
    so_value (sh_state (shard a'')) = (f s).1.
Proof.
  intros Hl Hw Hap Hinv Hok Hvo Hg Hpos Hmax Hq Hu Hfs. pose proof Hok as (Hwf & _). simpl in Hwf.
  pose proof (mutate_all_suppressed p pd ser quiet a fs Hq Hinv Hpos ltac:(lia)) as Hall.
  destruct (mutate_all _ _ _ _ _ _) as [a1 acts].
  destruct Hall as (-> & Hs1 & Hinv1 & Hi1 & Ha1 & Hv1). pose proof Hs1 as (Hst1 & _ & Hid1).
  pose proof (mutate_with_delta_effect p a1 f pd loud ser clk1) as He.
  pose proof (mutation_delta_inv p (shard a1) f pd clk1 Hinv1) as Hinv'.
  destruct (mutate_with_delta _ _ _ _ _ _ _) as [a' r]. rewrite Hv1 in He. simpl.
  destruct (f _) as [s' dc]. destruct He as (Hsh & Hs & Hgen & Hs' & Hacts).
  rewrite <- Hsh in Hinv'.
  assert (sync_logic a1 = sync_logic a) as Hsl by (unfold static in Hst1; congruence).
  rewrite Hsl in Hacts. specialize (Hacts Hu).
  assert (link a' b) as Hl'.
  { eapply link_same; [|done|apply same_link_refl]. eapply link_same; [done..|apply same_link_refl]. }
  pose proof Hs as (Hst & _ & Hid).
  assert (wire_version a' = wire_version a) as Hw' by (unfold static in *; congruence).
  assert (length fs ≠ 0%nat) as Hlen by (by destruct fs).
  assert (incarnation (generation_of a') = incarnation (generation_of a) ∧
    age (generation_of a') = age (generation_of a) + Z.of_nat (length fs) + 1) as [Hi' Ha'].
  { rewrite Hgen. simpl. rewrite u64_succ_small by lia. by rewrite Hi1, Ha1. }
  assert (behind a' b) as Hb.
  { unfold behind. rewrite Hid, Hid1, Hvo. simpl. apply generation_ltb_lt. rewrite Hg. gen_lia. }
  destruct (receive_delta a' b ap (ser (pd dc)) clk2) as (b' & acts & Hrec & Hsb & Hwf' & Hcase);
    [done..|congruence|done|done|].
  rewrite Hid, Hid1 in Hcase.
  destruct Hcase as [(vo' & v & Hvo' & Hg' & _)|(_ & -> & Hc)].
  { exfalso. rewrite Hvo in Hvo'. injection Hvo' as <-. rewrite Hg in Hg'.
    apply (f_equal age) in Hg'. simpl in Hg'. rewrite u64_succ_small in Hg' by lia. lia. }
  destruct (pull_round_trip p a' b' clk2) as (a'' & reply & b'' & Hreq & Hrep & Hsa & Hcur & _).
  { eapply link_same; [done|apply same_link_refl|done]. }
  { done. } { done. } { unfold behind in *. by rewrite Hc. }
  destruct Hsb as (Hstb & _ & Hidb). rewrite Hidb in Hreq.
  assert (state_name b' = state_name b) as Hnb by (unfold static in Hstb; congruence).
  rewrite Hnb in Hreq.
  exists b', (RequestSnapshot (state_name b) (engine_node_id b)), a'', reply, b''.
  split_and!; try done. by rewrite Hsa.
Qed.

(** ** Lazy pull *)
Section LazyPull.
Context `{HashIter} {S V M C : Type} `{!ViewMapOps V M} `{!ViewMapLaws V M} `{Clock C}.
Local Abbreviation engine := (DistributedStateEngine S V M).
Implicit Types (a b e : engine) (clk : C).

(** The change feed of an engine holds at most a notification of the engine's own
    state, not ahead of it. *)
Definition feed_ok e : Prop :=
  cf_node_id (change_feed e) = engine_node_id e ∧
  ∀ key g, cf_pending (change_feed e) !! key = Some g →
    key = (state_name e, engine_node_id e) ∧ g ≤g generation_of e.

(** Flushing after a notification of a newer generation. *)
Lemma flush_after_notify (cf : ChangeFeedLogic) n id g :
  cf_node_id cf = id →
  (∀ key g', cf_pending cf !! key = Some g' → key = (n, id) ∧ g' ≤g g) →
  (change_feed_flush (notify_change cf n id g)).2 =
    Some (mkBatchedChangeFeed id [mkChangeNotification n id g]).
Proof.
  intros Hid Hp.
  assert (cf_pending (notify_change cf n id g) = {[(n, id) := g]}) as Hpend.
  { apply map_eq. intros key. rewrite notify_change_lookup, lookup_singleton.
    case_decide as Hk; [subst; rewrite decide_True by done|].
    - destruct (cf_pending cf !! _) as [g'|] eqn:Hg'; [|done].
      destruct (Hp _ _ Hg') as [_ Hle]. destruct (generation_ltb g' g) eqn:E; [done|].
      apply generation_ltb_ge in E. f_equal. by apply (anti_symm gen_le).
    - rewrite decide_False by done. destruct (cf_pending cf !! key) as [g'|] eqn:Hg'; [|done].
      by destruct (Hp _ _ Hg'). }
  unfold change_feed_flush. rewrite Hpend.
  rewrite bool_decide_eq_false_2 by apply map_non_empty_singleton.
  pose proof (hm_iter_perm ({[(n, id) := g]} : gmap (string * NodeId) Generation)) as Hperm.
  rewrite map_to_list_singleton in Hperm. apply Permutation_singleton_r in Hperm.
  rewrite Hperm. simpl. rewrite <- Hid. done.
Qed.

(** Receiving a one-notification batch about a newer generation of a known peer. *)
Lemma receive_notification b n src g vo clk :
  n = state_name b → src ≠ engine_node_id b → should_accept_from (lifecycle b) src = true →
  shard_wf (shard b) → contents (shard b) !! src = Some vo → vo_generation vo <g g →
  ∃ b', handle_inbound b (WireFeed (mkBatchedChangeFeed src [mkChangeNotification n src g])) clk
      = Done (b', []) ∧
    same_link b b' ∧ sync_logic b' = sync_logic b ∧ shard_wf (shard b') ∧
    contents (shard b') = <[src := set_pending vo (Some g)]> (contents (shard b)).
Proof.
  intros -> Hne Hacc Hwf Hvo Hlt.
  exists (set_shard b (mark_stale (shard b) src (incarnation g) (age g))).
  unfold handle_inbound, handle_inbound_change_feed, route_inbound_batch.
  rewrite bool_decide_eq_false_2 by done. simpl.
  rewrite bool_decide_eq_true_2 by done. rewrite Hacc. simpl.
  destruct (mark_stale_frame (S:=S) (shard b) src (incarnation g) (age g)) as (Hwf' & _ & _).
  split_and!; [done|done|done|auto|]. rewrite mark_stale_contents, Hvo by done.
  replace (generation_new (incarnation g) (age g)) with g by by destruct g.
  by rewrite (proj2 (generation_leb_gt _ _) Hlt).
Qed.

(** A query reports a pending peer, and asks it for a snapshot. *)
Lemma query_pending {R} e id vo d (proj : gmap NodeId (StateViewObject V) → R) clk :
  shard_wf (shard e) → id ≠ engine_node_id e → should_accept_from (lifecycle e) id = true →
  contents (shard e) !! id = Some vo → is_Some (vo_pending_remote_generation vo) →
  ∃ r stale acts, query e d proj clk = (EngineStale r stale, acts) ∧ id ∈ stale ∧
    (pull_on_query (sl_strategy (sync_logic e)) = true → make_snapshot_request e id ∈ acts).
Proof.
  intros Hwf Hne Hacc Hvo Hp. unfold query, query_local.
  rewrite snapshot_spec by done. fold (contents (shard e)).
  set (stale := keys_where _ _).
  assert (id ∈ stale) as Hin.
  { apply elem_of_keys_where. exists vo. split; [done|]. by apply stale_peer_pending. }
  rewrite bool_decide_eq_false_2 by (intros Hn; rewrite Hn in Hin; set_solver).
  eexists _, stale, _. split_and!; [done|done|]. intros ->.
  apply list_elem_of_fmap. exists id. split; [done|]. by apply list_elem_of_filter.
Qed.

(** The notification of a mutation, once flushed. *)
Definition own_notification a : BatchedChangeFeed :=
  mkBatchedChangeFeed (engine_node_id a)
    [mkChangeNotification (state_name a) (engine_node_id a) (generation_of a)].

Lemma mutate_then_flush (p : S → V) a f u clk :
  shard_inv p (shard a) → feed_ok a → 0 ≤ age (generation_of a) < u64_max →
  resolve_action (sync_logic a) u = NotifyChangeFeed →
  let '(a1, r) := mutate a f p u clk in
  let '(a2, batch) := flush_change_feed a1 in
  mr_actions r = [] ∧ batch = Some (own_notification a2) ∧ same_link a a2 ∧
  shard_inv p (shard a2) ∧ generation_of a2 = next_generation (generation_of a).
Proof.
  intros Hinv [Hcfid Hfeed] Hage Hu. pose proof (mutate_effect p a f u clk) as He.
  pose proof (mutation_inv p (shard a) f clk Hinv) as Hinv1.
  destruct (mutate a f p u clk) as [a1 r]. rewrite Hu in He.
  destruct He as (Hsh & Hsame & Hgen & _ & Hacts & Hcf). rewrite <- Hsh in Hinv1.
  pose proof Hsame as (Hst & Hlc & Hid). unfold static in Hst. injection Hst as Hn Hw Hsl Hv Hser Hde Hap.
  assert ((change_feed_flush (change_feed a1)).2 = Some (own_notification a1)) as Hflush.
  { unfold own_notification. rewrite Hcf, Hid, Hn. apply flush_after_notify; [done|].
    intros key g Hk. destruct (Hfeed key g Hk) as [-> Hle]. split; [done|].
    rewrite Hgen. unfold next_generation. rewrite u64_succ_small by done. gen_lia. }
  unfold flush_change_feed. destruct (change_feed_flush (change_feed a1)) as [cf batch].
  simpl in Hflush. subst batch. by split_and!.
Qed.
End LazyPull.

(** [C18] Lazy pull: a mutation in the change-feed mode hands out nothing; the next
    flush yields a batch which makes the sender stale at a linked engine, whatever the
    staleness bound; a query there reports it and requests a snapshot from it; the
    request, answered by the sender and delivered, brings the current view, and the
    sender is no longer stale. *)
Theorem lazy_pull_delivers `{HashIter} {S V M C R} `{!ViewMapOps V M} `{!ViewMapLaws V M} `{Clock C}
    (p : S → V) (a b : DistributedStateEngine S V M) (f : S → S) (u : SyncUrgency) (clk1 clk2 : C)
    (d : Duration) (proj : gmap NodeId (StateViewObject V) → R) :
  link a b → shard_inv p (shard a) → shard_wf (shard b) → feed_ok a → not_ahead a b →
  is_Some (get_view (shard b) (engine_node_id a)) →
  0 ≤ age (generation_of a) < u64_max → 0 ≤ d →
  resolve_action (sync_logic a) u = NotifyChangeFeed →
  pull_on_query (sl_strategy (sync_logic b)) = true →
  let '(a1, r) := mutate a f p u clk1 in
  let '(a2, batch) := flush_change_feed a1 in
  ∃ feed b1 res stale acts request a3 reply b2,
    mr_actions r = [] ∧ batch = Some feed ∧
    handle_inbound b (WireFeed feed) clk2 = Done (b1, []) ∧
    query b1 d proj clk2 = (EngineStale res stale, acts) ∧
    engine_node_id a ∈ stale ∧ SendSync (engine_node_id a) request ∈ acts ∧
    handle_inbound_sync a2 request clk2 = Done (a3, [SendSync (engine_node_id b) reply]) ∧
    handle_inbound_sync b1 reply clk2 = Done (b2, []) ∧
    current p a3 b2 ∧ ¬ is_stale (shard b2) d clk2 (engine_node_id a).
Proof.
  intros Hl Hinv Hwf Hfeed Hna [vo Hvo] Hage Hd Hu Hpull. rewrite get_view_contents in Hvo by done.
  pose proof (mutate_then_flush p a f u clk1 Hinv Hfeed Hage Hu) as He.
  destruct (mutate a f p u clk1) as [a1 r]. destruct (flush_change_feed a1) as [a2 batch].
  destruct He as (Hacts & -> & Hsame & Hinv2 & Hgen). pose proof Hsame as (_ & _ & Hid).
  assert (behind a2 b) as Hb by (eapply behind_after_mutation; eauto).
  assert (link a2 b) as Hl2 by (eapply link_same; [done..|apply same_link_refl]).
  assert (vo_generation vo <g generation_of a2) as Hlt.
  { unfold behind in Hb. rewrite Hid, Hvo in Hb. by apply generation_ltb_lt. }
  rewrite <- Hid in Hvo |- *.
  destruct (receive_notification b (state_name a2) (engine_node_id a2) (generation_of a2) vo clk2)
    as (b1 & Hrec & Hsb & Hsl & Hwf1 & Hc1);
    [by rewrite (link_name _ _ Hl2)|exact (link_distinct _ _ Hl2)|exact (link_accepts _ _ Hl2)|done..|].
  assert (link a2 b1) as Hl3 by (eapply link_same; [done|apply same_link_refl|done]).
  assert (contents (shard b1) !! engine_node_id a2 =
    Some (set_pending vo (Some (generation_of a2)))) as Hv1 by (rewrite Hc1; apply lookup_insert_eq).
  destruct (query_pending b1 (engine_node_id a2) _ d proj clk2 Hwf1 (link_distinct _ _ Hl3)
    (link_accepts _ _ Hl3) Hv1 ltac:(by eexists)) as (res & stale & acts & Hq & Hin & Hreq).
  destruct (pull_round_trip p a2 b1 clk2) as (a3 & reply & b2 & Hask & Hrep & _ & Hcur & _ & Hfresh);
    [done..| |].
  { unfold behind. rewrite Hv1. by apply generation_ltb_lt. }
  destruct Hsb as (_ & _ & Hidb). rewrite Hidb in Hask.
  exists (own_notification a2), b1, res, stale, acts,
    (RequestSnapshot (state_name b1) (engine_node_id b)), a3, reply, b2.
  split_and!; try done.
  - unfold make_snapshot_request in Hreq. rewrite Hidb in Hreq. apply Hreq. by rewrite Hsl.
  - apply Hfresh; [done|]. rewrite Hv1. intros ? q [= <-]. simpl.
    intros [= <-]. apply generation_leb_le. by apply generation_leb_le.
Qed.
