(* ===== verification/Network.v ===== *)
(** A cluster of engines over an unreliable network.

    Every node runs an engine for the same state.  The network keeps every message
    ever handed out and may deliver any of them to any node at any time, any number
    of times or never: loss, duplication, reordering, delay and misrouting are all
    covered.  Nodes join, leave, and restart with a new incarnation.  A ghost history
    records the view every node projected at every generation. *)
From stdpp Require Import prelude gmap fin_maps strings relations.
From S2P Require Import Prelude Node Clock Types ViewMap ShardCore ShardProps SyncLogic.
From S2P Require Import ChangeFeed Versioning Lifecycle Diagnostics Engine EngineProps.
From S2P Require Import Protocol Accounting.

Section Network.
Context `{HashIter} {S V M C : Type} `{!ViewMapOps V M} `{!ViewMapLaws V M} `{Clock C}.
(** What the nodes share: the state's name, the projection, the codecs. *)
Context (name : string) (p : S → V) (w : Z)
  (ser : SerializeViewFn V) (de : DeserializeViewFn V) (ap : option (InboundDeltaApplierFn V)).
Local Abbreviation engine := (DistributedStateEngine S V M).
Local Abbreviation history := (gmap (NodeId * Generation) V).
Implicit Types (e : engine) (clk : C) (h : history).

Record Network : Type := mkNetwork {
  net_nodes : gmap NodeId engine;
  net_messages : list WireMessage;
  net_history : history
}.

Definition record_view h e : history :=
  <[(engine_node_id e, generation_of e) := p (so_value (sh_state (shard e)))]> h.

(** The deltas of a mutation describe it: applied to the view before, they give the
    view after. *)
Definition describes {DC VD} (f : S → S * DC) (pd : DC → VD) (serd : VD → bytes) : Prop :=
  ∀ s a, ap = Some a → a (serd (pd (f s).2)) w (p s) = Ok (p (f s).1).

(** The calls a host makes on its own account. *)
Definition host_call e (op : EngineOp S V C) : Prop :=
  match op with
  | OpMutate _ q _ _ => q = p ∧ age (generation_of e) < u64_max
  | OpMutateDelta f q pd _ serd _ =>
      q = p ∧ age (generation_of e) < u64_max ∧ describes f pd serd
  | OpInbound _ _ => False
  | OpFlushFeed | OpJoin _ _ _ | OpLeave _ | OpPeriodicSync => True
  end.

(** What an operation hands to the network. *)
Definition outgoing (acts : list EngineAction) (batch : option BatchedChangeFeed) :
    list WireMessage :=
  ((λ a, WireSync (action_message a)) <$> acts) ++ (WireFeed <$> option_list batch).

Inductive net_step (n : Network) : Network → Prop :=
| net_start id x cfg clk :
    0 < as_u64 (unix_ms clk) →
    (∀ g v, net_history n !! (id, g) = Some v → incarnation g < as_u64 (unix_ms clk)) →
    let e := engine_new name id x p cfg w clk ser de ap in
    net_step n (mkNetwork (<[id := e]> (net_nodes n)) (net_messages n)
      (record_view (net_history n) e))
| net_call id e op e' acts batch :
    net_nodes n !! id = Some e → host_call e op →
    run_engine_op e op = Done (e', acts, batch) →
    net_step n (mkNetwork (<[id := e']> (net_nodes n)) (outgoing acts batch ++ net_messages n)
      (record_view (net_history n) e'))
| net_deliver id e msg clk e' acts :
    net_nodes n !! id = Some e → msg ∈ net_messages n →
    handle_inbound e msg clk = Done (e', acts) →
    net_step n (mkNetwork (<[id := e']> (net_nodes n)) (outgoing acts None ++ net_messages n)
      (net_history n))
| net_query {R} id e d (proj : gmap NodeId (StateViewObject V) → R) clk :
    net_nodes n !! id = Some e →
    net_step n (mkNetwork (net_nodes n)
      (outgoing (query e d proj clk).2 None ++ net_messages n) (net_history n))
| net_crash id :
    net_step n (mkNetwork (delete id (net_nodes n)) (net_messages n) (net_history n)).

Definition net_init : Network := mkNetwork ∅ [] ∅.

(** *** The invariant *)

Definition history_ok h : Prop :=
  ∀ id g v, h !! (id, g) = Some v → gen_u64 g ∧ 0 < incarnation g.

(** A message tells only what its source projected. *)
Definition sync_valid h (m : SyncMessage) : Prop :=
  match m with
  | FullSnapshot _ src g w' data => w' = w ∧ ∃ v, h !! (src, g) = Some v ∧ data = ser v
  | DeltaUpdate _ src g w' data =>
      w' = w ∧ ∃ g0 v0 v, h !! (src, g0) = Some v0 ∧ h !! (src, g) = Some v ∧
        g = next_generation g0 ∧ age g0 < u64_max ∧ ∀ a, ap = Some a → a data w v0 = Ok v
  | RequestSnapshot _ _ => True
  end.
Definition known_generation h (id : NodeId) (g : Generation) : Prop := is_Some (h !! (id, g)).
Definition message_valid h (msg : WireMessage) : Prop :=
  match msg with
  | WireSync m => sync_valid h m
  | WireFeed f => ∀ c, c ∈ bf_notifications f → known_generation h (cn_source_node c) (cn_generation c)
  end.

(** A view is a placeholder or what its node projected at its generation. *)
Definition view_valid h (id : NodeId) (vo : StateViewObject V) : Prop :=
  vo_generation vo = generation_zero ∨ h !! (id, vo_generation vo) = Some (vo_value vo).
Definition contents_valid h (m : gmap NodeId (StateViewObject V)) : Prop :=
  ∀ id vo, m !! id = Some vo → view_valid h id vo.

Definition node_static e : Prop :=
  state_name e = name ∧ wire_version e = w ∧ serialize_view e = ser ∧ deserialize_view e = de ∧
  inbound_delta_applier e = ap.

Record node_inv h (id : NodeId) e : Prop := {
  ni_id : engine_node_id e = id;
  ni_static : node_static e;
  ni_ok : host_ok (host e);
  ni_shard : shard_inv p (shard e);
  ni_own : h !! (id, generation_of e) = Some (p (so_value (sh_state (shard e))));
  ni_last : ∀ g v, h !! (id, g) = Some v → g ≤g generation_of e;
  ni_views : contents_valid h (contents (shard e));
  ni_feed : ∀ n s g, cf_pending (change_feed e) !! (n, s) = Some g → known_generation h s g
}.

Definition net_inv (n : Network) : Prop :=
  history_ok (net_history n) ∧
  (∀ id e, net_nodes n !! id = Some e → node_inv (net_history n) id e) ∧
  (∀ msg, msg ∈ net_messages n → message_valid (net_history n) msg).

(** *** Monotonicity in the history *)

Lemma message_valid_mono h h' msg : h ⊆ h' → message_valid h msg → message_valid h' msg.
Proof.
  intros Hsub. unfold message_valid, sync_valid, known_generation.
  destruct msg as [[]|]; try done.
  - intros (-> & v & Hv & ->). split; [done|]. exists v. split; [|done].
    by eapply lookup_weaken.
  - intros (-> & g0 & v0 & v & Hh0 & Hh1 & ?). split; [done|].
    exists g0, v0, v. split_and!; [by eapply lookup_weaken..| | |]; tauto.
  - intros Hv c Hc. destruct (Hv c Hc) as [v ?]. exists v. by eapply lookup_weaken.
Qed.

Lemma contents_valid_mono h h' m : h ⊆ h' → contents_valid h m → contents_valid h' m.
Proof.
  intros Hsub Hv id vo Hvo. destruct (Hv id vo Hvo) as [?|?]; [by left|right].
  by eapply lookup_weaken.
Qed.

Lemma contents_valid_insert h m id vo :
  contents_valid h m → view_valid h id vo → contents_valid h (<[id := vo]> m).
Proof. intros Hm Hvo k v [[<- <-]|[_ Hk]]%lookup_insert_Some; [done|by apply Hm]. Qed.

Lemma contents_valid_delete h m id : contents_valid h m → contents_valid h (delete id m).
Proof. intros Hm k v [_ Hk]%lookup_delete_Some. by apply Hm. Qed.

(** A history extended only with later generations of other nodes. *)
Lemma node_inv_mono h h' id e :
  h ⊆ h' → (∀ g v, h' !! (id, g) = Some v → h !! (id, g) = Some v) →
  node_inv h id e → node_inv h' id e.
Proof.
  intros Hsub Hback []. split; try done.
  - by eapply lookup_weaken.
  - eauto.
  - by eapply contents_valid_mono.
  - intros n s g Hg. destruct (ni_feed0 n s g Hg) as [v Hv]. exists v. by eapply lookup_weaken.
Qed.

(** *** Deliveries *)

Lemma node_static_same e e' : static e' = static e → node_static e → node_static e'.
Proof.
  unfold static, node_static. intros [= -> -> _ _ -> -> ->]. done.
Qed.

(** Rebuilds the invariant after a call that kept the state and the own view. *)
Lemma node_inv_rebuild h id e e' :
  node_inv h id e → host_ok (host e') → static e' = static e →
  sh_state (shard e') = sh_state (shard e) → engine_node_id e' = engine_node_id e →
  contents (shard e') !! id = contents (shard e) !! id →
  contents_valid h (contents (shard e')) →
  (∀ n s g, cf_pending (change_feed e') !! (n, s) = Some g → known_generation h s g) →
  node_inv h id e'.
Proof.
  intros [Hid Hstat Hok Hsh Hown Hlast Hviews _] Hok' Hst Hstate Hid' Hself Hviews' Hfeed.
  assert (generation_of e' = generation_of e) as Hg by (unfold generation_of; congruence).
  split; try done.
  - congruence.
  - by eapply node_static_same.
  - destruct Hok' as (Hwf & _ & _ & Hsrc). split_and!; [done| |done].
    destruct Hsh as (_ & [t Ht] & _). exists t.
    unfold engine_node_id in *. rewrite Hid', Hstate, Hid in *. by rewrite Hself.
  - by rewrite Hg, Hstate.
  - by rewrite Hg.
Qed.

Lemma node_inv_own h id e :
  node_inv h id e → ∃ vo, contents (shard e) !! id = Some vo ∧ vo_generation vo = generation_of e.
Proof.
  intros Hi. destruct (ni_shard _ _ _ Hi) as (_ & [t Ht] & _).
  pose proof (ni_id _ _ _ Hi) as Hid. unfold engine_node_id in Hid. rewrite Hid in Ht. eauto.
Qed.

Lemma handle_inbound_feed e msg clk e' acts :
  handle_inbound e msg clk = Done (e', acts) → change_feed e' = change_feed e.
Proof.
  destruct msg as [[n s g w' d|n s g w' d|n r]|f]; simpl.
  - unfold handle_full_snapshot. intros [= Heq]. revert Heq.
    repeat (case_match; simpl); intros; simplify_eq; done.
  - unfold handle_delta_update. intros [= Heq]. revert Heq.
    repeat (case_match; simpl); intros; simplify_eq; done.
  - unfold handle_request_snapshot. repeat (case_match; simpl); intros; simplify_eq; try done.
    by destruct (own_view_value e); simplify_eq/=.
  - intros [= <- _]. unfold handle_inbound_change_feed.
    remember (route_inbound_batch f (engine_node_id e)) as l eqn:El. clear El. revert e.
    induction l as [|[[n s] g] l IH]; intros e; simpl; [done|].
    rewrite IH. unfold feed_entry. by repeat case_match.
Qed.

Lemma handle_inbound_host_ok e msg clk e' acts :
  host_ok (host e) → handle_inbound e msg clk = Done (e', acts) →
  host_ok (host e') ∧ static e' = static e.
Proof.
  intros Hok Hh.
  assert (msg_ok anything msg) as Hm by by destruct msg as [[]|].
  destruct (handle_inbound_ok anything anything e msg clk e' acts Hm Hh) as [Hs Hst].
  split; [by eapply host_steps_ok|done].
Qed.

Lemma deliver_full_snapshot h id e n src g w' data clk :
  (∀ v, de (ser v) w = Ok v) →
  node_inv h id e → sync_valid h (FullSnapshot n src g w' data) →
  let e' := (handle_full_snapshot e n src g w' data clk).1 in
  sh_state (shard e') = sh_state (shard e) ∧ engine_node_id e' = engine_node_id e ∧
  contents (shard e') !! id = contents (shard e) !! id ∧
  contents_valid h (contents (shard e')).
Proof.
  intros Hcodec Hi (-> & v & Hv & ->) e'.
  pose proof (ni_views _ _ _ Hi) as Hviews. destruct (ni_ok _ _ _ Hi) as (Hwf & _).
  destruct (decide (n = state_name e)) as [->|Hn].
  2: { unfold e', handle_full_snapshot. by rewrite bool_decide_eq_false_2. }
  destruct (should_accept_from (lifecycle e) src) eqn:Hacc.
  2: { unfold e', handle_full_snapshot. by rewrite bool_decide_eq_true_2, Hacc. }
  pose proof (ni_static _ _ _ Hi) as (_ & _ & _ & Hde & _).
  destruct (full_snapshot_contents e src g w (ser v) clk v Hwf Hacc) as (_ & Hid & Hst & Hc);
    [by rewrite Hde|].
  split_and!; [done|done|..]; unfold e'; rewrite Hc, snapshot_update_ahead; simpl.
  - destruct (decide (src = id)) as [->|Hne].
    2: { destruct (ahead _ _); [by rewrite lookup_insert_ne|done]. }
    destruct (node_inv_own _ _ _ Hi) as (vo & Hvo & Hg). rewrite Hvo. simpl.
    pose proof (ni_last _ _ _ Hi g v Hv) as Hle. rewrite <- Hg in Hle.
    by rewrite (proj2 (generation_ltb_ge _ _) Hle), Hvo.
  - destruct (ahead _ _); [|exact Hviews]. apply contents_valid_insert; [exact Hviews|]. right. exact Hv.
Qed.

Lemma deliver_delta_update h id e n src g w' data clk :
  history_ok h → node_inv h id e → sync_valid h (DeltaUpdate n src g w' data) →
  let e' := (handle_delta_update e n src g w' data clk).1 in
  sh_state (shard e') = sh_state (shard e) ∧ engine_node_id e' = engine_node_id e ∧
  contents (shard e') !! id = contents (shard e) !! id ∧
  contents_valid h (contents (shard e')).
Proof.
  intros Hh Hi (-> & g0 & v0 & v & Hh0 & Hv & Hg & Hmax & Hap) e'.
  pose proof (ni_views _ _ _ Hi) as Hviews. pose proof (ni_ok _ _ _ Hi) as Hok.
  destruct (decide (n = state_name e)) as [->|Hn].
  2: { unfold e', handle_delta_update. by rewrite bool_decide_eq_false_2. }
  destruct (should_accept_from (lifecycle e) src) eqn:Hacc.
  2: { unfold e', handle_delta_update. by rewrite bool_decide_eq_true_2, Hacc. }
  pose proof (ni_static _ _ _ Hi) as (_ & Hw & _ & _ & Hapl).
  pose proof (delta_update_decided e src g w data clk Hok Hacc) as Hd.
  pose proof (delta_update_same e (state_name e) src g w data clk) as (_ & _ & Hid).
  unfold e'. destruct (handle_delta_update _ _ _ _ _ _ _) as [e1 acts]. simpl in *.
  destruct Hd as (_ & Hst & Hd). split; [done|]. split; [done|].
  unfold decide_delta in Hd. rewrite Hw, Z.eqb_refl in Hd. simpl in Hd.
  destruct (inbound_delta_applier e) as [a|]; [|by destruct Hd as [_ ->]].
  destruct (contents (shard e) !! src) as [c|] eqn:Hc; [|by destruct Hd as [_ ->]].
  case_bool_decide as Hgc; [|by destruct (generation_leb _ _); destruct Hd as [_ ->]].
  specialize (Hap a (eq_sym Hapl)).
(* the entry the delta extends is the one the sender extended *)
  assert (vo_generation c = g0 ∧ vo_value c = v0 ∧ src ≠ id) as (Hg0 & Hv0 & Hne).
  { destruct (Hh _ _ _ Hh0) as [Hu Hpos]. destruct (Hh _ _ _ Hv) as [_ Hpos'].
    assert (vo_generation c ≠ generation_zero) as Hnz.
    { intros Hz. rewrite Hgc, Hz in Hpos'. simpl in Hpos'. lia. }
    destruct (Hviews src c Hc) as [?|Hcv]; [done|].
    assert (vo_generation c = g0) as Heq.
    { destruct (Hh _ _ _ Hcv) as [Hu' _]. rewrite Hgc in Hg. injection Hg as Hgi Hga.
      apply generation_eq. split; [done|]. destruct Hu as [_ Hu], Hu' as [_ Hu'].
      revert Hga Hu Hu'. width_lia. }
    split; [done|]. split; [rewrite Heq in Hcv; congruence|]. intros ->.
    destruct (node_inv_own _ _ _ Hi) as (vo & Hvo & Hge). rewrite Hc in Hvo. simplify_eq.
    pose proof (ni_last _ _ _ Hi _ _ Hv) as Hle. rewrite <- Hge in Hle.
    destruct Hu as [_ Hu]. unfold is_u64 in Hu. unfold next_generation in Hle.
    rewrite u64_succ_small in Hle by lia. gen_lia. }
  rewrite Hv0, Hap in Hd. destruct Hd as [_ Hd]. rewrite Hd. split.
  - by rewrite lookup_insert_ne.
  - apply contents_valid_insert; [done|]. right. by simpl.
Qed.

Lemma deliver_feed h id e f :
  node_inv h id e → message_valid h (WireFeed f) →
  node_inv h id (handle_inbound_change_feed e f).
Proof.
  intros Hi Hf. unfold handle_inbound_change_feed.
  assert (∀ n s g, (n, s, g) ∈ route_inbound_batch f (engine_node_id e) → known_generation h s g)
    as Hr.
  { unfold route_inbound_batch. case_bool_decide; [set_solver|].
    intros n s g (x & ? & Hin)%list_elem_of_fmap. simplify_eq. by apply Hf. }
  remember (route_inbound_batch f (engine_node_id e)) as l eqn:El. clear El.
  revert e Hi. induction l as [|[[n s] g] l IH]; intros e Hi; simpl; [done|].
  apply IH; [intros ??? Hin; eapply Hr; by right|].
  unfold feed_entry. case_bool_decide; simpl; [|done].
  destruct (should_accept_from _ _) eqn:Hacc; simpl; [|done].
  destruct (Hr n s g ltac:(by left)) as [v Hv].
  pose proof (ni_ok _ _ _ Hi) as Hok. pose proof Hok as (Hwf & _).
  pose proof (mark_stale_contents (shard e) s (incarnation g) (age g) Hwf) as Hc.
  destruct (mark_stale_frame (S:=S) (shard e) s (incarnation g) (age g)) as (_ & Hid & Hst).
  replace (generation_new (incarnation g) (age g)) with g in Hc by by destruct g.
  eapply node_inv_rebuild; [done| |done|done|done|..]; simpl.
  - eapply (host_step_ok anything anything (C:=C) (host e)); [|done].
    apply host_mark_stale; [done|by apply accept_source_ok].
  - rewrite Hc. destruct (contents (shard e) !! s) as [c|] eqn:Hs; [|done].
    destruct (decide (s = id)) as [->|Hne]; [|by case_match; rewrite ?lookup_insert_ne].
    destruct (node_inv_own _ _ _ Hi) as (vo & Hvo & Hge). rewrite Hvo in Hs. simplify_eq.
    pose proof (ni_last _ _ _ Hi _ _ Hv) as Hle. rewrite <- Hge in Hle.
    by rewrite (proj2 (generation_leb_le _ _) Hle).
  - rewrite Hc. pose proof (ni_views _ _ _ Hi) as Hviews.
    destruct (contents (shard e) !! s) as [c|] eqn:Hs; [|done]. case_match; [done|].
    apply contents_valid_insert; [done|]. exact (Hviews s c Hs).
  - apply (ni_feed _ _ _ Hi).
Qed.

(** *** What a node hands out is valid *)

Lemma own_value h id e :
  node_inv h id e → own_view_value e = Done (p (so_value (sh_state (shard e)))).
Proof.
  intros Hi. destruct (ni_shard _ _ _ Hi) as (Hwf & [t Ht] & _).
  unfold own_view_value, engine_node_id. by rewrite get_view_contents, Ht.
Qed.

Lemma own_snapshot_valid h id e v :
  node_inv h id e → own_view_value e = Done v →
  sync_valid h (own_snapshot e (serialize_view e v)).
Proof.
  intros Hi Hv. rewrite (own_value _ _ _ Hi) in Hv. simplify_eq.
  destruct (ni_static _ _ _ Hi) as (_ & Hw & Hser & _ & _).
  split; [done|]. rewrite (ni_id _ _ _ Hi). fold (generation_of e).
  rewrite (ni_own _ _ _ Hi). rewrite Hser. eauto.
Qed.

Lemma outgoing_valid h acts :
  (∀ a, a ∈ acts → sync_valid h (action_message a)) →
  ∀ msg, msg ∈ outgoing acts None → message_valid h msg.
Proof.
  intros Ha msg. unfold outgoing. rewrite app_nil_r. intros (a & -> & Hin)%list_elem_of_fmap.
  by apply Ha.
Qed.

Lemma delta_update_actions e n src g w' data clk a :
  a ∈ (handle_delta_update e n src g w' data clk).2 →
  ∃ n r, action_message a = RequestSnapshot n r.
Proof.
  unfold handle_delta_update. repeat (case_match; simpl);
    first [by intros ?%elem_of_nil | intros ->%list_elem_of_singleton; by eexists _, _].
Qed.

Lemma request_actions h id e n r e' acts a :
  node_inv h id e → handle_request_snapshot e n r = Done (e', acts) → a ∈ acts →
  sync_valid h (action_message a).
Proof.
  intros Hi. unfold handle_request_snapshot.
  case_match; [by intros [= _ <-] ?%elem_of_nil|].
  case_match; [by intros [= _ <-] ?%elem_of_nil|].
  rewrite (own_value _ _ _ Hi). simpl. intros [= _ <-] ->%list_elem_of_singleton.
  exact (own_snapshot_valid h id e _ Hi (own_value h id e Hi)).
Qed.

Lemma request_host h id e n r e' acts :
  node_inv h id e → handle_request_snapshot e n r = Done (e', acts) → shard e' = shard e.
Proof.
  intros Hi. unfold handle_request_snapshot.
  case_match; [by intros [= <- _]|]. case_match; [by intros [= <- _]|].
  rewrite (own_value _ _ _ Hi). by intros [= <- _].
Qed.

Lemma deliver_inv h id e msg clk e' acts :
  (∀ v, de (ser v) w = Ok v) → history_ok h →
  node_inv h id e → message_valid h msg → handle_inbound e msg clk = Done (e', acts) →
  node_inv h id e' ∧ ∀ m, m ∈ outgoing acts None → message_valid h m.
Proof.
  intros Hcodec Hh Hi Hm Hhd.
  destruct (handle_inbound_host_ok _ _ _ _ _ (ni_ok _ _ _ Hi) Hhd) as [Hok' Hst'].
  pose proof (handle_inbound_feed _ _ _ _ _ Hhd) as Hfd.
  destruct msg as [[n s g w' d|n s g w' d|n r]|f]; simpl in Hhd.
  - pose proof (deliver_full_snapshot h id e n s g w' d clk Hcodec Hi Hm) as (?&?&?&?).
    pose proof (proj1 (full_snapshot_same e n s g w' d clk)) as Hacts.
    destruct (handle_full_snapshot _ _ _ _ _ _ _) as [e1 a1]. simpl in *.
    injection Hhd as <- <-. subst a1. split; [|by intros m ?%elem_of_nil].
    apply (node_inv_rebuild h id e); try done. rewrite Hfd. apply (ni_feed _ _ _ Hi).
  - pose proof (deliver_delta_update h id e n s g w' d clk Hh Hi Hm) as (?&?&?&?).
    pose proof (delta_update_actions e n s g w' d clk) as Hacts.
    destruct (handle_delta_update _ _ _ _ _ _ _) as [e1 a1]. simpl in *.
    injection Hhd as <- <-. split.
    + apply (node_inv_rebuild h id e); try done. rewrite Hfd. apply (ni_feed _ _ _ Hi).
    + apply outgoing_valid. intros a (n' & r & ->)%Hacts. done.
  - pose proof (request_host _ _ _ _ _ _ _ Hi Hhd) as Hsh. split.
    + apply (node_inv_rebuild h id e); try done; unfold engine_node_id; rewrite ?Hsh; try done.
      * apply (ni_views _ _ _ Hi).
      * rewrite Hfd. apply (ni_feed _ _ _ Hi).
    + apply outgoing_valid. intros a. by eapply request_actions.
  - injection Hhd as <- <-. split; [by apply deliver_feed|by intros m ?%elem_of_nil].
Qed.

(** *** Calls of the host *)

(** A call that did not mutate leaves the history alone. *)
Lemma record_view_same h id e : node_inv h id e → record_view h e = h.
Proof.
  intros Hi. apply insert_id. rewrite (ni_id _ _ _ Hi). apply (ni_own _ _ _ Hi).
Qed.

Lemma history_fresh h id e g :
  node_inv h id e → generation_of e <g g → h !! (id, g) = None.
Proof.
  intros Hi Hlt. destruct (h !! (id, g)) as [v|] eqn:Hv; [|done].
  pose proof (ni_last _ _ _ Hi _ _ Hv). exfalso. gen_lia.
Qed.

Lemma next_generation_lt g : 0 ≤ age g < u64_max → g <g next_generation g.
Proof. intros. unfold next_generation. rewrite u64_succ_small by done. gen_lia. Qed.

(** A committed mutation, whatever it does to the change feed and the counters. *)
(** A feed that may have taken up the node's new generation. *)
Lemma feed_known_mono h h' id e cf' :
  h ⊆ h' → node_inv h id e →
  (cf' = change_feed e ∨
   ∃ g', known_generation h' id g' ∧
     cf' = notify_change (change_feed e) (state_name e) (engine_node_id e) g') →
  ∀ n s g, cf_pending cf' !! (n, s) = Some g → known_generation h' s g.
Proof.
  intros Hsub Hi Hcf n s g.
  assert (∀ n s, cf_pending (change_feed e) !! (n, s) = Some g → known_generation h' s g) as Hold.
  { intros n' s' [v Hv]%(ni_feed _ _ _ Hi). exists v. by eapply lookup_weaken. }
  destruct Hcf as [->|(g' & Hg' & ->)]; [apply Hold|].
  rewrite notify_change_lookup. case_decide as Hk; [|apply Hold].
  injection Hk as -> ->. rewrite (ni_id _ _ _ Hi).
  destruct (cf_pending _ !! _) as [g0|] eqn:Hp; [|by intros [= <-]].
  destruct (generation_ltb _ _); intros [= <-]; [done|by eapply Hold].
Qed.

Lemma mutation_inv_net h id e e' st clk :
  history_ok h → node_inv h id e → age (generation_of e) < u64_max →
  shard e' = update_own_view (C:=C) (set_state (shard e) st) (p (so_value st)) clk →
  so_generation st = next_generation (generation_of e) →
  lifecycle e' = lifecycle e → static e' = static e →
  (change_feed e' = change_feed e ∨
   change_feed e' = notify_change (change_feed e) (state_name e) (engine_node_id e) (generation_of e')) →
  let h' := record_view h e' in
  h ⊆ h' ∧ history_ok h' ∧ (∀ k g v, k ≠ id → h' !! (k, g) = Some v → h !! (k, g) = Some v) ∧
  node_inv h' id e'.
Proof.
  intros Hh Hi Hage Hsh Hgen Hlc Hst Hfeed h'.
  pose proof (ni_id _ _ _ Hi) as Hid. pose proof (ni_ok _ _ _ Hi) as Hok.
  pose proof (ni_shard _ _ _ Hi) as Hinv.
  assert (engine_node_id e' = id) as Hid' by (unfold engine_node_id; by rewrite Hsh).
  assert (generation_of e' = next_generation (generation_of e)) as Hg'
    by (unfold generation_of; by rewrite Hsh).
  destruct (Hh _ _ _ (ni_own _ _ _ Hi)) as [[Hui Hu] Hpos]. unfold is_u64 in Hu.
  pose proof (next_generation_lt (generation_of e) ltac:(lia)) as Hlt.
  pose proof (history_fresh _ _ _ _ Hi Hlt) as Hfresh.
  assert (h' = <[(id, next_generation (generation_of e)) := p (so_value st)]> h) as Hh'.
  { unfold h', record_view. by rewrite Hid', Hg', Hsh. }
  assert (h ⊆ h') as Hsub by (rewrite Hh'; by apply insert_subseteq).
  split_and!; [done|..].
  - intros k g v. rewrite Hh'. intros [[[= <- <-] <-]|[_ ?]]%lookup_insert_Some; [|eauto].
    split; [|done]. split; [done|]. apply u64_add_range.
  - intros k g v Hk. rewrite Hh'. intros [[[= <- <-] <-]|[_ ?]]%lookup_insert_Some; done.
  - assert (host_ok (host e')) as Hok'.
    { unfold host. rewrite Hlc, Hsh. apply host_ok_own, Hok. }
    assert (shard_inv p (shard e')) as Hinv' by (rewrite Hsh; by apply commit_inv).
    split; try done.
    + eapply node_static_same; [done|apply (ni_static _ _ _ Hi)].
    + rewrite Hg', Hsh, Hh'. simpl. apply lookup_insert_eq.
    + intros g v. rewrite Hg', Hh'. intros [[[= <-] <-]|[_ Hv]]%lookup_insert_Some; [gen_lia|].
      pose proof (ni_last _ _ _ Hi _ _ Hv). gen_lia.
    + rewrite Hsh. destruct Hinv as (Hwf & [t Hown] & _).
      rewrite update_own_view_contents by (done || by eexists). simpl.
      apply contents_valid_insert.
      * eapply contents_valid_mono; [done|]. apply (ni_views _ _ _ Hi).
      * right. simpl. rewrite Hgen, Hh'. unfold engine_node_id in Hid. rewrite Hid.
        apply lookup_insert_eq.
    + apply (feed_known_mono h h' id e); [done..|]. destruct Hfeed as [->| ->]; [by left|right].
    exists (generation_of e'). split; [|done]. exists (p (so_value st)). rewrite Hg', Hh'.
    apply lookup_insert_eq.
Qed.

Lemma send_join_actions h id l : ∀ e e' acts a,
  node_inv h id e → send_join_snapshots e l = Done (e', acts) → a ∈ acts →
  sync_valid h (action_message a).
Proof.
  induction l as [|[t] l IH]; intros e e' acts a Hi; simpl; [by intros [= _ <-] ?%elem_of_nil|].
  rewrite (own_value _ _ _ Hi). simpl.
  destruct (send_join_snapshots _ l) as [[e1 a1]|] eqn:Hr; simpl; [|done].
  intros [= _ <-] [->|Hin]%elem_of_cons.
  - exact (own_snapshot_valid h id e _ Hi (own_value h id e Hi)).
  - eapply (IH (map_diagnostics e record_snapshot_sent)); [|done..].
    destruct Hi. by split.
Qed.

Lemma send_join_feed l : ∀ e e' acts,
  send_join_snapshots e l = Done (e', acts) → change_feed e' = change_feed e.
Proof.
  induction l as [|[t] l IH]; intros e e' acts; simpl; [by intros [= <- _]|].
  destruct (own_view_value e); simpl; [|done].
  destruct (send_join_snapshots _ l) as [[e1 a1]|] eqn:Hr; simpl; [|done].
  intros [= <- _]. by apply IH in Hr.
Qed.

(** What a call leaves: the invariant under the extended history, and valid
    messages. *)
Definition call_inv h id e' acts batch : Prop :=
  let h' := record_view h e' in
  h ⊆ h' ∧ history_ok h' ∧ (∀ k g v, k ≠ id → h' !! (k, g) = Some v → h !! (k, g) = Some v) ∧
  node_inv h' id e' ∧ ∀ m, m ∈ outgoing acts batch → message_valid h' m.

Lemma call_inv_same h id e' acts batch :
  history_ok h → node_inv h id e' →
  (∀ m, m ∈ outgoing acts batch → message_valid h m) → call_inv h id e' acts batch.
Proof. intros Hh Hi Hm. unfold call_inv. rewrite (record_view_same _ _ _ Hi). done. Qed.

(** The messages a mutation hands out. *)
Lemma own_snapshot_message h id e acts :
  node_inv h id e →
  (∀ a, a ∈ acts → action_message a =
     own_snapshot e (serialize_view e (p (so_value (sh_state (shard e)))))) →
  ∀ m, m ∈ outgoing acts None → message_valid h m.
Proof.
  intros Hi Ha. apply outgoing_valid. intros a ->%Ha.
  exact (own_snapshot_valid h id e _ Hi (own_value h id e Hi)).
Qed.

Lemma call_mutate h id e f u clk :
  history_ok h → node_inv h id e → age (generation_of e) < u64_max →
  let '(e', r) := mutate (C:=C) e f p u clk in call_inv h id e' (mr_actions r) None.
Proof.
  intros Hh Hi Hage. pose proof (mutate_effect p e f u clk) as He.
  assert (change_feed (mutate e f p u clk).1 = change_feed e ∨
    change_feed (mutate e f p u clk).1 = notify_change (change_feed e) (state_name e)
      (engine_node_id e) (generation_of (mutate e f p u clk).1)) as Hfeed.
  { unfold mutate. simpl. destruct (resolve_action _ _); simpl; by (left + right). }
  destruct (mutate e f p u clk) as [e' r]. simpl in Hfeed.
  destruct He as (Hsh & (Hst & Hlc & _) & Hgen & _ & Hacts).
  destruct (mutation_inv_net h id e e'
    (bump_state (sh_state (shard e)) (f (so_value (sh_state (shard e)))) clk) clk)
    as (Hsub & Hh' & Hback & Hi'); [done..|].
  split_and!; [done..|]. eapply own_snapshot_message; [done|]. intros a.
  destruct (resolve_action _ _); [rewrite Hacts..|destruct Hacts as [-> _]|rewrite Hacts|rewrite Hacts];
    first [by intros ->%list_elem_of_singleton | by intros ?%elem_of_nil].
Qed.

Lemma call_mutate_delta {DC VD} h id e (f : S → S * DC) (pd : DC → VD) u serd clk :
  history_ok h → node_inv h id e → age (generation_of e) < u64_max → describes f pd serd →
  let '(e', r) := mutate_with_delta (C:=C) e f p pd u serd clk in
  call_inv h id e' (dmr_actions r) None.
Proof.
  intros Hh Hi Hage Hdesc.
  specialize (Hdesc (so_value (sh_state (shard e)))).
  assert (let '(e', r) := mutate_with_delta e f p pd u serd clk in
    let dc := (f (so_value (sh_state (shard e)))).2 in
    (change_feed e' = change_feed e ∨ change_feed e' =
       notify_change (change_feed e) (state_name e) (engine_node_id e) (generation_of e')) ∧
    ∀ a, a ∈ dmr_actions r →
      action_message a = own_delta e' (serd (pd dc)) ∨
      action_message a = own_snapshot e' (serialize_view e' (p (so_value (sh_state (shard e'))))))
    as He.
  { unfold mutate_with_delta, apply_mutation_with_delta. destruct (f _) as [s' dc]. simpl.
    destruct (resolve_action _ _); simpl; (split; [by (left + right)|]);
      intros a; try (by intros ?%elem_of_nil); intros ->%list_elem_of_singleton; auto. }
  pose proof (mutate_with_delta_effect p e f pd u serd clk) as Hef.
  destruct (mutate_with_delta _ _ _ _ _ _ _) as [e' r]. destruct He as [Hfeed Hacts].
  unfold apply_mutation_with_delta in Hef.
  destruct (f _) as [s' dc]. simpl in *.
  destruct Hef as (Hsh & (Hst & Hlc & Hid) & Hgen & Hs' & _).
  destruct (mutation_inv_net h id e e' (bump_state (sh_state (shard e)) s' clk) clk)
    as (Hsub & Hh' & Hback & Hi'); [done..|].
  split_and!; [done..|]. apply outgoing_valid. intros a [-> | ->]%Hacts.
  2: exact (own_snapshot_valid _ id e' _ Hi' (own_value _ id e' Hi')).
  destruct (ni_static _ _ _ Hi') as (_ & Hw & _). split; [done|].
  exists (generation_of e), (p (so_value (sh_state (shard e)))), (p s').
  rewrite (ni_id _ _ _ Hi'). fold (generation_of e').
  split_and!; [| |done|done|done].
  - eapply lookup_weaken; [apply (ni_own _ _ _ Hi)|done].
  - rewrite (ni_own _ _ _ Hi'). by rewrite Hs'.
Qed.

Lemma call_join h id e k v clk e' acts :
  history_ok h → node_inv h id e → engine_on_node_joined (C:=C) e k v clk = Done (e', acts) →
  call_inv h id e' acts None.
Proof.
  intros Hh Hi Hj.
  set (e1 := set_lifecycle (set_shard e (shard_on_node_joined (shard e) k v clk))
    (mkLifecycle (departed_nodes (lifecycle e) ∖ {[k]}))).
  change (send_join_snapshots e1 [SendSnapshotToPeer k] = Done (e', acts)) in Hj.
  pose proof (ni_ok _ _ _ Hi) as Hok. pose proof Hok as (Hwf & _).
  assert (node_inv h id e1) as Hi1.
  { destruct (node_joined_frame (S:=S) (shard e) k v clk) as (_ & Hid & Hst).
    apply (node_inv_rebuild h id e); try done; simpl.
    - apply (host_ok_join (lifecycle e) (shard e) k v clk Hok).
    - rewrite node_joined_contents by done. case_bool_decide as Hk; [done|].
      destruct (contents (shard e) !! k) eqn:Hck; [done|]. apply lookup_insert_ne.
      intros ->. apply Hk. symmetry. apply (ni_id _ _ _ Hi).
    - rewrite node_joined_contents by done. pose proof (ni_views _ _ _ Hi) as Hv.
      case_bool_decide; [done|]. destruct (contents (shard e) !! k); [done|].
      apply contents_valid_insert; [done|]. by left.
    - apply (ni_feed _ _ _ Hi). }
  pose proof (send_join_same _ _ _ _ Hj) as [Hh' Hst'].
  injection Hh' as Hl' Hs'. apply call_inv_same; [done| |].
  - apply (node_inv_rebuild h id e1); try done; unfold host, engine_node_id; rewrite ?Hl', ?Hs'; try done.
    + apply (ni_ok _ _ _ Hi1).
    + apply (ni_views _ _ _ Hi1).
    + rewrite (send_join_feed _ _ _ _ Hj). apply (ni_feed _ _ _ Hi1).
  - apply outgoing_valid. intros a. by eapply send_join_actions.
Qed.

Lemma call_leave h id e k :
  history_ok h → node_inv h id e → call_inv h id (engine_on_node_left e k) [] None.
Proof.
  intros Hh Hi. pose proof (ni_ok _ _ _ Hi) as Hok. pose proof Hok as (Hwf & _).
  destruct (node_left_frame (S:=S) (shard e) k) as (_ & Hid & Hst).
  apply call_inv_same; [done| |by intros m ?%elem_of_nil].
  apply (node_inv_rebuild h id e); try done; simpl.
  - apply (host_ok_leave (lifecycle e) (shard e) k Hok).
  - rewrite node_left_contents by done. case_bool_decide as Hk; [done|].
    apply lookup_delete_ne. intros ->. apply Hk. symmetry. apply (ni_id _ _ _ Hi).
  - rewrite node_left_contents by done. pose proof (ni_views _ _ _ Hi).
    case_bool_decide; [done|]. by apply contents_valid_delete.
  - apply (ni_feed _ _ _ Hi).
Qed.

Lemma call_flush h id e :
  history_ok h → node_inv h id e →
  let '(e', batch) := flush_change_feed e in call_inv h id e' [] batch.
Proof.
  intros Hh Hi. unfold flush_change_feed.
  destruct (change_feed_flush (change_feed e)) as [cf batch] eqn:Hf.
  destruct batch as [b|].
  - destruct (flush_some _ _ _ Hf) as (Hp & _ & _ & Hin & _). apply call_inv_same; [done| |].
    + apply (node_inv_rebuild h id e); try done; [apply (ni_ok _ _ _ Hi)|apply (ni_views _ _ _ Hi)|].
      simpl. rewrite Hp. intros n s g. by rewrite lookup_empty.
    + intros m ->%list_elem_of_singleton [n s g] Hc. simpl.
      apply (ni_feed _ _ _ Hi n). by apply Hin.
  - apply flush_none in Hf as [-> _].
    apply call_inv_same; [done| |by intros m ?%elem_of_nil].
    apply (node_inv_rebuild h id e); try done;
      [apply (ni_ok _ _ _ Hi)|apply (ni_views _ _ _ Hi)|apply (ni_feed _ _ _ Hi)].
Qed.

Lemma call_periodic h id e e' acts :
  history_ok h → node_inv h id e → periodic_sync e = Done (e', acts) →
  call_inv h id e' acts None.
Proof.
  intros Hh Hi. unfold periodic_sync. case_match.
  { intros [= <- <-]. apply call_inv_same; [done|done|by intros m ?%elem_of_nil]. }
  rewrite (own_value _ _ _ Hi). simpl. intros [= <- <-].
  assert (node_inv h id (map_diagnostics e record_snapshot_sent)) as Hi' by (destruct Hi; by split).
  apply call_inv_same; [done|done|]. eapply own_snapshot_message; [done|].
  by intros a ->%list_elem_of_singleton.
Qed.

Lemma call_preserves h id e op e' acts batch :
  history_ok h → node_inv h id e → host_call e op →
  run_engine_op e op = Done (e', acts, batch) → call_inv h id e' acts batch.
Proof.
  intros Hh Hi. destruct op as [f q u clk|DC VD f q pd u serd clk|msg clk| |k v clk|k| ]; simpl.
  - intros [-> Hage]. pose proof (call_mutate h id e f u clk Hh Hi Hage) as Hc.
    destruct (mutate _ _ _ _ _). by intros [= <- <- <-].
  - intros (-> & Hage & Hd). pose proof (call_mutate_delta h id e f pd u serd clk Hh Hi Hage Hd) as Hc.
    destruct (mutate_with_delta _ _ _ _ _ _ _). by intros [= <- <- <-].
  - done.
  - intros _. pose proof (call_flush h id e Hh Hi) as Hc.
    destruct (flush_change_feed e). by intros [= <- <- <-].
  - intros _. destruct (engine_on_node_joined _ _ _ _) as [[e1 a1]|] eqn:Hj; [|done].
    intros [= <- <- <-]. by eapply call_join.
  - intros _ [= <- <- <-]. by apply call_leave.
  - intros _. destruct (periodic_sync e) as [[e1 a1]|] eqn:Hj; [|done].
    intros [= <- <- <-]. by eapply call_periodic.
Qed.

(** *** Steps of the network *)

Lemma start_inv h id x cfg clk :
  history_ok h → 0 < as_u64 (unix_ms clk) →
  (∀ g v, h !! (id, g) = Some v → incarnation g < as_u64 (unix_ms clk)) →
  let e := engine_new (M:=M) (C:=C) name id x p cfg w clk ser de ap in
  call_inv h id e [] None.
Proof.
  intros Hh Hpos Hlt e. destruct (engine_new_ok (M:=M) name id x p cfg w clk ser de ap) as [Hok Hinv].
  fold e in Hok, Hinv. set (g0 := generation_new (as_u64 (unix_ms clk)) 0).
  assert (record_view h e = <[(id, g0) := p x]> h) as Heq by done.
  assert (h !! (id, g0) = None) as Hfresh.
  { destruct (h !! (id, g0)) as [v|] eqn:Hv; [|done]. specialize (Hlt _ _ Hv). simpl in Hlt. lia. }
  unfold call_inv. rewrite Heq. split_and!.
  - by apply insert_subseteq.
  - intros k g v [[[= <- <-] <-]|[_ ?]]%lookup_insert_Some; [|eauto].
    split; [|done]. split; [apply as_u64_range|done].
  - intros k g v Hk [[[= <- <-] <-]|[_ ?]]%lookup_insert_Some; done.
  - split; try done.
    + apply lookup_insert_eq.
    + intros g v [[[= <-] <-]|[_ Hv]]%lookup_insert_Some; [gen_lia|].
      specialize (Hlt _ _ Hv). gen_lia.
    + destruct (shard_new_contents (S:=S) (M:=M) id
        (new_state_object x (as_u64 (unix_ms clk)) clk) (p x) clk) as [_ Hc].
      change (contents (shard e) = {[id := own_view_object id
        (new_state_object x (as_u64 (unix_ms clk)) clk) (p x) (now clk)]}) in Hc.
      rewrite Hc. intros k vo [<- <-]%lookup_singleton_Some. right. simpl.
      apply lookup_insert_eq.
  - by intros m ?%elem_of_nil.
Qed.

(** A query only asks for snapshots. *)
Lemma query_actions {R} e d (proj : gmap NodeId (StateViewObject V) → R) clk a :
  a ∈ (query e d proj clk).2 → ∃ n r, action_message a = RequestSnapshot n r.
Proof.
  unfold query, make_snapshot_request. repeat (case_match; simpl); simplify_eq/=;
    try (by intros ?%elem_of_nil).
  intros (k & -> & _)%list_elem_of_fmap. by eexists _, _.
Qed.

(** One node changes to [e'] and hands out messages. *)
Lemma net_inv_update n id e' acts batch :
  net_inv n → call_inv (net_history n) id e' acts batch →
  net_inv (mkNetwork (<[id := e']> (net_nodes n)) (outgoing acts batch ++ net_messages n)
    (record_view (net_history n) e')).
Proof.
  intros (Hh & Hn & Hm) (Hsub & Hh' & Hback & Hi' & Hout). split_and!; simpl; [done|..].
  - intros k e [[<- <-]|[Hne Hk]]%lookup_insert_Some; [done|].
    eapply node_inv_mono; [done| |by apply Hn]. intros g v. by apply Hback.
  - intros m [?|?]%elem_of_app; [by apply Hout|].
    eapply message_valid_mono; [done|]. by apply Hm.
Qed.

Lemma net_step_inv n n' :
  (∀ v, de (ser v) w = Ok v) → net_inv n → net_step n n' → net_inv n'.
Proof.
  intros Hcodec Hinv Hstep. pose proof Hinv as (Hh & Hn & Hm).
  destruct Hstep as [id x cfg clk Hpos Hlt e|id e op e' acts batch He Hop Hrun
    |id e msg clk e' acts He Hmsg Hhd|R id e d proj clk He|id].
  - apply (net_inv_update n id e [] None Hinv). by apply start_inv.
  - apply net_inv_update; [done|]. eapply call_preserves; eauto.
  - destruct (deliver_inv (net_history n) id e msg clk e' acts) as [Hi' Hout];
      [by auto..|]. rewrite <- (record_view_same (net_history n) id e' Hi').
    apply net_inv_update; [done|]. by apply call_inv_same.
  - split_and!; simpl; [done..|]. intros m [Hin|?]%elem_of_app; [|by apply Hm].
    revert m Hin. apply outgoing_valid. by intros a (n' & r & ->)%query_actions.
  - split_and!; simpl; [done| |done]. intros k e [_ Hk]%lookup_delete_Some. by apply Hn.
Qed.

Lemma net_reachable_inv n :
  (∀ v, de (ser v) w = Ok v) → rtc net_step net_init n → net_inv n.
Proof.
  intros Hcodec Hr.
  assert (net_inv net_init) as Hinit.
  { split_and!; simpl.
    - intros ???. by rewrite lookup_empty.
    - intros ??. by rewrite lookup_empty.
    - by intros ??%elem_of_nil. }
  revert Hinit. induction Hr; eauto using net_step_inv.
Qed.
(** What one node shows of another. *)
Lemma net_view n i j ei ej vo :
  net_inv n → net_nodes n !! i = Some ei → net_nodes n !! j = Some ej →
  get_view (shard ei) j = Some vo →
  vo_generation vo = generation_zero ∨
  (net_history n !! (j, vo_generation vo) = Some (vo_value vo) ∧
   vo_generation vo ≤g generation_of ej ∧
   (vo_generation vo = generation_of ej → vo_value vo = p (so_value (sh_state (shard ej))))).
Proof.
  intros (_ & Hn & _) Hei Hej Hvo. pose proof (Hn i ei Hei) as Hi. pose proof (Hn j ej Hej) as Hj.
  destruct (ni_ok _ _ _ Hi) as (Hwf & _). rewrite get_view_contents in Hvo by done.
  destruct (ni_views _ _ _ Hi j vo Hvo) as [?|Hh]; [by left|right].
  split; [done|]. split; [by apply (ni_last _ _ _ Hj _ _ Hh)|].
  intros Hg. pose proof (ni_own _ _ _ Hj) as Hown. rewrite <- Hg in Hown. congruence.
Qed.
End Network.
Arguments Network : clear implicits.

(** [C1] Views are never wrong, only old.  In every state of a cluster over a network
    that may lose, duplicate, reorder, delay and misroute messages, with nodes that
    join, leave, crash and restart under later incarnations, and mutate with one
    projection: whatever node [i] shows of
    node [j] is the placeholder of a node that has not synchronised yet, or exactly the
    view [j] projected at that generation; it is never ahead of [j], and if its
    generation is [j]'s current one, it is [j]'s current view. *)
Theorem views_never_wrong `{HashIter} {S V M C} `{!ViewMapOps V M} `{!ViewMapLaws V M} `{Clock C}
    (name : string) (p : S → V) (w : Z) (ser : SerializeViewFn V) (de : DeserializeViewFn V)
    (ap : option (InboundDeltaApplierFn V)) (n : Network S V M)
    (i j : NodeId) (ei ej : DistributedStateEngine S V M) (vo : StateViewObject V) :
  (∀ v, de (ser v) w = Ok v) →
  rtc (net_step (C:=C) name p w ser de ap) net_init n →
  net_nodes n !! i = Some ei → net_nodes n !! j = Some ej →
  get_view (shard ei) j = Some vo →
  vo_generation vo = generation_zero ∨
  (net_history n !! (j, vo_generation vo) = Some (vo_value vo) ∧
   vo_generation vo ≤g generation_of ej ∧
   (vo_generation vo = generation_of ej → vo_value vo = p (so_value (sh_state (shard ej))))).
Proof.
  intros Hcodec Hr. apply (net_view name p w ser de ap). by apply net_reachable_inv.
Qed.
