(* ===== verification/NetworkRuns.v ===== *)
(** Runs of the network during which nobody starts or stops: every node keeps its
    incarnation, and what is new in the history belongs to it.  The hosts of the engines
    (the mock cluster, the actors) run like this between starts and crashes. *)
From stdpp Require Import prelude gmap fin_maps strings relations.
From S2P Require Import Prelude Node Clock Types ViewMap ShardCore ShardProps SyncLogic.
From S2P Require Import ChangeFeed Versioning Lifecycle Diagnostics Engine EngineProps.
From S2P Require Import Protocol Accounting Network.

Section Runs.
Context `{HashIter} {S V M C : Type} `{!ViewMapOps V M} `{!ViewMapLaws V M} `{Clock C}.
Context (name : string) (p : S → V) (w : Z)
  (ser : SerializeViewFn V) (de : DeserializeViewFn V) (ap : option (InboundDeltaApplierFn V)).
Local Abbreviation network := (Network S V M).
Local Abbreviation step := (net_step (C:=C) name p w ser de ap).
Implicit Types (n : network) (e : DistributedStateEngine S V M) (clk : C).

(** The incarnation a node runs under. *)
Definition runs_as n (id : NodeId) : option Z :=
  (λ e, incarnation (generation_of e)) <$> net_nodes n !! id.

Definition grows n n' : Prop :=
  rtc step n n' ∧ (∀ m, m ∈ net_messages n → m ∈ net_messages n') ∧
  (∀ id, runs_as n' id = runs_as n id) ∧
  (∀ id g v, net_history n' !! (id, g) = Some v →
     net_history n !! (id, g) = Some v ∨ runs_as n id = Some (incarnation g)).

Lemma grows_refl n : grows n n.
Proof. split_and!; [done| |done|]; tauto. Qed.

Lemma grows_trans n1 n2 n3 : grows n1 n2 → grows n2 n3 → grows n1 n3.
Proof.
  intros (H1 & H2 & H3 & H4) (H1' & H2' & H3' & H4'). split_and!; [by etrans|auto|..].
  - intros id. by rewrite H3'.
  - intros id g v [Hh|Hs]%H4'; [by apply H4|right; by rewrite <- H3].
Qed.

(** Calls keep the incarnation of the engine. *)
Lemma host_step_incarnation (h h' : LifecycleLogic * ShardCore S M) :
  host_step (C:=C) anything anything h h' →
  incarnation (so_generation (sh_state h'.2)) = incarnation (so_generation (sh_state h.2)).
Proof.
  intros [l sh f q clk _|DC VD l sh f q pd clk _|l sh snap clk _ _|l sh src g w' f clk _ _
    |l sh src i a _ _|l sh src|l sh id v clk|l sh id]; simpl; try done.
  - unfold apply_mutation_with_delta. by destruct (f _).
  - by destruct (accept_snapshot_frame (S:=S) sh snap clk) as (_ & _ & ->).
  - by destruct (accept_delta_frame (S:=S) sh src g w' f clk) as (_ & _ & ->).
  - by destruct (node_left_frame (S:=S) sh src) as (_ & _ & ->).
  - by destruct (node_joined_frame (S:=S) sh id v clk) as (_ & _ & ->).
  - by destruct (node_left_frame (S:=S) sh id) as (_ & _ & ->).
Qed.

Lemma call_incarnation e e' (op : EngineOp S V C) acts b :
  run_engine_op e op = Done (e', acts, b) →
  incarnation (generation_of e') = incarnation (generation_of e).
Proof.
  intros Hr. destruct (run_engine_op_ok anything anything e op e' acts b (op_ok_anything op) Hr)
    as [Hs _]. unfold generation_of.
  change (shard e') with (host e').2. change (shard e) with (host e).2.
  induction Hs as [|h1 h2 h3 Hs _ IH]; [done|]. by rewrite IH, (host_step_incarnation _ _ Hs).
Qed.

(** Replacing an engine by one of the same incarnation. *)
Lemma runs_as_insert n id e e' msgs h :
  net_nodes n !! id = Some e → incarnation (generation_of e') = incarnation (generation_of e) →
  ∀ k, runs_as (mkNetwork (<[id := e']> (net_nodes n)) msgs h) k = runs_as n k.
Proof.
  intros He Hi k. unfold runs_as. simpl. rewrite lookup_insert. case_decide; [|done].
  subst k. by rewrite He; simpl; rewrite Hi.
Qed.

(** A call, a delivery and a query. *)
Lemma grows_call n id e (op : EngineOp S V C) e' acts batch :
  net_nodes n !! id = Some e → node_good id e → host_call p w ap e op →
  run_engine_op e op = Done (e', acts, batch) →
  ∃ n', grows n n' ∧ net_nodes n' = <[id := e']> (net_nodes n) ∧
    (∀ m, m ∈ outgoing acts batch → m ∈ net_messages n').
Proof.
  intros Hn Hg Hop Hr. pose proof (node_good_call _ _ _ _ _ _ Hg Hr) as [_ Hid].
  pose proof (call_incarnation _ _ _ _ _ Hr) as Hinc.
  eexists. split; [|split].
  - split_and!; [apply rtc_once; eapply net_call; eauto|..].
    + intros m ?. apply elem_of_app. by right.
    + by eapply runs_as_insert.
    + intros k g v. simpl. unfold record_view. rewrite Hid.
      intros [[[= <- <-] _]|[_ ?]]%lookup_insert_Some; [right|by left].
      unfold runs_as. by rewrite Hn; simpl; rewrite Hinc.
  - done.
  - simpl. intros m ?. apply elem_of_app. by left.
Qed.

Lemma grows_deliver n id e msg clk e' acts :
  net_nodes n !! id = Some e → msg ∈ net_messages n → handle_inbound e msg clk = Done (e', acts) →
  ∃ n', grows n n' ∧ net_nodes n' = <[id := e']> (net_nodes n) ∧
    (∀ m, m ∈ outgoing acts None → m ∈ net_messages n').
Proof.
  intros Hn Hmsg Hr. eexists. split; [|split].
  - split_and!; [apply rtc_once; eapply net_deliver; eauto|..].
    + intros m ?. apply elem_of_app. by right.
    + eapply runs_as_insert; [done|]. apply (call_incarnation e e' (OpInbound msg clk) acts None).
      simpl. by rewrite Hr.
    + by left.
  - done.
  - simpl. intros m ?. apply elem_of_app. by left.
Qed.

Lemma grows_query {R} n id e d (proj : gmap NodeId (StateViewObject V) → R) clk :
  net_nodes n !! id = Some e →
  ∃ n', grows n n' ∧ net_nodes n' = net_nodes n ∧
    (∀ m, m ∈ outgoing (query e d proj clk).2 None → m ∈ net_messages n').
Proof.
  intros Hn. eexists. split; [|split].
  - split_and!; [apply rtc_once; by eapply net_query|..].
    + intros m ?. apply elem_of_app. by right.
    + done.
    + by left.
  - done.
  - simpl. intros m ?. apply elem_of_app. by left.
Qed.

(** Every engine is told that a node left. *)
Lemma grows_all_leave n k :
  (∀ id e, net_nodes n !! id = Some e → node_good id e) →
  ∃ n', grows n n' ∧ net_nodes n' = (λ e, engine_on_node_left e k) <$> net_nodes n.
Proof.
  intros Hgood.
  assert (∀ l, NoDup l → ∃ n', grows n n' ∧ ∀ id, net_nodes n' !! id =
    (λ e, if decide (id ∈ l) then engine_on_node_left e k else e) <$> net_nodes n !! id) as Hl.
  { induction l as [|id l IH]; intros Hnd.
    { exists n. split; [apply grows_refl|]. intros id. by destruct (net_nodes n !! id). }
    apply NoDup_cons in Hnd as [Hni Hnd]. destruct (IH Hnd) as (n1 & Hg1 & Hlk).
    destruct (net_nodes n !! id) as [e|] eqn:Hid.
    - assert (net_nodes n1 !! id = Some e) as Hid1.
      { rewrite Hlk, Hid. simpl. by rewrite decide_False. }
      destruct (grows_call n1 id e (OpLeave k) _ [] None Hid1 (Hgood _ _ Hid) I eq_refl)
        as (n2 & Hg2 & Hn2 & _).
      exists n2. split; [by eapply grows_trans|]. intros j. rewrite Hn2, lookup_insert.
      case_decide as Hj; [subst j; rewrite Hid; simpl; by rewrite decide_True by (by left)|].
      rewrite Hlk. destruct (net_nodes n !! j); [|done]. simpl. f_equal.
      apply decide_ext. rewrite elem_of_cons. naive_solver.
    - exists n1. split; [done|]. intros j. rewrite Hlk.
      destruct (net_nodes n !! j) eqn:Hj; [|done]. simpl. f_equal.
      apply decide_ext. rewrite elem_of_cons. split; [by right|]. intros [->|?]; [congruence|done]. }
  destruct (Hl (map_to_list (net_nodes n)).*1) as (n' & Hg & Hlk); [apply NoDup_fst_map_to_list|].
  exists n'. split; [done|]. apply map_eq. intros id. rewrite Hlk, lookup_fmap.
  destruct (net_nodes n !! id) as [e|] eqn:Hid; [|done]. simpl. rewrite decide_True; [done|].
  apply list_elem_of_fmap. exists (id, e). by rewrite elem_of_map_to_list.
Qed.

(** ** Names and incarnations *)

(** [used] has the latest incarnation under every name that was ever used. *)
Definition names_used (used : gmap NodeId Z) n : Prop :=
  (∀ id g, is_Some (net_history n !! (id, g)) → ∃ z, used !! id = Some z ∧ incarnation g ≤ z) ∧
  (∀ id z, runs_as n id = Some z → used !! id = Some z).

Lemma names_used_init : names_used ∅ net_init.
Proof. split; [|done]. intros id g. simpl. rewrite lookup_empty. by intros [? ?]. Qed.

Lemma names_used_grows used n n' : names_used used n → grows n n' → names_used used n'.
Proof.
  intros [Hh Hn] (_ & _ & Hd & Hg). split.
  - intros id g [v [?|?%Hn]%Hg]; eauto with lia.
  - intros id z. rewrite Hd. apply Hn.
Qed.

(** A node starts under a later incarnation. *)
Definition later_start (used : gmap NodeId Z) (id : NodeId) clk : Prop :=
  0 < as_u64 (unix_ms clk) ∧ ∀ z, used !! id = Some z → z < as_u64 (unix_ms clk).

Lemma names_used_start used n id x cfg clk :
  names_used used n → later_start used id clk →
  let e := engine_new (M:=M) name id x p cfg w clk ser de ap in
  let n' := mkNetwork (<[id := e]> (net_nodes n)) (net_messages n) (record_view p (net_history n) e) in
  step n n' ∧ names_used (<[id := as_u64 (unix_ms clk)]> used) n'.
Proof.
  intros [Hh Hu] [Hpos Hclk] e n'. split.
  { apply net_start; [done|]. intros g u Hg. destruct (Hh id g) as (z & ?%Hclk & ?); [eauto|lia]. }
  split.
  - intros k g [u Hg]. simpl in Hg. unfold record_view in Hg. rewrite lookup_insert.
    apply lookup_insert_Some in Hg as [[[= <- <-] _]|[_ Hg]].
    + change (engine_node_id e) with id. rewrite decide_True by done. eexists. split; [done|].
      simpl. lia.
    + destruct (Hh k g) as (z & Hz & ?); [eauto|]. case_decide; [subst k|by eauto].
      apply Hclk in Hz. eexists. split; [done|]. lia.
  - intros k z. unfold runs_as. simpl. rewrite !lookup_insert. case_decide; [by intros [= <-]|].
    apply Hu.
Qed.

(** A node stops. *)
Lemma names_used_stop used n n' :
  names_used used n → net_history n' = net_history n →
  (∀ id e, net_nodes n' !! id = Some e → net_nodes n !! id = Some e) → names_used used n'.
Proof.
  intros [Hh Hu] He Hn. split; [by rewrite He|]. intros id z. unfold runs_as.
  destruct (net_nodes n' !! id) as [e|] eqn:Hid; [|done]. apply Hn in Hid as Hid'.
  intros Hz. apply Hu. unfold runs_as. by rewrite Hid'.
Qed.

(** ** Receiving *)

(** How many further messages a message can cause, one after the other. *)
Definition depth (m : SyncMessage) : nat :=
  match m with FullSnapshot _ _ _ _ _ => 0 | RequestSnapshot _ _ => 1 | DeltaUpdate _ _ _ _ _ => 2 end.
Definition is_delta (m : SyncMessage) : Prop :=
  match m with DeltaUpdate _ _ _ _ _ => True | _ => False end.

(** The engine shows at least generation [g] of [j]. *)
Definition sees e g (j : NodeId) : Prop :=
  ∃ vo, contents (shard e) !! j = Some vo ∧ g ≤g vo_generation vo.

(** It only received: its state is the same, and it shows nothing older than before. *)
Definition received e e' : Prop :=
  sh_state (shard e') = sh_state (shard e) ∧ lifecycle e' = lifecycle e ∧ static e' = static e ∧
  ∀ g j, sees e g j → sees e' g j.

Lemma received_refl e : received e e.
Proof. by split_and!. Qed.
Lemma received_trans e1 e2 e3 : received e1 e2 → received e2 e3 → received e1 e3.
Proof. intros (? & ? & ? & ?) (? & ? & ? & ?). split_and!; [congruence..|auto]. Qed.

Lemma snapshot_received e src g v clk :
  (∀ v, de (ser v) w = Ok v) → node_static name w ser de ap e → shard_wf (shard e) →
  let e' := (handle_full_snapshot e name src g w (ser v) clk).1 in
  received e e' ∧ (should_accept_from (lifecycle e) src = true → sees e' g src).
Proof.
  intros Hcodec (Hname & _ & _ & Hde & _) Hwf e'.
  destruct (should_accept_from (lifecycle e) src) eqn:Hacc.
  2: { assert (e' = e) as ->; [|split; [apply received_refl|done]].
       unfold e', handle_full_snapshot. rewrite bool_decide_eq_true_2 by done. by rewrite ?Hacc. }
  destruct (full_snapshot_same e name src g w (ser v) clk) as (_ & Hst & Hlc).
  destruct (full_snapshot_contents e src g w (ser v) clk v Hwf Hacc) as (_ & _ & Hstate & Hc);
    [by rewrite Hde|].
  rewrite Hname in Hc, Hstate. fold e' in Hst, Hlc, Hc, Hstate. rewrite snapshot_update_ahead in Hc.
  cbn [received_snapshot snap_generation] in Hc.
  split; [split_and!; [done..|]|]; unfold sees; rewrite Hc.
  - intros g' j (vo & Hvo & Hle).
    destruct (ahead g (contents (shard e) !! src)) eqn:Ha; simpl; [|eauto]. rewrite lookup_insert.
    destruct (decide (src = j)) as [->|]; [|eauto]. eexists. split; [done|]. simpl.
    rewrite Hvo in Ha. simpl in Ha. apply generation_ltb_lt in Ha. gen_lia.
  - intros _. destruct (ahead g (contents (shard e) !! src)) eqn:Ha; simpl.
    + rewrite lookup_insert_eq. eexists. split; [done|]. simpl. gen_lia.
    + destruct (contents (shard e) !! src) as [vo|]; simpl in Ha; [|done]. exists vo. split; [done|].
      by apply generation_ltb_ge.
Qed.

(** A message of the network, not a delta. *)
Lemma sync_received h id e m clk e' acts :
  (∀ v, de (ser v) w = Ok v) → node_inv name p w ser de ap h id e → sync_valid w ser ap h m → ¬ is_delta m →
  handle_inbound e (WireSync m) clk = Done (e', acts) →
  received e e' ∧ ∀ src g w' data, m = FullSnapshot name src g w' data →
    should_accept_from (lifecycle e) src = true → sees e' g src.
Proof.
  intros Hcodec Hi Hm Hnd Hh. pose proof (ni_static _ _ _ _ _ _ _ _ _ Hi) as Hst.
  destruct m as [n src g w0 data| |n r]; simpl in *; [|done|].
  - injection Hh as Hh. destruct Hm as (-> & v & _ & ->).
    destruct (decide (n = name)) as [->|Hne].
    + destruct (snapshot_received e src g v clk Hcodec Hst (proj1 (ni_ok _ _ _ _ _ _ _ _ _ Hi))) as [Hr Hs].
      rewrite Hh in Hr, Hs. split; [done|]. by intros ???? [= <- <- _ _].
    + revert Hh. unfold handle_full_snapshot. rewrite bool_decide_eq_false_2 by (destruct Hst; congruence).
      intros [= <- _]. split; [apply received_refl|]. intros ???? [= -> _]. congruence.
  - split; [|done]. revert Hh. unfold handle_request_snapshot.
    case_match; [by intros [= <- _]; apply received_refl|].
    case_match; [by intros [= <- _]; apply received_refl|].
    destruct (own_view_value e); simpl; [|done]. by intros [= <- _].
Qed.
End Runs.
