(* ===== verification/Traits.v ===== *)
(** The application's side ([traits/state.rs]): the traits a distributed state
    implements, as type classes, with the applier closure a host builds from them,
    and the two states of [test_support/test_state.rs] as instances.

    The traits leave serialization to the application; the test states use
    [bincode], which is the class [Bincode] with its round trip as a law. *)
From stdpp Require Import prelude strings countable.
From S2P Require Import Prelude Node Clock Types.

(** ** [DistributedState] *)

Class DistributedState (S : Type) : Type := {
  ds_name : string;
  ds_wire_version : Z;
  ds_storage_version : Z;
  ds_serialize_state : S → bytes;
  ds_deserialize_state : bytes → Z → result S DeserializeError;
  ds_migrate_state : bytes → Z → result S DeserializeError
}.

(** The default [migrate_state]. *)
Definition default_migrate_state {S} (_bytes : bytes) (from_version : Z) :
    result S DeserializeError :=
  Err (unknown_version from_version).

(** ** [DeltaDistributedState]: state, view, view delta and change are the associated
    types. *)

Class DeltaDistributedState (S V VD DC : Type) : Type := {
  dds_name : string;
  dds_wire_version : Z;
  dds_storage_version : Z;
  project_view : S → V;
  project_delta : DC → VD;
  apply_delta : V → VD → V;
  dds_sync_urgency : V → V → DC → SyncUrgency;
  dds_serialize_view : V → bytes;
  dds_deserialize_view : bytes → Z → result V DeserializeError;
  dds_serialize_delta : VD → bytes;
  dds_deserialize_delta : bytes → Z → result VD DeserializeError;
  dds_serialize_state : S → bytes;
  dds_deserialize_state : bytes → Z → result S DeserializeError;
  dds_migrate_state : bytes → Z → result S DeserializeError
}.

(** The defaults of [sync_urgency] and [migrate_state]. *)
Definition default_sync_urgency {V DC} (_old_view _new_view : V) (_change : DC) : SyncUrgency :=
  UrgencyDefault.
Definition default_migrate_delta_state {S} (_bytes : bytes) (from_version : Z) :
    result S DeserializeError :=
  Err (unknown_version from_version).

(** What a well-behaved delta state promises: its codecs round-trip at the current
    wire version. *)
Class DeltaCodecLaws (S V VD DC : Type) `{DeltaDistributedState S V VD DC} : Prop := {
  view_roundtrip (v : V) : dds_deserialize_view (dds_serialize_view v) dds_wire_version = Ok v;
  delta_roundtrip (d : VD) : dds_deserialize_delta (dds_serialize_delta d) dds_wire_version = Ok d
}.

(** A mutation whose reported change describes what it does to the view. *)
Definition faithful_change {S V VD DC} `{DeltaDistributedState S V VD DC} (f : S → S * DC) : Prop :=
  ∀ s, apply_delta (project_view s) (project_delta (f s).2) = project_view (f s).1.

(** The inbound applier a host passes to the engine: deserialize the delta, apply it
    to the current view. *)
Definition delta_applier {S V VD DC} `{DeltaDistributedState S V VD DC} (data : bytes)
    (version : Z) (current_view : V) : result V DeserializeError :=
  match dds_deserialize_delta data version with
  | Ok delta => Ok (apply_delta current_view delta)
  | Err e => Err e
  end.

(** With such codecs, applying the serialized delta of a faithful mutation to the view
    before gives the view after. *)
Lemma delta_applier_describes {S V VD DC} `{DeltaCodecLaws S V VD DC} (f : S → S * DC) :
  faithful_change f → ∀ s,
  delta_applier (dds_serialize_delta (project_delta (f s).2)) dds_wire_version (project_view s) =
    Ok (project_view (f s).1).
Proof. intros Hf s. unfold delta_applier. by rewrite delta_roundtrip, Hf. Qed.

(** ** [bincode] *)

Class Bincode (A : Type) : Type := {
  bincode_serialize : A → bytes;
  bincode_deserialize : bytes → result A string
}.
Class BincodeLaws (A : Type) `{Bincode A} : Prop :=
  bincode_roundtrip (a : A) : bincode_deserialize (bincode_serialize a) = Ok a.

(** [deserialize_*] of the test states: refuse other versions, map errors. *)
Definition versioned_deserialize {A} `{Bincode A} (current : Z) (data : bytes) (version : Z) :
    result A DeserializeError :=
  if negb (version =? current) then Err (unknown_version version)
  else match bincode_deserialize data with
       | Ok a => Ok a
       | Err msg => Err (Malformed msg)
       end.

Lemma versioned_roundtrip {A} `{BincodeLaws A} w a :
  versioned_deserialize w (bincode_serialize a) w = Ok a.
Proof. unfold versioned_deserialize. by rewrite Z.eqb_refl, bincode_roundtrip. Qed.

(** A concrete codec, to evaluate the model: any countable type, a bit per byte. *)
Section BitCodec.
Context {A : Type} `{Countable A}.

Fixpoint pos_to_bits (p : positive) : bytes :=
  match p with
  | xH => []
  | xO p => 0 :: pos_to_bits p
  | xI p => 1 :: pos_to_bits p
  end.
Fixpoint bits_to_pos (l : bytes) : option positive :=
  match l with
  | [] => Some xH
  | 0 :: l => xO <$> bits_to_pos l
  | 1 :: l => xI <$> bits_to_pos l
  | _ :: _ => None
  end.

Lemma bits_to_pos_to_bits p : bits_to_pos (pos_to_bits p) = Some p.
Proof. induction p as [p IH|p IH|]; simpl; by rewrite ?IH. Qed.

Definition bit_codec : Bincode A := {|
  bincode_serialize a := pos_to_bits (encode a);
  bincode_deserialize l :=
    match bits_to_pos l ≫= decode with Some a => Ok a | None => Err "malformed"%string end
|}.

Lemma bit_codec_laws : @BincodeLaws A bit_codec.
Proof. intros a. simpl. by rewrite bits_to_pos_to_bits; simpl; rewrite decode_encode. Qed.
End BitCodec.

(** ** [TestState] *)

Record TestState : Type := mkTestState { ts_counter : Z; ts_label : string }.

Definition TestState_default : TestState := mkTestState 0 "".

Global Instance TestState_eq_dec : EqDecision TestState.
Proof. solve_decision. Defined.
Global Instance TestState_countable : Countable TestState.
Proof.
  apply (inj_countable' (λ s, (ts_counter s, ts_label s)) (λ p, mkTestState p.1 p.2)).
  by intros [].
Defined.

Global Instance TestState_distributed `{Bincode TestState} : DistributedState TestState := {|
  ds_name := "test_state";
  ds_wire_version := 1;
  ds_storage_version := 1;
  ds_serialize_state := bincode_serialize;
  ds_deserialize_state := versioned_deserialize 1;
  ds_migrate_state := default_migrate_state
|}.

(** ** [TestDeltaState]; [F64] stands for the [f64] of the private field, which no
    projection reads. *)
Record TestDeltaView : Type := mkTestDeltaView { tdv_counter : Z; tdv_label : string }.

Record TestDeltaViewDelta : Type := mkTestDeltaViewDelta {
  tvd_counter_delta : Z;
  tvd_new_label : option string
}.

Global Instance TestDeltaView_eq_dec : EqDecision TestDeltaView.
Proof. solve_decision. Defined.
Global Instance TestDeltaView_countable : Countable TestDeltaView.
Proof.
  apply (inj_countable' (λ s, (tdv_counter s, tdv_label s)) (λ p, mkTestDeltaView p.1 p.2)).
  by intros [].
Defined.
Global Instance TestDeltaViewDelta_eq_dec : EqDecision TestDeltaViewDelta.
Proof. solve_decision. Defined.
Global Instance TestDeltaViewDelta_countable : Countable TestDeltaViewDelta.
Proof.
  apply (inj_countable' (λ s, (tvd_counter_delta s, tvd_new_label s))
    (λ p, mkTestDeltaViewDelta p.1 p.2)).
  by intros [].
Defined.

Section TestDeltaState.
Context {F64 : Type} (f64_zero : F64).

Record TestDeltaStateInner : Type := mkTestDeltaStateInner {
  tds_counter : Z;
  tds_label : string;
  tds_internal_accumulator : F64
}.
Definition TestDeltaStateInner_default : TestDeltaStateInner :=
  mkTestDeltaStateInner 0 "" f64_zero.

Record TestDeltaChange : Type := mkTestDeltaChange {
  tdc_counter_delta : Z;
  tdc_new_label : option string;
  tdc_accumulator_delta : F64
}.

Definition test_project_view (s : TestDeltaStateInner) : TestDeltaView :=
  mkTestDeltaView (tds_counter s) (tds_label s).

Definition test_project_delta (c : TestDeltaChange) : TestDeltaViewDelta :=
  mkTestDeltaViewDelta (tdc_counter_delta c) (tdc_new_label c).

(** [(view.counter as i64 + delta.counter_delta) as u64]. *)
Definition test_apply_delta (view : TestDeltaView) (delta : TestDeltaViewDelta) : TestDeltaView :=
  mkTestDeltaView
    (as_u64 (i64_add (as_i64 (tdv_counter view)) (tvd_counter_delta delta)))
    (default (tdv_label view) (tvd_new_label delta)).

Context `{Bincode TestDeltaView, Bincode TestDeltaViewDelta, Bincode TestDeltaStateInner}.

Definition test_sync_urgency (_old_view _new_view : TestDeltaView) (_change : TestDeltaChange) :
    SyncUrgency := UrgencyDefault.

Global Instance TestDeltaState_distributed :
  DeltaDistributedState TestDeltaStateInner TestDeltaView TestDeltaViewDelta TestDeltaChange := {|
  dds_name := "test_delta_state";
  dds_wire_version := 1;
  dds_storage_version := 1;
  project_view := test_project_view;
  project_delta := test_project_delta;
  apply_delta := test_apply_delta;
  dds_sync_urgency := test_sync_urgency;
  dds_serialize_view := bincode_serialize;
  dds_deserialize_view := versioned_deserialize 1;
  dds_serialize_delta := bincode_serialize;
  dds_deserialize_delta := versioned_deserialize 1;
  dds_serialize_state := bincode_serialize;
  dds_deserialize_state := versioned_deserialize 1;
  dds_migrate_state := default_migrate_delta_state
|}.

Global Instance TestDeltaState_laws `{!BincodeLaws TestDeltaView, !BincodeLaws TestDeltaViewDelta} :
  DeltaCodecLaws TestDeltaStateInner TestDeltaView TestDeltaViewDelta TestDeltaChange.
Proof. split; simpl; apply versioned_roundtrip. Qed.

(** The mutation a change describes: the counter moves by the delta, the label is
    replaced if there is a new one, the private field is the mutation's affair. *)
Definition perform_change (acc : F64 → F64) (c : TestDeltaChange) (s : TestDeltaStateInner) :
    TestDeltaStateInner * TestDeltaChange :=
  (mkTestDeltaStateInner (u64_add (tds_counter s) (tdc_counter_delta c))
     (default (tds_label s) (tdc_new_label c)) (acc (tds_internal_accumulator s)), c).

Lemma apply_delta_counter c d : as_u64 (i64_add (as_i64 c) d) = u64_add c d.
Proof.
  unfold i64_add, as_i64, u64_add, as_u64, wrap64, u64_modulus.
  repeat case_match; Z.to_euclidean_division_equations; lia.
Qed.

Lemma test_change_faithful acc c : faithful_change (perform_change acc c).
Proof. intros s. unfold perform_change; simpl. unfold test_apply_delta; simpl.
  by rewrite apply_delta_counter. Qed.
End TestDeltaState.
Arguments TestDeltaStateInner : clear implicits.
Arguments TestDeltaChange : clear implicits.

(** The deltas of the test state are exact: the serialized delta of a change,
    applied by a peer to the view before the change, yields the view after it, also
    when the signed arithmetic on the counter overflows; and within the [u64] range
    the counter moves by exactly the delta. *)
Theorem test_delta_exact {F64} `{BincodeLaws TestDeltaView, BincodeLaws TestDeltaViewDelta}
    `{Bincode (TestDeltaStateInner F64)} (acc : F64 → F64) (c : TestDeltaChange F64)
    (s : TestDeltaStateInner F64) :
  let s' := (perform_change acc c s).1 in
  delta_applier (dds_serialize_delta (project_delta c)) dds_wire_version (project_view s) =
    Ok (project_view s') ∧
  (is_u64 (tds_counter s + tdc_counter_delta c) →
   tds_counter s' = tds_counter s + tdc_counter_delta c).
Proof.
  split; [|simpl; intros; by apply u64_add_small].
  apply (delta_applier_describes (perform_change acc c)), test_change_faithful.
Qed.
