(* ===== verification/EngineDemo.v ===== *)
(** The in-process cluster of [dstate/examples/engine_demo.rs]: engines in one process,
    whose messages are delivered by recursive calls.

    Every call of an engine reads the system clock; the readings are the stream
    [demo_clock], and the cluster counts how many were taken.  The recursion of
    [route_actions] has no bound in the code; here it has fuel, and [None] is a recursion
    that did not end within it.  [demo_depart] is the departure of any node, of which the
    one in [main] is an instance ([depart_n2_spec]). *)
From stdpp Require Import prelude gmap fin_maps strings relations pretty.
From S2P Require Import Prelude Node Clock Types ViewMap ShardCore ShardProps SyncLogic.
From S2P Require Import ChangeFeed Versioning Lifecycle Diagnostics Engine EngineProps.
From S2P Require Import Protocol Accounting Network NetworkRuns Traits.

(** ** The counter *)
Record Counter : Type := mkCounter { counter_value : Z; counter_label : string }.
Definition Counter_default : Counter := mkCounter 0 "".

Global Instance Counter_eq_dec : EqDecision Counter.
Proof. solve_decision. Defined.
Global Program Instance Counter_countable : Countable Counter :=
  inj_countable' (λ c, (counter_value c, counter_label c)) (λ p, mkCounter p.1 p.2) _.
Next Obligation. by intros []. Qed.

Global Instance Counter_distributed `{Bincode Counter} : DistributedState Counter := {|
  ds_name := "counter";
  ds_wire_version := 1;
  ds_storage_version := 1;
  ds_serialize_state := bincode_serialize;
  ds_deserialize_state := versioned_deserialize 1;
  ds_migrate_state := default_migrate_state
|}.

(** ** The cluster *)
(** [format!("node-{i}")]. *)
Definition node_n (i : nat) : NodeId := mkNodeId ("node-" +:+ pretty i).
Global Instance node_n_inj : Inj (=) (=) node_n.
Proof. intros i j [= Hij]. by apply (inj pretty). Qed.

Section Demo.
Context `{HashIter} {M C : Type} `{!ViewMapOps Counter M} `{!ViewMapLaws Counter M} `{Clock C}.
Context `{!Bincode Counter}.
Local Abbreviation engine := (DistributedStateEngine Counter Counter M).
Implicit Types (e : engine).

Record InProcessCluster : Type := mkInProcess {
  engines : gmap NodeId engine;
  demo_clock : nat → C;
  readings : nat
}.
Implicit Types (c : InProcessCluster) (id : NodeId).

Definition clock_now c : C := demo_clock c (readings c).
(** The engine of a node after a call that read the clock. *)
Definition put_engine c id e : InProcessCluster :=
  mkInProcess (<[id := e]> (engines c)) (demo_clock c) (Datatypes.S (readings c)).

Definition unwrap_none : string := "called `Option::unwrap()` on a `None` value".

(** The messages an action stands for; a delayed one is delivered at once. *)
Definition deliveries_of (all_ids : list NodeId) (from : NodeId) (action : EngineAction) :
    list (NodeId * WireMessage) :=
  match action with
  | BroadcastSync msg | ScheduleDelayed _ msg =>
      (λ peer, (peer, WireSync msg)) <$> filter (λ peer, peer ≠ from) all_ids
  | SendSync target message => [(target, WireSync message)]
  end.

(** Each delivery with the routing of its response. *)
Fixpoint deliver_all (route : InProcessCluster → NodeId → list EngineAction →
      option (outcome InProcessCluster))
    c (deliveries : list (NodeId * WireMessage)) : option (outcome InProcessCluster) :=
  match deliveries with
  | [] => Some (Done c)
  | (target, wire_msg) :: deliveries =>
      match engines c !! target with
      | None => Some (Panicked unwrap_none)
      | Some e =>
          match handle_inbound e wire_msg (clock_now c) with
          | Panicked m => Some (Panicked m)
          | Done (e', response_actions) =>
              let c := put_engine c target e' in
              match
                match response_actions with
                | [] => Some (Done c)
                | _ => route c target response_actions
                end
              with
              | Some (Done c) => deliver_all route c deliveries
              | r => r
              end
          end
      end
  end.

Fixpoint demo_route (fuel : nat) c (from : NodeId) (actions : list EngineAction) :
    option (outcome InProcessCluster) :=
  match fuel with
  | O => None
  | Datatypes.S fuel =>
      let all_ids := (hm_iter (engines c)).*1 in
      deliver_all (demo_route fuel) c (actions ≫= deliveries_of all_ids from)
  end.

(** [InProcessCluster::new]. *)
Definition demo_engine (config : StateConfig) (clk : C) (i : nat) : engine :=
  engine_new (ds_name (S := Counter)) (node_n i) Counter_default (λ s, s)
    config (ds_wire_version (S := Counter)) clk bincode_serialize
    (versioned_deserialize (ds_wire_version (S := Counter))) None.

Fixpoint create_engines c (config : StateConfig) (indices : list nat) : InProcessCluster :=
  match indices with
  | [] => c
  | i :: indices =>
      let e := demo_engine config (clock_now c) i in
      create_engines (put_engine c (engine_node_id e) e) config indices
  end.

(** The announcements, pair by pair; the actions are routed afterwards. *)
Fixpoint announce_all c (pairs : list (NodeId * NodeId)) :
    outcome (InProcessCluster * list (NodeId * list EngineAction)) :=
  match pairs with
  | [] => Done (c, [])
  | (i, j) :: pairs =>
      match engines c !! i with
      | None => Panicked unwrap_none
      | Some e =>
          '(e, actions) ← engine_on_node_joined e j Counter_default (clock_now c);
          '(c, l) ← announce_all (put_engine c i e) pairs;
          Done (c, match actions with [] => l | _ => (i, actions) :: l end)
      end
  end.

Fixpoint route_each (fuel : nat) c (l : list (NodeId * list EngineAction)) :
    option (outcome InProcessCluster) :=
  match l with
  | [] => Some (Done c)
  | (from, actions) :: l =>
      match demo_route fuel c from actions with
      | Some (Done c) => route_each fuel c l
      | r => r
      end
  end.

Definition other_pairs (ids : list NodeId) : list (NodeId * NodeId) :=
  filter (λ p, p.1 ≠ p.2) (i ← ids; j ← ids; [(i, j)]).

Definition demo_new (fuel : nat) (clocks : nat → C) (node_count : nat) (config : StateConfig) :
    option (outcome InProcessCluster) :=
  let indices := seq 0 node_count in
  let c := create_engines (mkInProcess ∅ clocks 0) config indices in
  let ids := node_n <$> indices in
  match announce_all c (other_pairs ids) with
  | Panicked m => Some (Panicked m)
  | Done (c, join_actions) => route_each fuel c join_actions
  end.

(** [mutate] and [query]. *)
Definition demo_mutate (fuel : nat) c id (f : Counter → Counter) :
    option (outcome InProcessCluster) :=
  match engines c !! id with
  | None => Some (Panicked unwrap_none)
  | Some e =>
      let '(e, r) := mutate e f (λ s, s) UrgencyDefault (clock_now c) in
      demo_route fuel (put_engine c id e) id (mr_actions r)
  end.

Definition demo_query (fuel : nat) c id :
    option (outcome (InProcessCluster * gmap NodeId Z)) :=
  match engines c !! id with
  | None => Some (Panicked "no entry found for key")
  | Some e =>
      let '(result, actions) := query e (from_secs 60)
        (λ views, (λ vo, counter_value (vo_value vo)) <$> views) (clock_now c) in
      let c := mkInProcess (engines c) (demo_clock c) (Datatypes.S (readings c)) in
      let map := match result with EngineFresh map | EngineStale map _ => map end in
      match
        match actions with [] => Some (Done c) | _ => demo_route fuel c id actions end
      with
      | Some (Done c) => Some (Done (c, map))
      | Some (Panicked m) => Some (Panicked m)
      | None => None
      end
  end.

(** *** [main] *)

Definition and_then {A B} (r : option (outcome A)) (k : A → option (outcome B)) : option (outcome B) :=
  match r with
  | Some (Done a) => k a
  | Some (Panicked m) => Some (Panicked m)
  | None => None
  end.

Definition main_config : StateConfig :=
  mkStateConfig active_push (pull_timeout StateConfig_default)
    (version_mismatch_policy StateConfig_default).

(** Every node is queried; the views are only printed. *)
Fixpoint query_each (fuel : nat) c (ids : list NodeId) : option (outcome InProcessCluster) :=
  match ids with
  | [] => Some (Done c)
  | id :: ids => and_then (demo_query fuel c id) (λ '(c, _), query_each fuel c ids)
  end.

Definition assert_view (views : gmap NodeId Z) id (v : Z) : outcome unit :=
  x ← expect (views !! id) "no entry found for key";
  if x =? v then Done tt else Panicked "assertion `left == right` failed".

(** [on_node_left] on one engine. *)
Definition tell_left c id (gone : NodeId) : outcome InProcessCluster :=
  e ← expect (engines c !! id) unwrap_none;
  Done (mkInProcess (<[id := engine_on_node_left e gone]> (engines c)) (demo_clock c) (readings c)).

(** Step 6: [n2] departs. *)
Definition depart_n2 c : outcome InProcessCluster :=
  c ← tell_left c (node_n 0) (node_n 2);
  c ← tell_left c (node_n 1) (node_n 2);
  Done (mkInProcess (delete (node_n 2) (engines c)) (demo_clock c) (readings c)).

(** What [main] prints at its end: the views of node 0, its metrics and its health. *)
Definition demo_main (fuel : nat) (clocks : nat → C) :
    option (outcome (gmap NodeId Z * SyncMetrics * EngineHealth)) :=
  let n0 := node_n 0 in let n1 := node_n 1 in let n2 := node_n 2 in
  and_then (demo_new fuel clocks 3 main_config) (λ c,
  and_then (demo_mutate fuel c n0 (λ _, mkCounter 42 "hello from node-0")) (λ c,
  and_then (query_each fuel c [n0; n1; n2]) (λ c,
  and_then (demo_mutate fuel c n1 (λ _, mkCounter 100 "node-1 reporting")) (λ c,
  and_then (demo_mutate fuel c n2 (λ _, mkCounter 200 "node-2 active")) (λ c,
  and_then (demo_query fuel c n0) (λ '(c, views),
  and_then (Some (assert_view views n0 42)) (λ _,
  and_then (Some (assert_view views n1 100)) (λ _,
  and_then (Some (assert_view views n2 200)) (λ _,
  and_then (Some (depart_n2 c)) (λ c,
  and_then (demo_query fuel c n0) (λ '(c, views),
  if bool_decide (is_Some (views !! n2)) then Some (Panicked "departed node should be removed")
  else and_then (Some (expect (engines c !! n0) "no entry found for key")) (λ e,
  Some (Done (views, engine_metrics e, engine_health e (from_secs 30) (clock_now c))))))))))))))).

(** A node departs, in general: the others are told, its engine is dropped. *)
Definition demo_depart c id : InProcessCluster :=
  mkInProcess ((λ e, engine_on_node_left e id) <$> delete id (engines c)) (demo_clock c) (readings c).

Lemma depart_n2_spec c :
  dom (engines c) = {[node_n 0; node_n 1; node_n 2]} → depart_n2 c = Done (demo_depart c (node_n 2)).
Proof.
  intros Hd. unfold depart_n2, tell_left.
  assert (∀ i, (i ≤ 2)%nat → ∃ e, engines c !! node_n i = Some e) as Hin.
  { intros i Hi. apply elem_of_dom. rewrite Hd. destruct i as [|[|[|i]]]; [set_solver..|lia]. }
  destruct (Hin 0%nat ltac:(lia)) as [e0 He0], (Hin 1%nat ltac:(lia)) as [e1 He1].
  assert (∀ i j, i ≠ j → node_n i ≠ node_n j) as Hinj by (by intros i j Hij ?%(inj node_n)).
  rewrite He0. simpl. rewrite lookup_insert_ne, He1 by (by apply Hinj). simpl. unfold demo_depart. do 2 f_equal.
  apply map_eq. intros k. rewrite lookup_fmap, !lookup_delete, !lookup_insert.
  case_decide as H2; [done|]. case_decide as Hk1; [subst k; by rewrite He1|].
  case_decide as Hk0; [subst k; by rewrite He0|].
  destruct (engines c !! k) as [e|] eqn:Hk; [|done]. apply elem_of_dom_2 in Hk. rewrite Hd in Hk. set_solver.
Qed.
End Demo.
