(* ===== verification/DemoRuns.v ===== *)
(** The in-process cluster of [EngineDemo] is a run of the abstract network, its recursion
    ends, and what each delivery leaves behind.

    [demo_sim] relates the cluster to a network, [goes_on] says that both moved on
    together, [informs] what the receivers of a list of deliveries show afterwards. *)
From stdpp Require Import prelude gmap fin_maps strings relations pretty.
From S2P Require Import Prelude Node Clock Types ViewMap ShardCore ShardProps SyncLogic.
From S2P Require Import ChangeFeed Versioning Lifecycle Diagnostics Engine EngineProps.
From S2P Require Import Protocol Accounting Network NetworkRuns Traits EngineDemo.

(** ** The cluster as a run of the network *)
Section DemoProofs.
Context `{HashIter} {M C : Type} `{!ViewMapOps Counter M} `{!ViewMapLaws Counter M} `{Clock C}.
Context `{!Bincode Counter}.
Local Abbreviation engine := (DistributedStateEngine Counter Counter M).
Local Abbreviation cluster := (InProcessCluster (M:=M) (C:=C)).
Local Abbreviation network := (Network Counter Counter M).
Local Abbreviation demo_ser := (bincode_serialize (A:=Counter)).
Local Abbreviation demo_de := (versioned_deserialize (A:=Counter) 1).
Local Abbreviation step := (net_step (C:=C) (M:=M) "counter" (λ s, s) 1 demo_ser demo_de None).
Local Abbreviation grows := (NetworkRuns.grows (C:=C) (M:=M) "counter" (λ s, s) 1 demo_ser demo_de None).
Implicit Types (c : cluster) (n : network) (e : engine) (D : gset NodeId) (clk : C).

(** The messages of the demo: no deltas, and only nodes of the cluster are named. *)
Definition demo_message D (m : SyncMessage) : Prop :=
  match m with
  | FullSnapshot _ src _ _ _ => src ∈ D
  | RequestSnapshot _ r => r ∈ D
  | DeltaUpdate _ _ _ _ _ => False
  end.
Definition action_to D (a : EngineAction) : Prop :=
  match a with SendSync target _ => target ∈ D | _ => True end.
Definition keys_in D e : Prop := ∀ k, is_Some (contents (shard e) !! k) → k ∈ D.

Lemma own_snapshot_demo D e data : engine_node_id e ∈ D → demo_message D (own_snapshot e data).
Proof. done. Qed.

(** What handling a message of the demo does. *)
Lemma handle_demo D id e m clk e' acts :
  node_good id e → keys_in D e → id ∈ D → demo_message D m →
  handle_inbound e (WireSync m) clk = Done (e', acts) →
  keys_in D e' ∧ ∀ a, a ∈ acts → demo_message D (action_message a) ∧ action_to D a ∧
    (depth (action_message a) < depth m)%nat.
Proof.
  intros [Hok Hid] Hk Hin Hm. destruct m as [name src g w data| |name r]; simpl in *; [|done|].
  - intros [= Hh]. pose proof (proj1 (full_snapshot_same e name src g w data clk)) as Hacts.
    rewrite Hh in Hacts. simpl in Hacts. subst acts. split; [|by intros a ?%elem_of_nil].
    destruct Hok as (Hwf & _). simpl in Hwf. revert Hh. unfold handle_full_snapshot.
    case_match; [by intros [= <-]|]. case_match; [by intros [= <-]|].
    destruct (on_inbound _ _ _ _) as [v|[]|]; try (by intros [= <-]).
    + destruct (accept_snapshot_contents (shard e) (mkInboundSnapshot src g w v (unix_ms clk) (unix_ms clk))
        clk Hwf) as [Hc _].
      destruct (accept_inbound_snapshot _ _ _) as [sh []]; intros [= <-]; simpl in *;
        intros k; simpl; rewrite Hc; (destruct (snapshot_update _ _ _); [|apply Hk]);
        rewrite lookup_insert; (destruct (decide (src = k)) as [<-|]; [by intros _|apply Hk]).
    + intros [= <-] k. simpl. rewrite node_left_contents by done. destruct (bool_decide (src = _)); [apply Hk|].
      rewrite lookup_delete. destruct (decide (src = k)); [by intros [? ?]|apply Hk].
  - unfold handle_request_snapshot. case_match.
    { intros [= <- <-]. split; [done|]. by intros a ?%elem_of_nil. }
    case_match. { intros [= <- <-]. split; [done|]. by intros a ?%elem_of_nil. }
    destruct (own_view_value e) as [v|]; simpl; [|done]. intros [= <- <-]. split; [done|].
    intros a ->%list_elem_of_singleton. simpl. split_and!; [|done|lia].
    by rewrite <- Hid in Hin.
Qed.

(** The engines of [c] are those of [n], and know only each other. *)
Definition demo_sim c n : Prop :=
  engines c = net_nodes n ∧
  ∀ id e, engines c !! id = Some e → node_good id e ∧ keys_in (dom (engines c)) e.

(** What may be delivered. *)
Definition deliverable c n (limit : nat) (d : NodeId * WireMessage) : Prop :=
  d.1 ∈ dom (engines c) ∧ ∃ m, d.2 = WireSync m ∧ WireSync m ∈ net_messages n ∧
    demo_message (dom (engines c)) m ∧ (depth m < limit)%nat.

Definition routable c n (limit : nat) (a : EngineAction) : Prop :=
  action_to (dom (engines c)) a ∧ WireSync (action_message a) ∈ net_messages n ∧
  demo_message (dom (engines c)) (action_message a) ∧ (depth (action_message a) < limit)%nat.

(** The cluster went on to [c'], the network with it; nobody joined or left. *)
Definition goes_on c n c' n' : Prop :=
  grows n n' ∧ demo_sim c' n' ∧ dom (engines c') = dom (engines c).

Lemma goes_on_refl c n : demo_sim c n → goes_on c n c n.
Proof. intros. split_and!; [apply grows_refl|done..]. Qed.
Lemma goes_on_trans c1 n1 c2 n2 c3 n3 :
  goes_on c1 n1 c2 n2 → goes_on c2 n2 c3 n3 → goes_on c1 n1 c3 n3.
Proof.
  intros (? & _ & Hd) (? & ? & Hd'). split_and!; [by eapply grows_trans|done|by rewrite Hd'].
Qed.

Definition all_received c c' : Prop :=
  ∀ k e, engines c !! k = Some e → ∃ e', engines c' !! k = Some e' ∧ received e e'.

Lemma all_received_refl c : all_received c c.
Proof. intros k e He. exists e. split; [done|apply received_refl]. Qed.
Lemma all_received_trans c1 c2 c3 : all_received c1 c2 → all_received c2 c3 → all_received c1 c3.
Proof.
  intros H12 H23 k e He. destruct (H12 k e He) as (e2 & He2 & Hr2).
  destruct (H23 k e2 He2) as (e3 & He3 & Hr3). exists e3. split; [done|by eapply received_trans].
Qed.

(** With a codec that round-trips, delivering [ds] leaves everybody as above, and whoever
    was sent a snapshot shows at least its generation. *)
Definition codec_ok : Prop := ∀ v : Counter, demo_de (demo_ser v) 1 = Ok v.
Definition informs c n c' (ds : list (NodeId * WireMessage)) : Prop :=
  codec_ok → rtc step net_init n → all_received c c' ∧
  ∀ t src g w data e, (t, WireSync (FullSnapshot "counter" src g w data)) ∈ ds →
    engines c !! t = Some e → should_accept_from (lifecycle e) src = true →
    ∃ e', engines c' !! t = Some e' ∧ sees e' g src.

Lemma informs_nil c n : informs c n c [].
Proof. intros _ _. split; [apply all_received_refl|]. by intros ?????? ?%elem_of_nil. Qed.

Lemma informs_app c1 n1 c2 n2 c3 ds1 ds2 :
  rtc step n1 n2 → informs c1 n1 c2 ds1 → informs c2 n2 c3 ds2 → informs c1 n1 c3 (ds1 ++ ds2).
Proof.
  intros Hn H1 H2 Hcodec Hr. destruct (H1 Hcodec Hr) as [Hq1 Hs1].
  destruct (H2 Hcodec ltac:(by etrans)) as [Hq2 Hs2].
  split; [by eapply all_received_trans|].
  intros t src g w data e [Hin|Hin]%elem_of_app He Hacc.
  - destruct (Hs1 t src g w data e Hin He Hacc) as (e2 & He2 & Hsee).
    destruct (Hq2 t e2 He2) as (e3 & He3 & _ & _ & _ & Hmono). exists e3. auto.
  - destruct (Hq1 t e He) as (e2 & He2 & _ & Hl & _). apply (Hs2 t src g w data e2 Hin He2). by rewrite Hl.
Qed.

Lemma informs_weaken c n c' ds ds' : ds' ⊆ ds → informs c n c' ds → informs c n c' ds'.
Proof. intros Hsub Hi Hcodec Hr. destruct (Hi Hcodec Hr) as [? Hs]. split; [done|]. eauto. Qed.

(** One delivery. *)
Lemma handle_received c n id e m e' acts :
  demo_sim c n → engines c !! id = Some e → WireSync m ∈ net_messages n →
  demo_message (dom (engines c)) m →
  handle_inbound e (WireSync m) (clock_now c) = Done (e', acts) →
  informs c n (put_engine c id e') [(id, WireSync m)].
Proof.
  intros [Hn Hs] He Hm Hdemo Hh Hcodec Hr.
  destruct (net_reachable_inv "counter" (λ s, s) 1 demo_ser demo_de None n Hcodec Hr) as (Hhist & Hi & Hv).
  rewrite Hn in He. pose proof (Hi id e He) as Hinv.
  destruct (sync_received "counter" (λ s, s) 1 demo_ser demo_de None (net_history n) id e m (clock_now c) e' acts
    Hcodec Hinv (Hv _ Hm)) as [Hrec Hsee]; [by intros Hd; destruct m|done|].
  split.
  - intros k x Hx. simpl. rewrite lookup_insert. destruct (decide (id = k)) as [<-|].
    + rewrite Hn in Hx. simplify_eq. by exists e'.
    + exists x. split; [done|apply received_refl].
  - intros t src g w data x Hin Hx Hacc. apply list_elem_of_singleton in Hin as [= -> <-].
    rewrite Hn in Hx. simplify_eq. exists e'. split; [apply lookup_insert_eq|by eapply Hsee].
Qed.

Lemma deliverable_mono c n c' n' limit d :
  goes_on c n c' n' → deliverable c n limit d → deliverable c' n' limit d.
Proof.
  intros ((_ & Hsub & _) & _ & Hd) (Hin & m & ? & ? & ? & ?). unfold deliverable. rewrite Hd.
  split; [done|]. exists m. auto.
Qed.
Lemma routable_mono c n c' n' limit a :
  goes_on c n c' n' → routable c n limit a → routable c' n' limit a.
Proof.
  intros ((_ & Hsub & _) & _ & Hd) (? & ? & ? & ?). unfold routable. rewrite Hd. auto.
Qed.

(** One engine moves. *)
Lemma demo_sim_put c n n' id e e' :
  demo_sim c n → engines c !! id = Some e → grows n n' →
  net_nodes n' = <[id := e']> (net_nodes n) → node_good id e' → keys_in (dom (engines c)) e' →
  goes_on c n (put_engine c id e') n'.
Proof.
  intros [Hn Hs] Hid Hg Hn' Hgood Hk.
  assert (dom (engines (put_engine c id e')) = dom (engines c)) as Hd.
  { simpl. rewrite dom_insert_L. apply elem_of_dom_2 in Hid. set_solver. }
  split_and!; [done| |done]. split; [by simpl; rewrite Hn', Hn|]. rewrite Hd.
  intros k x Hx. simpl in Hx. apply lookup_insert_Some in Hx as [[<- <-]|[_ Hx]]; [done|by apply Hs].
Qed.

Lemma inbound_done id e msg clk :
  node_good id e → ∃ e' acts, handle_inbound e msg clk = Done (e', acts) ∧ node_good id e'.
Proof.
  intros Hgood. destruct (run_engine_op_done e (OpInbound msg clk) (proj1 Hgood))
    as (e' & acts & b & Hrun & _). pose proof (node_good_call _ _ _ _ _ _ Hgood Hrun) as Hg'.
  cbn [run_engine_op] in Hrun. destruct (handle_inbound e msg clk) as [[e1 a1]|]; [|done].
  injection Hrun as -> -> _. by exists e', acts.
Qed.

Lemma deliver_all_sim limit route :
  (∀ c n from acts, demo_sim c n → (∀ a, a ∈ acts → routable c n limit a) → acts ≠ [] →
     ∃ c' n', route c from acts = Some (Done c') ∧ goes_on c n c' n' ∧ informs c n c' []) →
  ∀ ds c n, demo_sim c n → (∀ d, d ∈ ds → deliverable c n (Datatypes.S limit) d) →
  ∃ c' n', deliver_all route c ds = Some (Done c') ∧ goes_on c n c' n' ∧ informs c n c' ds.
Proof.
  intros Hroute. induction ds as [|[t msg] ds IH]; intros c n Hsim Hds; simpl.
  { exists c, n. split_and!; [done|by apply goes_on_refl|apply informs_nil]. }
  destruct (Hds (t, msg) ltac:(by left)) as (Ht & m & Hmsg & Hm & Hdemo & Hdepth). simpl in *. subst msg.
  apply elem_of_dom in Ht as [e He]. rewrite He. pose proof Hsim as [Hn Hs].
  destruct (Hs t e He) as [Hgood Hk].
  destruct (inbound_done t e (WireSync m) (clock_now c) Hgood) as (e' & acts & Hh & Hgood').
  pose proof (handle_received c n t e m e' acts Hsim He Hm Hdemo Hh) as Hinf.
  cbn [handle_inbound] in Hh |- *. rewrite Hh.
  destruct (grows_deliver "counter" (λ s, s) 1 demo_ser demo_de None n t e (WireSync m) (clock_now c) e' acts)
    as (n1 & Hg1 & Hn1 & Hout); [by rewrite <- Hn|done|done|].
  destruct (handle_demo (dom (engines c)) t e m (clock_now c) e' acts) as [Hk' Hacts];
    [done|done|by eapply elem_of_dom_2|done|done|].
  pose proof (demo_sim_put c n n1 t e e' Hsim He Hg1 Hn1 Hgood' Hk') as Hon.
  set (c1 := put_engine c t e') in *.
  assert (∃ c2 n2, match acts with [] => Some (Done c1) | _ => route c1 t acts end = Some (Done c2) ∧
    goes_on c1 n1 c2 n2 ∧ informs c1 n1 c2 []) as (c2 & n2 & Hr & Hon2 & Hinf2).
  { destruct acts as [|a acts].
    { exists c1, n1. split_and!; [done|apply goes_on_refl, Hon|apply informs_nil]. }
    apply Hroute; [apply Hon| |done]. intros x Hx. destruct (Hacts x Hx) as (? & ? & ?).
    unfold routable. rewrite (proj2 (proj2 Hon)). split_and!; [done| |done|lia].
    apply Hout, elem_of_app. left. apply list_elem_of_fmap. eauto. }
  rewrite Hr. pose proof (goes_on_trans _ _ _ _ _ _ Hon Hon2) as Hon12.
  destruct (IH c2 n2) as (c3 & n3 & Hr3 & Hon3 & Hinf3); [apply Hon2| |].
  { intros d Hd. eapply deliverable_mono; [done|]. apply Hds. by right. }
  exists c3, n3. split_and!; [done|by eapply goes_on_trans|].
  apply (informs_app c n c1 n1 c3 [_]); [apply Hg1|done|].
  by apply (informs_app c1 n1 c2 n2 c3 []); [apply Hon2|..].
Qed.

(** The recursion ends: every message a delivery causes is less deep. *)
Lemma demo_route_sim limit : ∀ c n from acts,
  demo_sim c n → (∀ a, a ∈ acts → routable c n limit a) → acts ≠ [] →
  ∃ c' n', demo_route limit c from acts = Some (Done c') ∧ goes_on c n c' n' ∧
    informs c n c' (acts ≫= deliveries_of (hm_iter (engines c)).*1 from).
Proof.
  induction limit as [|limit IH]; intros c n from acts Hsim Hacts Hne.
  { destruct acts as [|a acts]; [done|]. destruct (Hacts a ltac:(by left)) as (_ & _ & _ & ?). lia. }
  simpl. apply (deliver_all_sim limit); [|done|].
  { intros c1 n1 from1 acts1 Hs1 Ha1 Hne1.
    destruct (IH c1 n1 from1 acts1 Hs1 Ha1 Hne1) as (c2 & n2 & ? & ? & ?). exists c2, n2.
    split_and!; [done..|]. eapply informs_weaken; [|done]. set_solver. }
  intros [t msg] (a & Hd & Ha)%list_elem_of_bind.
  destruct (Hacts a Ha) as (Hto & Hnet & Hdemo & Hdepth).
  assert (∀ msg', (t, msg) ∈ ((λ peer, (peer, WireSync msg')) <$>
      filter (λ peer, peer ≠ from) (hm_iter (engines c)).*1) →
    t ∈ dom (engines c) ∧ msg = WireSync msg') as Hall.
  { intros msg' (k & [= -> ->] & [_ Hk]%list_elem_of_filter)%list_elem_of_fmap. split; [|done].
    apply list_elem_of_fmap in Hk as ([k' e] & -> & Hk%elem_of_hm_iter). by eapply elem_of_dom_2. }
  destruct a as [m|target m|d m]; simpl in *.
  - apply Hall in Hd as [? ->]. split; [done|]. by exists m.
  - apply list_elem_of_singleton in Hd as [= -> ->]. split; [done|]. by exists m.
  - apply Hall in Hd as [? ->]. split; [done|]. by exists m.
Qed.
(** A call of an engine, and the routing of what it hands out. *)
Lemma demo_call c n id e op e' acts :
  demo_sim c n → engines c !! id = Some e → host_call (λ s, s) 1 None e op →
  run_engine_op e op = Done (e', acts, None) → keys_in (dom (engines c)) e' →
  ∃ n', goes_on c n (put_engine c id e') n' ∧
    ∀ a, a ∈ acts → WireSync (action_message a) ∈ net_messages n'.
Proof.
  intros Hsim He Hop Hr Hk. pose proof Hsim as [Hn Hs]. destruct (Hs id e He) as [Hgood _].
  destruct (grows_call "counter" (λ s, s) 1 demo_ser demo_de None n id e op e' acts None)
    as (n' & Hg & Hn' & Hout); [by rewrite <- Hn|done..|].
  exists n'. split; [eapply demo_sim_put; [done..|by eapply node_good_call|done]|].
  intros a Ha. apply Hout, elem_of_app. left. apply list_elem_of_fmap. eauto.
Qed.

Lemma keys_insert D e e' k :
  keys_in D e → k ∈ D →
  (contents (shard e') = contents (shard e) ∨
   ∃ vo, contents (shard e') = <[k := vo]> (contents (shard e))) → keys_in D e'.
Proof.
  intros Hk Hin [Hc|[vo Hc]] k'; rewrite Hc; [apply Hk|]. rewrite lookup_insert.
  case_decide; [by subst|apply Hk].
Qed.

(** What an engine hands out when it mutates and when a node joins. *)
Lemma mutate_demo id e f clk :
  node_good id e → let '(e', r) := mutate e f (λ s, s) UrgencyDefault clk in
  (∃ vo, contents (shard e') = <[id := vo]> (contents (shard e))) ∧
  ∀ a, a ∈ mr_actions r → ∃ d data, a = BroadcastSync (own_snapshot e' data) ∨
    a = ScheduleDelayed d (own_snapshot e' data).
Proof.
  intros [Hok Hid]. pose proof (mutate_effect (λ s : Counter, s) e f UrgencyDefault clk) as He.
  destruct (mutate _ _ _ _ _) as [e' r]. destruct He as (Hsh & _ & _ & _ & Hacts). split.
  - rewrite Hsh. unfold apply_mutation. simpl. destruct Hok as (Hwf & Hown & _). simpl in *.
    rewrite update_own_view_contents by done. simpl. unfold engine_node_id in Hid. rewrite Hid.
    by eexists.
  - intros a. destruct (resolve_action _ _) as [| | |d|];
      [rewrite Hacts|rewrite Hacts|rewrite (proj1 Hacts)|rewrite Hacts|rewrite Hacts];
      first [by intros ?%elem_of_nil | intros ->%list_elem_of_singleton].
    all: first [exists d | exists 0]; eexists; auto.
Qed.

Lemma join_demo id e k v clk e' acts :
  node_good id e → engine_on_node_joined e k v clk = Done (e', acts) →
  (contents (shard e') = contents (shard e) ∨
   ∃ vo, contents (shard e') = <[k := vo]> (contents (shard e))) ∧
  ∃ data, acts = [SendSync k (own_snapshot e' data)].
Proof.
  intros [(Hwf & _) Hid] Hj. unfold engine_on_node_joined in Hj. simpl in Hj.
  destruct (own_view_value _) as [x|]; simpl in Hj; [|done]. injection Hj as <- <-. split.
  - simpl in *. rewrite node_joined_contents by done.
    destruct (bool_decide _); [by left|]. destruct (contents _ !! k); [by left|right; by eexists].
  - eexists. unfold own_snapshot, generation_of, engine_node_id. simpl. done.
Qed.
Lemma demo_route_any limit c n from acts :
  demo_sim c n → (∀ a, a ∈ acts → routable c n (Datatypes.S limit) a) →
  ∃ c' n', demo_route (Datatypes.S limit) c from acts = Some (Done c') ∧ goes_on c n c' n' ∧
    informs c n c' (acts ≫= deliveries_of (hm_iter (engines c)).*1 from).
Proof.
  intros Hsim Hacts. destruct acts as [|a acts]; [|by apply demo_route_sim].
  exists c, n. split_and!; [done|by apply goes_on_refl|apply informs_nil].
Qed.

(** *** The calls of the cluster *)

Lemma demo_mutate_sim limit c n id e f :
  demo_sim c n → engines c !! id = Some e → age (generation_of e) < u64_max →
  ∃ c' n', demo_mutate (Datatypes.S limit) c id f = Some (Done c') ∧ goes_on c n c' n' ∧
    let '(e', r) := mutate e f (λ s, s) UrgencyDefault (clock_now c) in
    ∃ n1, rtc step n n1 ∧ demo_sim (put_engine c id e') n1 ∧
      informs (put_engine c id e') n1 c'
        (mr_actions r ≫= deliveries_of (hm_iter (engines (put_engine c id e'))).*1 id).
Proof.
  intros Hsim He Hage. unfold demo_mutate. rewrite He. pose proof Hsim as [_ Hs].
  destruct (Hs id e He) as [Hgood Hk]. assert (id ∈ dom (engines c)) as Hid by by eapply elem_of_dom_2.
  pose proof (mutate_demo id e f (clock_now c) Hgood) as Hm.
  destruct (mutate _ _ _ _ _) as [e' r] eqn:Hmut. destruct Hm as [Hc Hacts].
  assert (run_engine_op e (OpMutate f (λ s, s) UrgencyDefault (clock_now c)) = Done (e', mr_actions r, None))
    as Hr by (simpl; by rewrite Hmut).
  destruct (demo_call c n id e (OpMutate f (λ s, s) UrgencyDefault (clock_now c)) e' (mr_actions r))
    as (n1 & Hon & Hout); [done..|by eapply keys_insert; eauto|].
  destruct (demo_route_any limit (put_engine c id e') n1 id (mr_actions r)) as (c2 & n2 & Hrt & Hon2 & Hinf).
  { apply Hon. }
  { intros a Ha. pose proof (Hout a Ha) as Hin. unfold routable. rewrite (proj2 (proj2 Hon)).
    destruct (node_good_call _ _ _ _ _ _ Hgood Hr) as [_ Hid'].
    destruct (Hacts a Ha) as (d & data & [-> | ->]); simpl in *;
      (split_and!; [done|done| |lia]); change (engine_node_id e' ∈ dom (engines c)); by rewrite Hid'. }
  exists c2, n2. split_and!; [done|by eapply goes_on_trans|].
  exists n1. split_and!; [apply Hon|apply Hon|done].
Qed.

Lemma query_demo {R} D id e d (proj : gmap NodeId (StateViewObject Counter) → R) clk :
  node_good id e → keys_in D e → id ∈ D →
  let '(result, acts) := query e d proj clk in
  match result with EngineFresh r | EngineStale r _ => r end = proj (contents (shard e)) ∧
  ∀ a, a ∈ acts → action_to D a ∧ demo_message D (action_message a) ∧
    (depth (action_message a) < 2)%nat.
Proof.
  intros [(Hwf & _) Hid'] Hk Hid. unfold query, query_local, ShardCore.snapshot.
  rewrite snapshot_spec by done. case_bool_decide; simpl; split; try done; [by intros a ?%elem_of_nil|].
  destruct (pull_on_query _); [|by intros a ?%elem_of_nil].
  intros a (k & -> & [_ Hst]%list_elem_of_filter)%list_elem_of_fmap.
  apply elem_of_keys_where in Hst as (vo & Hvo & _). simpl in *.
  split_and!; [apply Hk; by eexists| |lia]. change (engine_node_id e ∈ D). by rewrite Hid'.
Qed.

Lemma demo_query_sim limit c n id e :
  demo_sim c n → engines c !! id = Some e →
  ∃ c' n', demo_query (Datatypes.S (Datatypes.S limit)) c id =
      Some (Done (c', (λ vo, counter_value (vo_value vo)) <$> contents (shard e))) ∧
    goes_on c n c' n' ∧ ∃ n1, rtc step n n1 ∧ informs c n1 c' [].
Proof.
  intros Hsim He. unfold demo_query. rewrite He. pose proof Hsim as [Hn Hs].
  destruct (Hs id e He) as [Hgood Hk]. assert (id ∈ dom (engines c)) as Hid by by eapply elem_of_dom_2.
  set (proj := λ views : gmap NodeId (StateViewObject Counter), _).
  set (c1 := mkInProcess (engines c) (demo_clock c) _).
  destruct (grows_query "counter" (λ s, s) 1 demo_ser demo_de None n id e (from_secs 60) proj (clock_now c))
    as (n1 & Hg1 & Hn1 & Hout); [by rewrite <- Hn|].
  assert (goes_on c n c1 n1) as Hon.
  { split_and!; [done| |done]. split; [by simpl; rewrite Hn1|done]. }
  pose proof (query_demo _ id e (from_secs 60) proj (clock_now c) Hgood Hk Hid) as Hq.
  destruct (query _ _ _ _) as [res acts]. destruct Hq as [Hres Hacts]. cbn [snd] in Hout.
  assert (∃ c2 n2, match acts with
      | [] => Some (Done c1)
      | _ => demo_route (Datatypes.S (Datatypes.S limit)) c1 id acts
      end = Some (Done c2) ∧ goes_on c1 n1 c2 n2 ∧ informs c1 n1 c2 []) as (c2 & n2 & Hr & Hon2 & Hinf).
  { destruct acts as [|a acts].
    { exists c1, n1. split_and!; [done|apply goes_on_refl, Hon|apply informs_nil]. }
    destruct (demo_route_any (Datatypes.S limit) c1 n1 id (a :: acts)) as (c2 & n2 & ? & ? & ?); [apply Hon| |].
    { intros x Hx. destruct (Hacts x Hx) as (? & ? & ?). split_and!; [done| |done|lia].
      apply Hout, elem_of_app. left. apply list_elem_of_fmap. eauto. }
    exists c2, n2. split_and!; [done..|]. eapply informs_weaken; [|done]. set_solver. }
  rewrite Hr. exists c2, n2. split_and!; [by rewrite Hres|by eapply goes_on_trans|].
  exists n1. split; [apply Hg1|done].
Qed.
(** *** Creating and losing nodes *)

Lemma create_engines_sim config indices : ∀ c n used,
  (∀ k, 0 < as_u64 (unix_ms (demo_clock c k))) →
  rtc step net_init n → names_used used n → dom used ⊆ dom (engines c) → demo_sim c n →
  NoDup indices → (∀ i, i ∈ indices → node_n i ∉ dom (engines c)) →
  ∃ n', rtc step net_init n' ∧ demo_sim (create_engines c config indices) n' ∧
    dom (engines (create_engines c config indices)) = dom (engines c) ∪ list_to_set (node_n <$> indices).
Proof.
  induction indices as [|i indices IH]; intros c n used Hclk Hn Hu Hdom Hsim Hnd Hfresh; simpl.
  { exists n. split_and!; [done..|set_solver]. }
  apply NoDup_cons in Hnd as [Hi Hnd]. set (e := demo_engine config (clock_now c) i).
  assert (node_n i ∉ dom (engines c)) as Hnew by (apply Hfresh; by left).
  assert (later_start used (node_n i) (clock_now c)) as Hlater.
  { split; [apply Hclk|]. intros z Hz. apply elem_of_dom_2 in Hz. set_solver. }
  destruct (names_used_start "counter" (λ s, s) 1 demo_ser demo_de None used n (node_n i)
    Counter_default config (clock_now c) Hu Hlater) as [Hstep Hu'].
  change (engine_new _ _ _ _ _ _ _ _ _ _) with e in Hstep, Hu'.
  set (n1 := mkNetwork _ _ _) in *. change (engine_node_id e) with (node_n i).
  set (c1 := put_engine c (node_n i) e).
  assert (dom (engines c1) = {[node_n i]} ∪ dom (engines c)) as Hd1 by apply dom_insert_L.
  assert (demo_sim c1 n1) as Hsim1.
  { destruct Hsim as [He Hs]. split; [simpl; by rewrite He|]. rewrite Hd1.
    intros k x Hx. simpl in Hx. apply lookup_insert_Some in Hx as [[<- <-]|[_ Hx]].
    - destruct (engine_new_ok (M:=M) "counter" (node_n i) Counter_default (λ s, s) config 1 (clock_now c)
        demo_ser demo_de None) as [Hok _]. split; [by split|].
      destruct (shard_new_contents (S:=Counter) (M:=M) (node_n i)
        (new_state_object Counter_default (as_u64 (unix_ms (clock_now c))) (clock_now c))
        Counter_default (clock_now c)) as [_ Hc].
      intros k Hk. change (is_Some (contents (shard_new (node_n i)
        (new_state_object Counter_default (as_u64 (unix_ms (clock_now c))) (clock_now c))
        Counter_default (clock_now c)) !! k)) in Hk.
      rewrite Hc in Hk. destruct Hk as [vo [<- _]%lookup_singleton_Some]. set_solver.
    - destruct (Hs k x Hx) as [? Hk]. split; [done|]. intros k' Hk'. apply Hk in Hk'. set_solver. }
  destruct (IH c1 n1 (<[node_n i := as_u64 (unix_ms (clock_now c))]> used)) as (n' & Hn' & Hs' & Hd');
    [exact Hclk|by eapply rtc_r|exact Hu'|rewrite Hd1, dom_insert_L; set_solver|done|done| |].
  { intros j Hj. rewrite Hd1. intros [?%elem_of_singleton|Hin]%elem_of_union.
    - simplify_eq. done.
    - revert Hin. apply Hfresh. by right. }
  exists n'. split_and!; [done..|]. rewrite Hd', Hd1. set_solver.
Qed.

Lemma announce_all_sim pairs : ∀ c n,
  demo_sim c n → (∀ p, p ∈ pairs → p.1 ∈ dom (engines c) ∧ p.2 ∈ dom (engines c)) →
  ∃ c' l n', announce_all c pairs = Done (c', l) ∧ goes_on c n c' n' ∧
    ∀ from acts a, (from, acts) ∈ l → a ∈ acts → routable c' n' 1 a.
Proof.
  induction pairs as [|[i j] pairs IH]; intros c n Hsim Hp; simpl.
  { exists c, [], n. split_and!; [done|by apply goes_on_refl|]. by intros ??? ?%elem_of_nil. }
  destruct (Hp (i, j) ltac:(by left)) as [Hi Hj]. simpl in Hi, Hj. apply elem_of_dom in Hi as [e He].
  rewrite He. pose proof Hsim as [_ Hs]. destruct (Hs i e He) as [Hgood Hk].
  destruct (run_engine_op_done e (OpJoin j Counter_default (clock_now c)) (proj1 Hgood))
    as (e' & acts & b & Hr & _). pose proof Hr as Hr'. cbn [run_engine_op] in Hr.
  destruct (engine_on_node_joined e j Counter_default (clock_now c)) as [[e1 a1]|] eqn:Hj'; [|done].
  injection Hr as -> -> <-. simpl.
  destruct (join_demo i e j _ _ e' acts Hgood Hj') as [Hc [data Hacts]].
  destruct (demo_call c n i e (OpJoin j Counter_default (clock_now c)) e' acts)
    as (n1 & Hon & Hout); [done..|by eapply keys_insert|].
  destruct (IH (put_engine c i e') n1) as (c2 & l & n2 & Hl & Hon2 & Hl2); [apply Hon| |].
  { intros x Hx. rewrite (proj2 (proj2 Hon)). apply Hp. by right. }
  rewrite Hl. simpl. eexists c2, _, n2. split_and!; [done|by eapply goes_on_trans|].
  subst acts. intros from acts' a [[= -> ->]|Hin]%elem_of_cons Ha; [|by eapply Hl2].
  eapply routable_mono; [exact Hon2|]. pose proof (Hout a Ha) as Hin.
  apply list_elem_of_singleton in Ha as ->. unfold routable. rewrite (proj2 (proj2 Hon)). simpl in *.
  split_and!; [done|done| |lia]. change (engine_node_id e' ∈ dom (engines c)).
  destruct (node_good_call (C:=C) i e (OpJoin j Counter_default (clock_now c)) _ _ _ Hgood Hr') as [_ ->].
  by eapply elem_of_dom_2.
Qed.

(** The targeted messages among the actions of several nodes. *)
Definition sent_to_targets (l : list (NodeId * list EngineAction)) : list (NodeId * WireMessage) :=
  x ← l; x.2 ≫= deliveries_of [] x.1.

Lemma targets_delivered ids from acts :
  (acts ≫= deliveries_of [] from) ⊆ (acts ≫= deliveries_of ids from).
Proof.
  intros d (a & Hd & Ha)%list_elem_of_bind. apply list_elem_of_bind. exists a. split; [|done].
  destruct a; simpl in *; [by apply elem_of_nil in Hd|done|by apply elem_of_nil in Hd].
Qed.

Lemma route_each_sim limit l : ∀ c n,
  demo_sim c n → (∀ from acts a, (from, acts) ∈ l → a ∈ acts → routable c n (Datatypes.S limit) a) →
  ∃ c' n', route_each (Datatypes.S limit) c l = Some (Done c') ∧ goes_on c n c' n' ∧
    informs c n c' (sent_to_targets l).
Proof.
  induction l as [|[from acts] l IH]; intros c n Hsim Hl; cbn [route_each].
  { exists c, n. split_and!; [done|by apply goes_on_refl|apply informs_nil]. }
  destruct (demo_route_any limit c n from acts Hsim) as (c1 & n1 & -> & Hon & Hinf).
  { intros a Ha. apply (Hl from acts a); [by left|done]. }
  destruct (IH c1 n1) as (c2 & n2 & Hr & Hon2 & Hinf2); [apply Hon| |].
  { intros f' a' x Hin Hx. eapply routable_mono; [done|]. by eapply Hl; [right|]. }
  exists c2, n2. split_and!; [done|by eapply goes_on_trans|].
  eapply informs_app; [apply Hon| |exact Hinf2].
  eapply informs_weaken; [apply targets_delivered|done].
Qed.

(** A node that departs. *)
Lemma demo_depart_sim c n id :
  demo_sim c n → ∃ n', rtc step n n' ∧ demo_sim (demo_depart c id) n'.
Proof.
  intros [Hn Hs]. set (n1 := mkNetwork (delete id (net_nodes n)) (net_messages n) (net_history n)).
  destruct (grows_all_leave "counter" (λ s, s) 1 demo_ser demo_de None n1 id) as (n' & (Hr & _) & Hn').
  { simpl. intros k e [_ Hk]%lookup_delete_Some. rewrite <- Hn in Hk. by apply Hs. }
  exists n'. split; [eapply rtc_l; [apply net_crash|exact Hr]|]. split; [by rewrite Hn'; simpl; rewrite Hn|].
  simpl. intros k e. rewrite dom_fmap_L, dom_delete_L, lookup_fmap.
  destruct (delete id (engines c) !! k) as [x|] eqn:Hx; [|done]. intros [= <-].
  apply lookup_delete_Some in Hx as [Hne Hx]. destruct (Hs k x Hx) as [Hgood Hk].
  split; [by apply (node_good_call (C:=C) k x (OpLeave id) _ [] None)|].
  intros k'. simpl. destruct Hgood as [(Hwf & _) Hid]. rewrite node_left_contents by done.
  rewrite bool_decide_eq_false_2 by (unfold engine_node_id in Hid; congruence).
  rewrite lookup_delete. case_decide as Hk'; [by intros [? ?]|]. intros Hin. apply Hk in Hin. set_solver.
Qed.
(** *** More fuel changes nothing *)

Lemma deliver_all_mono (route route' : cluster → NodeId → list EngineAction → option (outcome cluster)) :
  (∀ c from acts r, route c from acts = Some r → route' c from acts = Some r) →
  ∀ ds c r, deliver_all route c ds = Some r → deliver_all route' c ds = Some r.
Proof.
  intros Hr. induction ds as [|[t msg] ds IH]; intros c r; simpl; [done|].
  destruct (engines c !! t) as [e|]; [|done].
  destruct (handle_inbound _ _ _) as [[e' [|a acts]]|]; [apply IH| |done].
  destruct (route _ _ _) as [[c1|m]|] eqn:Ho; [|by rewrite (Hr _ _ _ _ Ho)|done].
  rewrite (Hr _ _ _ _ Ho). apply IH.
Qed.

Lemma demo_route_mono f1 f2 : (f1 ≤ f2)%nat → ∀ c from acts r,
  demo_route f1 c from acts = Some r → demo_route f2 c from acts = Some r.
Proof.
  revert f2. induction f1 as [|f1 IH]; intros [|f2] Hle c from acts r; try done; [lia|]. simpl.
  apply deliver_all_mono. apply IH. lia.
Qed.

Lemma route_each_mono f1 f2 l : (f1 ≤ f2)%nat → ∀ c r,
  route_each f1 c l = Some r → route_each f2 c l = Some r.
Proof.
  intros Hle. induction l as [|[from acts] l IH]; intros c r; cbn [route_each]; [done|].
  destruct (demo_route f1 _ _ _) as [[c1|m]|] eqn:Hr; [|by rewrite (demo_route_mono _ _ Hle _ _ _ _ Hr)|done].
  rewrite (demo_route_mono _ _ Hle _ _ _ _ Hr). apply IH.
Qed.

Lemma demo_new_mono f1 f2 clocks k config r :
  (f1 ≤ f2)%nat → demo_new f1 clocks k config = Some r → demo_new f2 clocks k config = Some r.
Proof.
  intros Hle. unfold demo_new. destruct (announce_all _ _) as [[c l]|]; [|done]. by apply route_each_mono.
Qed.

Lemma demo_mutate_mono f1 f2 c id f r :
  (f1 ≤ f2)%nat → demo_mutate f1 c id f = Some r → demo_mutate f2 c id f = Some r.
Proof.
  intros Hle. unfold demo_mutate. destruct (engines c !! id); [|done].
  destruct (mutate _ _ _ _ _). by apply demo_route_mono.
Qed.

Lemma demo_query_mono f1 f2 c id r :
  (f1 ≤ f2)%nat → demo_query f1 c id = Some r → demo_query f2 c id = Some r.
Proof.
  intros Hle. unfold demo_query. destruct (engines c !! id); [|done].
  destruct (query _ _ _ _) as [res [|a acts]]; [done|].
  destruct (demo_route f1 _ _ _) as [o|] eqn:Hr; [|done].
  by rewrite (demo_route_mono _ _ Hle _ _ _ _ Hr).
Qed.

(** *** What the program does with a cluster *)

(** The clock has passed the epoch. *)
Definition after_epoch (clocks : nat → C) : Prop := ∀ k, 0 < as_u64 (unix_ms (clocks k)).

Inductive demo_reach (config : StateConfig) : cluster → Prop :=
| demo_reach_new fuel clocks k c :
    after_epoch clocks → demo_new fuel clocks k config = Some (Done c) → demo_reach config c
| demo_reach_mutate fuel c id e f c' :
    demo_reach config c → engines c !! id = Some e → age (generation_of e) < u64_max →
    demo_mutate fuel c id f = Some (Done c') → demo_reach config c'
| demo_reach_query fuel c id c' views :
    demo_reach config c → demo_query fuel c id = Some (Done (c', views)) → demo_reach config c'
| demo_reach_depart c id : demo_reach config c → demo_reach config (demo_depart c id).

Lemma other_pairs_elem ids p : p ∈ other_pairs ids → p.1 ∈ ids ∧ p.2 ∈ ids ∧ p.1 ≠ p.2.
Proof.
  intros [Hne Hin]%list_elem_of_filter.
  apply list_elem_of_bind in Hin as (i & Hin & Hi). apply list_elem_of_bind in Hin as (j & Hin & Hj).
  apply list_elem_of_singleton in Hin as ->. done.
Qed.

Lemma demo_new_sim limit clocks k config :
  after_epoch clocks →
  ∃ c n, demo_new (Datatypes.S limit) clocks k config = Some (Done c) ∧ rtc step net_init n ∧ demo_sim c n.
Proof.
  intros Hclk. unfold demo_new.
  destruct (create_engines_sim config (seq 0 k) (mkInProcess ∅ clocks 0) net_init ∅)
    as (n & Hn & Hsim & Hd); [done|done|apply names_used_init|set_solver| |apply NoDup_seq|set_solver|].
  { split; [done|]. intros id e. simpl. by rewrite lookup_empty. }
  set (c := create_engines _ _ _) in *.
  destruct (announce_all_sim (other_pairs (node_n <$> seq 0 k)) c n Hsim)
    as (c1 & l & n1 & Ha & Hon & Hl).
  { intros x (? & ? & _)%other_pairs_elem. rewrite Hd. set_solver. }
  rewrite Ha.
  destruct (route_each_sim limit l c1 n1) as (c2 & n2 & Hr & Hon2 & _); [apply Hon| |].
  { intros from acts a Hin Hx. destruct (Hl from acts a Hin Hx) as (? & ? & ? & ?). split_and!; [done..|lia]. }
  exists c2, n2. split_and!; [done| |apply Hon2]. etrans; [exact Hn|]. etrans; [apply Hon|apply Hon2].
Qed.

Lemma demo_reach_sim config c : demo_reach config c → ∃ n, rtc step net_init n ∧ demo_sim c n.
Proof.
  induction 1 as [fuel clocks k c Hclk Hnew|fuel c id e f c' _ (n & Hn & Hsim) He Hage Hm
    |fuel c id c' views _ (n & Hn & Hsim) Hq|c id _ (n & Hn & Hsim)].
  - destruct (demo_new_sim fuel clocks k config Hclk) as (c1 & n & Hnew1 & ? & ?). exists n.
    apply (demo_new_mono fuel (Datatypes.S fuel)) in Hnew; [|lia]. by simplify_eq.
  - destruct (demo_mutate_sim fuel c n id e f Hsim He Hage) as (c1 & n1 & Hm1 & Hon & _). exists n1.
    apply (demo_mutate_mono fuel (Datatypes.S fuel)) in Hm; [|lia].
    assert (c' = c1) as -> by congruence. split; [|apply Hon]. etrans; [done|apply Hon].
  - destruct (engines c !! id) as [e|] eqn:He; [|by unfold demo_query in Hq; rewrite He in Hq].
    destruct (demo_query_sim fuel c n id e Hsim He) as (c1 & n1 & Hq1 & Hon & _). exists n1.
    apply (demo_query_mono fuel (Datatypes.S (Datatypes.S fuel))) in Hq; [|lia].
    assert (c' = c1) as -> by congruence. split; [|apply Hon]. etrans; [done|apply Hon].
  - destruct (demo_depart_sim c n id Hsim) as (n' & ? & ?). exists n'. split; [by etrans|done].
Qed.
End DemoProofs.

(** The recursion of the demo ends.  Creating a cluster of any size under any
    configuration, mutating a node and querying one, in any order and with nodes that
    departed in between: the recursive delivery of messages ends within two levels, with
    the same result for any more, and meets neither a node that is gone nor a panic of an
    engine. *)
Theorem demo_routing_terminates `{HashIter} {M C} `{!ViewMapOps Counter M} `{!ViewMapLaws Counter M}
    `{Clock C} `{!Bincode Counter} (fuel : nat) (clocks : nat → C) (count : nat) (config : StateConfig) :
  (2 ≤ fuel)%nat → after_epoch clocks →
  (∃ c : InProcessCluster (M:=M), demo_new fuel clocks count config = Some (Done c) ∧
     demo_new 2 clocks count config = Some (Done c)) ∧
  ∀ c : InProcessCluster (M:=M) (C:=C), demo_reach config c →
    (∀ id e f, engines c !! id = Some e → age (generation_of e) < u64_max →
       ∃ c', demo_mutate fuel c id f = Some (Done c') ∧ demo_mutate 2 c id f = Some (Done c')) ∧
    (∀ id, is_Some (engines c !! id) → ∃ c' views,
       demo_query fuel c id = Some (Done (c', views)) ∧ demo_query 2 c id = Some (Done (c', views))).
Proof.
  intros Hfuel Hclk. split.
  - destruct (demo_new_sim (M:=M) 1 clocks count config Hclk) as (c & n & Hc & _). exists c.
    split; [|done]. by apply (demo_new_mono 2).
  - intros c Hr. destruct (demo_reach_sim config c Hr) as (n & _ & Hsim). split.
    + intros id e f He Hage. destruct (demo_mutate_sim 1 c n id e f Hsim He Hage) as (c' & _ & Hm & _).
      exists c'. split; [|done]. by apply (demo_mutate_mono 2).
    + intros id [e He]. destruct (demo_query_sim 0 c n id e Hsim He) as (c' & _ & Hq & _).
      eexists c', _. split; [|done]. by apply (demo_query_mono 2).
Qed.
