(* ===== verification/DemoAgreement.v ===== *)
(** Everybody agrees in the in-process cluster of [dstate/examples/engine_demo.rs]: with
    the active push the program configures, what any node answers to a query is the
    current counters of the whole cluster, as the assertions of [main] say. *)
From stdpp Require Import prelude gmap fin_maps strings relations pretty.
From S2P Require Import Prelude Node Clock Types ViewMap ShardCore ShardProps SyncLogic.
From S2P Require Import ChangeFeed Versioning Lifecycle Diagnostics Engine EngineProps.
From S2P Require Import Protocol Accounting Network NetworkRuns Traits EngineDemo DemoRuns.

Section Agreement.
Context `{HashIter} {M C : Type} `{!ViewMapOps Counter M} `{!ViewMapLaws Counter M} `{Clock C}.
Context `{!Bincode Counter}.
Context (config : StateConfig) (Hpush : push_mode (sync_strategy config) = Some ActivePush).
Context (Hcodec : codec_ok).
Local Abbreviation engine := (DistributedStateEngine Counter Counter M).
Local Abbreviation cluster := (InProcessCluster (M:=M) (C:=C)).
Local Abbreviation network := (Network Counter Counter M).
Local Abbreviation demo_ser := (bincode_serialize (A:=Counter)).
Local Abbreviation demo_de := (versioned_deserialize (A:=Counter) 1).
Local Abbreviation step := (net_step (C:=C) (M:=M) "counter" (λ s, s) 1 demo_ser demo_de None).
Implicit Types (c : cluster) (n : network) (e : engine) (D : gset NodeId) (clk : C).

(** A node of the cluster: started after the epoch, pushing actively, and accepting the
    messages of all nodes that are still there. *)
Definition serving D e : Prop :=
  0 < incarnation (generation_of e) ∧
  sync_logic e = sync_logic_new "counter" (sync_strategy config) false ∧
  departed_nodes (lifecycle e) ## D.

Definition all_serving c : Prop := ∀ k e, engines c !! k = Some e → serving (dom (engines c)) e.

(** Everybody shows everybody else's current generation. *)
Definition agreed c : Prop :=
  all_serving c ∧
  ∀ i j ei ej, engines c !! i = Some ei → engines c !! j = Some ej → i ≠ j →
    sees ei (generation_of ej) j.

Lemma static_sync_logic e e' : static e' = static e → sync_logic e' = sync_logic e.
Proof. by intros [= ?]. Qed.

Lemma all_received_back c c' k e' :
  all_received c c' → dom (engines c') = dom (engines c) → engines c' !! k = Some e' →
  ∃ e, engines c !! k = Some e ∧ received e e'.
Proof.
  intros Hall Hd He'. assert (k ∈ dom (engines c)) as [e He]%elem_of_dom
    by (rewrite <- Hd; by eapply elem_of_dom_2).
  destruct (Hall k e He) as (x & Hx & Hrec). assert (x = e') as -> by congruence. by exists e.
Qed.

Lemma received_serving c c' :
  all_received c c' → dom (engines c') = dom (engines c) → all_serving c → all_serving c'.
Proof.
  intros Hall Hd Hs k e' He'. destruct (all_received_back c c' k e') as (e & He & Hst & Hl & Hstat & _);
    [done..|]. destruct (Hs k e He) as (Hpos & Hsl & Hdis). rewrite Hd. unfold serving, generation_of.
  rewrite Hst, Hl, (static_sync_logic e e') by done. done.
Qed.

(** Receiving loses nothing: agreement with the exception of what is shown of [j]. *)
Lemma received_sees c c' i j ei' ej' :
  all_received c c' → dom (engines c') = dom (engines c) →
  engines c' !! i = Some ei' → engines c' !! j = Some ej' →
  (∀ ei ej, engines c !! i = Some ei → engines c !! j = Some ej → sees ei (generation_of ej) j) →
  sees ei' (generation_of ej') j.
Proof.
  intros Hall Hd Hi Hj Hsees.
  destruct (all_received_back c c' i ei') as (ei & Hei & _ & _ & _ & Hmono); [done..|].
  destruct (all_received_back c c' j ej') as (ej & Hej & Hst & _); [done..|].
  unfold generation_of. rewrite Hst. apply Hmono. by apply Hsees.
Qed.

Lemma received_agreed c c' :
  all_received c c' → dom (engines c') = dom (engines c) → agreed c → agreed c'.
Proof.
  intros Hall Hd [Hs Hsees]. split; [by eapply received_serving|].
  intros i j ei ej Hi Hj Hij. eapply received_sees; [done..|]. intros. by eapply Hsees.
Qed.

(** The abstract cluster: the counter of every node, and its generation. *)
Definition states c : gmap NodeId (Counter * Generation) :=
  (λ e, (so_value (sh_state (shard e)), generation_of e)) <$> engines c.

Lemma received_states c c' :
  all_received c c' → dom (engines c') = dom (engines c) → states c' = states c.
Proof.
  intros Hall Hd. apply map_eq. intros k. unfold states. rewrite !lookup_fmap.
  destruct (engines c' !! k) as [e'|] eqn:He'; simpl.
  - destruct (all_received_back c c' k e') as (e & -> & Hst & _); [done..|]. simpl.
    unfold generation_of. by rewrite Hst.
  - destruct (engines c !! k) eqn:He; [|done]. apply elem_of_dom_2 in He. rewrite <- Hd in He.
    by apply not_elem_of_dom in He'.
Qed.

(** *** The calls keep everybody agreed, and do to the states what they should *)

Lemma query_agreed fuel c n id c' views :
  rtc step net_init n → demo_sim c n → agreed c →
  demo_query fuel c id = Some (Done (c', views)) → agreed c' ∧ states c' = states c.
Proof.
  intros Hn Hsim Ha Hq.
  destruct (engines c !! id) as [e|] eqn:He; [|by unfold demo_query in Hq; rewrite He in Hq].
  destruct (demo_query_sim fuel c n id e Hsim He) as (c1 & n1 & Hq1 & Hon & n2 & Hr & Hinf).
  apply (demo_query_mono fuel (Datatypes.S (Datatypes.S fuel))) in Hq; [|lia].
  assert (c' = c1) as -> by congruence. destruct (Hinf Hcodec) as [Hall _]; [by etrans|].
  destruct Hon as (_ & _ & Hd). split; [by eapply received_agreed|by apply received_states].
Qed.

Lemma sent_by_itself c n id e :
  rtc step net_init n → demo_sim c n → engines c !! id = Some e →
  state_name e = "counter" ∧ engine_node_id e = id.
Proof.
  intros Hr [Hn _] He. rewrite Hn in He.
  destruct (net_reachable_inv "counter" (λ s, s) 1 demo_ser demo_de None n Hcodec Hr) as (_ & Hi & _).
  destruct (Hi id e He) as [Hid (Hname & _) _ _ _ _ _ _]. done.
Qed.

Lemma mutate_agreed fuel c n id e f c' :
  rtc step net_init n → demo_sim c n → agreed c → engines c !! id = Some e →
  age (generation_of e) < u64_max → demo_mutate fuel c id f = Some (Done c') →
  agreed c' ∧ states c' = alter (λ s, (f s.1, next_generation s.2)) id (states c).
Proof.
  intros Hn Hsim [Hs Hsees] He Hage Hm.
  destruct (demo_mutate_sim fuel c n id e f Hsim He Hage) as (c2 & n2 & Hm2 & Hon & Hrest).
  apply (demo_mutate_mono fuel (Datatypes.S fuel)) in Hm; [|lia].
  assert (c' = c2) as -> by congruence. clear Hm Hm2.
  pose proof (mutate_effect (λ s : Counter, s) e f UrgencyDefault (clock_now c)) as Heff.
  pose proof (mutate_demo id e f (clock_now c) (proj1 (proj2 Hsim id e He))) as Hc.
  destruct (mutate e f _ _ _) as [e1 r]. destruct Hc as [[vo Hc] _].
  destruct Hrest as (n1 & Hr1 & Hsim1 & Hinf). set (c1 := put_engine c id e1) in *.
  destruct Hon as (_ & [_ Hgood2] & Hd).
  assert (rtc step net_init n1) as Hn1 by by etrans.
  destruct (Hinf Hcodec Hn1) as [Hall Hinform].
  assert (dom (engines c1) = dom (engines c)) as Hd1.
  { simpl. rewrite dom_insert_L. apply elem_of_dom_2 in He. set_solver. }
  rewrite <- Hd1 in Hd.
  destruct Heff as (_ & Hlink & Hgen & Hval & Hacts). destruct (Hs id e He) as (Hpos & Hsl & Hdis).
  rewrite Hsl in Hacts. unfold resolve_action in Hacts. simpl in Hacts. rewrite Hpush in Hacts.
  simpl in Hacts. rewrite Hacts in Hinform.
  assert (all_serving c1) as Hs1.
  { intros k x Hx. rewrite Hd1. simpl in Hx. apply lookup_insert_Some in Hx as [[<- <-]|[_ Hx]]; [|exact (Hs k x Hx)].
    unfold serving. rewrite Hgen.
    destruct Hlink as (Hstat & -> & _). rewrite (static_sync_logic e e1) by done. by split_and!. }
  split; [split; [by eapply received_serving|]|].
  2: { rewrite (received_states c1 c2) by done. unfold states. simpl. rewrite fmap_insert, Hgen, Hval.
       apply map_eq. intros k. rewrite lookup_insert. case_decide as Hk.
       - subst k. by rewrite lookup_alter_eq, lookup_fmap, He.
       - by rewrite lookup_alter_ne. }
  intros i j ei ej Hi Hj Hij. destruct (decide (j = id)) as [->|Hne].
  - destruct (all_received_back c1 c2 id ej) as (y & Hy & Hst & _); [done..|].
    simpl in Hy. rewrite lookup_insert_eq in Hy. injection Hy as <-.
    destruct (all_received_back c1 c2 i ei) as (x & Hx & _); [done..|].
    destruct (sent_by_itself c1 n1 id e1 Hn1 Hsim1) as [Hname Hself]; [apply lookup_insert_eq|].
    destruct (Hinform i id (generation_of e1) (wire_version e1) (serialize_view e1 (so_value (sh_state (shard e1))))
      x) as (x' & Hx' & Hsee); [|done| |].
    + apply list_elem_of_bind. eexists. split; [|by left].
      simpl. apply list_elem_of_fmap. exists i. unfold own_snapshot. split; [by rewrite Hname, Hself|].
      apply list_elem_of_filter. split; [done|].
      apply list_elem_of_fmap. exists (i, x). split; [done|]. by apply elem_of_hm_iter.
    + apply should_accept_from_spec. destruct (Hs1 i x Hx) as (_ & _ & Hdis1). rewrite Hd1 in Hdis1.
      apply elem_of_dom_2 in He. set_solver.
    + unfold generation_of. rewrite Hst. assert (x' = ei) as -> by congruence. exact Hsee.
  - eapply received_sees; [done..|]. intros x y Hx Hy. simpl in Hx, Hy.
    rewrite lookup_insert_ne in Hy by done. apply lookup_insert_Some in Hx as [[<- <-]|[_ Hx]].
    + destruct (Hsees id j e y) as (vo' & Hvo & Hle); [done|done|congruence|]. exists vo'. split; [|done].
      by rewrite Hc, lookup_insert_ne.
    + by eapply Hsees.
Qed.

Lemma depart_agreed c n id :
  demo_sim c n → agreed c →
  agreed (demo_depart c id) ∧ states (demo_depart c id) = delete id (states c).
Proof.
  intros [_ Hgood] [Hs Hsees].
  assert (∀ k e', engines (demo_depart c id) !! k = Some e' → k ≠ id ∧
    ∃ e, engines c !! k = Some e ∧ e' = engine_on_node_left e id) as Hback.
  { intros k e' He'. simpl in He'. rewrite lookup_fmap in He'.
    apply fmap_Some in He' as (e & [Hne He]%lookup_delete_Some & ->). split; [congruence|]. by exists e. }
  assert (∀ e, generation_of (engine_on_node_left e id) = generation_of e) as Hgen.
  { intros e. unfold generation_of. simpl. by destruct (node_left_frame (S:=Counter) (shard e) id) as (_ & _ & ->). }
  split; [split|].
  - intros k e' He'. destruct (Hback k e' He') as (Hne & e & He & ->).
    destruct (Hs k e He) as (Hpos & Hsl & Hdis). unfold serving. rewrite Hgen. split_and!; [done..|].
    simpl. rewrite dom_fmap_L, dom_delete_L. set_solver.
  - intros i j ei ej Hi Hj Hij. destruct (Hback i ei Hi) as (Hni & x & Hx & ->).
    destruct (Hback j ej Hj) as (Hnj & y & Hy & ->). rewrite Hgen.
    destruct (Hsees i j x y Hx Hy Hij) as (vo & Hvo & Hle). exists vo. split; [|done]. simpl.
    destruct (Hgood i x Hx) as [[(Hwf & _) _] _]. rewrite node_left_contents by done.
    case_bool_decide; [done|]. by rewrite lookup_delete_ne.
  - unfold states. simpl. rewrite <- map_fmap_compose, fmap_delete.
    apply map_eq. intros k. rewrite !lookup_delete. case_decide; [done|]. rewrite !lookup_fmap.
    destruct (engines c !! k) as [e|]; [|done]. simpl. rewrite Hgen. f_equal. f_equal.
    by destruct (node_left_frame (S:=Counter) (shard e) id) as (_ & _ & ->).
Qed.

(** *** A new cluster *)

(** An engine nothing has happened to. *)
Definition fresh e : Prop :=
  serving ∅ e ∧ departed_nodes (lifecycle e) = ∅ ∧
  so_value (sh_state (shard e)) = Counter_default ∧ age (generation_of e) = 0.

Lemma create_engines_fresh indices : ∀ c,
  after_epoch (demo_clock c) → (∀ k e, engines c !! k = Some e → fresh e) →
  ∀ k e, engines (create_engines c config indices) !! k = Some e → fresh e.
Proof.
  induction indices as [|i indices IH]; intros c Hclk Hc; simpl; [done|].
  apply IH; [exact Hclk|]. intros k e. simpl. intros [[<- <-]|[_ He]]%lookup_insert_Some; [|by eapply Hc].
  split_and!; [|done..]. split_and!; [apply Hclk|done|set_solver].
Qed.

(** The announcements: nobody's state changes, and every pair's snapshot is handed out. *)
Definition announced e e' : Prop :=
  sh_state (shard e') = sh_state (shard e) ∧ static e' = static e ∧
  departed_nodes (lifecycle e') ⊆ departed_nodes (lifecycle e).

Lemma announced_fresh e e' : announced e e' → fresh e → fresh e'.
Proof.
  intros (Hst & Hstat & Hdep) ([Hpos [Hsl _]] & Hempty & Hval & Hage). unfold fresh, serving, generation_of.
  rewrite Hst, (static_sync_logic e e') by done. split_and!; [done|done|set_solver|set_solver|done|done].
Qed.

Lemma join_announced id e k v clk e' acts :
  node_good id e → engine_on_node_joined e k v clk = Done (e', acts) → announced e e'.
Proof.
  intros [(Hwf & _) Hid] Hj. unfold engine_on_node_joined in Hj. simpl in Hj.
  destruct (own_view_value _) as [x|]; simpl in Hj; [|done]. injection Hj as <- _. split_and!; simpl.
  - by destruct (node_joined_frame (S:=Counter) (shard e) k v clk) as (_ & _ & ->).
  - done.
  - set_solver.
Qed.

Lemma announce_all_announced pairs : ∀ c n c' l,
  rtc step net_init n → demo_sim c n →
  (∀ p, p ∈ pairs → p.1 ∈ dom (engines c) ∧ p.2 ∈ dom (engines c)) →
  announce_all c pairs = Done (c', l) →
  (∀ k e, engines c !! k = Some e → ∃ e', engines c' !! k = Some e' ∧ announced e e') ∧
  ∀ i j e, (i, j) ∈ pairs → engines c !! i = Some e →
    ∃ w data, (j, WireSync (FullSnapshot "counter" i (generation_of e) w data)) ∈ sent_to_targets l.
Proof.
  induction pairs as [|[i j] pairs IH]; intros c n c' l Hr Hsim Hp; simpl.
  { intros [= <- <-]. split; [|by intros ??? ?%elem_of_nil]. intros k e He. exists e. by split_and!. }
  destruct (Hp (i, j) ltac:(by left)) as [Hi Hj]. simpl in Hi, Hj. apply elem_of_dom in Hi as [e He].
  rewrite He. destruct (proj2 Hsim i e He) as [Hgood Hk].
  destruct (engine_on_node_joined e j Counter_default (clock_now c)) as [[e1 a1]|] eqn:Hjoin; [|done].
  simpl. destruct (announce_all _ pairs) as [[c2 l2]|] eqn:Hrest; [|done]. simpl. intros [= <- <-].
  destruct (join_demo i e j _ _ e1 a1 Hgood Hjoin) as [Hc [data ->]].
  pose proof (join_announced i e j _ _ e1 _ Hgood Hjoin) as Hann.
  assert (run_engine_op e (OpJoin j Counter_default (clock_now c)) = Done (e1, [SendSync j (own_snapshot e1 data)], None))
    as Hrun by (simpl; by rewrite Hjoin).
  destruct (demo_call c n i e (OpJoin j Counter_default (clock_now c)) e1 [SendSync j (own_snapshot e1 data)])
    as (n1 & Hon & _); [done..|by eapply keys_insert|].
  set (c1 := put_engine c i e1) in *. assert (rtc step net_init n1) as Hr1 by (etrans; [done|apply Hon]).
  destruct (IH c1 n1 c2 l2 Hr1) as [Hkeep Hsent]; [apply Hon| |done|].
  { intros x Hx. rewrite (proj2 (proj2 Hon)). apply Hp. by right. }
  assert (∀ k x, engines c !! k = Some x → ∃ x', engines c1 !! k = Some x' ∧ announced x x') as Hc1.
  { intros k x Hx. simpl. rewrite lookup_insert. case_decide as Hki; [|exists x; by split_and!].
    subst k. assert (x = e) as -> by congruence. by exists e1. }
  split.
  - intros k x Hx. destruct (Hc1 k x Hx) as (x1 & Hx1 & ? & ? & ?).
    destruct (Hkeep k x1 Hx1) as (x2 & Hx2 & ? & ? & ?). exists x2. split; [done|].
    split_and!; [congruence..|set_solver].
  - intros i' j' x Hin Hx. destruct (Hc1 i' x Hx) as (x1 & Hx1 & Hst & _).
    unfold generation_of. rewrite <- Hst. apply elem_of_cons in Hin as [[= -> ->]|Hin].
    + destruct (sent_by_itself c1 n1 i x1 Hr1) as [Hname Hself]; [apply Hon|done|].
      simpl in Hx1. rewrite lookup_insert_eq in Hx1. injection Hx1 as <-.
      eexists _, data. unfold sent_to_targets. apply elem_of_app. left. simpl. apply list_elem_of_singleton.
      unfold own_snapshot. by rewrite Hname, Hself.
    + destruct (Hsent i' j' x1 Hin Hx1) as (w & d & Hd). exists w, d. apply elem_of_app. by right.
Qed.

Lemma other_pairs_complete ids i j : i ∈ ids → j ∈ ids → i ≠ j → (i, j) ∈ other_pairs ids.
Proof.
  intros Hi Hj Hij. apply list_elem_of_filter. split; [done|].
  apply list_elem_of_bind. exists i. split; [|done]. apply list_elem_of_bind. exists j.
  split; [by left|done].
Qed.

Lemma new_agreed fuel clocks k c :
  after_epoch clocks → demo_new fuel clocks k config = Some (Done c) →
  agreed c ∧ dom (states c) = list_to_set (node_n <$> seq 0 k) ∧
  ∀ id s, states c !! id = Some s → s.1 = Counter_default ∧ age s.2 = 0.
Proof.
  intros Hclk. unfold demo_new.
  destruct (create_engines_sim config (seq 0 k) (mkInProcess ∅ clocks 0) net_init ∅)
    as (n & Hn & Hsim & Hd); [done|done|apply names_used_init|set_solver| |apply NoDup_seq|set_solver|].
  { split; [done|]. intros id e. simpl. by rewrite lookup_empty. }
  pose proof (create_engines_fresh (seq 0 k) (mkInProcess ∅ clocks 0) Hclk) as Hs0.
  specialize (Hs0 ltac:(intros ?? He; simpl in He; by rewrite lookup_empty in He)).
  set (c0 := create_engines _ _ _) in *. set (pairs := other_pairs _).
  assert (∀ p, p ∈ pairs → p.1 ∈ dom (engines c0) ∧ p.2 ∈ dom (engines c0)) as Hpairs.
  { intros x (? & ? & _)%other_pairs_elem. rewrite Hd. set_solver. }
  destruct (announce_all_sim pairs c0 n Hsim Hpairs) as (c1 & l & n1 & Ha & Hon & Hl). rewrite Ha.
  destruct (announce_all_announced pairs c0 n c1 l Hn Hsim Hpairs Ha) as [Hkeep Hsent].
  destruct (route_each_sim fuel l c1 n1) as (c2 & n2 & Hr & Hon2 & Hinf); [apply Hon| |].
  { intros from acts a Hin Hx. destruct (Hl from acts a Hin Hx) as (? & ? & ? & ?). split_and!; [done..|lia]. }
  intros Hr'. apply (route_each_mono fuel (Datatypes.S fuel)) in Hr'; [|lia].
  assert (c = c2) as -> by congruence. clear Hr Hr'.
  assert (rtc step net_init n1) as Hn1 by (etrans; [exact Hn|apply Hon]).
  destruct (Hinf Hcodec Hn1) as [Hall Hinform].
  destruct Hon as (_ & _ & Hd1), Hon2 as (_ & _ & Hd2).
  assert (∀ id e1, engines c1 !! id = Some e1 → ∃ e, engines c0 !! id = Some e ∧ announced e e1) as Hback.
  { intros id e1 He1. assert (id ∈ dom (engines c0)) as [e He]%elem_of_dom
      by (rewrite <- Hd1; by eapply elem_of_dom_2).
    destruct (Hkeep id e He) as (x & Hx & Hann). assert (x = e1) as -> by congruence. by exists e. }
  assert (∀ id e1, engines c1 !! id = Some e1 → fresh e1) as Hs1.
  { intros id e1 He1. destruct (Hback id e1 He1) as (e & He & Hann). by eapply announced_fresh, Hs0. }
  split; [split|split].
  - apply (received_serving c1); [done..|]. intros id e1 He1.
    destruct (Hs1 id e1 He1) as [(Hpos & Hsl & _) [Hempty _]]. split_and!; [done..|set_solver].
  - intros i j ei ej Hi Hj Hij.
    destruct (all_received_back c1 c2 i ei) as (xi & Hxi & _); [done..|].
    destruct (all_received_back c1 c2 j ej) as (xj & Hxj & Hstj & _); [done..|].
    destruct (Hback j xj Hxj) as (yj & Hyj & Hstj' & _).
    destruct (Hback i xi Hxi) as (yi & Hyi & _).
    destruct (Hsent j i yj) as (w & data & Hin); [|done|].
    { apply other_pairs_complete; [| |done].
      - apply elem_of_dom_2 in Hyj. rewrite Hd in Hyj. set_solver.
      - apply elem_of_dom_2 in Hyi. rewrite Hd in Hyi. set_solver. }
    destruct (Hinform i j (generation_of yj) w data xi) as (x & Hx & Hsee); [done|done| |].
    { apply should_accept_from_spec. destruct (Hs1 i xi Hxi) as [_ [-> _]]. set_solver. }
    assert (x = ei) as -> by congruence. unfold generation_of in *. by rewrite Hstj, Hstj'.
  - unfold states. rewrite dom_fmap_L, Hd2, Hd1, Hd. simpl. set_solver.
  - rewrite (received_states c1 c2) by done. intros id s Hsid. unfold states in Hsid.
    rewrite lookup_fmap in Hsid. apply fmap_Some in Hsid as (e & He & ->).
    by destruct (Hs1 id e He) as (_ & _ & ? & ?).
Qed.

(** *** The cluster and its abstraction *)

Lemma demo_reach_agreed c : demo_reach config c → ∃ n, rtc step net_init n ∧ demo_sim c n ∧ agreed c.
Proof.
  intros Hr. destruct (demo_reach_sim config c Hr) as (n & Hn & Hsim). exists n. split_and!; [done..|].
  clear Hn Hsim n.
  induction Hr as [fuel clocks k c Hclk Hnew|fuel c id e f c' Hr IH He Hage Hm
    |fuel c id c' views Hr IH Hq|c id Hr IH]; [by eapply new_agreed|..];
    destruct (demo_reach_sim config c Hr) as (n & Hn & Hsim).
  - by eapply (mutate_agreed fuel).
  - by eapply (query_agreed fuel).
  - by eapply depart_agreed.
Qed.


(** What a node shows when everybody agrees. *)
Lemma agreed_contents c n id e :
  rtc step net_init n → demo_sim c n → agreed c → engines c !! id = Some e →
  vo_value <$> contents (shard e) = fst <$> states c.
Proof.
  intros Hr [Hn Hgood] [Hs Hsees] He. destruct (Hgood id e He) as [[(Hwf & _) Hid] Hk]. simpl in Hwf.
  pose proof (net_reachable_inv "counter" (λ s, s) 1 demo_ser demo_de None n Hcodec Hr) as Hinv.
  apply map_eq. intros j. unfold states. rewrite !lookup_fmap.
  destruct (engines c !! j) as [ej|] eqn:Hj; simpl.
  2: { destruct (contents (shard e) !! j) eqn:Hc; [|done]. exfalso.
       apply not_elem_of_dom in Hj. by apply Hj, Hk. }
  destruct (decide (id = j)) as [<-|Hne].
  - assert (ej = e) as -> by congruence. destruct Hinv as (_ & Hi & _). rewrite Hn in He.
    destruct (Hi id e He) as [_ _ _ (_ & [t Hown] & _) _ _ _ _].
    change (sh_node_id (shard e)) with (engine_node_id e) in Hown. rewrite Hid in Hown. by rewrite Hown.
  - destruct (Hsees id j e ej) as (vo & Hvo & Hle); [done..|]. rewrite Hvo. simpl. f_equal.
    destruct (Hs j ej Hj) as (Hpos & _). rewrite Hn in He, Hj.
    destruct (net_view "counter" (λ s, s) 1 demo_ser demo_de None n id j e ej vo) as [Hz|(_ & Hle' & Hv)];
      [done..|by rewrite get_view_contents| |].
    + rewrite Hz in Hle. exfalso. unfold generation_of in *. gen_lia.
    + apply Hv. by apply (anti_symm gen_le).
Qed.

(** A cluster in which everybody agrees, and what its nodes hold. *)
Definition tracks c (σ : gmap NodeId (Counter * Generation)) : Prop :=
  (∃ n, rtc step net_init n ∧ demo_sim c n) ∧ agreed c ∧ states c = σ.

Lemma tracks_engine c σ id s :
  tracks c σ → σ !! id = Some s →
  ∃ e, engines c !! id = Some e ∧ s = (so_value (sh_state (shard e)), generation_of e).
Proof.
  intros (_ & _ & <-). unfold states. rewrite lookup_fmap. intros (e & He & ->)%fmap_Some. by exists e.
Qed.
Lemma tracks_dom c σ : tracks c σ → dom (engines c) = dom σ.
Proof. intros (_ & _ & <-). unfold states. by rewrite dom_fmap_L. Qed.

Lemma tracks_new fuel clocks k :
  (2 ≤ fuel)%nat → after_epoch clocks →
  ∃ c σ, demo_new fuel clocks k config = Some (Done c) ∧ demo_reach config c ∧ tracks c σ ∧
    dom σ = list_to_set (node_n <$> seq 0 k) ∧
    ∀ id s, σ !! id = Some s → s.1 = Counter_default ∧ age s.2 = 0.
Proof.
  intros Hf Hclk. destruct (demo_new_sim 1 clocks k config Hclk) as (c & n & Hnew & Hn & Hsim).
  apply (demo_new_mono 2 fuel) in Hnew; [|done].
  destruct (new_agreed fuel clocks k c Hclk Hnew) as (Ha & Hd & Hs).
  exists c, (states c). split_and!; [done|by eapply demo_reach_new| |done..].
  split_and!; [by exists n|done..].
Qed.

Lemma tracks_mutate fuel c σ id s f :
  (2 ≤ fuel)%nat → tracks c σ → σ !! id = Some s → age s.2 < u64_max →
  ∃ c', demo_mutate fuel c id f = Some (Done c') ∧
    tracks c' (<[id := (f s.1, next_generation s.2)]> σ).
Proof.
  intros Hf Ht Hid Hage. destruct (tracks_engine c σ id s Ht Hid) as (e & He & Hse).
  destruct Ht as ((n & Hn & Hsim) & Ha & <-). assert (age (generation_of e) < u64_max) by by subst s.
  destruct (demo_mutate_sim 1 c n id e f Hsim He) as (c' & n' & Hm & Hon & _); [done|].
  apply (demo_mutate_mono 2 fuel) in Hm; [|done]. exists c'. split; [done|].
  destruct (mutate_agreed fuel c n id e f c') as [Ha' Hst]; [done..|].
  split_and!; [exists n'; split; [etrans; [exact Hn|apply Hon]|apply Hon]|done|].
  rewrite Hst. apply map_eq. intros k. rewrite lookup_insert. case_decide as Hk.
  - subst k. by rewrite lookup_alter_eq, Hid.
  - by rewrite lookup_alter_ne.
Qed.

Lemma tracks_query fuel c σ id :
  (2 ≤ fuel)%nat → tracks c σ → is_Some (σ !! id) →
  ∃ c', demo_query fuel c id = Some (Done (c', counter_value ∘ fst <$> σ)) ∧ tracks c' σ.
Proof.
  intros Hf Ht [s Hid]. destruct (tracks_engine c σ id s Ht Hid) as (e & He & _).
  destruct Ht as ((n & Hn & Hsim) & Ha & <-).
  destruct (demo_query_sim 0 c n id e Hsim He) as (c' & n' & Hq & Hon & _).
  apply (demo_query_mono 2 fuel) in Hq; [|done]. exists c'.
  destruct (query_agreed fuel c n id c' _ Hn Hsim Ha Hq) as [Ha' Hst]. split.
  - rewrite Hq. do 3 f_equal. rewrite map_fmap_compose, <- (agreed_contents c n id e) by done.
    by rewrite <- map_fmap_compose.
  - split_and!; [exists n'; split; [etrans; [exact Hn|apply Hon]|apply Hon]|done..].
Qed.

Lemma tracks_depart c σ id : tracks c σ → tracks (demo_depart c id) (delete id σ).
Proof.
  intros ((n & Hn & Hsim) & Ha & <-). destruct (demo_depart_sim c n id Hsim) as (n' & Hr & Hsim').
  destruct (depart_agreed c n id Hsim Ha) as [Ha' Hst].
  split_and!; [exists n'; split; [by etrans|done]|done..].
Qed.

Lemma tracks_query_each fuel ids : (2 ≤ fuel)%nat → ∀ c σ,
  tracks c σ → (∀ id, id ∈ ids → is_Some (σ !! id)) →
  ∃ c', query_each fuel c ids = Some (Done c') ∧ tracks c' σ.
Proof.
  intros Hf. induction ids as [|id ids IH]; intros c σ Ht Hids; simpl; [by exists c|].
  destruct (tracks_query fuel c σ id Hf Ht) as (c1 & Hq & Ht1); [apply Hids; by left|].
  rewrite Hq. apply IH; [done|]. intros k Hk. apply Hids. by right.
Qed.

Lemma tracks_depart_n2 c σ :
  tracks c σ → dom σ = {[node_n 0; node_n 1; node_n 2]} →
  ∃ c', depart_n2 c = Done c' ∧ tracks c' (delete (node_n 2) σ).
Proof.
  intros Ht Hd. exists (demo_depart c (node_n 2)). split; [|by apply tracks_depart].
  apply depart_n2_spec. by rewrite (tracks_dom c σ).
Qed.
End Agreement.

(** The counter of every node. *)
Definition counters {M C} (c : InProcessCluster (M:=M) (C:=C)) : gmap NodeId Counter :=
  (λ e, so_value (sh_state (shard e))) <$> engines c.

Lemma counters_tracked `{HashIter} {M C} `{!ViewMapOps Counter M} `{!ViewMapLaws Counter M} `{Clock C}
    `{!Bincode Counter} config (c : InProcessCluster (M:=M) (C:=C)) σ :
  tracks config c σ → counters c = fst <$> σ.
Proof. intros (_ & _ & <-). unfold states. by rewrite <- map_fmap_compose. Qed.

Lemma demo_codec `{BincodeLaws Counter} : codec_ok.
Proof. intros v. apply versioned_roundtrip. Qed.

(** [C12] With active push the cluster is a map of counters.  However it got there, by
    mutations, queries and departures: creating it gives every node the default counter,
    a mutation of a node changes that node's counter and no other, a departure removes
    one, and a query answers at any node with the current counters of the whole cluster.
    No call panics, and two levels of recursion suffice for all of them. *)
Theorem demo_refines_counters `{HashIter} {M C} `{!ViewMapOps Counter M} `{!ViewMapLaws Counter M}
    `{Clock C} `{BincodeLaws Counter} (fuel : nat) (clocks : nat → C) (count : nat) (config : StateConfig) :
  (2 ≤ fuel)%nat → after_epoch clocks → push_mode (sync_strategy config) = Some ActivePush →
  (∃ c : InProcessCluster (M:=M), demo_new fuel clocks count config = Some (Done c) ∧
     demo_reach config c ∧
     counters c = gset_to_gmap Counter_default (list_to_set (node_n <$> seq 0 count))) ∧
  ∀ c : InProcessCluster (M:=M) (C:=C), demo_reach config c →
    (∀ id e f, engines c !! id = Some e → age (generation_of e) < u64_max →
       ∃ c', demo_mutate fuel c id f = Some (Done c') ∧ counters c' = alter f id (counters c)) ∧
    (∀ id, is_Some (engines c !! id) → ∃ c',
       demo_query fuel c id = Some (Done (c', counter_value <$> counters c)) ∧
       counters c' = counters c) ∧
    (∀ id, counters (demo_depart c id) = delete id (counters c)).
Proof.
  intros Hf Hclk Hpush. pose proof demo_codec as Hcodec. split.
  - destruct (tracks_new config Hpush Hcodec fuel clocks count) as (c & σ & Hnew & Hr & Ht & Hd & Hs);
      [done..|]. exists c. split_and!; [done..|]. rewrite (counters_tracked config c σ Ht), <- Hd.
    apply map_eq. intros k. rewrite lookup_fmap, lookup_gset_to_gmap.
    destruct (σ !! k) as [s|] eqn:Hk; simpl.
    + rewrite option_guard_True by (by eapply elem_of_dom_2). simpl. f_equal. by eapply Hs.
    + rewrite option_guard_False; [done|]. by apply not_elem_of_dom.
  - intros c Hr. destruct (demo_reach_agreed config Hpush Hcodec c Hr) as (n & Hn & Hsim & Ha).
    assert (tracks config c (states c)) as Ht by (split_and!; [by exists n|done..]).
    rewrite (counters_tracked config c _ Ht). split_and!.
    + intros id e f He Hage. set (s := (so_value (sh_state (shard e)), generation_of e)).
      assert (states c !! id = Some s) as Hid by (unfold states; by rewrite lookup_fmap, He).
      destruct (tracks_mutate config Hpush Hcodec fuel c (states c) id s f) as (c' & Hm & Ht'); [done..|].
      exists c'. split; [done|]. rewrite (counters_tracked config c' _ Ht'), fmap_insert.
      apply map_eq. intros k. rewrite lookup_insert. case_decide as Hk.
      * subst k. by rewrite lookup_alter_eq, lookup_fmap, Hid.
      * by rewrite lookup_alter_ne.
    + intros id [e He]. destruct (tracks_query config Hcodec fuel c (states c) id) as (c' & Hq & Ht'); [done..| |].
      { unfold states. rewrite lookup_fmap, He. by eexists. }
      exists c'. rewrite Hq, map_fmap_compose. split; [done|]. by rewrite (counters_tracked config c' _ Ht').
    + intros id. by rewrite (counters_tracked config _ _ (tracks_depart config Hpush Hcodec c _ id Ht)), fmap_delete.
Qed.

Lemma remaining_views (σ : gmap NodeId (Counter * Generation)) x0 x1 x2 :
  dom σ = {[node_n 0; node_n 1; node_n 2]} →
  counter_value ∘ fst <$> delete (node_n 2) (<[node_n 2 := x2]> (<[node_n 1 := x1]> (<[node_n 0 := x0]> σ)))
    = {[node_n 0 := counter_value x0.1; node_n 1 := counter_value x1.1]}.
Proof.
  intros Hd. assert (node_n 0 ≠ node_n 1 ∧ node_n 0 ≠ node_n 2 ∧ node_n 1 ≠ node_n 2) as (? & ? & ?).
  { split_and!; by intros ?%(inj node_n). }
  apply map_eq. intros k. rewrite lookup_fmap.
  destruct (decide (k = node_n 0)) as [->|]; [by simplify_map_eq|].
  destruct (decide (k = node_n 1)) as [->|]; [by simplify_map_eq|].
  destruct (decide (k = node_n 2)) as [->|]; [by simplify_map_eq|]. simplify_map_eq.
  replace (σ !! k) with (@None (Counter * Generation)); [done|].
  symmetry. apply not_elem_of_dom. rewrite Hd. set_solver.
Qed.

(** The program itself: [main] runs to its end, none of its assertions fails, and what
    node 0 shows in the end are the counters of the two nodes that remain. *)
Theorem demo_main_succeeds `{HashIter} {M C} `{!ViewMapOps Counter M} `{!ViewMapLaws Counter M}
    `{Clock C} `{BincodeLaws Counter} (fuel : nat) (clocks : nat → C) :
  (2 ≤ fuel)%nat → after_epoch clocks →
  ∃ metrics health, demo_main (M:=M) fuel clocks =
    Some (Done ({[node_n 0 := 42; node_n 1 := 100]}, metrics, health)).
Proof.
  intros Hf Hclk. pose proof demo_codec as Hcodec.
  destruct (tracks_new main_config eq_refl Hcodec fuel clocks 3) as (c & σ & Hnew & _ & Ht & Hd & Hs); [done..|].
  change (list_to_set _) with ({[node_n 0]} ∪ ({[node_n 1]} ∪ ({[node_n 2]} ∪ ∅)) : gset NodeId) in Hd.
  assert (∀ i, node_n i ∈ dom σ → ∃ s, σ !! node_n i = Some s ∧ age s.2 < u64_max) as Hin.
  { intros i [s Hsi]%elem_of_dom. exists s. split; [done|]. by destruct (Hs _ _ Hsi) as [_ ->]. }
  assert (node_n 0 ≠ node_n 1 ∧ node_n 0 ≠ node_n 2 ∧ node_n 1 ≠ node_n 2) as (H01 & H02 & H12).
  { split_and!; by intros ?%(inj node_n). }
  destruct (Hin 0%nat ltac:(set_solver)) as (s0 & Hs0 & Ha0), (Hin 1%nat ltac:(set_solver)) as (s1 & Hs1 & Ha1),
    (Hin 2%nat ltac:(set_solver)) as (s2 & Hs2 & Ha2).
  unfold demo_main. rewrite Hnew. cbn [and_then].
  destruct (tracks_mutate main_config eq_refl Hcodec fuel c σ (node_n 0) s0
    (λ _, mkCounter 42 "hello from node-0")) as (c1 & -> & Ht1); [done..|]. cbn [and_then].
  destruct (tracks_query_each main_config Hcodec fuel [node_n 0; node_n 1; node_n 2] Hf c1 _ Ht1)
    as (c2 & -> & Ht2); [|cbn [and_then]].
  { intros id Hid. repeat (apply elem_of_cons in Hid as [->|Hid]); [by simplify_map_eq..|].
    by apply elem_of_nil in Hid. }
  destruct (tracks_mutate main_config eq_refl Hcodec fuel c2 _ (node_n 1) s1
    (λ _, mkCounter 100 "node-1 reporting") Hf Ht2) as (c3 & -> & Ht3); [by simplify_map_eq|done|].
  cbn [and_then].
  destruct (tracks_mutate main_config eq_refl Hcodec fuel c3 _ (node_n 2) s2
    (λ _, mkCounter 200 "node-2 active") Hf Ht3) as (c4 & -> & Ht4); [by simplify_map_eq|done|].
  cbn [and_then].
  destruct (tracks_query main_config Hcodec fuel c4 _ (node_n 0) Hf Ht4) as (c5 & -> & Ht5);
    [by simplify_map_eq|]. cbn [and_then]. unfold assert_view. rewrite !lookup_fmap. simplify_map_eq.
  destruct (tracks_depart_n2 main_config eq_refl Hcodec c5 _ Ht5) as (c6 & -> & Ht6).
  { rewrite !dom_insert_L, Hd. set_solver. }
  cbn [expect fmap option_fmap option_map mbind outcome_bind and_then compose fst].
  destruct (tracks_query main_config Hcodec fuel c6 _ (node_n 0) Hf Ht6) as (c7 & -> & Ht7);
    [by simplify_map_eq|]. cbn [and_then].
  assert (is_Some (engines c7 !! node_n 0)) as [e ->].
  { apply elem_of_dom. rewrite (tracks_dom main_config c7 _ Ht7). apply elem_of_dom. by simplify_map_eq. }
  rewrite lookup_fmap, lookup_delete_eq. cbn. do 2 eexists. do 4 f_equal.
  by rewrite (remaining_views σ).
Qed.
