(* ===== verification/Registry.v ===== *)
(** The registry of state shards ([registry.rs]): registration under unique names,
    typed lookup and the broadcasts of cluster events.

    Rust types are the codes of an arbitrary universe [ty]; a [Box<dyn AnyStateShard>]
    is a code with a value of its type, and [as_any] may hand out another object than
    the shard itself, as any implementation of the trait may. *)
From stdpp Require Import prelude gmap fin_maps strings.
From S2P Require Import Prelude Node Types.

Section Registry.
Context `{HashIter}.
(** [TypeId]s, what they stand for, and [std::any::type_name]. *)
Context {TypeId : Type} `{EqDecision TypeId} (ty : TypeId → Type) (type_name : TypeId → string).

(** [&dyn Any]. *)
Definition DynAny : Type := { i : TypeId & ty i }.

(** [downcast_ref::<T>()]. *)
Definition downcast_ref (j : TypeId) (x : DynAny) : option (ty j) :=
  match decide (projT1 x = j) with
  | left eq => Some (eq_rect (projT1 x) ty (projT2 x) j eq)
  | right _ => None
  end.

(** [AnyStateShard].  The handlers take [&self]; the shard's interior state after the
    call is returned. *)
Class AnyStateShard (T : Type) : Type := {
  shard_state_name : T → string;
  shard_node_joined : T → NodeId → T;
  shard_node_left : T → NodeId → T;
  shard_mark_stale : T → NodeId → Z → Z → T;
  as_any : T → DynAny
}.

Context `{!∀ i, AnyStateShard (ty i)}.

(** [StateRegistry]: type identifiers and shards by name. *)
Record StateRegistry : Type := mkStateRegistry { shards : gmap string (TypeId * DynAny) }.

Definition registry_new : StateRegistry := mkStateRegistry ∅.

Definition register (r : StateRegistry) (i : TypeId) (shard : ty i) :
    StateRegistry * result () RegistryError :=
  let name := shard_state_name shard in
  if bool_decide (is_Some (shards r !! name)) then (r, Err (DuplicateName name))
  else (mkStateRegistry (<[name := (i, existT i shard)]> (shards r)), Ok ()).

Definition lookup_shard (r : StateRegistry) (name : string) : result DynAny RegistryError :=
  match shards r !! name with
  | Some (_, shard) => Ok shard
  | None => Err (StateNotRegistered name)
  end.

Definition lookup_typed (r : StateRegistry) (j : TypeId) (name : string) :
    result (ty j) RegistryError :=
  match shards r !! name with
  | None => Err (StateNotRegistered name)
  | Some (registered_tid, shard) =>
      if negb (bool_decide (registered_tid = j))
      then Err (TypeMismatch name (type_name j) "different type")
      else
        match downcast_ref j (as_any (projT2 shard)) with
        | Some t => Ok t
        | None => Err (TypeMismatch name (type_name j) "downcast failed")
        end
  end.

(** One call of a handler through the trait object. *)
Definition on_shard (f : ∀ i, ty i → ty i) (e : TypeId * DynAny) : TypeId * DynAny :=
  (e.1, existT (projT1 e.2) (f (projT1 e.2) (projT2 e.2))).

(** [for (_, shard) in self.shards.values() { .. }]. *)
Definition broadcast (r : StateRegistry) (f : ∀ i, ty i → ty i) : StateRegistry :=
  mkStateRegistry
    (foldl (λ m ne, <[ne.1 := on_shard f ne.2]> m) (shards r) (hm_iter (shards r))).

Definition broadcast_node_joined (r : StateRegistry) (id : NodeId) : StateRegistry :=
  broadcast r (λ i s, shard_node_joined s id).
Definition broadcast_node_left (r : StateRegistry) (id : NodeId) : StateRegistry :=
  broadcast r (λ i s, shard_node_left s id).

Definition registry_len (r : StateRegistry) : nat := size (shards r).
Definition registry_is_empty (r : StateRegistry) : bool := bool_decide (shards r = ∅).
Definition state_names (r : StateRegistry) : list string := (hm_iter (shards r)).*1.

(** Every shard is filed under its name and its type. *)
Definition registry_ok (r : StateRegistry) : Prop :=
  ∀ name i s, shards r !! name = Some (i, s) →
    projT1 s = i ∧ shard_state_name (projT2 s) = name.

Lemma downcast_same i (s : ty i) : downcast_ref i (existT i s) = Some s.
Proof.
  unfold downcast_ref. simpl. destruct (decide (i = i)) as [eq|]; [|done].
  by rewrite (proof_irrel eq eq_refl).
Qed.

Lemma downcast_other i j (s : ty i) : i ≠ j → downcast_ref j (existT i s) = None.
Proof. intros Hne. unfold downcast_ref. simpl. by destruct (decide (i = j)). Qed.

Lemma broadcast_shards r f : shards (broadcast r f) = on_shard f <$> shards r.
Proof.
  unfold broadcast; simpl. apply map_eq. intros k. rewrite lookup_fmap.
  assert (∀ l (m : gmap string (TypeId * DynAny)), NoDup l.*1 → (∀ k e, (k, e) ∈ l → m !! k = Some e) →
    foldl (λ m ne, <[ne.1 := on_shard f ne.2]> m) m l !! k =
      (if decide (k ∈ l.*1) then on_shard f <$> m !! k else m !! k)) as Hfold.
  { induction l as [|[k' e] l IH]; intros m Hnd Hm.
    { by rewrite decide_False by (by intros ?%elem_of_nil). }
    rewrite fmap_cons in *. cbn [foldl]. apply NoDup_cons in Hnd as [Hni Hnd]. rewrite IH; [|done|].
    - rewrite lookup_insert. destruct (decide (k = k')) as [->|Hne].
      + rewrite (decide_False (P := k' ∈ l.*1)), (decide_True (P := k' = k')),
          (decide_True (P := k' ∈ k' :: l.*1)) by (done || by left).
        by rewrite (Hm k' e ltac:(by left)).
      + rewrite (decide_False (P := k' = k)) by done.
        destruct (decide (k ∈ l.*1)).
        * by rewrite decide_True by (by right).
        * rewrite decide_False; [done|]. by intros [->|?]%elem_of_cons.
    - intros k2 e2 Hin. rewrite lookup_insert_ne; [apply Hm; by right|].
      simpl. intros ->. apply Hni, list_elem_of_fmap. by exists (k2, e2). }
  rewrite Hfold.
  - case_decide as Hin; [done|]. destruct (shards r !! k) as [e|] eqn:Hk; [|done].
    destruct Hin. apply list_elem_of_fmap. exists (k, e). by rewrite elem_of_hm_iter.
  - apply NoDup_hm_iter_fst.
  - intros k' e. by rewrite elem_of_hm_iter.
Qed.

Lemma register_ok r i s : registry_ok r → registry_ok (register r i s).1.
Proof.
  intros Hr. unfold register. case_bool_decide; [done|]. simpl.
  intros name j t. simpl. intros [[<- [= <- <-]]|[_ Hk]]%lookup_insert_Some; [done|by eapply Hr].
Qed.
End Registry.
Arguments StateRegistry {TypeId}.

(** Registration: a shard can be registered exactly when its name is free; the
    registered shard is found under its name, and, when it hands out itself as [Any],
    by its own type, while every other type is a mismatch; other names and a refused
    registration leave all lookups as they were. *)
Theorem register_then_lookup `{HashIter} {TypeId} `{EqDecision TypeId} (ty : TypeId → Type)
    (type_name : TypeId → string) `{!∀ i, AnyStateShard ty (ty i)}
    (r : StateRegistry ty) (i : TypeId) (s : ty i) :
  let '(r', res) := register ty r i s in
  let name := shard_state_name ty s in
  (res = Ok () ↔ lookup_shard ty r name = Err (StateNotRegistered name)) ∧
  (res = Ok () →
     lookup_shard ty r' name = Ok (existT i s) ∧
     registry_len ty r' = Datatypes.S (registry_len ty r) ∧
     (as_any ty s = existT i s → lookup_typed ty type_name r' i name = Ok s) ∧
     (∀ j, i ≠ j → ∃ e a, lookup_typed ty type_name r' j name = Err (TypeMismatch name e a))) ∧
  (res ≠ Ok () → r' = r ∧ res = Err (DuplicateName name)) ∧
  (∀ other j, other ≠ name → lookup_typed ty type_name r' j other = lookup_typed ty type_name r j other).
Proof.
  unfold register. destruct (shards ty r !! shard_state_name ty s) as [[k x]|] eqn:Hk.
  - rewrite bool_decide_eq_true_2 by (by eexists). unfold lookup_shard. rewrite Hk.
    by split_and!.
  - rewrite bool_decide_eq_false_2 by (by intros [??]). simpl.
    unfold lookup_shard, lookup_typed, registry_len; simpl. rewrite Hk, lookup_insert_eq.
    split_and!; try done.
    + intros _. split_and!; [done|by rewrite map_size_insert_None|..].
      * rewrite lookup_insert_eq,  bool_decide_eq_true_2 by done. simpl. intros ->. by rewrite downcast_same.
      * intros j Hne. rewrite lookup_insert_eq,  bool_decide_eq_false_2 by done. simpl. eauto.
    + intros other j Hne. by rewrite lookup_insert_ne.
Qed.

(** A broadcast reaches every registered shard exactly once, whatever the order of
    the map, and changes neither the names nor the types. *)
Theorem broadcast_reaches_all `{HashIter} {TypeId} `{EqDecision TypeId} (ty : TypeId → Type)
    `{!∀ i, AnyStateShard ty (ty i)} (r : StateRegistry ty) (id : NodeId) (name : string) :
  shards ty (broadcast_node_joined ty r id) !! name =
    ((λ e, (e.1, existT (projT1 e.2) (shard_node_joined ty (projT2 e.2) id))) <$> shards ty r !! name) ∧
  shards ty (broadcast_node_left ty r id) !! name =
    ((λ e, (e.1, existT (projT1 e.2) (shard_node_left ty (projT2 e.2) id))) <$> shards ty r !! name) ∧
  state_names ty (broadcast_node_joined ty r id) ≡ₚ state_names ty r.
Proof.
  unfold broadcast_node_joined, broadcast_node_left. rewrite !broadcast_shards, !lookup_fmap.
  split_and!; [done..|]. unfold state_names. rewrite !hm_iter_perm, broadcast_shards.
  rewrite map_to_list_fmap. rewrite <- list_fmap_compose.
  by erewrite list_fmap_ext by (intros ? [??] _; done).
Qed.
