(* ===== verification/StateActor.v ===== *)
(** The actor host ([dstate-dactor]): [StateActor] owns an engine, shares a registry
    of peer senders and turns the engine's actions into sends.

    A handler returns the actor, the shared registry and the effects in order: sends to
    the senders of peers, and tasks spawned for delayed broadcasts, which read the
    registry and the cancellation token again when their timer fires. *)
From stdpp Require Import prelude gmap fin_maps strings.
From S2P Require Import Prelude Node Clock Types ViewMap ShardCore SyncLogic ChangeFeed.
From S2P Require Import Versioning Lifecycle Diagnostics Engine EngineProps.

(** The messages of the actor ([messages.rs]). *)
Inductive ClusterChange (V : Type) : Type :=
| NodeJoined (node_id : NodeId) (default_view : V)
| NodeLeft (node_id : NodeId).
Arguments NodeJoined {V}.
Arguments NodeLeft {V}.

Inductive ActorMsg (S V : Type) : Type :=
| MsgMutate (mutate_fn : S → S) (project_fn : S → V) (urgency : SyncUrgency)
| MsgInboundSync (message : SyncMessage)
| MsgInboundWire (message : WireMessage)
| MsgQueryViews (max_staleness : Duration)
| MsgClusterChange (change : ClusterChange V)
| MsgPeriodicSync
| MsgFlushChangeFeed.
Arguments MsgMutate {S V}.
Arguments MsgInboundSync {S V}.
Arguments MsgInboundWire {S V}.
Arguments MsgQueryViews {S V}.
Arguments MsgClusterChange {S V}.
Arguments MsgPeriodicSync {S V}.
Arguments MsgFlushChangeFeed {S V}.

(** [QueryReply<V>]. *)
Record QueryReply (V : Type) : Type := mkQueryReply {
  qr_views : gmap NodeId (StateViewObject V);
  qr_result : EngineQueryResult ()
}.
Arguments mkQueryReply {V}.
Arguments qr_views {V}.
Arguments qr_result {V}.

(** A task spawned by a delayed action: what it captured. *)
Record DelayedSend : Type := mkDelayedSend {
  ds_delay : Duration;
  ds_message : SyncMessage;
  ds_own_id : NodeId
}.

Section StateActor.
Context `{HashIter} {S V M C : Type} `{!ViewMapOps V M} `{!ViewMapLaws V M} `{Clock C}.
(** The handles behind [Arc<dyn PeerSender>]. *)
Context {Sender : Type}.
Implicit Types (clk : C) (peers : gmap NodeId Sender).

(** What a handler does to the outside. *)
Inductive Effect : Type :=
| SentSync (to : Sender) (m : SyncMessage)
| SentWire (to : Sender) (m : WireMessage)
| Spawned (task : DelayedSend).

Definition new_peer_registry : gmap NodeId Sender := ∅.

Record StateActor : Type := mkStateActor {
  sa_engine : DistributedStateEngine S V M;
  sa_cancelled : bool  (** the cancellation token *)
}.
Implicit Types (a : StateActor).

Definition actor_create (engine : DistributedStateEngine S V M) : StateActor :=
  mkStateActor engine false.
Definition on_stop a : StateActor := mkStateActor (sa_engine a) true.
Definition set_engine a (e : DistributedStateEngine S V M) : StateActor :=
  mkStateActor e (sa_cancelled a).

(** The registered peers but for the node itself. *)
Definition senders_except (own_id : NodeId) peers : list (NodeId * Sender) :=
  filter (λ p, p.1 ≠ own_id) (hm_iter peers).

Definition route_action (own_id : NodeId) (senders : list (NodeId * Sender))
    (action : EngineAction) : list Effect :=
  match action with
  | BroadcastSync msg => (λ p, SentSync p.2 msg) <$> senders
  | SendSync target message =>
      match List.find (λ p, bool_decide (p.1 = target)) senders with
      | Some p => [SentSync p.2 message]
      | None => []
      end
  | ScheduleDelayed delay message => [Spawned (mkDelayedSend delay message own_id)]
  end.

Definition route_actions a peers (actions : list EngineAction) : list Effect :=
  let own_id := engine_node_id (sa_engine a) in
  let senders := senders_except own_id peers in
  actions ≫= route_action own_id senders.

(** A spawned task whose timer fired. *)
Definition delayed_fires (cancelled : bool) peers (t : DelayedSend) : list Effect :=
  if cancelled then []
  else (λ p, SentSync p.2 (ds_message t)) <$> senders_except (ds_own_id t) peers.

(** The handlers. *)
Definition handle_mutate a peers f p u clk : StateActor * list Effect :=
  let '(e, r) := mutate (sa_engine a) f p u clk in
  let a := set_engine a e in
  (a, route_actions a peers (mr_actions r)).

Definition handle_inbound_sync_msg a peers m clk : outcome (StateActor * list Effect) :=
  '(e, actions) ← handle_inbound_sync (sa_engine a) m clk;
  let a := set_engine a e in
  Done (a, route_actions a peers actions).

Definition handle_inbound_wire a peers m clk : outcome (StateActor * list Effect) :=
  '(e, actions) ← handle_inbound (sa_engine a) m clk;
  let a := set_engine a e in
  Done (a, route_actions a peers actions).

Definition handle_query_views a peers (max_staleness : Duration) clk :
    QueryReply V * list Effect :=
  let '(result, actions) := query (sa_engine a) max_staleness (λ m, m) clk in
  let effects := route_actions a peers actions in
  (match result with
   | EngineFresh views => mkQueryReply views (EngineFresh ())
   | EngineStale views stale_peers => mkQueryReply views (EngineStale () stale_peers)
   end, effects).

Definition handle_cluster_change a peers (c : ClusterChange V) clk :
    outcome (StateActor * gmap NodeId Sender * list Effect) :=
  match c with
  | NodeJoined id default_view =>
      '(e, actions) ← engine_on_node_joined (sa_engine a) id default_view clk;
      let a := set_engine a e in
      Done (a, peers, route_actions a peers actions)
  | NodeLeft id =>
      Done (set_engine a (engine_on_node_left (sa_engine a) id), delete id peers, [])
  end.

Definition handle_periodic_sync a peers : outcome (StateActor * list Effect) :=
  '(e, actions) ← periodic_sync (sa_engine a);
  let a := set_engine a e in
  Done (a, route_actions a peers actions).

Definition handle_flush_change_feed a peers : StateActor * list Effect :=
  let '(e, batch) := flush_change_feed (sa_engine a) in
  let a := set_engine a e in
  (a, match batch with
      | Some feed =>
          (λ p, SentWire p.2 (WireFeed feed)) <$> senders_except (engine_node_id e) peers
      | None => []
      end).

(** One message, handled at a time [clk]. *)
Definition actor_handle a peers (msg : ActorMsg S V) clk :
    outcome (StateActor * gmap NodeId Sender * list Effect * option (QueryReply V)) :=
  match msg with
  | MsgMutate f p u =>
      let '(a, eff) := handle_mutate a peers f p u clk in Done (a, peers, eff, None)
  | MsgInboundSync m =>
      '(a, eff) ← handle_inbound_sync_msg a peers m clk; Done (a, peers, eff, None)
  | MsgInboundWire m =>
      '(a, eff) ← handle_inbound_wire a peers m clk; Done (a, peers, eff, None)
  | MsgQueryViews d =>
      let '(reply, eff) := handle_query_views a peers d clk in Done (a, peers, eff, Some reply)
  | MsgClusterChange c =>
      '(a, peers, eff) ← handle_cluster_change a peers c clk; Done (a, peers, eff, None)
  | MsgPeriodicSync =>
      '(a, eff) ← handle_periodic_sync a peers; Done (a, peers, eff, None)
  | MsgFlushChangeFeed =>
      let '(a, eff) := handle_flush_change_feed a peers in Done (a, peers, eff, None)
  end.

(** Messages one after the other; the effects of all of them in order. *)
Fixpoint actor_run a peers (msgs : list (ActorMsg S V * C)) :
    outcome (StateActor * gmap NodeId Sender * list Effect) :=
  match msgs with
  | [] => Done (a, peers, [])
  | (msg, clk) :: msgs =>
      '(a, peers, eff, _) ← actor_handle a peers msg clk;
      '(a, peers, effs) ← actor_run a peers msgs;
      Done (a, peers, eff ++ effs)
  end.

(** The call of the engine a message stands for; a query changes nothing. *)
Definition engine_call (msg : ActorMsg S V) clk : list (EngineOp S V C) :=
  match msg with
  | MsgMutate f p u => [OpMutate f p u clk]
  | MsgInboundSync m => [OpInbound (WireSync m) clk]
  | MsgInboundWire m => [OpInbound m clk]
  | MsgQueryViews _ => []
  | MsgClusterChange (NodeJoined id v) => [OpJoin id v clk]
  | MsgClusterChange (NodeLeft id) => [OpLeave id]
  | MsgPeriodicSync => [OpPeriodicSync]
  | MsgFlushChangeFeed => [OpFlushFeed]
  end.

(** The peers an effect reaches: for a task, those registered when it fires. *)
Definition effect_to (p : Sender → Prop) (eff : Effect) : Prop :=
  match eff with SentSync s _ | SentWire s _ => p s | Spawned _ => True end.
End StateActor.
Arguments Effect : clear implicits.
Arguments StateActor : clear implicits.

Section ActorProofs.
Context `{HashIter} {S V M C : Type} `{!ViewMapOps V M} `{!ViewMapLaws V M} `{Clock C}.
Context {Sender : Type}.
Implicit Types (a : StateActor S V M) (clk : C) (peers : gmap NodeId Sender).

Lemma elem_of_senders own peers id s :
  (id, s) ∈ senders_except own peers ↔ id ≠ own ∧ peers !! id = Some s.
Proof. unfold senders_except. by rewrite list_elem_of_filter, elem_of_hm_iter. Qed.

(** Every send goes to a registered peer other than the node itself. *)
Definition sends_to_peers own peers (eff : list (Effect Sender)) : Prop :=
  ∀ x, x ∈ eff → effect_to (λ s, ∃ id, id ≠ own ∧ peers !! id = Some s) x.

Lemma broadcast_to_peers own peers (f : NodeId * Sender → Effect Sender) :
  (∀ id s p, id ≠ own ∧ peers !! id = Some s → p s → effect_to p (f (id, s))) →
  sends_to_peers own peers (f <$> senders_except own peers).
Proof.
  intros Hf x ([id s] & -> & Hin%elem_of_senders)%list_elem_of_fmap.
  apply Hf; [done|]. eauto.
Qed.

Lemma route_to_peers a peers actions :
  sends_to_peers (engine_node_id (sa_engine a)) peers (route_actions a peers actions).
Proof.
  intros x. unfold route_actions. rewrite list_elem_of_bind. intros (act & Hx & _).
  destruct act as [m|t m|d m]; simpl in Hx.
  - revert x Hx. by apply (broadcast_to_peers _ _ (λ p, SentSync p.2 m)).
  - destruct (List.find _ _) as [[id s]|] eqn:Hf; [|by apply elem_of_nil in Hx].
    apply list_elem_of_singleton in Hx as ->. apply List.find_some in Hf as [Hin _].
    apply list_elem_of_In, elem_of_senders in Hin. simpl. eauto.
  - by apply list_elem_of_singleton in Hx as ->.
Qed.

Lemma actor_handle_engine a peers msg clk a' peers' eff reply :
  actor_handle a peers msg clk = Done (a', peers', eff, reply) →
  run_engine (sa_engine a) (engine_call msg clk) = Done (sa_engine a') ∧
  sa_cancelled a' = sa_cancelled a ∧
  sends_to_peers (engine_node_id (sa_engine a')) peers eff.
Proof.
  destruct msg as [f p u|m|m|d|[id v|id]| |]; simpl.
  - unfold handle_mutate. destruct (mutate _ _ _ _ _) as [e r]. intros [= <- <- <- _].
    split_and!; try done. apply (route_to_peers (set_engine a e)).
  - unfold handle_inbound_sync_msg. destruct (handle_inbound_sync _ _ _) as [[e acts]|]; [|done].
    intros [= <- <- <- _]. split_and!; try done. apply (route_to_peers (set_engine a e)).
  - unfold handle_inbound_wire. destruct (handle_inbound _ _ _) as [[e acts]|]; [|done].
    intros [= <- <- <- _]. split_and!; try done. apply (route_to_peers (set_engine a e)).
  - unfold handle_query_views. destruct (query _ _ _ _) as [r acts].
    intros [= <- <- <- _]. split_and!; try done. apply route_to_peers.
  - destruct (engine_on_node_joined _ _ _ _) as [[e acts]|]; [|done].
    intros [= <- <- <- _]. split_and!; try done. apply (route_to_peers (set_engine a e)).
  - intros [= <- <- <- _]. split_and!; try done. by intros x ?%elem_of_nil.
  - unfold handle_periodic_sync. destruct (periodic_sync _) as [[e acts]|]; [|done].
    intros [= <- <- <- _]. split_and!; try done. apply (route_to_peers (set_engine a e)).
  - unfold handle_flush_change_feed. destruct (flush_change_feed _) as [e b].
    intros [= <- <- <- _]. split_and!; try done. destruct b; [|by intros x ?%elem_of_nil].
    by apply (broadcast_to_peers _ _ (λ p, SentWire p.2 (WireFeed _))).
Qed.

Lemma actor_handle_done a peers msg clk :
  host_ok (host (sa_engine a)) →
  ∃ a' peers' eff reply, actor_handle a peers msg clk = Done (a', peers', eff, reply) ∧
    host_ok (host (sa_engine a')).
Proof.
  intros Hok.
  assert (is_done (actor_handle a peers msg clk)) as [[[[a' peers'] eff] reply] Hr].
  { destruct (engine_call msg clk) as [|op l] eqn:Hop.
    - destruct msg as [| | | |[]| |]; simpl in Hop; try done.
      unfold actor_handle. destruct (handle_query_views _ _ _ _). by eexists.
    - destruct (run_engine_op_done (sa_engine a) op Hok) as (e' & acts & b & Hrun & _).
      destruct msg as [f p u|m|m|d|[id v|id]| |]; simplify_eq/=; try by repeat case_match; eexists.
      + unfold handle_inbound_sync_msg. destruct (handle_inbound_sync _ _ _) as [[??]|]; [|done].
        by eexists.
      + unfold handle_inbound_wire. destruct (handle_inbound _ _ _) as [[??]|]; [|done].
        by eexists.
      + destruct (engine_on_node_joined _ _ _ _) as [[??]|]; [|done]. by eexists.
      + unfold handle_periodic_sync. destruct (periodic_sync _) as [[??]|]; [|done]. by eexists. }
  exists a', peers', eff, reply. split; [done|].
  destruct (actor_handle_engine _ _ _ _ _ _ _ _ Hr) as (Hrun & _).
  destruct (run_engine_done (engine_call msg clk) _ Hok) as (e & He & Hoke). congruence.
Qed.

Lemma run_engine_app ops1 ops2 (e e1 : DistributedStateEngine S V M) :
  run_engine e ops1 = Done e1 → run_engine (C:=C) e (ops1 ++ ops2) = run_engine e1 ops2.
Proof.
  revert e. induction ops1 as [|op ops1 IH]; intros e; simpl; [by intros [= ->]|].
  destruct (run_engine_op e op) as [[[e2 a2] b2]|]; simpl; [|done]. apply IH.
Qed.

Lemma actor_run_engine msgs : ∀ a peers,
  host_ok (host (sa_engine a)) →
  ∃ a' peers' eff, actor_run a peers msgs = Done (a', peers', eff) ∧
    run_engine (sa_engine a) (msgs ≫= λ mc, engine_call mc.1 mc.2) = Done (sa_engine a') ∧
    sa_cancelled a' = sa_cancelled a.
Proof.
  induction msgs as [|[msg clk] msgs IH]; intros a peers Hok; simpl; [by eexists _, _, _|].
  destruct (actor_handle_done a peers msg clk Hok) as (a1 & p1 & eff1 & r1 & Hh & Hok1).
  rewrite Hh. simpl. destruct (IH a1 p1 Hok1) as (a2 & p2 & eff2 & -> & Hrun & Hc).
  destruct (actor_handle_engine _ _ _ _ _ _ _ _ Hh) as (Hrun1 & Hc1 & _).
  exists a2, p2, (eff1 ++ eff2). split_and!; [done| |congruence].
  erewrite run_engine_app by exact Hrun1. exact Hrun.
Qed.
End ActorProofs.

(** The actor is the engine: handling any messages in any order never fails, and
    leaves the engine exactly as the corresponding engine calls would; a query leaves it
    alone.  So every theorem about runs of an engine holds of a hosted engine. *)
Theorem actor_refines_engine `{HashIter} {S V M C Sender} `{!ViewMapOps V M} `{!ViewMapLaws V M} `{Clock C}
    (name : string) (id : NodeId) (x : S) (p : S → V) (cfg : StateConfig) (w : Z) (clk : C)
    (ser : SerializeViewFn V) (de : DeserializeViewFn V) (ap : option (InboundDeltaApplierFn V))
    (peers : gmap NodeId Sender) (msgs : list (ActorMsg S V * C)) :
  let e := engine_new (M:=M) name id x p cfg w clk ser de ap in
  ∃ a' peers' effects,
    actor_run (actor_create e) peers msgs = Done (a', peers', effects) ∧
    run_engine e (msgs ≫= λ mc, engine_call mc.1 mc.2) = Done (sa_engine a').
Proof.
  intros e. destruct (engine_new_ok (M:=M) name id x p cfg w clk ser de ap) as [Hok _].
  destruct (actor_run_engine msgs (actor_create e) peers Hok) as (a' & p' & eff & Hrun & He & _).
  eauto.
Qed.

(** [C31] Routing: a message handled by the actor is sent only to registered peers and
    never to the node itself; a broadcast reaches every other registered peer exactly
    once; a targeted send reaches the target if it is a registered peer and nobody
    otherwise; after [NodeLeft] the peer is out of the registry, so nothing is sent to
    it, not even by a delayed task spawned before; a cancelled task sends nothing. *)
Theorem actor_routing `{HashIter} {S V M C Sender} `{!ViewMapOps V M} `{!ViewMapLaws V M} `{Clock C}
    (a : StateActor S V M) (peers : gmap NodeId Sender) (clk : C) (m : SyncMessage)
    (target : NodeId) (delay : Duration) :
  let own := engine_node_id (sa_engine a) in
  (∀ msg a' peers' eff reply, actor_handle a peers msg clk = Done (a', peers', eff, reply) →
     sends_to_peers (engine_node_id (sa_engine a')) peers eff) ∧
  (route_actions a peers [BroadcastSync m] ≡ₚ
     (λ p, SentSync p.2 m) <$> map_to_list (delete own peers)) ∧
  route_actions a peers [SendSync target m] =
    (if decide (target = own) then [] else
     match peers !! target with Some s => [SentSync s m] | None => [] end) ∧
  (∀ a' peers' eff, handle_cluster_change a peers (NodeLeft target) clk = Done (a', peers', eff) →
     peers' = delete target peers ∧ eff = [] ∧
     sends_to_peers own (delete target peers)
       (delayed_fires (sa_cancelled a') peers' (mkDelayedSend delay m own))) ∧
  delayed_fires (sa_cancelled (on_stop a)) peers (mkDelayedSend delay m own) = [].
Proof.
  intros own. split_and!; [| | | |done].
  - intros msg a' peers' eff reply Hh. by eapply actor_handle_engine.
  - unfold route_actions. simpl. rewrite app_nil_r. apply fmap_Permutation.
    apply NoDup_Permutation.
    + apply NoDup_filter. apply (NoDup_fmap_1 fst), NoDup_hm_iter_fst.
    + apply NoDup_map_to_list.
    + intros [k s]. rewrite elem_of_senders, elem_of_map_to_list, lookup_delete_Some.
      naive_solver.
  - unfold route_actions. simpl. rewrite app_nil_r.
    destruct (List.find _ _) as [[k s]|] eqn:Hf.
    + apply List.find_some in Hf as [Hin Hk]. apply list_elem_of_In, elem_of_senders in Hin.
      apply bool_decide_eq_true in Hk. simpl in Hk. subst k. destruct Hin as [Hne ->].
      by rewrite decide_False.
    + case_decide as Hd; [done|]. destruct (peers !! target) as [s|] eqn:Hs; [|done].
      assert ((target, s) ∈ senders_except own peers) as Hin by by apply elem_of_senders.
      apply list_elem_of_In in Hin. pose proof (List.find_none _ _ Hf _ Hin) as Hb.
      simpl in Hb. by rewrite bool_decide_eq_true_2 in Hb.
  - intros a' peers' eff. simpl. intros [= <- <- <-]. split_and!; [done..|].
    unfold delayed_fires. case_match; [by intros x ?%elem_of_nil|]. simpl.
    by apply (broadcast_to_peers _ _ (λ p, SentSync p.2 m)).
Qed.
