(* ===== verification/ActorSystem.v ===== *)
(** The actors of a cluster, together ([dstate-dactor/src/state_actor.rs]).

    Every node hosts its engine in a [StateActor].  Actors know each other through
    registries of [ActorRefPeerSender]s, which hand messages to the actor framework.  The
    framework is a parameter: it keeps, for every actor reference, the messages that were
    told and not yet handled; it may refuse a message, lose one, and hand the pending
    messages to the actor in any order.

    The system refines the network: what holds of every schedule of the network holds of
    the actors, whatever the application tells them and however registries are shared. *)
From stdpp Require Import prelude gmap fin_maps strings relations.
From S2P Require Import Prelude Node Clock Types ViewMap ShardCore ShardProps SyncLogic.
From S2P Require Import ChangeFeed Versioning Lifecycle Diagnostics Engine EngineProps.
From S2P Require Import Protocol Accounting Network NetworkRuns StateActor.

(** ** The framework *)

(** Actor references, and the framework's state: [fw_mailbox f r] are the messages told to
    [r] that are still to be handled. *)
Class ActorFramework (Ref Msg Fw : Type) : Type := {
  fw_mailbox : Fw → Ref → list Msg;
  fw_tell : Ref → Msg → Fw → Fw * result () string;
  fw_receive : Ref → Fw → option (Msg * Fw)
}.

(** An actor is handed only messages it was told. *)
Class ActorFrameworkLaws (Ref Msg Fw : Type) `{ActorFramework Ref Msg Fw} : Prop := {
  fw_tell_mailbox r m f r' m' :
    m' ∈ fw_mailbox (fw_tell r m f).1 r' → m' ∈ fw_mailbox f r' ∨ (r' = r ∧ m' = m);
  fw_receive_mailbox r m f f' :
    fw_receive r f = Some (m, f') →
    m ∈ fw_mailbox f r ∧ ∀ r' m', m' ∈ fw_mailbox f' r' → m' ∈ fw_mailbox f r'
}.

Section System.
Context `{HashIter} {S V M C : Type} `{!ViewMapOps V M} `{!ViewMapLaws V M} `{Clock C}.
Context {Ref Fw : Type} `{Countable Ref}.
Context `{!ActorFramework Ref (ActorMsg S V) Fw}.
Implicit Types (r : Ref) (fw : Fw) (clk : C).

(** A [PeerSender] backed by an actor reference; a refused message is only logged. *)
Record ActorRefPeerSender : Type := mkActorRefPeerSender { actor_ref : Ref }.

Definition send_sync (s : ActorRefPeerSender) (message : SyncMessage) fw : Fw :=
  match fw_tell (actor_ref s) (MsgInboundSync message) fw with
  | (fw, Ok _) => fw
  | (fw, Err _) => fw
  end.
Definition send_wire (s : ActorRefPeerSender) (message : WireMessage) fw : Fw :=
  match fw_tell (actor_ref s) (MsgInboundWire message) fw with
  | (fw, Ok _) => fw
  | (fw, Err _) => fw
  end.

(** ** The system *)

(** An actor with the registry it was given.  A stopped actor stays: the tasks it spawned
    still read its cancellation token. *)
Record ActorCell : Type := mkActorCell { cell_actor : StateActor S V M; cell_registry : nat }.

Record ActorSystem : Type := mkActorSystem {
  as_cells : gmap Ref ActorCell;
  as_registries : gmap nat (gmap NodeId ActorRefPeerSender);
  as_tasks : list (Ref * DelayedSend);
  as_framework : Fw;
  as_used : gmap NodeId Z  (** the latest incarnation under every name *)
}.
Implicit Types (sys : ActorSystem) (c : ActorCell).

Definition set_cell sys r c : ActorSystem :=
  mkActorSystem (<[r := c]> (as_cells sys)) (as_registries sys) (as_tasks sys)
    (as_framework sys) (as_used sys).
Definition set_registry sys g peers : ActorSystem :=
  mkActorSystem (as_cells sys) (<[g := peers]> (as_registries sys)) (as_tasks sys)
    (as_framework sys) (as_used sys).
Definition set_tasks sys tasks : ActorSystem :=
  mkActorSystem (as_cells sys) (as_registries sys) tasks (as_framework sys) (as_used sys).
Definition set_framework sys fw : ActorSystem :=
  mkActorSystem (as_cells sys) (as_registries sys) (as_tasks sys) fw (as_used sys).
Definition set_used sys used : ActorSystem :=
  mkActorSystem (as_cells sys) (as_registries sys) (as_tasks sys) (as_framework sys) used.

Definition registry_of sys (g : nat) : gmap NodeId ActorRefPeerSender :=
  default new_peer_registry (as_registries sys !! g).

(** What the handler of actor [r] does to the outside. *)
Definition perform_effect r sys (eff : Effect ActorRefPeerSender) : ActorSystem :=
  match eff with
  | SentSync s m => set_framework sys (send_sync s m (as_framework sys))
  | SentWire s m => set_framework sys (send_wire s m (as_framework sys))
  | Spawned t => set_tasks sys (as_tasks sys ++ [(r, t)])
  end.
Definition perform r sys (effs : list (Effect ActorRefPeerSender)) : ActorSystem :=
  foldl (perform_effect r) sys effs.

Definition cell_engine c : DistributedStateEngine S V M := sa_engine (cell_actor c).
Definition stopped c : bool := sa_cancelled (cell_actor c).

(** The actor that runs node [id]. *)
Definition hosts sys (id : NodeId) r c : Prop :=
  as_cells sys !! r = Some c ∧ stopped c = false ∧ engine_node_id (cell_engine c) = id.

Context (name : string) (p : S → V) (w : Z)
  (ser : SerializeViewFn V) (de : DeserializeViewFn V) (ap : option (InboundDeltaApplierFn V)).

(** What an application tells an actor itself; the inbound messages are left to peers. *)
Definition application_message (msg : ActorMsg S V) : Prop :=
  match msg with
  | MsgMutate _ q _ => q = p
  | MsgInboundSync _ | MsgInboundWire _ => False
  | _ => True
  end.

(** A mutation before the age of the state runs out. *)
Definition in_range c (msg : ActorMsg S V) : Prop :=
  match msg with
  | MsgMutate _ _ _ => age (generation_of (cell_engine c)) < u64_max
  | _ => True
  end.

Inductive system_step sys : ActorSystem → Prop :=
| sys_spawn r id x cfg clk g :
    as_cells sys !! r = None → (∀ r' c, ¬ hosts sys id r' c) → later_start (as_used sys) id clk →
    system_step sys
      (set_used (set_cell sys r
         (mkActorCell (actor_create (engine_new name id x p cfg w clk ser de ap)) g))
         (<[id := as_u64 (unix_ms clk)]> (as_used sys)))
| sys_registry g peers : system_step sys (set_registry sys g peers)
| sys_tell r msg :
    application_message msg →
    system_step sys (set_framework sys (fw_tell r msg (as_framework sys)).1)
| sys_framework fw :
    (∀ r m, m ∈ fw_mailbox fw r → m ∈ fw_mailbox (as_framework sys) r) →
    system_step sys (set_framework sys fw)
| sys_handle r c msg fw clk a peers effs reply :
    as_cells sys !! r = Some c → stopped c = false →
    fw_receive r (as_framework sys) = Some (msg, fw) → in_range c msg →
    actor_handle (cell_actor c) (registry_of sys (cell_registry c)) msg clk =
      Done (a, peers, effs, reply) →
    system_step sys
      (perform r (set_registry (set_cell (set_framework sys fw) r (mkActorCell a (cell_registry c)))
         (cell_registry c) peers) effs)
| sys_timer r c t l1 l2 :
    as_tasks sys = l1 ++ (r, t) :: l2 → as_cells sys !! r = Some c →
    system_step sys
      (perform r (set_tasks sys (l1 ++ l2))
         (delayed_fires (stopped c) (registry_of sys (cell_registry c)) t))
| sys_stop r c :
    as_cells sys !! r = Some c →
    system_step sys (set_cell sys r (mkActorCell (on_stop (cell_actor c)) (cell_registry c))).

(** No actor yet, nothing told. *)
Definition system_start sys : Prop :=
  as_cells sys = ∅ ∧ as_tasks sys = [] ∧ as_used sys = ∅ ∧
  ∀ r, fw_mailbox (as_framework sys) r = [].

Definition system_reach sys : Prop := ∃ sys0, system_start sys0 ∧ rtc system_step sys0 sys.

(** ** The network behind the system *)
Local Abbreviation step := (net_step (C:=C) name p w ser de ap).
Local Abbreviation network := (Network S V M).
Local Abbreviation grows := (NetworkRuns.grows (C:=C) name p w ser de ap).
Implicit Types (n : network).

(** The message an effect carries. *)
Definition effect_message (eff : Effect ActorRefPeerSender) : WireMessage :=
  match eff with
  | SentSync _ m => WireSync m
  | SentWire _ m => m
  | Spawned t => WireSync (ds_message t)
  end.

Lemma outgoing_elem (acts : list EngineAction) b act :
  act ∈ acts → WireSync (action_message act) ∈ outgoing acts b.
Proof. intros Hin. apply elem_of_app. left. apply list_elem_of_fmap. eauto. Qed.

Lemma routed_messages (a : StateActor S V M) peers acts b x :
  x ∈ route_actions a peers acts → effect_message x ∈ outgoing acts b.
Proof.
  unfold route_actions. rewrite list_elem_of_bind. intros (act & Hx & Hact).
  apply (outgoing_elem _ b) in Hact. destruct act as [m|t m|d m]; simpl in *.
  - apply list_elem_of_fmap in Hx as (y & -> & _). done.
  - destruct (List.find _ _); [|by apply elem_of_nil in Hx].
    by apply list_elem_of_singleton in Hx as ->.
  - by apply list_elem_of_singleton in Hx as ->.
Qed.

(** A handled message is one call of the engine, or a query; the effects carry what the
    engine handed out. *)
Definition calls (e : DistributedStateEngine S V M) (msg : ActorMsg S V) clk
    (e' : DistributedStateEngine S V M) (out : list WireMessage) : Prop :=
  match msg with
  | MsgQueryViews d => e' = e ∧ out = outgoing (query e d (λ m, m) clk).2 None
  | _ => ∃ op acts b, engine_call msg clk = [op] ∧ run_engine_op e op = Done (e', acts, b) ∧
      out = outgoing acts b
  end.

Local Ltac call_of Hr := do 3 eexists; split_and!; [done|simpl; by rewrite Hr|done].

Lemma actor_handle_calls (a : StateActor S V M) peers msg clk a' peers' effs reply :
  actor_handle a peers msg clk = Done (a', peers', effs, reply) →
  ∃ out, calls (sa_engine a) msg clk (sa_engine a') out ∧
    ∀ x, x ∈ effs → effect_message x ∈ out.
Proof.
  destruct msg as [f q u|m|m|d|[id v|id]| |]; simpl.
  - unfold handle_mutate. destruct (mutate _ _ _ _ _) as [e r] eqn:Hr. intros [= <- <- <- _].
    eexists. split; [by call_of Hr|]. intros x. apply routed_messages.
  - unfold handle_inbound_sync_msg. destruct (handle_inbound_sync _ _ _) as [[e acts]|] eqn:Hr; [|done].
    intros [= <- <- <- _]. eexists. split; [by call_of Hr|].
    intros x. apply routed_messages.
  - unfold handle_inbound_wire. destruct (handle_inbound _ _ _) as [[e acts]|] eqn:Hr; [|done].
    intros [= <- <- <- _]. eexists. split; [by call_of Hr|].
    intros x. apply routed_messages.
  - unfold handle_query_views. destruct (query _ _ _ _) as [r acts] eqn:Hr.
    intros [= <- <- <- _]. exists (outgoing acts None).
    split; [done|]. intros x. apply routed_messages.
  - destruct (engine_on_node_joined _ _ _ _) as [[e acts]|] eqn:Hr; [|done].
    intros [= <- <- <- _]. eexists. split; [by call_of Hr|].
    intros x. apply routed_messages.
  - intros [= <- <- <- _]. exists []. split; [by eexists _, [], None|]. by intros x ?%elem_of_nil.
  - unfold handle_periodic_sync. destruct (periodic_sync _) as [[e acts]|] eqn:Hr; [|done].
    intros [= <- <- <- _]. eexists. split; [by call_of Hr|].
    intros x. apply routed_messages.
  - unfold handle_flush_change_feed. destruct (flush_change_feed _) as [e b] eqn:Hr.
    intros [= <- <- <- _]. eexists. split; [by call_of Hr|].
    destruct b; intros x; [|by intros ?%elem_of_nil].
    intros (y & -> & _)%list_elem_of_fmap. by left.
Qed.

(** What may be told: the application's messages, and what the network handed out. *)
Definition message_known n (msg : ActorMsg S V) : Prop :=
  match msg with
  | MsgInboundSync m => WireSync m ∈ net_messages n
  | MsgInboundWire m => m ∈ net_messages n
  | _ => application_message msg
  end.

Lemma message_known_mono n n' msg :
  (∀ m, m ∈ net_messages n → m ∈ net_messages n') → message_known n msg → message_known n' msg.
Proof. intros Hsub. destruct msg; simpl; auto. Qed.

(** The network [n], reachable, stands for [sys]. *)
Record tracks sys n : Prop := {
  tr_reach : rtc step net_init n;
  tr_used : names_used (as_used sys) n;
  tr_run : ∀ id r c, hosts sys id r c →
    net_nodes n !! id = Some (cell_engine c) ∧ host_ok (host (cell_engine c));
  tr_only : ∀ id e, net_nodes n !! id = Some e → ∃ r c, hosts sys id r c;
  tr_unique : ∀ id r c r' c', hosts sys id r c → hosts sys id r' c' → r = r';
  tr_mail : ∀ r m, m ∈ fw_mailbox (as_framework sys) r → message_known n m;
  tr_tasks : ∀ r t, (r, t) ∈ as_tasks sys → WireSync (ds_message t) ∈ net_messages n
}.

(** Everything but the framework and the tasks stays. *)
Lemma tracks_messages sys sys' n :
  tracks sys n → as_cells sys' = as_cells sys → as_used sys' = as_used sys →
  (∀ r m, m ∈ fw_mailbox (as_framework sys') r → message_known n m) →
  (∀ r t, (r, t) ∈ as_tasks sys' → WireSync (ds_message t) ∈ net_messages n) → tracks sys' n.
Proof.
  intros [] Hc Hu Hmail Htasks. split; unfold hosts; rewrite ?Hc, ?Hu; done.
Qed.

Context `{!ActorFrameworkLaws Ref (ActorMsg S V) Fw}.

Lemma told_known sys n r m r' m' :
  tracks sys n → message_known n m →
  m' ∈ fw_mailbox (fw_tell r m (as_framework sys)).1 r' → message_known n m'.
Proof. intros Ht Hm [Hin|[_ ->]]%fw_tell_mailbox; [by eapply tr_mail|done]. Qed.

Lemma send_sync_tell s m fw : send_sync s m fw = (fw_tell (actor_ref s) (MsgInboundSync m) fw).1.
Proof. unfold send_sync. by destruct (fw_tell _ _ _) as [? []]. Qed.
Lemma send_wire_tell s m fw : send_wire s m fw = (fw_tell (actor_ref s) (MsgInboundWire m) fw).1.
Proof. unfold send_wire. by destruct (fw_tell _ _ _) as [? []]. Qed.

Lemma perform_tracks r n effs : ∀ sys,
  tracks sys n → (∀ x, x ∈ effs → effect_message x ∈ net_messages n) → tracks (perform r sys effs) n.
Proof.
  induction effs as [|x effs IH]; intros sys Ht Hx; simpl; [done|].
  apply IH; [|intros y ?; apply Hx; by right].
  specialize (Hx x ltac:(by left)). destruct x as [s m|s m|t]; simpl in *.
  - apply (tracks_messages sys); simpl; try done; [|apply (tr_tasks _ _ Ht)].
    intros r' m'. rewrite send_sync_tell. by eapply told_known.
  - apply (tracks_messages sys); simpl; try done; [|apply (tr_tasks _ _ Ht)].
    intros r' m'. rewrite send_wire_tell. by eapply told_known.
  - apply (tracks_messages sys); simpl; try done; [apply (tr_mail _ _ Ht)|].
    intros r' t' [?|[= -> ->]%list_elem_of_singleton]%elem_of_app; [by eapply tr_tasks|done].
Qed.

(** The engine of a running actor moves, and the network with it. *)
Lemma tracks_cell sys n n' id r c c' :
  tracks sys n → hosts sys id r c → grows n n' →
  net_nodes n' = <[id := cell_engine c']> (net_nodes n) → node_good id (cell_engine c') →
  stopped c' = false → tracks (set_cell sys r c') n'.
Proof.
  intros Ht Hr Hgr Hn' [Hok Hid] Hst. pose proof Hgr as (Hrtc & Hsub & _).
  assert (∀ k r' x, hosts (set_cell sys r c') k r' x →
    (r' = r ∧ k = id ∧ x = c') ∨ (r' ≠ r ∧ k ≠ id ∧ hosts sys k r' x)) as Hhosts.
  { intros k r' x (Hx & Hs & Hk). simpl in Hx.
    apply lookup_insert_Some in Hx as [[<- <-]|[Hne Hx]].
    - left. split_and!; [done| |done]. by rewrite <- Hk.
    - right. assert (hosts sys k r' x) by done. split_and!; [done| |done]. intros ->.
      by eapply Hne, (tr_unique _ _ Ht). }
  split; simpl.
  - etrans; [apply (tr_reach _ _ Ht)|done].
  - eapply names_used_grows; [apply (tr_used _ _ Ht)|done].
  - intros k r' x [(-> & -> & ->)|(_ & Hk & Hx)]%Hhosts; rewrite Hn'.
    + by rewrite lookup_insert_eq.
    + rewrite lookup_insert_ne by done. by apply (tr_run _ _ Ht _ r').
  - intros k e. rewrite Hn'. intros [[<- <-]|[Hk He]]%lookup_insert_Some.
    + exists r, c'. split_and!; [apply lookup_insert_eq|done..].
    + destruct (tr_only _ _ Ht k e He) as (r' & x & Hx & Hs & Hkx). exists r', x.
      split_and!; [|done..]. simpl. rewrite lookup_insert_ne; [done|]. intros <-.
      destruct Hr as (Hr & _ & Hc). congruence.
  - intros k r1 x1 r2 x2 [(-> & -> & ->)|(_ & ? & ?)]%Hhosts [(-> & ? & ->)|(_ & ? & ?)]%Hhosts;
      try done. by eapply (tr_unique _ _ Ht).
  - intros r' m Hm. eapply message_known_mono; [done|]. by eapply (tr_mail _ _ Ht).
  - intros r' t Hin. apply Hsub. by eapply (tr_tasks _ _ Ht).
Qed.

(** A message that may be told is a step of the network. *)
Lemma calls_grow n id e msg clk e' out :
  net_nodes n !! id = Some e → node_good id e → message_known n msg →
  (∀ f q u, msg = MsgMutate f q u → age (generation_of e) < u64_max) →
  calls e msg clk e' out →
  ∃ n', grows n n' ∧ net_nodes n' = <[id := e']> (net_nodes n) ∧ node_good id e' ∧
    (∀ m, m ∈ out → m ∈ net_messages n').
Proof.
  intros Hn Hg Hm Hage Hc.
  assert (∀ op acts b, host_call p w ap e op → run_engine_op (C:=C) e op = Done (e', acts, b) →
    ∃ n', grows n n' ∧ net_nodes n' = <[id := e']> (net_nodes n) ∧ node_good id e' ∧
      (∀ m, m ∈ outgoing acts b → m ∈ net_messages n')) as Hcall.
  { intros op acts b Hop Hr. destruct (grows_call name p w ser de ap n id e op e' acts b)
      as (n' & ? & ? & ?); [done..|]. exists n'. split_and!; [done..| |done]. by eapply node_good_call. }
  assert (∀ m acts b, m ∈ net_messages n → run_engine_op (C:=C) e (OpInbound m clk) = Done (e', acts, b) →
    ∃ n', grows n n' ∧ net_nodes n' = <[id := e']> (net_nodes n) ∧ node_good id e' ∧
      (∀ m, m ∈ outgoing acts b → m ∈ net_messages n')) as Hdel.
  { intros m acts b Hin Hr. pose proof (node_good_call _ _ _ _ _ _ Hg Hr) as Hg'. simpl in Hr.
    destruct (handle_inbound e m clk) as [[e1 a1]|] eqn:Hh; simplify_eq/=.
    destruct (grows_deliver name p w ser de ap n id e m clk e' acts) as (n' & ? & ? & ?); [done..|].
    by exists n'. }
  destruct msg as [f q u|m|m|d|[k v|k]| |]; simpl in *;
    try (destruct Hc as (op & acts & b & Hop & Hr & ->); injection Hop as <-).
  - eapply Hcall; [|exact Hr]. split; [done|by eapply Hage].
  - by eapply Hdel.
  - by eapply Hdel.
  - destruct Hc as [-> ->].
    destruct (grows_query name p w ser de ap n id e d (λ m, m) clk Hn) as (n' & ? & Hn' & ?).
    exists n'. split_and!; [done| |done..]. by rewrite Hn', insert_id.
  - by eapply Hcall; [|exact Hr].
  - by eapply Hcall; [|exact Hr].
  - by eapply Hcall; [|exact Hr].
  - by eapply Hcall; [|exact Hr].
Qed.
Lemma tracks_spawn sys n r id x cfg clk g :
  tracks sys n → as_cells sys !! r = None → (∀ r' c, ¬ hosts sys id r' c) →
  later_start (as_used sys) id clk →
  ∃ n', tracks (set_used (set_cell sys r
      (mkActorCell (actor_create (engine_new name id x p cfg w clk ser de ap)) g))
      (<[id := as_u64 (unix_ms clk)]> (as_used sys))) n'.
Proof.
  intros Ht Hr Hid Hlater. set (e := engine_new _ _ _ _ _ _ _ _ _ _).
  destruct (engine_new_ok (M:=M) name id x p cfg w clk ser de ap) as [Hok _]. fold e in Hok.
  destruct (names_used_start name p w ser de ap (as_used sys) n id x cfg clk (tr_used _ _ Ht) Hlater)
    as [Hstep Hu]. fold e in Hstep, Hu. eexists.
  set (sys' := set_used _ _). set (c := mkActorCell (actor_create e) g) in *.
  assert (∀ k r' y, hosts sys' k r' y →
    (r' = r ∧ k = id ∧ y = c) ∨ (r' ≠ r ∧ k ≠ id ∧ hosts sys k r' y)) as Hhosts.
  { intros k r' y (Hy & Hs & Hk). simpl in Hy. apply lookup_insert_Some in Hy as [[<- <-]|[Hne Hy]].
    - left. by split_and!.
    - right. assert (hosts sys k r' y) by done. split_and!; [done| |done]. intros ->. by eapply Hid. }
  split; simpl.
  - eapply rtc_r; [apply (tr_reach _ _ Ht)|exact Hstep].
  - exact Hu.
  - intros k r' y [(-> & -> & ->)|(_ & Hk & Hy)]%Hhosts; simpl.
    + by rewrite lookup_insert_eq.
    + rewrite lookup_insert_ne by done. by apply (tr_run _ _ Ht _ r').
  - intros k e' He. simpl in He. apply lookup_insert_Some in He as [[<- <-]|[Hk He]].
    + exists r, c. split_and!; [apply lookup_insert_eq|done..].
    + destruct (tr_only _ _ Ht k e' He) as (r' & y & Hy & Hs & Hky). exists r', y.
      split_and!; [|done..]. simpl. rewrite lookup_insert_ne; [done|congruence].
  - intros k r1 y1 r2 y2 [(-> & -> & ->)|(_ & ? & ?)]%Hhosts [(-> & ? & ->)|(_ & ? & ?)]%Hhosts;
      try done. by eapply (tr_unique _ _ Ht).
  - apply (tr_mail _ _ Ht).
  - apply (tr_tasks _ _ Ht).
Qed.

Lemma tracks_stop sys n r c :
  tracks sys n → as_cells sys !! r = Some c →
  ∃ n', tracks (set_cell sys r (mkActorCell (on_stop (cell_actor c)) (cell_registry c))) n'.
Proof.
  intros Ht Hr. set (sys' := set_cell _ _ _).
  assert (∀ k r' y, hosts sys' k r' y ↔ r' ≠ r ∧ hosts sys k r' y) as Hhosts.
  { intros k r' y. unfold hosts. simpl. rewrite lookup_insert_Some. split; [|naive_solver].
    intros ([[<- <-]|[? ?]] & ? & ?); [done|by split_and!]. }
  destruct (stopped c) eqn:Hs.
  - exists n. split; simpl; try apply Ht.
    + intros k r' y [_ ?]%Hhosts. by apply (tr_run _ _ Ht _ r').
    + intros k e (r' & y & Hy)%(tr_only _ _ Ht). exists r', y. apply Hhosts. split; [|done].
      intros ->. destruct Hy as (? & ? & _). congruence.
    + intros k r1 y1 r2 y2 [_ ?]%Hhosts [_ ?]%Hhosts. by eapply (tr_unique _ _ Ht).
  - set (id := engine_node_id (cell_engine c)).
    exists (mkNetwork (delete id (net_nodes n)) (net_messages n) (net_history n)).
    assert (hosts sys id r c) as Hc by done.
    split; simpl; [|eapply names_used_stop; [apply Ht|done|]|..| |apply Ht|apply Ht].
    + eapply rtc_r; [apply (tr_reach _ _ Ht)|]. apply net_crash.
    + simpl. by intros k e [_ ?]%lookup_delete_Some.
    + intros k r' y [Hne Hy]%Hhosts. destruct (tr_run _ _ Ht k r' y Hy) as [Hn ?].
      split; [|done]. rewrite lookup_delete_ne; [done|]. intros <-.
      by eapply Hne, (tr_unique _ _ Ht).
    + intros k e [Hne He]%lookup_delete_Some. destruct (tr_only _ _ Ht k e He) as (r' & y & Hy).
      exists r', y. apply Hhosts. split; [|done]. intros ->.
      destruct Hc as (? & _ & Hc), Hy as (? & _ & Hy). congruence.
    + intros k r1 y1 r2 y2 [_ ?]%Hhosts [_ ?]%Hhosts. by eapply (tr_unique _ _ Ht).
Qed.

Lemma handle_tracks sys n r c msg fw clk a peers effs reply :
  tracks sys n → as_cells sys !! r = Some c → stopped c = false →
  fw_receive r (as_framework sys) = Some (msg, fw) → in_range c msg →
  actor_handle (cell_actor c) (registry_of sys (cell_registry c)) msg clk =
    Done (a, peers, effs, reply) →
  ∃ n', tracks (perform r (set_registry (set_cell (set_framework sys fw) r
    (mkActorCell a (cell_registry c))) (cell_registry c) peers) effs) n'.
Proof.
  intros Ht Hr Hs Hrec Hage Hh. apply fw_receive_mailbox in Hrec as [Hmsg Hfw].
  assert (hosts sys (engine_node_id (cell_engine c)) r c) as Hc by done.
  destruct (tr_run _ _ Ht _ _ _ Hc) as [Hn Hok].
  destruct (actor_handle_calls _ _ _ _ _ _ _ _ Hh) as (out & Hcalls & Hout).
  destruct (actor_handle_engine _ _ _ _ _ _ _ _ Hh) as (_ & Hs' & _).
  destruct (calls_grow n (engine_node_id (cell_engine c)) (cell_engine c) msg clk (sa_engine a) out)
    as (n' & Hgr & Hn' & Hg' & Hout'); [done|done| | |done|].
  { by eapply (tr_mail _ _ Ht). }
  { intros f q u ->. exact Hage. }
  exists n'. apply perform_tracks; [|auto].
  assert (tracks (set_framework sys fw) n) as Ht1.
  { apply (tracks_messages sys); simpl; try done; [|apply (tr_tasks _ _ Ht)].
    intros r' m ?. eapply (tr_mail _ _ Ht), Hfw. done. }
  assert (tracks (set_cell (set_framework sys fw) r (mkActorCell a (cell_registry c))) n') as [].
  { eapply tracks_cell; [exact Ht1|exact Hc|done..|]. unfold stopped. simpl. by rewrite Hs'. }
  by split.
Qed.

Lemma system_step_tracks sys n sys' :
  tracks sys n → system_step sys sys' → ∃ n', tracks sys' n'.
Proof.
  intros Ht [r id x cfg clk g Hr Hid Hlater|g peers|r msg Hm|fw Hfw
    |r c msg fw clk a peers effs reply Hr Hs Hrec Hage Hh|r c t l1 l2 Hl Hr|r c Hr].
  - by eapply tracks_spawn.
  - exists n. by destruct Ht.
  - exists n. apply (tracks_messages sys); simpl; try done; [|apply (tr_tasks _ _ Ht)].
    intros r' m Hin. eapply told_known; [done| |done]. by destruct msg.
  - exists n. apply (tracks_messages sys); simpl; try done; [|apply (tr_tasks _ _ Ht)].
    intros r' m Hin. by eapply (tr_mail _ _ Ht), Hfw.
  - by eapply handle_tracks.
  - exists n. apply perform_tracks.
    + apply (tracks_messages sys); simpl; try done; [apply (tr_mail _ _ Ht)|].
      intros r' t' Hin. eapply (tr_tasks _ _ Ht r'). rewrite Hl. set_solver.
    + unfold delayed_fires. case_match; [by intros x ?%elem_of_nil|].
      intros y (z & -> & _)%list_elem_of_fmap. simpl. eapply (tr_tasks _ _ Ht r). rewrite Hl. set_solver.
  - by eapply tracks_stop.
Qed.

Lemma query_reply_views (a : StateActor S V M) (peers : gmap NodeId ActorRefPeerSender) d clk
    a' peers' effs reply :
  shard_wf (shard (sa_engine a)) →
  actor_handle a peers (MsgQueryViews d) clk = Done (a', peers', effs, Some reply) →
  qr_views reply = contents (shard (sa_engine a)).
Proof.
  intros Hwf. simpl. unfold handle_query_views, query, query_local, ShardCore.snapshot.
  rewrite snapshot_spec by done. repeat (case_match; simplify_eq/=); by intros [= _ _ _ <-].
Qed.

Lemma system_reach_tracks sys : system_reach sys → ∃ n, tracks sys n.
Proof.
  intros (sys0 & (Hc & Htasks & Hu & Hm) & Hr).
  assert (∃ n, tracks sys0 n) as Hex.
  { exists net_init. split; unfold hosts; rewrite ?Hc, ?Hu, ?Htasks.
    - done.
    - apply names_used_init.
    - intros id r c (Hx & _). by rewrite lookup_empty in Hx.
    - intros id e. simpl. by rewrite lookup_empty.
    - intros id r c r' c' (Hx & _). by rewrite lookup_empty in Hx.
    - intros r m. rewrite Hm. by intros ?%elem_of_nil.
    - by intros r t ?%elem_of_nil. }
  clear Hc Htasks Hu Hm. induction Hr as [|s1 s2 s3 Hst _ IH]; [done|].
  apply IH. destruct Hex as [n Ht]. by eapply system_step_tracks.
Qed.
End System.

(** [C7] The actors of a cluster are one of the schedules of the abstract network.  The
    projection is a parameter of the cluster: all mutations use it.  Whatever else the
    application tells the actors, however it edits and shares registries (senders under
    wrong names included), and whatever messages the framework refuses, loses or delays:
    the engines of the running actors are those of a network state reachable by single
    calls, deliveries, queries, starts and crashes, and every sync or wire message waiting
    in a mailbox is one that network handed out. *)
Theorem actors_refine_network `{HashIter} {S V M C Ref Fw} `{!ViewMapOps V M} `{!ViewMapLaws V M}
    `{Clock C} `{Countable Ref} `{!ActorFramework Ref (ActorMsg S V) Fw}
    `{!ActorFrameworkLaws Ref (ActorMsg S V) Fw}
    (name : string) (p : S → V) (w : Z) (ser : SerializeViewFn V) (de : DeserializeViewFn V)
    (ap : option (InboundDeltaApplierFn V)) (sys : ActorSystem (S:=S) (V:=V) (M:=M) (Fw:=Fw)) :
  system_reach (C:=C) name p w ser de ap sys →
  ∃ n : Network S V M,
    rtc (net_step (C:=C) name p w ser de ap) net_init n ∧
    (∀ id e, net_nodes n !! id = Some e ↔ ∃ r c, hosts sys id r c ∧ cell_engine c = e) ∧
    ∀ r msg, msg ∈ fw_mailbox (as_framework sys) r →
      match msg with
      | MsgInboundSync m => WireSync m ∈ net_messages n
      | MsgInboundWire m => m ∈ net_messages n
      | _ => True
      end.
Proof.
  intros Hr. destruct (system_reach_tracks name p w ser de ap sys Hr) as [n Ht].
  exists n. split_and!; [apply Ht|..].
  - intros id e. split.
    + intros He. destruct (tr_only _ _ _ _ _ _ _ _ Ht id e He) as (r & c & Hc).
      destruct (tr_run _ _ _ _ _ _ _ _ Ht _ _ _ Hc) as [Hn _]. exists r, c. split; [done|congruence].
    + intros (r & c & Hc & <-). by apply (tr_run _ _ _ _ _ _ _ _ Ht _ r).
  - intros r msg Hm. pose proof (tr_mail _ _ _ _ _ _ _ _ Ht r msg Hm) as Hk. by destruct msg.
Qed.

(** [C8] What a query of an actor answers, in a cluster of actors.  A running actor handles
    any message without failing; and whatever a reply shows of a node that runs is the
    placeholder, or a view not ahead of that node's own, equal to its current one at the
    same generation. *)
Theorem actor_replies_never_wrong `{HashIter} {S V M C Ref Fw} `{!ViewMapOps V M}
    `{!ViewMapLaws V M} `{Clock C} `{Countable Ref} `{!ActorFramework Ref (ActorMsg S V) Fw}
    `{!ActorFrameworkLaws Ref (ActorMsg S V) Fw}
    (name : string) (p : S → V) (w : Z) (ser : SerializeViewFn V) (de : DeserializeViewFn V)
    (ap : option (InboundDeltaApplierFn V)) (sys : ActorSystem (S:=S) (V:=V) (M:=M) (Fw:=Fw))
    (i : NodeId) (r : Ref) (c : ActorCell (S:=S) (V:=V) (M:=M)) :
  (∀ v, de (ser v) w = Ok v) →
  system_reach (C:=C) name p w ser de ap sys → hosts sys i r c →
  (∀ msg (clk : C),
     is_done (actor_handle (cell_actor c) (registry_of sys (cell_registry c)) msg clk)) ∧
  (∀ d (clk : C) a peers effs reply j r' c' vo,
     actor_handle (cell_actor c) (registry_of sys (cell_registry c)) (MsgQueryViews d) clk =
       Done (a, peers, effs, Some reply) →
     hosts sys j r' c' → qr_views reply !! j = Some vo →
     vo_generation vo = generation_zero ∨
     (vo_generation vo ≤g generation_of (cell_engine c') ∧
      (vo_generation vo = generation_of (cell_engine c') →
       vo_value vo = p (so_value (sh_state (shard (cell_engine c'))))))).
Proof.
  intros Hcodec Hr Hi. destruct (system_reach_tracks name p w ser de ap sys Hr) as [n Ht].
  destruct (tr_run _ _ _ _ _ _ _ _ Ht _ _ _ Hi) as [Hni Hok]. split.
  - intros msg clk. destruct (actor_handle_done (cell_actor c) (registry_of sys (cell_registry c)) msg clk Hok)
      as (a & peers & effs & reply & -> & _). by eexists.
  - intros d clk a peers effs reply j r' c' vo Hh Hj Hvo.
    destruct (tr_run _ _ _ _ _ _ _ _ Ht _ _ _ Hj) as [Hnj _].
    destruct (net_view name p w ser de ap n i j (cell_engine c) (cell_engine c') vo) as [?|(_ & ? & ?)];
      [by eapply net_reachable_inv, Ht|done|done| |by left|by right].
    destruct Hok as (Hwf & _). rewrite get_view_contents by done.
    apply query_reply_views in Hh; [|done]. unfold cell_engine. congruence.
Qed.
