(* ===== verification/ActorHandling.v ===== *)
(** What one message does to the actor that handles it: how its engine and its registry
    move ([moved]), how much the messages it sends weigh ([handle_lighter]), and which
    messages make it announce its state ([handle_announces]). *)
From stdpp Require Import prelude gmap fin_maps strings relations list_numbers.
From S2P Require Import Prelude Node Clock Types ViewMap ShardCore ShardProps SyncLogic.
From S2P Require Import ChangeFeed Versioning Lifecycle Diagnostics Engine EngineProps.
From S2P Require Import Protocol Accounting Network NetworkRuns StateActor ActorSystem.

(** ** What one handled message does *)
Section Handled.
Context `{HashIter} {S V M C : Type} `{!ViewMapOps V M} `{!ViewMapLaws V M} `{Clock C}.
Context (name : string) (p : S → V) (w : Z)
  (ser : SerializeViewFn V) (de : DeserializeViewFn V) (ap : option (InboundDeltaApplierFn V)).
Context (Hcodec : ∀ v, de (ser v) w = Ok v).
Local Abbreviation node_inv := (node_inv name p w ser de ap).
Local Abbreviation sync_valid := (sync_valid w ser ap).
Implicit Types (e : DistributedStateEngine S V M) (clk : C) (id j k : NodeId).

Lemma sees_same e e' g j :
  contents (shard e') !! j = contents (shard e) !! j → sees e g j → sees e' g j.
Proof. intros Hc (vo & Hvo & Hle). exists vo. by rewrite Hc. Qed.

(** A mutation. *)
Lemma mutate_sees e f u clk g j :
  host_ok (host e) → j ≠ engine_node_id e → sees e g j → sees (mutate e f p u clk).1 g j.
Proof.
  intros (Hwf & Hown & _) Hj. pose proof (mutate_effect p e f u clk) as He.
  destruct (mutate e f p u clk) as [e' r]. destruct He as (Hsh & _). simpl. apply sees_same.
  rewrite Hsh. unfold apply_mutation. simpl. simpl in Hwf, Hown.
  rewrite update_own_view_contents by done. simpl. by rewrite lookup_insert_ne.
Qed.

(** A change feed. *)
Lemma feed_sees e f g j :
  shard_wf (shard e) → sees e g j → sees (handle_inbound_change_feed e f) g j.
Proof.
  unfold handle_inbound_change_feed. generalize (route_inbound_batch f (engine_node_id e)).
  intros l. revert e. induction l as [|[[n s] g0] l IH]; intros e Hwf Hs; simpl; [done|].
  apply IH.
  - unfold feed_entry. repeat case_match; try done. simpl. by apply mark_stale_frame.
  - unfold feed_entry. repeat case_match; try done. destruct Hs as (vo & Hvo & Hle).
    unfold sees. simpl. rewrite mark_stale_contents by done.
    destruct (contents (shard e) !! s) as [x|] eqn:Hx; [|by exists vo].
    case_match; [by exists vo|]. rewrite lookup_insert.
    destruct (decide (s = j)) as [->|]; [|by exists vo]. simplify_eq. by eexists.
Qed.

Lemma feed_same e f :
  sh_state (shard (handle_inbound_change_feed e f)) = sh_state (shard e) ∧
  lifecycle (handle_inbound_change_feed e f) = lifecycle e ∧
  static (handle_inbound_change_feed e f) = static e.
Proof.
  unfold handle_inbound_change_feed. generalize (route_inbound_batch f (engine_node_id e)).
  intros l. revert e. induction l as [|[[n s] g0] l IH]; intros e; cbn [foldl]; [done|].
  destruct (IH (feed_entry e (n, s, g0))) as (-> & -> & ->).
  destruct (mark_stale_frame (S:=S) (shard e) s (incarnation g0) (age g0)) as (_ & _ & Hst).
  unfold feed_entry. by repeat case_match.
Qed.

(** The arrival of a node. *)
Lemma join_sees id e k v clk e' acts g j :
  node_good id e → engine_on_node_joined e k v clk = Done (e', acts) → sees e g j → sees e' g j.
Proof.
  intros [(Hwf & _) Hid] Hj (vo & Hvo & Hle). unfold engine_on_node_joined in Hj. simpl in Hj.
  destruct (own_view_value _) as [x|]; simpl in Hj; [|done]. injection Hj as <- _.
  unfold sees. simpl. rewrite node_joined_contents by done.
  case_bool_decide; [by exists vo|]. destruct (contents (shard e) !! k) eqn:Hk; [by exists vo|].
  exists vo. rewrite lookup_insert_ne by congruence. done.
Qed.

(** The departure of another one. *)
Lemma leave_sees e k g j :
  shard_wf (shard e) → j ≠ k → sees e g j → sees (engine_on_node_left e k) g j.
Proof.
  intros Hwf Hj. apply sees_same. simpl. rewrite node_left_contents by done.
  case_bool_decide; [done|]. by rewrite lookup_delete_ne.
Qed.

(** *** A handled message *)
Context {Sender : Type}.
Implicit Types (a : StateActor S V M) (peers : gmap NodeId Sender) (msg : ActorMsg S V).

Definition mutates msg : Prop := match msg with MsgMutate _ _ _ => True | _ => False end.
Definition leaves msg k : Prop :=
  match msg with MsgClusterChange (NodeLeft k') => k' = k | _ => False end.
Definition msg_sync msg : option SyncMessage :=
  match msg with MsgInboundSync m | MsgInboundWire (WireSync m) => Some m | _ => None end.

(** What an actor may be told: the projection is the cluster's, and what comes from peers
    is valid and no delta. *)
Definition handled_ok (h : gmap (NodeId * Generation) V) msg : Prop :=
  match msg with MsgMutate _ q _ => q = p | _ => True end ∧
  ∀ m, msg_sync msg = Some m → sync_valid h m ∧ ¬ is_delta m.

Record moved id msg e e' peers peers' : Prop := {
  mv_static : static e' = static e;
  mv_id : engine_node_id e' = id;
  mv_state : ¬ mutates msg → sh_state (shard e') = sh_state (shard e);
  mv_departed : ∀ k, k ∈ departed_nodes (lifecycle e') → k ∈ departed_nodes (lifecycle e) ∨ leaves msg k;
  mv_sees : ∀ g j, j ≠ id → ¬ leaves msg j → sees e g j → sees e' g j;
  mv_peers : ∀ k, ¬ leaves msg k → peers' !! k = peers !! k;
  mv_fewer : peers' ⊆ peers
}.

Lemma moved_received id msg e e' peers :
  engine_node_id e' = id → received e e' → moved id msg e e' peers peers.
Proof.
  intros Hid (Hst & Hl & Hstat & Hs). split; try done; [|by auto]. intros k. rewrite Hl. by left.
Qed.

Lemma moved_silent id msg e e' peers :
  engine_node_id e = id → shard e' = shard e → lifecycle e' = lifecycle e → static e' = static e →
  moved id msg e e' peers peers.
Proof.
  intros Hid Hsh Hl Hst. apply moved_received; [by unfold engine_node_id; rewrite Hsh|].
  split_and!; [by rewrite Hsh|done|done|]. intros g j (vo & Hvo & ?). exists vo. by rewrite Hsh.
Qed.

Lemma handle_static a peers msg clk a' peers' effs reply :
  actor_handle a peers msg clk = Done (a', peers', effs, reply) →
  static (sa_engine a') = static (sa_engine a) ∧
  engine_node_id (sa_engine a') = engine_node_id (sa_engine a).
Proof.
  intros Hh. destruct (actor_handle_engine _ _ _ _ _ _ _ _ Hh) as (Hrun & _ & _).
  destruct (run_engine_ok anything anything (engine_call msg clk) (sa_engine a) (sa_engine a'))
    as [Hs Hst]; [|done|].
  - apply Forall_forall. intros op _. apply op_ok_anything.
  - split; [done|]. by apply (host_steps_node_id _ _ _ _ Hs).
Qed.

Lemma handle_moves h id a peers msg clk a' peers' effs reply :
  node_inv h id (sa_engine a) → handled_ok h msg →
  actor_handle a peers msg clk = Done (a', peers', effs, reply) →
  moved id msg (sa_engine a) (sa_engine a') peers peers'.
Proof.
  intros Hi [Hproj Hsync] Hh. pose proof (ni_id _ _ _ _ _ _ _ _ _ Hi) as Hid.
  pose proof (ni_ok _ _ _ _ _ _ _ _ _ Hi) as Hok. assert (node_good id (sa_engine a)) as Hgood by done.
  destruct (handle_static _ _ _ _ _ _ _ _ Hh) as [Hstat Hid']. rewrite Hid in Hid'.
  destruct msg as [f q u|m|[m|f]|d|[k v|k]| |]; simpl in Hh, Hproj.
  - subst q. unfold handle_mutate in Hh.
    pose proof (mutate_effect p (sa_engine a) f u clk) as He.
    pose proof (mutate_sees (sa_engine a) f u clk) as Hs.
    destruct (mutate _ _ _ _ _) as [e r]. injection Hh as <- <- _ _.
    destruct He as (_ & (_ & Hl & _) & _). simpl in *. split; try done.
    + intros k. simpl. rewrite Hl. by left.
    + intros g j Hj _. apply Hs; [done|by rewrite Hid].
  - unfold handle_inbound_sync_msg in Hh.
    destruct (handle_inbound_sync _ _ _) as [[e acts]|] eqn:Hr; [|done]. injection Hh as <- <- _ _.
    destruct (Hsync m eq_refl) as [Hv Hd].
    destruct (sync_received name p w ser de ap h id (sa_engine a) m clk e acts) as [Hrec _]; [done..|].
    by apply moved_received.
  - unfold handle_inbound_wire in Hh.
    destruct (handle_inbound _ _ _) as [[e acts]|] eqn:Hr; [|done]. injection Hh as <- <- _ _.
    destruct (Hsync m eq_refl) as [Hv Hd].
    destruct (sync_received name p w ser de ap h id (sa_engine a) m clk e acts) as [Hrec _]; [done..|].
    by apply moved_received.
  - injection Hh as <- <- _ _. destruct (feed_same (sa_engine a) f) as (Hst & Hl & _).
    apply moved_received; [done|]. split_and!; [done..|]. intros g j. apply feed_sees. apply Hok.
  - unfold handle_query_views in Hh. destruct (query _ _ _ _) as [r acts]. injection Hh as <- <- _ _.
    by apply moved_silent.
  - destruct (engine_on_node_joined _ _ _ _) as [[e acts]|] eqn:Hj; [|done]. injection Hh as <- <- _ _.
    pose proof (join_sees id (sa_engine a) k v clk e acts) as Hs.
    destruct (node_joined_frame (S:=S) (shard (sa_engine a)) k v clk) as (_ & _ & Hst).
    assert (sh_state (shard e) = sh_state (shard (sa_engine a)) ∧
      lifecycle e = mkLifecycle (departed_nodes (lifecycle (sa_engine a)) ∖ {[k]})) as [Hst' Hl].
    { apply send_join_same in Hj as [Hhost _]. unfold host in Hhost. injection Hhost as -> ->. done. }
    split; try done; simpl; [|by eauto]. rewrite Hl. simpl. set_solver.
  - injection Hh as <- <- _ _. split; try done; simpl.
    + intros _. by destruct (node_left_frame (S:=S) (shard (sa_engine a)) k) as (_ & _ & ->).
    + set_solver.
    + intros g j _ Hk. apply leave_sees; [apply Hok|congruence].
    + intros j Hj. by rewrite lookup_delete_ne.
    + apply delete_subseteq.
  - unfold handle_periodic_sync, periodic_sync in Hh.
    destruct (should_periodic_sync _); simpl in Hh; [|injection Hh as <- <- _ _; by apply moved_silent].
    destruct (own_view_value _); simpl in Hh; [|done]. injection Hh as <- <- _ _. by apply moved_silent.
  - unfold handle_flush_change_feed, flush_change_feed in Hh. destruct (change_feed_flush _) as [cf b].
    injection Hh as <- <- _ _. by apply moved_silent.
Qed.
End Handled.

(** ** Weights *)
Section Weights.
Context `{HashIter} {S V M C : Type} `{!ViewMapOps V M} `{!ViewMapLaws V M} `{Clock C}.
Context {Sender : Type} (K : nat).
Implicit Types (e : DistributedStateEngine S V M) (a : StateActor S V M).
Implicit Types (peers : gmap NodeId Sender) (msg : ActorMsg S V) (clk : C).
Local Open Scope nat_scope.

(** With at most [K] peers in a registry. *)
Definition sync_weight (m : SyncMessage) : nat := depth m + 1.
Definition msg_weight msg : nat :=
  match msg with
  | MsgMutate _ _ _ => K + 2
  | MsgInboundSync m | MsgInboundWire (WireSync m) => sync_weight m
  | MsgInboundWire (WireFeed _) => 1
  | MsgQueryViews _ => 2 * K + 1
  | MsgClusterChange _ => 2
  | MsgPeriodicSync | MsgFlushChangeFeed => K + 1
  end.
Definition task_weight (t : DelayedSend) : nat := K * sync_weight (ds_message t) + 1.
Definition effect_weight (eff : Effect Sender) : nat :=
  match eff with
  | SentSync _ m | SentWire _ (WireSync m) => sync_weight m
  | SentWire _ (WireFeed _) => 1
  | Spawned t => task_weight t
  end.
Definition act_weight (act : EngineAction) : nat :=
  match act with
  | BroadcastSync m => K * sync_weight m
  | SendSync _ m => sync_weight m
  | ScheduleDelayed _ m => K * sync_weight m + 1
  end.
Definition carries_delta (eff : Effect Sender) : Prop :=
  match eff with
  | SentSync _ m | SentWire _ (WireSync m) => is_delta m
  | SentWire _ (WireFeed _) => False
  | Spawned t => is_delta (ds_message t)
  end.

Lemma sum_constant {A B} (f : A → nat) (g : B → A) x l :
  (∀ b, f (g b) = x) → sum_list_with f (g <$> l) = length l * x.
Proof. intros Hf. induction l as [|b l IH]; csimpl; [done|]. rewrite IH, Hf. lia. Qed.

Lemma senders_length own peers : size peers ≤ K → length (senders_except own peers) ≤ K.
Proof.
  intros Hs. unfold senders_except. etrans; [apply length_filter|]. rewrite hm_iter_perm.
  by rewrite length_map_to_list.
Qed.

Lemma route_weight a peers acts :
  size peers ≤ K →
  sum_list_with effect_weight (route_actions a peers acts) ≤ sum_list_with act_weight acts.
Proof.
  intros Hs. pose proof (senders_length (engine_node_id (sa_engine a)) peers Hs) as Hl.
  unfold route_actions. induction acts as [|act acts IH]; simpl; [done|].
  rewrite sum_list_with_app. apply Nat.add_le_mono; [clear IH|done].
  destruct act as [m|t m|d m]; simpl.
  - rewrite (sum_constant effect_weight (λ p, SentSync p.2 m) (sync_weight m)) by done.
    by apply Nat.mul_le_mono_r.
  - destruct (List.find _ _) as [[]|]; simpl; lia.
  - unfold task_weight. simpl. lia.
Qed.

Lemma route_delta a peers acts x :
  (∀ act, act ∈ acts → ¬ is_delta (action_message act)) → x ∈ route_actions a peers acts →
  ¬ carries_delta x.
Proof.
  intros Ha. unfold route_actions. rewrite list_elem_of_bind. intros (act & Hx & Hact%Ha).
  destruct act as [m|t m|d m]; simpl in *.
  - by apply list_elem_of_fmap in Hx as (y & -> & _).
  - destruct (List.find _ _); [|by apply elem_of_nil in Hx]. by apply list_elem_of_singleton in Hx as ->.
  - by apply list_elem_of_singleton in Hx as ->.
Qed.

(** Requests to different peers. *)
Lemma requests_weight e (senders : list (NodeId * Sender)) own targets :
  NoDup targets →
  sum_list_with effect_weight ((make_snapshot_request e <$> targets) ≫= route_action own senders)
    ≤ 2 * length senders.
Proof.
  intros Hnd.
  assert (sum_list_with effect_weight ((make_snapshot_request e <$> targets) ≫= route_action own senders)
    = 2 * length (filter (λ t, t ∈ senders.*1) targets)) as ->.
  { clear Hnd. induction targets as [|t ts IH]; [done|]. rewrite fmap_cons. cbn [mbind list_bind].
    rewrite sum_list_with_app, IH, filter_cons. simpl.
    destruct (List.find _ senders) as [[k s]|] eqn:Hf.
    - apply List.find_some in Hf as [Hin Heq%bool_decide_eq_true]. simpl in Heq. subst k.
      rewrite decide_True; [simpl; lia|]. apply list_elem_of_fmap. exists (t, s).
      split; [done|]. by apply list_elem_of_In.
    - rewrite decide_False; [simpl; lia|]. intros ([k s] & -> & Hin)%list_elem_of_fmap.
      apply list_elem_of_In in Hin. apply (List.find_none _ _ Hf) in Hin. simpl in Hin.
      by rewrite bool_decide_eq_true_2 in Hin. }
  apply Nat.mul_le_mono_l. rewrite <- (length_fmap fst senders).
  apply submseteq_length, NoDup_submseteq; [by apply NoDup_filter|].
  by intros t [Ht _]%list_elem_of_filter.
Qed.

(** The actions of the calls. *)
Definition light (n : nat) (acts : list EngineAction) : Prop :=
  sum_list_with act_weight acts ≤ n ∧ ∀ act, act ∈ acts → ¬ is_delta (action_message act).

Lemma light_nil n : light n [].
Proof. split; [simpl; lia|]. by intros act ?%elem_of_nil. Qed.
Lemma light_one n act : act_weight act ≤ n → ¬ is_delta (action_message act) → light n [act].
Proof. intros. split; [simpl; lia|]. by intros act' ->%list_elem_of_singleton. Qed.

Lemma mutate_light e f (p : S → V) u clk : light (K + 1) (mr_actions (mutate e f p u clk).2).
Proof.
  pose proof (mutate_effect p e f u clk) as He. destruct (mutate e f p u clk) as [e' r].
  destruct He as (_ & _ & _ & _ & Ha). simpl.
  destruct (resolve_action _ _); [rewrite Ha|rewrite Ha|rewrite (proj1 Ha)|rewrite Ha|rewrite Ha];
    first [apply light_nil | apply light_one; [simpl; unfold sync_weight; simpl; lia|by intros []]].
Qed.

Lemma inbound_light e m clk e' acts :
  handle_inbound_sync e m clk = Done (e', acts) → light (depth m) acts.
Proof.
  destruct m as [n src g w data|n src g w data|n r]; simpl.
  - intros [= Hh]. pose proof (proj1 (full_snapshot_same e n src g w data clk)) as Ha.
    rewrite Hh in Ha. simpl in Ha. subst acts. apply light_nil.
  - unfold handle_delta_update. repeat case_match; intros [= <- <-];
      first [apply light_nil | apply light_one; [simpl; unfold sync_weight; simpl; lia|by intros []]].
  - unfold handle_request_snapshot.
    case_match; [intros [= <- <-]; apply light_nil|]. case_match; [intros [= <- <-]; apply light_nil|].
    destruct (own_view_value e); simpl; [|done]. intros [= <- <-].
    apply light_one; [simpl; unfold sync_weight; simpl; lia|by intros []].
Qed.

Lemma route_light a peers acts n :
  size peers ≤ K → light n acts →
  sum_list_with effect_weight (route_actions a peers acts) < n + 1 ∧
  ∀ x, x ∈ route_actions a peers acts → ¬ carries_delta x.
Proof.
  intros Hs [Hw Hd]. pose proof (route_weight a peers acts Hs). split; [lia|].
  intros x. by apply route_delta.
Qed.

(** Whatever a handler sends weighs less than the message it handled. *)
Lemma handle_lighter a peers msg clk a' peers' effs reply :
  size peers ≤ K → actor_handle a peers msg clk = Done (a', peers', effs, reply) →
  sum_list_with effect_weight effs < msg_weight msg ∧ ∀ x, x ∈ effs → ¬ carries_delta x.
Proof.
  intros Hs. destruct msg as [f q u|m|[m|f]|d|[k v|k]| |]; simpl.
  - unfold handle_mutate. pose proof (mutate_light (sa_engine a) f q u clk) as Hl.
    destruct (mutate _ _ _ _ _) as [e r]. intros [= <- <- <- _]. simpl in Hl.
    destruct (route_light (set_engine a e) peers _ _ Hs Hl). split; [lia|done].
  - unfold handle_inbound_sync_msg. destruct (handle_inbound_sync _ _ _) as [[e acts]|] eqn:Hr; [|done].
    intros [= <- <- <- _]. apply inbound_light in Hr. by apply route_light.
  - unfold handle_inbound_wire, handle_inbound.
    destruct (handle_inbound_sync _ _ _) as [[e acts]|] eqn:Hr; [|done].
    intros [= <- <- <- _]. apply inbound_light in Hr. by apply route_light.
  - intros [= <- <- <- _]. split; [simpl; lia|]. by intros x ?%elem_of_nil.
  - unfold handle_query_views, query, query_local. intros Hq.
    assert (∃ targets, NoDup targets ∧
      effs = route_actions a peers (make_snapshot_request (sa_engine a) <$> targets)) as (targets & Hnd & ->).
    { revert Hq. case_bool_decide; [intros [= _ _ <- _]; exists []; split; [apply NoDup_nil_2|done]|].
      destruct (pull_on_query _); intros [= _ _ <- _].
      - eexists. split; [|done]. apply NoDup_filter, NoDup_keys_where.
      - exists []. split; [apply NoDup_nil_2|done]. }
    split.
    + pose proof (senders_length (engine_node_id (sa_engine a)) peers Hs).
      eapply Nat.le_lt_trans; [by apply requests_weight|]. lia.
    + intros x. apply route_delta. by intros act (t & -> & _)%list_elem_of_fmap [].
  - destruct (engine_on_node_joined _ _ _ _) as [[e acts]|] eqn:Hj; [|done]. intros [= <- <- <- _].
    apply (route_light _ _ _ 1); [done|]. unfold engine_on_node_joined in Hj. simpl in Hj.
    destruct (own_view_value _); simpl in Hj; [|done]. injection Hj as _ <-.
    apply light_one; [simpl; unfold sync_weight; simpl; lia|by intros []].
  - intros [= <- <- <- _]. split; [simpl; lia|]. by intros x ?%elem_of_nil.
  - unfold handle_periodic_sync. destruct (periodic_sync _) as [[e acts]|] eqn:Hp; [|done].
    intros [= <- <- <- _]. apply (route_light _ _ _ K); [done|]. revert Hp. unfold periodic_sync.
    case_match; [intros [= _ <-]; apply light_nil|].
    destruct (own_view_value _); simpl; [|done]. intros [= _ <-].
    apply light_one; [simpl; unfold sync_weight; simpl; lia|by intros []].
  - unfold handle_flush_change_feed. destruct (flush_change_feed _) as [e b]. intros [= <- <- <- _].
    destruct b as [f|]; [|split; [simpl; lia|]; by intros x ?%elem_of_nil].
    rewrite (sum_constant effect_weight (λ p, SentWire p.2 (WireFeed f)) 1) by done.
    pose proof (senders_length (engine_node_id e) peers Hs). split; [lia|].
    by intros x (y & -> & _)%list_elem_of_fmap [].
Qed.

(** The tasks a handler spawns are its node's. *)
Lemma route_spawned a peers acts t :
  Spawned t ∈ route_actions a peers acts → ds_own_id t = engine_node_id (sa_engine a).
Proof.
  unfold route_actions. rewrite list_elem_of_bind. intros (act & Hx & _).
  destruct act as [m|t' m|d m]; simpl in Hx.
  - by apply list_elem_of_fmap in Hx as (y & ? & _).
  - destruct (List.find _ _); [|by apply elem_of_nil in Hx]. by apply list_elem_of_singleton in Hx.
  - by apply list_elem_of_singleton in Hx as [= ->].
Qed.

Lemma handle_spawned a peers msg clk a' peers' effs reply t :
  actor_handle a peers msg clk = Done (a', peers', effs, reply) → Spawned t ∈ effs →
  ds_own_id t = engine_node_id (sa_engine a).
Proof.
  intros Hh. destruct (handle_static _ _ _ _ _ _ _ _ Hh) as [_ <-]. revert Hh.
  destruct msg as [f q u|m|m|d|[k v|k]| |]; simpl.
  - unfold handle_mutate. destruct (mutate _ _ _ _ _) as [e r]. intros [= <- <- <- _]. apply route_spawned.
  - unfold handle_inbound_sync_msg. destruct (handle_inbound_sync _ _ _) as [[e acts]|]; [|done].
    intros [= <- <- <- _]. apply route_spawned.
  - unfold handle_inbound_wire. destruct (handle_inbound _ _ _) as [[e acts]|]; [|done].
    intros [= <- <- <- _]. apply route_spawned.
  - unfold handle_query_views. destruct (query _ _ _ _) as [r acts]. intros [= <- <- <- _]. apply route_spawned.
  - destruct (engine_on_node_joined _ _ _ _) as [[e acts]|]; [|done]. intros [= <- <- <- _]. apply route_spawned.
  - intros [= <- <- <- _]. by intros ?%elem_of_nil.
  - unfold handle_periodic_sync. destruct (periodic_sync _) as [[e acts]|]; [|done].
    intros [= <- <- <- _]. apply route_spawned.
  - unfold handle_flush_change_feed. destruct (flush_change_feed _) as [e b]. intros [= <- <- <- _].
    destruct b; [|by intros ?%elem_of_nil]. by intros (y & ? & _)%list_elem_of_fmap.
Qed.
End Weights.

(** ** Announcing *)
Section Announcing.
Context `{HashIter} {S V M C : Type} `{!ViewMapOps V M} `{!ViewMapLaws V M} `{Clock C}.
Context {Sender : Type} (p : S → V).
Implicit Types (e : DistributedStateEngine S V M) (a : StateActor S V M).
Implicit Types (peers : gmap NodeId Sender) (msg : ActorMsg S V) (clk : C) (j : NodeId).

(** A mutation under this urgency is pushed, at once or later. *)
Definition pushes e (u : SyncUrgency) : Prop :=
  match resolve_action (sync_logic e) u with
  | BroadcastSnapshot | BroadcastDelta | ScheduleDelayedSync _ => True
  | NotifyChangeFeed | SuppressSync => False
  end.

(** Handling the message, the node tells [j] its state. *)
Definition announces e msg j : Prop :=
  match msg with
  | MsgMutate _ _ u => pushes e u
  | MsgClusterChange (NodeJoined k _) => k = j
  | MsgPeriodicSync => should_periodic_sync (sync_logic e) = true
  | MsgInboundSync (RequestSnapshot n k) =>
      n = state_name e ∧ k = j ∧ should_accept_from (lifecycle e) k = true
  | _ => False
  end.

Lemma route_broadcast a peers m j s :
  peers !! j = Some s → j ≠ engine_node_id (sa_engine a) →
  SentSync s m ∈ route_actions a peers [BroadcastSync m].
Proof.
  intros Hj Hne. apply list_elem_of_bind. exists (BroadcastSync m). split; [|by left].
  apply list_elem_of_fmap. exists (j, s). by rewrite elem_of_senders.
Qed.

Lemma route_send a peers acts m j s :
  SendSync j m ∈ acts → peers !! j = Some s → j ≠ engine_node_id (sa_engine a) →
  SentSync s m ∈ route_actions a peers acts.
Proof.
  intros Hm Hj Hne. apply list_elem_of_bind. exists (SendSync j m). split; [|done]. simpl.
  assert ((j, s) ∈ senders_except (engine_node_id (sa_engine a)) peers) as Hin by by rewrite elem_of_senders.
  destruct (List.find _ _) as [[k s']|] eqn:Hf.
  - apply List.find_some in Hf as [Hin' Hk%bool_decide_eq_true]. simpl in Hk. subst k.
    apply list_elem_of_In, elem_of_senders in Hin' as [_ Hs']. simplify_eq. by left.
  - apply list_elem_of_In in Hin. apply (List.find_none _ _ Hf) in Hin. simpl in Hin.
    by rewrite bool_decide_eq_true_2 in Hin.
Qed.

Lemma route_send_one a peers m j s :
  peers !! j = Some s → j ≠ engine_node_id (sa_engine a) →
  SentSync s m ∈ route_actions a peers [SendSync j m].
Proof. apply route_send. by left. Qed.

Lemma handle_announces a peers msg clk a' peers' effs reply j s :
  actor_handle a peers msg clk = Done (a', peers', effs, reply) → announces (sa_engine a) msg j →
  match msg with MsgMutate _ q _ => q = p | _ => True end →
  peers !! j = Some s → j ≠ engine_node_id (sa_engine a) →
  ∃ data, SentSync s (own_snapshot (sa_engine a') data) ∈ effs ∨
    ∃ t, Spawned t ∈ effs ∧ ds_message t = own_snapshot (sa_engine a') data.
Proof.
  intros Hh Ha Hp Hj Hne. destruct (handle_static _ _ _ _ _ _ _ _ Hh) as [_ Hid]. rewrite <- Hid in Hne.
  clear Hid. destruct msg as [f q u|[| |n k]|m|d|[k v|k]| |]; simpl in Hh, Ha; try done.
  - subst q. unfold handle_mutate in Hh. pose proof (mutate_effect p (sa_engine a) f u clk) as He.
    destruct (mutate _ _ _ _ _) as [e r]. injection Hh as <- <- <- _. simpl.
    destruct He as (_ & _ & _ & _ & Hacts). unfold pushes in Ha.
    destruct (resolve_action _ _) as [| | |d|]; try done; rewrite Hacts; eexists.
    + left. by eapply (route_broadcast (set_engine a e)).
    + left. by eapply (route_broadcast (set_engine a e)).
    + right. exists (mkDelayedSend d (own_snapshot e (serialize_view e (p (so_value (sh_state (shard e))))))
        (engine_node_id e)).
      split; [|done]. apply list_elem_of_bind. eexists. split; [|by left]. by left.
  - destruct Ha as (-> & -> & Hacc). unfold handle_inbound_sync_msg in Hh. simpl in Hh.
    unfold handle_request_snapshot in Hh. rewrite bool_decide_eq_true_2, Hacc in Hh by done. simpl in Hh.
    destruct (own_view_value _); simpl in Hh; [|done]. injection Hh as <- <- <- _. eexists. left.
    by eapply (route_send_one (set_engine a _)).
  - subst k. destruct (engine_on_node_joined _ _ _ _) as [[e acts]|] eqn:Hr; [|done].
    injection Hh as <- <- <- _. unfold engine_on_node_joined in Hr. simpl in Hr.
    destruct (own_view_value _); simpl in Hr; [|done]. injection Hr as <- <-. eexists. left.
    by eapply (route_send_one (set_engine a _)).
  - unfold handle_periodic_sync, periodic_sync in Hh. rewrite Ha in Hh. simpl in Hh.
    destruct (own_view_value _); simpl in Hh; [|done]. injection Hh as <- <- <- _. eexists. left.
    by eapply (route_broadcast (set_engine a _)).
Qed.
End Announcing.
