(* ===== verification/ActorConvergence.v ===== *)
(** The cluster of actors left alone: it falls silent, and then everybody shows what was
    announced.

    The framework is reliable for the running actors ([ReliableFramework]); the actors
    know each other ([meshed]).  Every message waiting and every task spawned has a weight,
    and whatever a handler sends weighs less than the message it handled, so the system
    falls silent under any order of the messages and the timers.  From the moment a node
    announces its state to another one, the other shows it, or a message or a task that
    carries it is still under way. *)
From stdpp Require Import prelude gmap fin_maps strings relations list_numbers.
From S2P Require Import Prelude Node Clock Types ViewMap ShardCore ShardProps SyncLogic.
From S2P Require Import ChangeFeed Versioning Lifecycle Diagnostics Engine EngineProps.
From S2P Require Import Protocol Accounting Network NetworkRuns StateActor ActorSystem.
From S2P Require Import ActorHandling.

(** ** The framework, when it works *)

(** For the actors [rs]: a message told is enqueued, the actor is handed one of the
    messages waiting, in any order, and something as long as something waits. *)
Class ReliableFramework {Ref Msg Fw : Type} `{Countable Ref} `{!ActorFramework Ref Msg Fw}
    (rs : gset Ref) : Prop := {
  rf_tell r m f : r ∈ rs → fw_mailbox (fw_tell r m f).1 r ≡ₚ m :: fw_mailbox f r;
  rf_tell_other r r' m f :
    r' ∈ rs → r ≠ r' → fw_mailbox (fw_tell r m f).1 r' ≡ₚ fw_mailbox f r';
  rf_receive r m f f' :
    r ∈ rs → fw_receive r f = Some (m, f') → fw_mailbox f r ≡ₚ m :: fw_mailbox f' r;
  rf_receive_other r r' m f f' :
    r' ∈ rs → r ≠ r' → fw_receive r f = Some (m, f') → fw_mailbox f r' ≡ₚ fw_mailbox f' r';
  rf_hands r f : r ∈ rs → fw_mailbox f r ≠ [] → is_Some (fw_receive r f)
}.

(** ** The system, left alone *)
Section Alone.
Context `{HashIter} {S V M C : Type} `{!ViewMapOps V M} `{!ViewMapLaws V M} `{Clock C}.
Context {Ref Fw : Type} `{Countable Ref}.
Context `{!ActorFramework Ref (ActorMsg S V) Fw} `{!ActorFrameworkLaws Ref (ActorMsg S V) Fw}.
Context (rs : gset Ref) `{!ReliableFramework (Msg:=ActorMsg S V) (Fw:=Fw) rs} (K : nat).
Context (name : string) (p : S → V) (w : Z)
  (ser : SerializeViewFn V) (de : DeserializeViewFn V) (ap : option (InboundDeltaApplierFn V)).
Local Abbreviation system := (ActorSystem (Ref:=Ref) (S:=S) (V:=V) (M:=M) (Fw:=Fw)).
Local Abbreviation cell := (ActorCell (S:=S) (V:=V) (M:=M)).
Local Abbreviation tracks := (tracks (C:=C) name p w ser de ap).
Local Abbreviation system_step := (system_step (C:=C) name p w ser de ap).
Implicit Types (sys : system) (c : cell) (r : Ref) (fw : Fw) (clk : C) (i j k id : NodeId).
Implicit Types (msg : ActorMsg S V) (x : Effect (ActorRefPeerSender (Ref:=Ref))).

Definition mailbox sys r : list (ActorMsg S V) := fw_mailbox (as_framework sys) r.

(** Nobody tells anybody anything: actors handle what waits, and timers fire. *)
Inductive left_alone sys : system → Prop :=
| la_handle r c msg fw clk a peers effs reply :
    as_cells sys !! r = Some c → stopped c = false →
    fw_receive r (as_framework sys) = Some (msg, fw) → in_range c msg →
    actor_handle (cell_actor c) (registry_of sys (cell_registry c)) msg clk =
      Done (a, peers, effs, reply) →
    left_alone sys
      (perform r (set_registry (set_cell (set_framework sys fw) r (mkActorCell a (cell_registry c)))
         (cell_registry c) peers) effs)
| la_timer r c t l1 l2 :
    as_tasks sys = l1 ++ (r, t) :: l2 → as_cells sys !! r = Some c →
    left_alone sys
      (perform r (set_tasks sys (l1 ++ l2))
         (delayed_fires (stopped c) (registry_of sys (cell_registry c)) t)).

Lemma left_alone_step sys sys' : left_alone sys sys' → system_step sys sys'.
Proof. intros []; [by eapply sys_handle|by eapply sys_timer]. Qed.

(** *** Performing effects *)
Lemma perform_frame r effs : ∀ sys,
  as_cells (perform r sys effs) = as_cells sys ∧
  as_registries (perform r sys effs) = as_registries sys ∧ as_used (perform r sys effs) = as_used sys.
Proof.
  induction effs as [|x effs IH]; intros sys; simpl; [done|].
  destruct (IH (perform_effect r sys x)) as (-> & -> & ->). by destruct x.
Qed.

Lemma perform_mail r effs r' msg : ∀ sys,
  msg ∈ mailbox (perform r sys effs) r' →
  msg ∈ mailbox sys r' ∨ ∃ x, x ∈ effs ∧
    ((∃ s m, x = SentSync s m ∧ msg = MsgInboundSync m) ∨ (∃ s m, x = SentWire s m ∧ msg = MsgInboundWire m)).
Proof.
  induction effs as [|x effs IH]; intros sys; simpl; [by left|]. intros [Hin|(y & Hy & Hm)]%IH.
  2: { right. exists y. split; [by right|done]. }
  destruct x as [s m|s m|t]; [| |by left]; unfold mailbox in Hin; simpl in Hin.
  - rewrite send_sync_tell in Hin. apply fw_tell_mailbox in Hin as [?|[_ ->]]; [by left|right].
    eexists. split; [by left|]. left. eauto.
  - rewrite send_wire_tell in Hin. apply fw_tell_mailbox in Hin as [?|[_ ->]]; [by left|right].
    eexists. split; [by left|]. right. eauto.
Qed.

Lemma tell_keeps r r' m msg fw :
  r' ∈ rs → msg ∈ fw_mailbox fw r' → msg ∈ fw_mailbox (fw_tell r m fw).1 r'.
Proof.
  intros Hr' Hin. destruct (decide (r = r')) as [->|Hne].
  - rewrite rf_tell by done. by right.
  - by rewrite rf_tell_other.
Qed.

Lemma perform_keeps r effs r' msg : ∀ sys,
  r' ∈ rs → msg ∈ mailbox sys r' → msg ∈ mailbox (perform r sys effs) r'.
Proof.
  induction effs as [|x effs IH]; intros sys Hr' Hin; simpl; [done|]. apply IH; [done|].
  unfold mailbox. destruct x as [s m|s m|t]; simpl; [| |done].
  - rewrite send_sync_tell. by apply tell_keeps.
  - rewrite send_wire_tell. by apply tell_keeps.
Qed.

Lemma perform_sent r effs s m : ∀ sys,
  actor_ref s ∈ rs → SentSync s m ∈ effs →
  MsgInboundSync m ∈ mailbox (perform r sys effs) (actor_ref s).
Proof.
  induction effs as [|x effs IH]; intros sys Hs Hin; [by apply elem_of_nil in Hin|].
  apply elem_of_cons in Hin as [<-|Hin]; simpl; [|by apply IH].
  apply perform_keeps; [done|]. unfold mailbox. simpl. rewrite send_sync_tell, rf_tell by done. by left.
Qed.

Lemma perform_tasks r effs y : ∀ sys,
  y ∈ as_tasks (perform r sys effs) ↔ y ∈ as_tasks sys ∨ ∃ t, Spawned t ∈ effs ∧ y = (r, t).
Proof.
  induction effs as [|x effs IH]; intros sys; simpl.
  { split; [by left|]. intros [?|(t & ?%elem_of_nil & _)]; done. }
  rewrite IH. setoid_rewrite elem_of_cons. destruct x as [s m|s m|t]; simpl.
  - naive_solver.
  - naive_solver.
  - rewrite elem_of_app, list_elem_of_singleton. naive_solver.
Qed.

(** *** The weight of the system *)
Definition mail_weight fw : nat :=
  sum_list_with (λ r, sum_list_with (msg_weight K) (fw_mailbox fw r)) (elements rs).
Definition weight sys : nat :=
  mail_weight (as_framework sys) + sum_list_with (λ y, task_weight K y.2) (as_tasks sys).

Lemma sum_change {A} `{EqDecision A} (f g : A → nat) l a n :
  NoDup l → (∀ b, b ∈ l → b ≠ a → g b = f b) → (a ∈ l → g a = f a + n)%nat →
  sum_list_with g l = (sum_list_with f l + if decide (a ∈ l) then n else 0)%nat.
Proof.
  induction 1 as [|b l Hb Hl IH]; intros Hne Ha; cbn [sum_list_with].
  { by destruct (decide (a ∈ [])) as [?%elem_of_nil|]. }
  rewrite IH; [|intros; apply Hne; by try right|intros; apply Ha; by right].
  destruct (decide (a = b)) as [->|Hab].
  - rewrite Ha by by left. destruct (decide (b ∈ l)); [done|].
    destruct (decide (b ∈ b :: l)) as [_|Hno]; [lia|]. destruct Hno. by left.
  - rewrite (Hne b) by (by left || congruence).
    assert ((if decide (a ∈ b :: l) then n else 0%nat) = (if decide (a ∈ l) then n else 0%nat)) as ->; [|lia].
    apply decide_ext. rewrite elem_of_cons. naive_solver.
Qed.

Lemma tell_weight r m fw :
  (mail_weight (fw_tell r m fw).1 ≤ mail_weight fw + msg_weight K m)%nat.
Proof.
  unfold mail_weight.
  rewrite (sum_change (λ r, sum_list_with (msg_weight K) (fw_mailbox fw r)) _ _ r (msg_weight K m)).
  - case_decide; lia.
  - apply NoDup_elements.
  - intros r' Hr' Hne. apply elem_of_elements in Hr'. by rewrite rf_tell_other.
  - intros Hr. apply elem_of_elements in Hr. rewrite rf_tell by done. simpl. lia.
Qed.

Lemma receive_weight r m fw fw' :
  r ∈ rs → fw_receive r fw = Some (m, fw') →
  mail_weight fw = (mail_weight fw' + msg_weight K m)%nat.
Proof.
  intros Hr Hrec. unfold mail_weight.
  rewrite (sum_change (λ r, sum_list_with (msg_weight K) (fw_mailbox fw' r)) _ _ r (msg_weight K m)).
  - by rewrite decide_True by by apply elem_of_elements.
  - apply NoDup_elements.
  - intros r' Hr' Hne. apply elem_of_elements in Hr'. by rewrite (rf_receive_other r r' m fw fw').
  - intros _. rewrite (rf_receive r m fw fw') by done. simpl. lia.
Qed.

Lemma perform_weight r effs : ∀ sys,
  (weight (perform r sys effs) ≤ weight sys + sum_list_with (effect_weight K) effs)%nat.
Proof.
  induction effs as [|x effs IH]; intros sys; simpl; [lia|].
  etrans; [apply IH|]. rewrite (assoc_L Nat.add). apply Nat.add_le_mono_r.
  unfold weight. destruct x as [s m|s m|t]; simpl.
  - rewrite send_sync_tell. pose proof (tell_weight (actor_ref s) (MsgInboundSync m) (as_framework sys)).
    simpl in *. lia.
  - rewrite send_wire_tell. pose proof (tell_weight (actor_ref s) (MsgInboundWire m) (as_framework sys)).
    destruct m; simpl in *; lia.
  - rewrite sum_list_with_app. simpl. lia.
Qed.

(** Running actors are served, and no registry has more than [K] peers. *)
Definition running sys : Prop :=
  (∀ r c, as_cells sys !! r = Some c → stopped c = false → r ∈ rs) ∧
  ∀ g, (size (registry_of sys g) ≤ K)%nat.

Lemma fires_weight b (peers : gmap NodeId (ActorRefPeerSender (Ref:=Ref))) t :
  (size peers ≤ K)%nat →
  (sum_list_with (effect_weight K) (delayed_fires b peers t) < task_weight K t)%nat.
Proof.
  intros Hs. unfold delayed_fires, task_weight. destruct b; [simpl; lia|].
  rewrite (sum_constant (effect_weight K)
    (λ q : NodeId * ActorRefPeerSender (Ref:=Ref), SentSync q.2 (ds_message t)) (sync_weight (ds_message t))) by done.
  pose proof (senders_length K (ds_own_id t) peers Hs) as Hl.
  apply (Nat.mul_le_mono_r _ _ (sync_weight (ds_message t))) in Hl. lia.
Qed.

(** Whatever happens, the system gets lighter. *)
Lemma left_alone_lighter sys sys' :
  running sys → left_alone sys sys' → (weight sys' < weight sys)%nat.
Proof.
  intros [Hrs Hsize] [r c msg fw clk a peers effs reply Hc Hst Hrec _ Hh|r c t l1 l2 Hl Hc];
    (eapply Nat.le_lt_trans; [apply perform_weight|]).
  - destruct (handle_lighter K _ _ _ _ _ _ _ _ (Hsize (cell_registry c)) Hh) as [Hlt _].
    assert (weight sys = weight (set_registry (set_cell (set_framework sys fw) r
      (mkActorCell a (cell_registry c))) (cell_registry c) peers) + msg_weight K msg)%nat as ->; [|lia].
    unfold weight. simpl. rewrite (receive_weight r msg (as_framework sys) fw) by eauto. lia.
  - pose proof (fires_weight (stopped c) _ t (Hsize (cell_registry c))).
    assert (weight sys = weight (set_tasks sys (l1 ++ l2)) + task_weight K t)%nat as ->; [|lia].
    unfold weight. simpl. rewrite Hl, !sum_list_with_app. simpl. lia.
Qed.

(** *** Order in the system *)

(** Every task belongs to an actor, and no deltas are under way. *)
Record orderly sys : Prop := {
  or_tasks : ∀ r t, (r, t) ∈ as_tasks sys → ¬ is_delta (ds_message t) ∧
    ∃ c, as_cells sys !! r = Some c ∧ ds_own_id t = engine_node_id (cell_engine c);
  or_mail : ∀ r msg m, msg ∈ mailbox sys r → msg_sync msg = Some m → ¬ is_delta m
}.

Lemma perform_orderly r c effs sys :
  orderly sys → as_cells sys !! r = Some c → (∀ x, x ∈ effs → ¬ carries_delta x) →
  (∀ t, Spawned t ∈ effs → ds_own_id t = engine_node_id (cell_engine c)) → orderly (perform r sys effs).
Proof.
  intros [Ht Hm] Hc Hd Ho. destruct (perform_frame r effs sys) as (Hcells & _). split.
  - intros r' t. rewrite perform_tasks, Hcells. intros [?|(t' & Hin & [= -> ->])]; [by apply Ht|].
    split; [by apply (Hd _ Hin)|]. exists c. split; [done|by apply Ho].
  - intros r' msg m Hin Hs. apply perform_mail in Hin as [?|(x & Hx & Hmsg)]; [by eapply Hm|].
    apply Hd in Hx. destruct Hmsg as [(s & m' & -> & ->)|(s & m' & -> & ->)]; simpl in *; [by simplify_eq|].
    destruct m'; by simplify_eq.
Qed.

(** Only the cell of [r] changes, and hosts the same node. *)
Lemma orderly_cells sys sys' r c c' :
  orderly sys → as_cells sys !! r = Some c → as_cells sys' = <[r := c']> (as_cells sys) →
  engine_node_id (cell_engine c') = engine_node_id (cell_engine c) →
  (∀ y, y ∈ as_tasks sys' → y ∈ as_tasks sys) →
  (∀ r' msg, msg ∈ mailbox sys' r' → msg ∈ mailbox sys r') → orderly sys'.
Proof.
  intros [Ht Hm] Hc Hcells Hid Htasks Hmail. split; [|eauto].
  intros r' t Hin. destruct (Ht r' t) as (Hd & x & Hx & Hown); [by apply Htasks|]. split; [done|].
  rewrite Hcells. destruct (decide (r = r')) as [<-|Hr].
  - exists c'. rewrite lookup_insert_eq. split; [done|]. assert (x = c) as -> by congruence. by rewrite Hid.
  - exists x. by rewrite lookup_insert_ne.
Qed.

Lemma system_step_orderly sys sys' : orderly sys → system_step sys sys' → orderly sys'.
Proof.
  intros Ho [r id x cfg clk g Hr Hid Hlater|g peers|r msg Hm|fw Hfw
    |r c msg fw clk a peers effs reply Hr Hs Hrec Hage Hh|r c t l1 l2 Hl Hr|r c Hr].
  - destruct Ho as [Ht Hm]. split; [|done]. intros r' t Hin. simpl in Hin.
    destruct (Ht r' t Hin) as (Hd & c & Hc & Hown). split; [done|]. exists c. split; [|done].
    simpl. rewrite lookup_insert_ne; [done|congruence].
  - by destruct Ho.
  - destruct Ho as [Ht Hm']. split; [done|]. intros r' msg' m Hin Hs.
    apply fw_tell_mailbox in Hin as [?|[_ ->]]; [by eapply Hm'|]. by destruct msg as [| |[]| | | |].
  - destruct Ho as [Ht Hm']. split; [done|]. intros r' msg' m Hin%Hfw. by apply (Hm' r' msg' m).
  - destruct (handle_static _ _ _ _ _ _ _ _ Hh) as [_ Hid].
    destruct (handle_lighter _ _ _ _ _ _ _ _ _ (Nat.le_refl _) Hh) as [_ Hd].
    eapply (perform_orderly r (mkActorCell a (cell_registry c))); [|by apply lookup_insert_eq|done|].
    + eapply (orderly_cells sys); [done|done|done|done|done|].
      intros r' msg' Hin. apply fw_receive_mailbox in Hrec as [_ Hsub]. by apply Hsub.
    + intros t Ht. rewrite (handle_spawned _ _ _ _ _ _ _ _ _ Hh Ht). by rewrite <- Hid.
  - eapply (perform_orderly r c); [|done| |].
    + destruct Ho as [Ht Hm]. split; [|done]. intros r' t' Hin. apply Ht. rewrite Hl. simpl in Hin. set_solver.
    + destruct (or_tasks _ Ho r t) as [Hd _]; [rewrite Hl; set_solver|].
      unfold delayed_fires. case_match; [by intros y ?%elem_of_nil|].
      by intros y (q & -> & _)%list_elem_of_fmap.
    + intros t'. unfold delayed_fires. case_match; [by intros ?%elem_of_nil|].
      by intros (q & ? & _)%list_elem_of_fmap.
  - by eapply (orderly_cells sys).
Qed.

Lemma system_reach_orderly sys : system_reach (C:=C) name p w ser de ap sys → orderly sys.
Proof.
  intros (sys0 & (Hc & Htasks & _ & Hm) & Hr).
  assert (orderly sys0) as Ho.
  { split; [rewrite Htasks; by intros r t ?%elem_of_nil|].
    intros r msg m. unfold mailbox. rewrite Hm. by intros ?%elem_of_nil. }
  clear Hc Htasks Hm. induction Hr; eauto using system_step_orderly.
Qed.

(** *** Everybody knows everybody *)
Context (Hcodec : ∀ v, de (ser v) w = Ok v).
Local Abbreviation node_inv := (node_inv name p w ser de ap).

(** What may wait for an actor: no mutation that is held back, no departure of a node
    that runs. *)
Definition peaceful sys c msg : Prop :=
  match msg with
  | MsgMutate _ _ u => pushes (cell_engine c) u
  | MsgClusterChange (NodeLeft k) => ∀ r' c', ¬ hosts sys k r' c'
  | _ => True
  end.

(** The running actors are served, they know and accept each other, and nothing waits that
    would undo it ([peaceful]): a mutation that is held back would change a state and tell
    no one, and a departure of a node that runs would make the others drop it. *)
Record meshed sys : Prop := {
  me_running : running sys;
  me_known : ∀ i r c j r' c', hosts sys i r c → hosts sys j r' c' → i ≠ j →
    registry_of sys (cell_registry c) !! j = Some (mkActorRefPeerSender r');
  me_accepts : ∀ i r c j r' c', hosts sys i r c → hosts sys j r' c' → i ≠ j →
    j ∉ departed_nodes (lifecycle (cell_engine c));
  me_peaceful : ∀ i r c msg, hosts sys i r c → msg ∈ mailbox sys r → peaceful sys c msg
}.

Lemma host_inv sys n i r c :
  tracks sys n → hosts sys i r c → node_inv (net_history n) i (cell_engine c).
Proof.
  intros Ht Hc. destruct (tr_run _ _ _ _ _ _ _ _ Ht _ _ _ Hc) as [Hn _].
  destruct (net_reachable_inv name p w ser de ap n Hcodec (tr_reach _ _ _ _ _ _ _ _ Ht)) as (_ & Hi & _).
  by apply Hi.
Qed.

Lemma mail_ok sys n r msg :
  tracks sys n → orderly sys → msg ∈ mailbox sys r → handled_ok p w ser ap (net_history n) msg.
Proof.
  intros Ht Ho Hin. pose proof (tr_mail _ _ _ _ _ _ _ _ Ht r msg Hin) as Hk.
  destruct (net_reachable_inv name p w ser de ap n Hcodec (tr_reach _ _ _ _ _ _ _ _ Ht)) as (_ & _ & Hv).
  split; [by destruct msg|]. intros m Hm. split; [|by eapply or_mail].
  destruct msg as [|m'|[m'|]| | | |]; simplify_eq/=; exact (Hv _ Hk).
Qed.

(** The system after actor [r] handled a message. *)
Definition handled sys r c fw (a : StateActor S V M) peers effs : system :=
  perform r (set_registry (set_cell (set_framework sys fw) r (mkActorCell a (cell_registry c)))
    (cell_registry c) peers) effs.

Lemma handled_hosts sys r c fw a peers effs i r0 c0 :
  hosts sys (engine_node_id (cell_engine c)) r c → stopped (mkActorCell a (cell_registry c)) = false →
  engine_node_id (sa_engine a) = engine_node_id (cell_engine c) →
  hosts (handled sys r c fw a peers effs) i r0 c0 ↔
    (r0 = r ∧ c0 = mkActorCell a (cell_registry c) ∧ hosts sys i r c) ∨ (r0 ≠ r ∧ hosts sys i r0 c0).
Proof.
  intros (Hc & Hst & _) Hst' Hid. unfold hosts, handled.
  destruct (perform_frame r effs (set_registry (set_cell (set_framework sys fw) r
    (mkActorCell a (cell_registry c))) (cell_registry c) peers)) as (-> & _). simpl.
  rewrite lookup_insert_Some. split.
  - intros ([[<- <-]|[Hne Hx]] & Hs & Hi); [left|right; by split_and!].
    split_and!; try done. change (engine_node_id (sa_engine a) = i) in Hi. by rewrite <- Hid.
  - intros [(-> & -> & _ & _ & Hi)|(Hne & Hx & Hs & Hi)]; split_and!; try done; [by left| |by right].
    change (engine_node_id (sa_engine a) = i). by rewrite Hid.
Qed.

Lemma handled_registry sys r c fw a peers effs g :
  registry_of (handled sys r c fw a peers effs) g =
    if decide (cell_registry c = g) then peers else registry_of sys g.
Proof.
  unfold registry_of, handled.
  destruct (perform_frame r effs (set_registry (set_cell (set_framework sys fw) r
    (mkActorCell a (cell_registry c))) (cell_registry c) peers)) as (_ & -> & _). simpl.
  rewrite lookup_insert. by case_decide.
Qed.

Lemma handled_mail sys r c fw a peers effs r' msg0 msg :
  fw_receive r (as_framework sys) = Some (msg0, fw) →
  msg ∈ mailbox (handled sys r c fw a peers effs) r' →
  msg ∈ mailbox sys r' ∨ (∃ m, msg = MsgInboundSync m) ∨ ∃ m, msg = MsgInboundWire m.
Proof.
  intros [_ Hsub]%fw_receive_mailbox Hin. apply perform_mail in Hin as [Hin|(x & _ & Hx)].
  - left. by apply Hsub.
  - right. destruct Hx as [(s & m & _ & ->)|(s & m & _ & ->)]; eauto.
Qed.

(** *** It stays so *)

(** A handler at [sys], with everything that is known about it. *)
Record handling sys n id r c msg fw a peers : Prop := {
  hd_tracks : tracks sys n;
  hd_hosts : hosts sys id r c;
  hd_receive : fw_receive r (as_framework sys) = Some (msg, fw);
  hd_mail : msg ∈ mailbox sys r;
  hd_ok : handled_ok p w ser ap (net_history n) msg;
  hd_moved : moved id msg (cell_engine c) (sa_engine a) (registry_of sys (cell_registry c)) peers;
  hd_stopped : stopped (mkActorCell a (cell_registry c)) = false;
  hd_seen : ∀ src g w0 data, msg = MsgInboundSync (FullSnapshot name src g w0 data) →
    src ∉ departed_nodes (lifecycle (cell_engine c)) → sees (sa_engine a) g src
}.

Lemma handling_intro sys n r c msg fw clk a peers effs reply :
  tracks sys n → orderly sys → as_cells sys !! r = Some c → stopped c = false →
  fw_receive r (as_framework sys) = Some (msg, fw) →
  actor_handle (cell_actor c) (registry_of sys (cell_registry c)) msg clk = Done (a, peers, effs, reply) →
  handling sys n (engine_node_id (cell_engine c)) r c msg fw a peers.
Proof.
  intros Ht Ho Hc Hst Hrec Hh. assert (hosts sys (engine_node_id (cell_engine c)) r c) as Hr by done.
  pose proof (proj1 (fw_receive_mailbox _ _ _ _ Hrec)) as Hm.
  pose proof (mail_ok sys n r msg Ht Ho Hm) as Hok.
  split; try done.
  - eapply handle_moves; [done| |done|done]. by apply (host_inv sys n _ r c).
  - destruct (actor_handle_engine _ _ _ _ _ _ _ _ Hh) as (_ & Hs & _). unfold stopped. simpl. by rewrite Hs.
  - intros src g w0 data -> Hdep. destruct Hok as [_ Hsync].
    destruct (Hsync _ eq_refl) as [Hv Hnd]. simpl in Hh. unfold handle_inbound_sync_msg in Hh.
    destruct (handle_inbound_sync _ _ _) as [[e acts]|] eqn:Hr'; [|done]. injection Hh as <- _ _ _.
    destruct (sync_received name p w ser de ap (net_history n) (engine_node_id (cell_engine c))
      (cell_engine c) (FullSnapshot name src g w0 data) clk e acts) as [_ Hs]; [done| |done..|].
    + by apply (host_inv sys n _ r c).
    + eapply Hs; [done|]. by apply should_accept_from_spec.
Qed.

Lemma handling_hosts sys n id r c msg fw a peers effs i r0 c0 :
  handling sys n id r c msg fw a peers →
  hosts (handled sys r c fw a peers effs) i r0 c0 ↔
    (r0 = r ∧ c0 = mkActorCell a (cell_registry c) ∧ hosts sys i r c) ∨ (r0 ≠ r ∧ hosts sys i r0 c0).
Proof.
  intros [_ Hr _ _ _ Hm Hs _]. assert (engine_node_id (cell_engine c) = id) as Hid by apply Hr.
  apply handled_hosts; [by rewrite Hid|done|]. rewrite Hid. apply Hm.
Qed.

(** Who runs stays the same, with the strategy, and only unknown nodes leave. *)
Lemma handling_back sys n id r c msg fw a peers effs i r0 c0 :
  handling sys n id r c msg fw a peers → hosts (handled sys r c fw a peers effs) i r0 c0 →
  ∃ c1, hosts sys i r0 c1 ∧ cell_registry c0 = cell_registry c1 ∧
    static (cell_engine c0) = static (cell_engine c1) ∧
    ∀ k, k ∈ departed_nodes (lifecycle (cell_engine c0)) →
      k ∈ departed_nodes (lifecycle (cell_engine c1)) ∨ leaves msg k.
Proof.
  intros Hd Hc0. apply (handling_hosts _ _ _ _ _ _ _ _ _ _ _ _ _ Hd) in Hc0.
  destruct Hc0 as [(-> & -> & Hr)|[_ Hr]].
  - exists c. split_and!; [done|done|apply Hd|apply Hd].
  - exists c0. split_and!; [done..|]. by left.
Qed.

Lemma handling_peaceful sys n id r c msg fw a peers i r0 c0 :
  meshed sys → handling sys n id r c msg fw a peers → hosts sys i r0 c0 → ¬ leaves msg i.
Proof.
  intros Hm Hd Hr. pose proof (me_peaceful _ Hm _ _ _ _ (hd_hosts _ _ _ _ _ _ _ _ _ Hd)
    (hd_mail _ _ _ _ _ _ _ _ _ Hd)) as Hp.
  destruct msg as [| | | |[|k]| |]; simpl in *; try by intros []. intros ->. by eapply Hp.
Qed.

Lemma pushes_static (e e' : DistributedStateEngine S V M) u : static e' = static e → pushes e u → pushes e' u.
Proof. intros [= _ _ Hs]. unfold pushes. by rewrite Hs. Qed.

Lemma handling_meshed sys n id r c msg fw a peers effs :
  meshed sys → handling sys n id r c msg fw a peers → meshed (handled sys r c fw a peers effs).
Proof.
  intros Hm Hd. pose proof Hm as [[Hrs Hsize] Hknown Hacc Hpeace].
  pose proof (hd_moved _ _ _ _ _ _ _ _ _ Hd) as Hmv.
  assert (∀ i r0 c0, hosts (handled sys r c fw a peers effs) i r0 c0 →
    ∃ c1, hosts sys i r0 c1 ∧ cell_registry c0 = cell_registry c1 ∧
      static (cell_engine c0) = static (cell_engine c1) ∧
      ∀ k, k ∈ departed_nodes (lifecycle (cell_engine c0)) →
        k ∈ departed_nodes (lifecycle (cell_engine c1)) ∨ leaves msg k) as Hback
    by (intros i r0 c0; by eapply handling_back).
  split; [split|..].
  - intros r0 c0 Hc0 Hs0. destruct (Hback (engine_node_id (cell_engine c0)) r0 c0) as (c1 & (Hc1 & Hs1 & _) & _);
      [done|by eapply Hrs].
  - intros g. rewrite handled_registry. case_decide; [|apply Hsize]. subst g.
    etrans; [|apply (Hsize (cell_registry c))]. apply map_subseteq_size, Hmv.
  - intros i r0 c0 j r' c' Hi Hj Hij. destruct (Hback _ _ _ Hi) as (ci & Hci & Hg & _).
    destruct (Hback _ _ _ Hj) as (cj & Hcj & _). rewrite handled_registry, Hg.
    assert (¬ leaves msg j) as Hl by by eapply handling_peaceful.
    case_decide as Hgc; [|by eapply Hknown]. rewrite (mv_peers _ _ _ _ _ _ Hmv j Hl), Hgc. by eapply Hknown.
  - intros i r0 c0 j r' c' Hi Hj Hij Hin. destruct (Hback _ _ _ Hi) as (ci & Hci & _ & _ & Hdep).
    destruct (Hback _ _ _ Hj) as (cj & Hcj & _). destruct (Hdep j Hin) as [Hin'|Hl].
    + by eapply (Hacc i r0 ci j r' cj).
    + by eapply handling_peaceful.
  - intros i r0 c0 msg' Hi Hin. destruct (Hback _ _ _ Hi) as (ci & Hci & _ & Hst & _).
    apply (handled_mail _ _ _ _ _ _ _ _ _ _ (hd_receive _ _ _ _ _ _ _ _ _ Hd)) in Hin
      as [Hin|[[m ->]|[m ->]]]; [|done..].
    pose proof (Hpeace i r0 ci msg' Hci Hin) as Hp. destruct msg' as [f q u| | | |[|k]| |]; try done; simpl in *.
    + by eapply pushes_static.
    + intros r1 c1 Hk. destruct (Hback _ _ _ Hk) as (ck & Hck & _). by eapply Hp.
Qed.

(** *** An announcement arrives *)

(** Actor [r'] of cell [c'] shows generation [g] of node [i], hosted by [r], or it is under
    way to it. *)
Definition reaching sys r i g r' c' : Prop :=
  sees (cell_engine c') g i ∨
  (∃ w0 data, MsgInboundSync (FullSnapshot name i g w0 data) ∈ mailbox sys r') ∨
  (∃ t w0 data, (r, t) ∈ as_tasks sys ∧ ds_message t = FullSnapshot name i g w0 data).

Lemma handled_keeps sys r c msg fw a peers effs r' msg' :
  r ∈ rs → r' ∈ rs → fw_receive r (as_framework sys) = Some (msg, fw) → msg' ∈ mailbox sys r' →
  (r' = r ∧ msg' = msg) ∨ msg' ∈ mailbox (handled sys r c fw a peers effs) r'.
Proof.
  intros Hr Hr' Hrec Hin. unfold mailbox in Hin. destruct (decide (r' = r)) as [->|Hne].
  - rewrite (rf_receive r msg (as_framework sys) fw) in Hin by done.
    apply elem_of_cons in Hin as [->|Hin]; [by left|right]. by apply perform_keeps.
  - right. rewrite (rf_receive_other r r' msg (as_framework sys) fw) in Hin by done.
    by apply perform_keeps.
Qed.

Lemma meshed_served sys i r c : meshed sys → hosts sys i r c → r ∈ rs.
Proof. intros Hm (Hc & Hs & _). by eapply (me_running _ Hm). Qed.

Lemma handling_reaching sys n id r c msg fw a peers effs i ri ci j rj cj g :
  meshed sys → handling sys n id r c msg fw a peers →
  hosts sys i ri ci → hosts sys j rj cj → i ≠ j → reaching sys ri i g rj cj →
  ∃ cj', hosts (handled sys r c fw a peers effs) j rj cj' ∧
    reaching (handled sys r c fw a peers effs) ri i g rj cj'.
Proof.
  intros Hm Hd Hi Hj Hij Hre. pose proof (hd_hosts _ _ _ _ _ _ _ _ _ Hd) as Hr.
  pose proof (handling_hosts sys n id r c msg fw a peers effs j rj) as Hh.
  set (cj' := if decide (rj = r) then mkActorCell a (cell_registry c) else cj).
  assert (hosts (handled sys r c fw a peers effs) j rj cj') as Hj'.
  { apply (Hh cj' Hd). unfold cj'. destruct (decide (rj = r)) as [->|]; [left|by right].
    split_and!; [done..|]. destruct Hj as (Hcj & Hsj & Hidj), Hr as (Hc & _).
    assert (cj = c) as -> by congruence. done. }
  exists cj'. split; [done|]. destruct Hre as [Hs|[(w0 & data & Hin)|(t & w0 & data & Hin & Ht)]].
  - left. unfold cj'. destruct (decide (rj = r)) as [->|]; [|done].
    destruct Hj as (Hcj & _ & Hidj), Hr as (Hc & _ & Hid). assert (cj = c) as -> by congruence.
    apply (mv_sees _ _ _ _ _ _ (hd_moved _ _ _ _ _ _ _ _ _ Hd)); [congruence| |done].
    by eapply handling_peaceful.
  - destruct (handled_keeps sys r c msg fw a peers effs rj (MsgInboundSync (FullSnapshot name i g w0 data)))
      as [[-> <-]|Hin']; [by eapply meshed_served|by eapply meshed_served|apply Hd|done| |].
    + left. unfold cj'. rewrite decide_True by done.
      eapply (hd_seen _ _ _ _ _ _ _ _ _ Hd); [done|].
      destruct Hj as (Hcj & ? & Hidj), Hr as (Hc & ? & Hid). assert (cj = c) as -> by congruence.
      by eapply (me_accepts _ Hm j r c i ri ci).
    + right. left. by eexists _, _.
  - right. right. exists t, w0, data. split; [|done]. apply perform_tasks. by left.
Qed.

(** A timer fires. *)
Definition fired sys r c t l : system :=
  perform r (set_tasks sys l) (delayed_fires (stopped c) (registry_of sys (cell_registry c)) t).

Lemma fired_hosts sys r c t l i r0 c0 : hosts (fired sys r c t l) i r0 c0 ↔ hosts sys i r0 c0.
Proof.
  unfold hosts, fired. by destruct (perform_frame r (delayed_fires (stopped c)
    (registry_of sys (cell_registry c)) t) (set_tasks sys l)) as (-> & _).
Qed.

Lemma fired_registry sys r c t l g : registry_of (fired sys r c t l) g = registry_of sys g.
Proof.
  unfold registry_of, fired. by destruct (perform_frame r (delayed_fires (stopped c)
    (registry_of sys (cell_registry c)) t) (set_tasks sys l)) as (_ & -> & _).
Qed.

Lemma fired_meshed sys r c t l : meshed sys → meshed (fired sys r c t l).
Proof.
  intros [[Hrs Hsize] Hknown Hacc Hpeace]. split; [split|..].
  - intros r0 c0 Hc0 Hs0. eapply (Hrs r0 c0); [|done]. revert Hc0. unfold fired.
    by destruct (perform_frame r (delayed_fires (stopped c) (registry_of sys (cell_registry c)) t)
      (set_tasks sys l)) as (-> & _).
  - intros g. rewrite fired_registry. apply Hsize.
  - intros i r0 c0 j r' c'. rewrite !fired_hosts, fired_registry. apply Hknown.
  - intros i r0 c0 j r' c'. rewrite !fired_hosts. apply Hacc.
  - intros i r0 c0 msg. rewrite fired_hosts. intros Hi Hin.
    apply perform_mail in Hin as [Hin|(x & _ & [(s & m & _ & ->)|(s & m & _ & ->)])]; [|done..].
    pose proof (Hpeace i r0 c0 msg Hi Hin) as Hp. destruct msg as [| | | |[|k]| |]; try done. simpl in *.
    intros r1 c1. rewrite fired_hosts. apply Hp.
Qed.

Lemma fired_reaching sys r c t l1 l2 i ri ci j rj cj g :
  meshed sys → orderly sys → as_tasks sys = l1 ++ (r, t) :: l2 → as_cells sys !! r = Some c →
  hosts sys i ri ci → hosts sys j rj cj → i ≠ j → reaching sys ri i g rj cj →
  reaching (fired sys r c t (l1 ++ l2)) ri i g rj cj.
Proof.
  intros Hm Ho Hl Hc Hi Hj Hij [Hs|[(w0 & data & Hin)|(t' & w0 & data & Hin & Ht)]]; [by left|..].
  - right. left. exists w0, data. apply perform_keeps; [by eapply meshed_served|done].
  - right. pose proof Hin as Hin'. rewrite Hl in Hin.
    assert ((ri, t') ∈ l1 ++ l2 ∨ (ri, t') = (r, t)) as [Hrest|[= -> ->]] by set_solver.
    { right. exists t', w0, data. split; [|done]. apply perform_tasks. by left. }
    left. exists w0, data. rewrite <- Ht. apply (perform_sent r _ (mkActorRefPeerSender rj));
      [by eapply meshed_served|].
    destruct (or_tasks _ Ho r t Hin') as (_ & x & Hx & Hown).
    assert (x = ci) as -> by (destruct Hi; congruence). assert (c = ci) as -> by congruence.
    unfold delayed_fires. destruct Hi as (Hci & Hsi & Hidi). rewrite Hsi.
    apply list_elem_of_fmap. exists (j, mkActorRefPeerSender rj). split; [done|].
    apply elem_of_senders. rewrite Hown, Hidi. split; [done|]. by eapply (me_known _ Hm i r ci j rj cj).
Qed.

(** The announcement sets out. *)
Lemma handling_announces sys n id r c msg fw clk a peers effs reply j r' c' :
  meshed sys → handling sys n id r c msg fw a peers →
  actor_handle (cell_actor c) (registry_of sys (cell_registry c)) msg clk = Done (a, peers, effs, reply) →
  announces (cell_engine c) msg j → hosts sys j r' c' → id ≠ j →
  ∃ cj', hosts (handled sys r c fw a peers effs) j r' cj' ∧
    reaching (handled sys r c fw a peers effs) r id (generation_of (sa_engine a)) r' cj'.
Proof.
  intros Hm Hd Hh Ha Hj Hij. pose proof (hd_hosts _ _ _ _ _ _ _ _ _ Hd) as Hr.
  pose proof (hd_moved _ _ _ _ _ _ _ _ _ Hd) as Hmv.
  assert (∀ data, own_snapshot (sa_engine a) data =
    FullSnapshot name id (generation_of (sa_engine a)) (wire_version (sa_engine a)) data) as Hown.
  { intros data. unfold own_snapshot. rewrite (mv_id _ _ _ _ _ _ Hmv).
    destruct (host_inv sys n id r c (hd_tracks _ _ _ _ _ _ _ _ _ Hd) Hr) as [_ (Hname & _) _ _ _ _ _ _].
    pose proof (mv_static _ _ _ _ _ _ Hmv) as [= Hn _]. by rewrite Hn, Hname. }
  assert (∃ cj', hosts (handled sys r c fw a peers effs) j r' cj') as [cj' Hj'].
  { exists c'. apply (handling_hosts _ _ _ _ _ _ _ _ _ _ _ _ _ Hd). right. split; [|done]. intros ->.
    destruct Hr as (? & _ & ?), Hj as (? & _ & ?). congruence. }
  exists cj'. split; [done|]. right.
  destruct (handle_announces p (cell_actor c) (registry_of sys (cell_registry c)) msg clk a peers effs reply j
    (mkActorRefPeerSender r') Hh Ha) as (data & [Hin|(t & Hin & Hds)]).
  - by destruct (hd_ok _ _ _ _ _ _ _ _ _ Hd) as [? _].
  - by eapply (me_known _ Hm id r c j r' c').
  - destruct Hr as (_ & _ & Hid). unfold cell_engine in Hid. congruence.
  - left. eexists _, data. rewrite <- Hown. apply (perform_sent r _ (mkActorRefPeerSender r')); [|done].
    by eapply meshed_served.
  - right. exists t. eexists _, data. rewrite <- Hown. split; [|done]. apply perform_tasks. right. eauto.
Qed.

(** *** Whatever happens then *)
Definition informed sys i r c r' c' : Prop := reaching sys r i (generation_of (cell_engine c)) r' c'.

Lemma handling_informed sys n id r c msg fw clk a peers effs reply i ri ci j rj cj :
  meshed sys → handling sys n id r c msg fw a peers →
  actor_handle (cell_actor c) (registry_of sys (cell_registry c)) msg clk = Done (a, peers, effs, reply) →
  hosts sys i ri ci → hosts sys j rj cj → i ≠ j → informed sys i ri ci rj cj →
  ∃ ci' cj', hosts (handled sys r c fw a peers effs) i ri ci' ∧
    hosts (handled sys r c fw a peers effs) j rj cj' ∧
    informed (handled sys r c fw a peers effs) i ri ci' rj cj'.
Proof.
  intros Hm Hd Hh Hi Hj Hij Hinf. pose proof (hd_hosts _ _ _ _ _ _ _ _ _ Hd) as Hr.
  pose proof (hd_moved _ _ _ _ _ _ _ _ _ Hd) as Hmv.
  destruct (decide (ri = r)) as [->|Hne].
  - assert (ci = c) as -> by (destruct Hi, Hr; congruence).
    assert (i = id) as -> by (destruct Hi as (_ & _ & ?), Hr as (_ & _ & ?); congruence).
    exists (mkActorCell a (cell_registry c)).
    assert (∃ cj', hosts (handled sys r c fw a peers effs) j rj cj' ∧
      reaching (handled sys r c fw a peers effs) r id (generation_of (sa_engine a)) rj cj') as (cj' & ? & ?).
    { assert (mutates msg ∨ ¬ mutates msg) as [Hmut|Hmut] by (destruct msg; simpl; tauto).
      - eapply handling_announces; [done..| |done|done].
        pose proof (me_peaceful _ Hm _ _ _ _ Hr (hd_mail _ _ _ _ _ _ _ _ _ Hd)). by destruct msg.
      - unfold generation_of. rewrite (mv_state _ _ _ _ _ _ Hmv Hmut).
        by eapply handling_reaching. }
    exists cj'. split_and!; [|done..]. apply (handling_hosts _ _ _ _ _ _ _ _ _ _ _ _ _ Hd). by left.
  - destruct (handling_reaching sys n id r c msg fw a peers effs i ri ci j rj cj
      (generation_of (cell_engine ci))) as (cj' & ? & ?); [done..|].
    exists ci, cj'. split_and!; [|done..]. apply (handling_hosts _ _ _ _ _ _ _ _ _ _ _ _ _ Hd). by right.
Qed.

Lemma left_alone_keeps sys sys' :
  system_reach (C:=C) name p w ser de ap sys → meshed sys → left_alone sys sys' →
  meshed sys' ∧ ∀ i r c j r' c', hosts sys i r c → hosts sys j r' c' → i ≠ j → informed sys i r c r' c' →
    ∃ c1 c1', hosts sys' i r c1 ∧ hosts sys' j r' c1' ∧ informed sys' i r c1 r' c1'.
Proof.
  intros Hreach Hm Hstep. destruct (system_reach_tracks name p w ser de ap sys Hreach) as [n Ht].
  pose proof (system_reach_orderly sys Hreach) as Ho.
  destruct Hstep as [r c msg fw clk a peers effs reply Hc Hst Hrec _ Hh|r c t l1 l2 Hl Hc].
  - pose proof (handling_intro sys n r c msg fw clk a peers effs reply Ht Ho Hc Hst Hrec Hh) as Hd.
    split; [by eapply handling_meshed|]. intros. by eapply handling_informed.
  - split; [by apply fired_meshed|]. intros i ri ci j rj cj Hi Hj Hij Hinf. exists ci, cj.
    split_and!; [by apply fired_hosts..|]. by eapply fired_reaching.
Qed.

(** *** Falling silent *)
Definition silent sys : Prop :=
  as_tasks sys = [] ∧ ∀ i r c, hosts sys i r c → mailbox sys r = [].

Lemma silent_stuck sys sys' : silent sys → ¬ left_alone sys sys'.
Proof.
  intros [Htasks Hmail] [r c msg fw clk a peers effs reply Hc Hst Hrec _ _|r c t l1 l2 Hl _].
  - apply fw_receive_mailbox in Hrec as [Hin _]. change (msg ∈ mailbox sys r) in Hin.
    rewrite (Hmail (engine_node_id (cell_engine c)) r c) in Hin by done. by apply elem_of_nil in Hin.
  - rewrite Htasks in Hl. by destruct l1.
Qed.

(** No age runs out, whatever mutations still wait. *)
Definition young sys : Prop :=
  ∀ i r c, hosts sys i r c → age (generation_of (cell_engine c)) + Z.of_nat (weight sys) ≤ u64_max.

Lemma handled_age msg clk (a a' : StateActor S V M)
    (peers peers' : gmap NodeId (ActorRefPeerSender (Ref:=Ref))) effs reply id :
  moved (S:=S) (V:=V) id msg (sa_engine a) (sa_engine a') peers peers' →
  actor_handle a peers msg clk = Done (a', peers', effs, reply) →
  match msg with MsgMutate _ _ _ => age (generation_of (sa_engine a)) < u64_max | _ => True end →
  0 ≤ age (generation_of (sa_engine a)) →
  age (generation_of (sa_engine a')) ≤ age (generation_of (sa_engine a)) + 1.
Proof.
  intros Hmv Hh Hage Hpos.
  assert (mutates msg ∨ ¬ mutates msg) as [Hmut|Hmut] by (destruct msg; simpl; tauto).
  - destruct msg as [f q u| | | | | |]; try done. simpl in Hh. unfold handle_mutate in Hh.
    pose proof (mutate_effect q (sa_engine a) f u clk) as He. destruct (mutate _ _ _ _ _) as [e r].
    injection Hh as <- _ _ _. destruct He as (_ & _ & Hg & _). simpl. rewrite Hg. simpl.
    rewrite u64_succ_small by lia. lia.
  - unfold generation_of. rewrite (mv_state _ _ _ _ _ _ Hmv Hmut). lia.
Qed.

Lemma left_alone_young sys sys' :
  system_reach (C:=C) name p w ser de ap sys → meshed sys → young sys → left_alone sys sys' → young sys'.
Proof.
  intros Hreach Hm Hy Hstep.
  destruct (system_reach_tracks name p w ser de ap sys Hreach) as [n Ht].
  pose proof (system_reach_orderly sys Hreach) as Ho.
  pose proof (left_alone_lighter sys sys' (me_running _ Hm) Hstep) as Hlt.
  destruct Hstep as [r c msg fw clk a peers effs reply Hc Hst Hrec Hin Hh|r c t l1 l2 Hl Hc].
  - pose proof (handling_intro sys n r c msg fw clk a peers effs reply Ht Ho Hc Hst Hrec Hh) as Hd.
    intros i r0 c0 Hi. apply (handling_hosts _ _ _ _ _ _ _ _ _ _ _ _ _ Hd) in Hi as [(-> & -> & Hr)|[_ Hr]].
    + assert (0 ≤ age (generation_of (cell_engine c))) as Hpos.
      { destruct (host_inv sys n i r c Ht Hr) as [_ _ _ _ Hown _ _ _].
        destruct (net_reachable_inv name p w ser de ap n Hcodec (tr_reach _ _ _ _ _ _ _ _ Ht)) as (Hhist & _).
        destruct (Hhist _ _ _ Hown) as [[_ Hu] _]. unfold is_u64 in Hu. lia. }
      pose proof (handled_age msg clk (cell_actor c) a _ peers effs reply _ (hd_moved _ _ _ _ _ _ _ _ _ Hd) Hh Hin Hpos).
      pose proof (Hy i r c Hr). unfold cell_engine in *. simpl in *. lia.
    + pose proof (Hy i r0 c0 Hr). lia.
  - intros i r0 c0 Hi. apply (fired_hosts sys r c t (l1 ++ l2)) in Hi.
    pose proof (Hy i r0 c0 Hi) as Hage. unfold fired in *. lia.
Qed.

(** As long as something waits, something can happen. *)
Lemma left_alone_progress sys clk :
  system_reach (C:=C) name p w ser de ap sys → meshed sys → young sys →
  silent sys ∨ ∃ sys', left_alone sys sys'.
Proof.
  intros Hreach Hm Hy. destruct (system_reach_tracks name p w ser de ap sys Hreach) as [n Ht].
  pose proof (system_reach_orderly sys Hreach) as Ho.
  destruct (as_tasks sys) as [|[r t] l] eqn:Htasks.
  2: { right. destruct (or_tasks _ Ho r t) as (_ & c & Hc & _); [rewrite Htasks; by left|].
       eexists. by eapply (la_timer sys r c t [] l). }
  destruct (decide (Forall (λ y, stopped y.2 = true ∨ mailbox sys y.1 = []) (map_to_list (as_cells sys))))
    as [Hall|Hex].
  - left. split; [done|]. intros i r c (Hc & Hst & _). rewrite Forall_forall in Hall.
    destruct (Hall (r, c)) as [Hs|?]; [by apply elem_of_map_to_list| |done]. simpl in Hs. congruence.
  - right. apply not_Forall_Exists, Exists_exists in Hex as ([r c] & Hc%elem_of_map_to_list & Hne); [|apply _].
    simpl in Hne. apply Decidable.not_or in Hne as [Hst%not_true_is_false Hne].
    assert (hosts sys (engine_node_id (cell_engine c)) r c) as Hr by done.
    assert (r ∈ rs) as Hrs by by eapply meshed_served.
    destruct (rf_hands r (as_framework sys) Hrs Hne) as [[msg fw] Hrec].
    destruct (actor_handle_done (cell_actor c) (registry_of sys (cell_registry c)) msg clk)
      as (a & peers & effs & reply & Hh & _); [apply (tr_run _ _ _ _ _ _ _ _ Ht _ r c Hr)|].
    eexists. eapply (la_handle sys r c msg fw clk); [done..| |done].
    pose proof (receive_weight r msg (as_framework sys) fw Hrs Hrec) as Hw.
    assert (0 < msg_weight K msg)%nat as Hpos
      by (destruct msg as [| |[]| | | |]; simpl; unfold sync_weight; lia).
    pose proof (Hy _ r c Hr) as Hage. unfold weight in Hage. destruct msg; simpl; try done. lia.
Qed.

Lemma announced_informs sys i ri ci j rj cj msg fw clk a peers effs reply :
  system_reach (C:=C) name p w ser de ap sys → meshed sys →
  hosts sys i ri ci → hosts sys j rj cj → i ≠ j →
  fw_receive ri (as_framework sys) = Some (msg, fw) →
  actor_handle (cell_actor ci) (registry_of sys (cell_registry ci)) msg clk = Done (a, peers, effs, reply) →
  announces (cell_engine ci) msg j →
  ∃ c1 c2, hosts (handled sys ri ci fw a peers effs) i ri c1 ∧
    hosts (handled sys ri ci fw a peers effs) j rj c2 ∧
    informed (handled sys ri ci fw a peers effs) i ri c1 rj c2.
Proof.
  intros Hreach Hm Hi Hj Hij Hrec Hh Ha. pose proof Hi as (Hc & Hst & Hid).
  destruct (system_reach_tracks name p w ser de ap sys Hreach) as [n Ht].
  pose proof (handling_intro sys n ri ci msg fw clk a peers effs reply Ht (system_reach_orderly sys Hreach)
    Hc Hst Hrec Hh) as Hd. rewrite Hid in Hd.
  destruct (handling_announces sys n i ri ci msg fw clk a peers effs reply j rj cj) as (c2 & H2 & Hre); [done..|].
  exists (mkActorCell a (cell_registry ci)), c2. split_and!; [|done..].
  apply (handling_hosts _ _ _ _ _ _ _ _ _ _ _ _ _ Hd). by left.
Qed.

Lemma silent_current sys i r c j r' c' :
  system_reach (C:=C) name p w ser de ap sys → silent sys → hosts sys i r c → hosts sys j r' c' → i ≠ j →
  informed sys i r c r' c' → current p (cell_engine c) (cell_engine c').
Proof.
  intros Hreach [Htasks Hmail] Hi Hj Hij [Hs|[(w0 & data & Hin)|(t & w0 & data & Hin & _)]].
  2: { rewrite (Hmail j r' c' Hj) in Hin. by apply elem_of_nil in Hin. }
  2: { rewrite Htasks in Hin. by apply elem_of_nil in Hin. }
  destruct (system_reach_tracks name p w ser de ap sys Hreach) as [n Ht].
  pose proof (net_reachable_inv name p w ser de ap n Hcodec (tr_reach _ _ _ _ _ _ _ _ Ht)) as Hinv.
  destruct (tr_run _ _ _ _ _ _ _ _ Ht _ _ _ Hi) as [Hni _].
  destruct (tr_run _ _ _ _ _ _ _ _ Ht _ _ _ Hj) as [Hnj (Hwf & _)].
  destruct (host_inv sys n i r c Ht Hi) as [Hid _ _ _ Hown _ _ _].
  destruct Hs as (vo & Hvo & Hle). simpl in Hwf.
  assert (get_view (shard (cell_engine c')) i = Some vo) as Hview by by rewrite get_view_contents.
  assert (vo_generation vo = generation_of (cell_engine c) ∧
    vo_value vo = p (so_value (sh_state (shard (cell_engine c))))) as [Hg Hval].
  { destruct (net_view name p w ser de ap n j i (cell_engine c') (cell_engine c) vo Hinv Hnj Hni Hview)
      as [Hz|(_ & Hle' & Hv)].
    - exfalso. destruct Hinv as (Hhist & _). destruct (Hhist _ _ _ Hown) as [_ Hpos].
      rewrite Hz in Hle. unfold generation_of in *. gen_lia.
    - assert (vo_generation vo = generation_of (cell_engine c)) as Hg by by apply (anti_symm gen_le).
      split; [done|by apply Hv]. }
  exists vo. unfold engine_node_id in *. by rewrite Hid.
Qed.

Lemma left_alone_reach sys sys' :
  system_reach (C:=C) name p w ser de ap sys → rtc left_alone sys sys' →
  system_reach (C:=C) name p w ser de ap sys'.
Proof.
  intros (sys0 & H0' & Hr) Hrun. exists sys0. split; [done|]. etrans; [done|].
  clear -Hrun. induction Hrun; [done|]. eapply rtc_l; [by apply left_alone_step|done].
Qed.

(** A run: it is short, and everything is kept along it. *)
Lemma left_alone_run sys (k : nat) sys' :
  meshed sys → system_reach (C:=C) name p w ser de ap sys → nsteps left_alone k sys sys' →
  (k + weight sys' ≤ weight sys)%nat ∧ meshed sys' ∧ (young sys → young sys') ∧
  ∀ i r c j r' c', hosts sys i r c → hosts sys j r' c' → i ≠ j → informed sys i r c r' c' →
    ∃ c1 c1', hosts sys' i r c1 ∧ hosts sys' j r' c1' ∧ informed sys' i r c1 r' c1'.
Proof.
  intros Hm Hreach Hrun. revert Hm Hreach. induction Hrun as [sys|k sys sys1 sys' Hstep _ IH]; intros Hm Hreach.
  { split_and!; [lia|done|done|]. intros i r c j r' c' Hi Hj Hij Hinf. by exists c, c'. }
  destruct (left_alone_keeps sys sys1 Hreach Hm Hstep) as [Hm1 Hinf1].
  pose proof (left_alone_lighter sys sys1 (me_running _ Hm) Hstep) as Hlt.
  destruct IH as (Hk & Hm' & Hy' & Hinf); [done|by eapply left_alone_reach; [|by apply rtc_once]|].
  split_and!; [lia|done|intros; by eapply Hy', left_alone_young|].
  intros i r c j r' c' Hi Hj Hij Hsent.
  destruct (Hinf1 i r c j r' c' Hi Hj Hij Hsent) as (c1 & c1' & ? & ? & ?). by eapply Hinf.
Qed.
End Alone.

(** [C4] Eventual consistency of a cluster of actors, from any state it can be in: messages
    lost, registries wrong, nodes restarted before.  Let the running actors know each
    other, with no mutation that is held back and no departure of a running node waiting
    ([meshed]), and the framework serve them.  When the actor of node [i] handles a message that
    announces its state to node [j] (a pushed mutation, the arrival of [j], a periodic
    sync, a request of [j] for it) and the cluster is then left alone: under any order of
    the messages and the timers it falls silent, within [weight] steps, and then [j] shows
    exactly what [i] has. *)
Theorem actors_converge `{HashIter} {S V M C Ref Fw} `{!ViewMapOps V M} `{!ViewMapLaws V M}
    `{Clock C} `{Countable Ref} `{!ActorFramework Ref (ActorMsg S V) Fw}
    `{!ActorFrameworkLaws Ref (ActorMsg S V) Fw} (rs : gset Ref)
    `{!ReliableFramework (Msg:=ActorMsg S V) (Fw:=Fw) rs} (K : nat)
    (name : string) (p : S → V) (w : Z) (ser : SerializeViewFn V) (de : DeserializeViewFn V)
    (ap : option (InboundDeltaApplierFn V)) (sys : ActorSystem (S:=S) (V:=V) (M:=M) (Fw:=Fw))
    (i j : NodeId) (ri rj : Ref) (ci cj : ActorCell (S:=S) (V:=V) (M:=M))
    msg fw (clk : C) a peers effs reply :
  (∀ v, de (ser v) w = Ok v) →
  system_reach (C:=C) name p w ser de ap sys → meshed rs K sys →
  hosts sys i ri ci → hosts sys j rj cj → i ≠ j →
  fw_receive ri (as_framework sys) = Some (msg, fw) → in_range ci msg →
  actor_handle (cell_actor ci) (registry_of sys (cell_registry ci)) msg clk = Done (a, peers, effs, reply) →
  announces (cell_engine ci) msg j →
  let sys1 := handled sys ri ci fw a peers effs in
  young rs K sys1 →
  (∀ k sys2, nsteps (left_alone (C:=C)) k sys1 sys2 → (k ≤ weight rs K sys1)%nat) ∧
  ∀ sys2, rtc (left_alone (C:=C)) sys1 sys2 →
    (∃ sys3, left_alone (C:=C) sys2 sys3) ∨
    (silent sys2 ∧ ∃ c1 c2, hosts sys2 i ri c1 ∧ hosts sys2 j rj c2 ∧
      current p (cell_engine c1) (cell_engine c2)).
Proof.
  intros Hcodec Hreach Hm Hi Hj Hij Hrec Hin Hh Ha sys1 Hy1. pose proof Hi as (Hc & Hst & Hid).
  assert (left_alone (C:=C) sys sys1) as Hstep by by eapply la_handle.
  assert (system_reach (C:=C) name p w ser de ap sys1) as Hreach1
    by (eapply left_alone_reach; [done|by apply rtc_once]).
  destruct (left_alone_keeps rs K name p w ser de ap Hcodec sys sys1 Hreach Hm Hstep) as [Hm1 _].
  split.
  { intros k sys2 Hrun.
    destruct (left_alone_run rs K name p w ser de ap Hcodec sys1 k sys2 Hm1 Hreach1 Hrun) as [Hk _]. lia. }
  intros sys2 [k Hrun]%rtc_nsteps.
  destruct (left_alone_run rs K name p w ser de ap Hcodec sys1 k sys2 Hm1 Hreach1 Hrun)
    as (_ & Hm2 & Hy2 & Hinf).
  assert (system_reach (C:=C) name p w ser de ap sys2) as Hreach2
    by (eapply left_alone_reach; [exact Hreach1|by eapply rtc_nsteps_2]).
  destruct (left_alone_progress rs K name p w ser de ap sys2 clk Hreach2 Hm2 (Hy2 Hy1)) as [Hsil|?]; [right|by left].
  split; [done|].
  destruct (announced_informs rs K name p w ser de ap Hcodec sys i ri ci j rj cj msg fw clk a peers effs reply)
    as (c1 & c1' & Hi1 & Hj1 & Hsent); [done..|].
  destruct (Hinf i ri c1 j rj c1' Hi1 Hj1 Hij Hsent) as (c2 & c2' & Hi2 & Hj2 & Hsent').
  exists c2, c2'. split_and!; [done..|]. by eapply (silent_current name p w ser de ap Hcodec).
Qed.
