(* ===== verification/ActorPull.v ===== *)
(** Asking for a snapshot, in the cluster of actors: a query that finds a node stale makes
    the actor request its state, and when the cluster is then left alone the answer arrives,
    under any order of the messages and the timers. *)
From stdpp Require Import prelude gmap fin_maps strings relations.
From S2P Require Import Prelude Node Clock Types ViewMap ShardCore ShardProps SyncLogic.
From S2P Require Import ChangeFeed Versioning Lifecycle Diagnostics Engine EngineProps.
From S2P Require Import Protocol Accounting Network NetworkRuns StateActor ActorSystem.
From S2P Require Import ActorHandling ActorConvergence.

(** ** A query that asks *)
Section Asking.
Context `{HashIter} {S V M C : Type} `{!ViewMapOps V M} `{!ViewMapLaws V M} `{Clock C}.
Context {Sender : Type}.
Implicit Types (e : DistributedStateEngine S V M) (a : StateActor S V M).
Implicit Types (peers : gmap NodeId Sender) (msg : ActorMsg S V) (clk : C) (i : NodeId).

(** A query with this tolerance reports [i] as stale. *)
Definition finds_stale e (d : Duration) clk i : Prop :=
  ∃ views stale, (query e d (λ m : gmap NodeId (StateViewObject V), m) clk).1 = EngineStale views stale ∧
    i ∈ stale.

(** Handling the message, the node asks [i] for its state. *)
Definition asks e msg clk i : Prop :=
  match msg with
  | MsgQueryViews d => pull_on_query (sl_strategy (sync_logic e)) = true ∧ finds_stale e d clk i
  | _ => False
  end.

Lemma query_requests e d clk i :
  pull_on_query (sl_strategy (sync_logic e)) = true → finds_stale e d clk i →
  i ∉ departed_nodes (lifecycle e) →
  make_snapshot_request e i ∈ (query e d (λ m : gmap NodeId (StateViewObject V), m) clk).2.
Proof.
  intros Hpull (views & stale & Hq & Hin) Hdep. revert Hq. unfold query.
  destruct (query_local _ _ _ _) as [r|stale' r]; simpl; [done|]. intros [= _ ->]. rewrite Hpull.
  apply list_elem_of_fmap. exists i. split; [done|]. apply list_elem_of_filter.
  split; [by apply should_accept_from_spec|done].
Qed.

Lemma handle_asks a peers msg clk a' peers' effs reply i s :
  actor_handle a peers msg clk = Done (a', peers', effs, reply) → asks (sa_engine a) msg clk i →
  peers !! i = Some s → i ≠ engine_node_id (sa_engine a) → i ∉ departed_nodes (lifecycle (sa_engine a)) →
  SentSync s (RequestSnapshot (state_name (sa_engine a)) (engine_node_id (sa_engine a))) ∈ effs.
Proof.
  destruct msg as [| | |d| | |]; try done. simpl. intros Hh [Hpull Hst] Hi Hne Hdep.
  pose proof (query_requests _ _ _ _ Hpull Hst Hdep) as Hreq. unfold handle_query_views in Hh.
  destruct (query _ _ _ _) as [r acts]. injection Hh as <- <- <- _. simpl in Hreq.
  by eapply route_send.
Qed.
End Asking.

(** ** The system, left alone *)
Section Pull.
Context `{HashIter} {S V M C : Type} `{!ViewMapOps V M} `{!ViewMapLaws V M} `{Clock C}.
Context {Ref Fw : Type} `{Countable Ref}.
Context `{!ActorFramework Ref (ActorMsg S V) Fw} `{!ActorFrameworkLaws Ref (ActorMsg S V) Fw}.
Context (rs : gset Ref) `{!ReliableFramework (Msg:=ActorMsg S V) (Fw:=Fw) rs} (K : nat).
Context (name : string) (p : S → V) (w : Z)
  (ser : SerializeViewFn V) (de : DeserializeViewFn V) (ap : option (InboundDeltaApplierFn V)).
Context (Hcodec : ∀ v, de (ser v) w = Ok v).
Local Abbreviation system := (ActorSystem (Ref:=Ref) (S:=S) (V:=V) (M:=M) (Fw:=Fw)).
Local Abbreviation cell := (ActorCell (S:=S) (V:=V) (M:=M)).
Local Abbreviation reach := (system_reach (C:=C) name p w ser de ap).
Local Abbreviation meshed := (meshed rs K).
Local Abbreviation young := (young rs K).
Local Abbreviation weight := (weight rs K).
Local Abbreviation left_alone := (left_alone (C:=C)).
Local Abbreviation informed := (informed name).
Local Abbreviation handling := (handling (C:=C) name p w ser de ap).
Implicit Types (sys : system) (c : cell) (r : Ref) (fw : Fw) (clk : C) (i j k id : NodeId).
Implicit Types (msg : ActorMsg S V).

(** What every step keeps holds when the system has fallen silent, and it falls silent. *)
Lemma left_alone_settles (P : system → Prop) sys clk :
  (∀ sys1 sys2, reach sys1 → meshed sys1 → left_alone sys1 sys2 → P sys1 → P sys2) →
  reach sys → meshed sys → young sys → P sys →
  (∀ (k : nat) sys', nsteps left_alone k sys sys' → (k ≤ weight sys)%nat) ∧
  ∀ sys', rtc left_alone sys sys' →
    (∃ sys'', left_alone sys' sys'') ∨ (silent sys' ∧ reach sys' ∧ meshed sys' ∧ P sys').
Proof.
  intros Hkeep Hreach Hm Hy HP. split.
  { intros k sys' Hrun.
    destruct (left_alone_run rs K name p w ser de ap Hcodec sys k sys' Hm Hreach Hrun) as [Hk _]. lia. }
  intros sys' Hrun. pose proof Hrun as [k Hsteps]%rtc_nsteps.
  destruct (left_alone_run rs K name p w ser de ap Hcodec sys k sys' Hm Hreach Hsteps) as (_ & Hm' & Hy' & _).
  assert (reach sys') as Hreach' by by eapply left_alone_reach.
  destruct (left_alone_progress rs K name p w ser de ap sys' clk Hreach' Hm' (Hy' Hy)) as [Hsil|?]; [right|by left].
  split_and!; [done..|]. clear Hsteps Hm' Hy' Hreach' Hsil Hy.
  induction Hrun as [sys|sys sys1 sys' Hstep _ IH]; [done|].
  apply IH; [..|by eapply Hkeep].
  - eapply left_alone_reach; [exact Hreach|by apply rtc_once].
  - by apply (left_alone_keeps rs K name p w ser de ap Hcodec sys sys1 Hreach Hm Hstep).
Qed.

(** [j] has asked [i], whose actor has not yet handled the request. *)
Definition asking sys ri j : Prop := MsgInboundSync (RequestSnapshot name j) ∈ mailbox sys ri.
(** The state of [i] is on its way to [j], or will be. *)
Definition owed sys i ri ci j rj cj : Prop := informed sys i ri ci rj cj ∨ asking sys ri j.

(** Running actors go on running. *)
Lemma handling_forth sys n id r c msg fw a peers effs i ri ci :
  handling sys n id r c msg fw a peers → hosts sys i ri ci →
  ∃ ci', hosts (handled sys r c fw a peers effs) i ri ci'.
Proof.
  intros Hd Hi. pose proof (hd_hosts _ _ _ _ _ _ _ _ _ _ _ _ _ _ _ Hd) as Hr.
  destruct (decide (ri = r)) as [->|Hne].
  - exists (mkActorCell a (cell_registry c)). eapply handling_hosts; [done|].
    left. split_and!; [done..|]. destruct Hi as (Hci & Hsi & Hidi), Hr as (Hc & _).
    assert (ci = c) as -> by congruence. done.
  - exists ci. eapply handling_hosts; [done|]. by right.
Qed.

Lemma handling_owed sys n id r c msg fw clk a peers effs reply i ri ci j rj cj :
  meshed sys → handling sys n id r c msg fw a peers →
  actor_handle (cell_actor c) (registry_of sys (cell_registry c)) msg clk = Done (a, peers, effs, reply) →
  hosts sys i ri ci → hosts sys j rj cj → i ≠ j → owed sys i ri ci j rj cj →
  ∃ ci' cj', hosts (handled sys r c fw a peers effs) i ri ci' ∧
    hosts (handled sys r c fw a peers effs) j rj cj' ∧
    owed (handled sys r c fw a peers effs) i ri ci' j rj cj'.
Proof.
  intros Hm Hd Hh Hi Hj Hij [Hinf|Hask].
  { destruct (handling_informed rs K name p w ser de ap Hcodec sys n id r c msg fw clk a peers effs reply
      i ri ci j rj cj) as (ci' & cj' & ? & ? & ?); [done..|]. exists ci', cj'. by split_and!; [..|left]. }
  pose proof (hd_hosts _ _ _ _ _ _ _ _ _ _ _ _ _ _ _ Hd) as Hr.
  destruct (handling_forth _ _ _ _ _ _ _ _ _ effs i ri ci Hd Hi) as [ci' Hi'].
  destruct (handled_keeps rs sys r c msg fw a peers effs ri (MsgInboundSync (RequestSnapshot name j)))
    as [[-> <-]|Hin]; [by eapply meshed_served|by eapply meshed_served|apply Hd|done| |].
  2: { destruct (handling_forth _ _ _ _ _ _ _ _ _ effs j rj cj Hd Hj) as [cj' Hj'].
       exists ci', cj'. by split_and!; [..|right]. }
  assert (ci = c) as -> by (destruct Hi, Hr; congruence).
  assert (i = id) as -> by (destruct Hi as (_ & _ & ?), Hr as (_ & _ & ?); congruence).
  destruct (handling_announces rs K name p w ser de ap Hcodec sys n id r c
    (MsgInboundSync (RequestSnapshot name j)) fw clk a peers effs reply j rj cj) as (cj' & Hj' & Hre); [done..| |done|done|].
  { destruct (host_inv name p w ser de ap Hcodec sys n id r c) as [_ (Hname & _) _ _ _ _ _ _]; [apply Hd|done|].
    simpl. split_and!; [done..|]. apply should_accept_from_spec. by eapply (me_accepts rs K _ Hm id r c j rj cj). }
  exists (mkActorCell a (cell_registry c)), cj'. split_and!; [|done|by left].
  eapply handling_hosts; [done|]. by left.
Qed.

Definition owing i ri j rj sys : Prop :=
  ∃ ci cj, hosts sys i ri ci ∧ hosts sys j rj cj ∧ owed sys i ri ci j rj cj.

Lemma left_alone_owing i ri j rj sys sys' :
  i ≠ j → reach sys → meshed sys → left_alone sys sys' → owing i ri j rj sys → owing i ri j rj sys'.
Proof.
  intros Hij Hreach Hm Hstep (ci & cj & Hi & Hj & Ho).
  destruct (system_reach_tracks name p w ser de ap sys Hreach) as [n Ht].
  pose proof (system_reach_orderly rs name p w ser de ap sys Hreach) as Hord.
  destruct Hstep as [r c msg fw clk a peers effs reply Hc Hst Hrec _ Hh|r c t l1 l2 Hl Hc].
  - pose proof (handling_intro name p w ser de ap Hcodec sys n r c msg fw clk a peers effs reply Ht Hord Hc Hst Hrec Hh) as Hd.
    destruct (handling_owed sys n (engine_node_id (cell_engine c)) r c msg fw clk a peers effs reply i ri ci j rj cj)
      as (ci' & cj' & ? & ? & ?); [done..|]. by exists ci', cj'.
  - exists ci, cj. split_and!; [by apply fired_hosts..|]. destruct Ho as [Hinf|Hask]; [left|right].
    + by eapply fired_reaching.
    + apply (perform_keeps rs); [by eapply meshed_served|done].
Qed.

(** The request sets out. *)
Lemma handling_asks sys n id r c msg fw clk a peers effs reply i ri ci :
  meshed sys → handling sys n id r c msg fw a peers →
  actor_handle (cell_actor c) (registry_of sys (cell_registry c)) msg clk = Done (a, peers, effs, reply) →
  hosts sys i ri ci → i ≠ id → asks (cell_engine c) msg clk i →
  asking (handled sys r c fw a peers effs) ri id.
Proof.
  intros Hm Hd Hh Hi Hne Ha. pose proof (hd_hosts _ _ _ _ _ _ _ _ _ _ _ _ _ _ _ Hd) as Hr.
  assert (engine_node_id (cell_engine c) = id) as Hid by apply Hr.
  destruct (host_inv name p w ser de ap Hcodec sys n id r c) as [_ (Hname & _) _ _ _ _ _ _]; [apply Hd|done|].
  pose proof (handle_asks (cell_actor c) _ msg clk a peers effs reply i (mkActorRefPeerSender ri) Hh Ha) as Hs.
  unfold cell_engine in Hname, Hid. rewrite Hname, Hid in Hs.
  apply (perform_sent rs r effs (mkActorRefPeerSender ri) (RequestSnapshot name id)); [by eapply meshed_served|].
  apply Hs; [by eapply (me_known rs K _ Hm id r c i ri ci)|done|].
  by eapply (me_accepts rs K _ Hm id r c i ri ci).
Qed.

(** Once the state is on its way, the silence finds it arrived. *)
Lemma owing_settles i ri j rj sys clk :
  i ≠ j → reach sys → meshed sys → young sys → owing i ri j rj sys →
  (∀ (k : nat) sys', nsteps left_alone k sys sys' → (k ≤ weight sys)%nat) ∧
  ∀ sys', rtc left_alone sys sys' →
    (∃ sys'', left_alone sys' sys'') ∨
    (silent sys' ∧ ∃ ci cj, hosts sys' i ri ci ∧ hosts sys' j rj cj ∧
      current p (cell_engine ci) (cell_engine cj)).
Proof.
  intros Hij Hreach Hm Hy Ho.
  destruct (left_alone_settles (owing i ri j rj) sys clk) as [Hk Hrun]; [|done..|].
  { intros sys1 sys2 ???. by apply left_alone_owing. }
  split; [done|]. intros sys' [?|(Hsil & Hreach' & _ & ci & cj & Hi & Hj & Howe)]%Hrun; [by left|right].
  split; [done|]. exists ci, cj. split_and!; [done..|]. destruct Howe as [Hinf|Hask].
  - by eapply (silent_current name p w ser de ap Hcodec).
  - destruct Hsil as [_ Hmail]. unfold asking in Hask. rewrite (Hmail i ri ci Hi) in Hask.
    by apply elem_of_nil in Hask.
Qed.
End Pull.

(** [C6] Pulling, from any state the cluster can be in: let the running actors know each other,
    with no mutation that is held back and no departure of a running node waiting
    ([meshed]), and the framework serve them.  When the actor of node [j] handles a query that finds
    node [i] stale, under a strategy that pulls on queries, and the cluster is then left
    alone: under any order of the messages and the timers it falls silent, within
    [weight] steps, and then [j] shows exactly what [i] has. *)
Theorem actors_pull_converge `{HashIter} {S V M C Ref Fw} `{!ViewMapOps V M} `{!ViewMapLaws V M}
    `{Clock C} `{Countable Ref} `{!ActorFramework Ref (ActorMsg S V) Fw}
    `{!ActorFrameworkLaws Ref (ActorMsg S V) Fw} (rs : gset Ref)
    `{!ReliableFramework (Msg:=ActorMsg S V) (Fw:=Fw) rs} (K : nat)
    (name : string) (p : S → V) (w : Z) (ser : SerializeViewFn V) (de : DeserializeViewFn V)
    (ap : option (InboundDeltaApplierFn V)) (sys : ActorSystem (S:=S) (V:=V) (M:=M) (Fw:=Fw))
    (i j : NodeId) (ri rj : Ref) (ci cj : ActorCell (S:=S) (V:=V) (M:=M))
    msg fw (clk : C) a peers effs reply :
  (∀ v, de (ser v) w = Ok v) →
  system_reach (C:=C) name p w ser de ap sys → meshed rs K sys →
  hosts sys i ri ci → hosts sys j rj cj → i ≠ j →
  fw_receive rj (as_framework sys) = Some (msg, fw) →
  actor_handle (cell_actor cj) (registry_of sys (cell_registry cj)) msg clk = Done (a, peers, effs, reply) →
  asks (cell_engine cj) msg clk i →
  let sys1 := handled sys rj cj fw a peers effs in
  young rs K sys1 →
  (∀ k sys2, nsteps (left_alone (C:=C)) k sys1 sys2 → (k ≤ weight rs K sys1)%nat) ∧
  ∀ sys2, rtc (left_alone (C:=C)) sys1 sys2 →
    (∃ sys3, left_alone (C:=C) sys2 sys3) ∨
    (silent sys2 ∧ ∃ c1 c2, hosts sys2 i ri c1 ∧ hosts sys2 j rj c2 ∧
      current p (cell_engine c1) (cell_engine c2)).
Proof.
  intros Hcodec Hreach Hm Hi Hj Hij Hrec Hh Ha sys1 Hy1. pose proof Hj as (Hc & Hst & Hid).
  assert (left_alone (C:=C) sys sys1) as Hstep by (eapply la_handle; try done; by destruct msg).
  destruct (system_reach_tracks name p w ser de ap sys Hreach) as [n Ht].
  pose proof (system_reach_orderly rs name p w ser de ap sys Hreach) as Hord.
  pose proof (handling_intro name p w ser de ap Hcodec sys n rj cj msg fw clk a peers effs reply Ht Hord
    Hc Hst Hrec Hh) as Hd. rewrite Hid in Hd.
  destruct (handling_forth name p w ser de ap sys n j rj cj msg fw a peers effs i ri ci Hd Hi) as [c1 Hi1].
  destruct (handling_forth name p w ser de ap sys n j rj cj msg fw a peers effs j rj cj Hd Hj) as [c2 Hj1].
  eapply (owing_settles rs K name p w ser de ap Hcodec i ri j rj sys1 clk); [done| | |done|].
  - eapply left_alone_reach; [exact Hreach|by apply rtc_once].
  - by apply (left_alone_keeps rs K name p w ser de ap Hcodec sys sys1 Hreach Hm Hstep).
  - exists c1, c2. split_and!; [done..|]. right.
    by eapply (handling_asks rs K name p w ser de ap Hcodec sys n j rj cj msg fw clk a peers effs reply i ri ci).
Qed.
