(* ===== verification/ActorFeed.v ===== *)
(** Announcing by change feeds, in the cluster of actors whose mailboxes are queues: from
    the moment a node flushes its change feed, every other node shows the announced state,
    or knows that it is stale, or the notification is still under way to it, with nothing
    older behind it.

    The order matters: a notification replaces a later one that is pending
    ([mark_stale]), so one that is overtaken can be forgotten. *)
From stdpp Require Import prelude gmap fin_maps strings relations.
From S2P Require Import Prelude Node Clock Types ViewMap ShardCore ShardProps SyncLogic.
From S2P Require Import ChangeFeed Versioning Lifecycle Diagnostics Engine EngineProps.
From S2P Require Import Protocol Accounting Network NetworkRuns StateActor ActorSystem.
From S2P Require Import ActorHandling ActorConvergence ActorPull.

(** ** Marks *)
Section Marks.
Context `{HashIter} {S V M C : Type} `{!ViewMapOps V M} `{!ViewMapLaws V M} `{Clock C}.
Implicit Types (e : DistributedStateEngine S V M) (clk : C) (i j k : NodeId) (f : BatchedChangeFeed).

(** The engine shows generation [g] of [i], or knows of it. *)
Definition marked e g i : Prop :=
  ∃ vo, contents (shard e) !! i = Some vo ∧
    (g ≤g vo_generation vo ∨ ∃ pg, vo_pending_remote_generation vo = Some pg ∧ g ≤g pg).
Definition known e i : Prop := is_Some (contents (shard e) !! i).

(** The batch has a notification of generation [g] of [i]. *)
Definition names f (name : string) i g : Prop := mkChangeNotification name i g ∈ bf_notifications f.

Lemma marked_same e e' g i :
  contents (shard e') !! i = contents (shard e) !! i → marked e g i → marked e' g i.
Proof. intros Hc (vo & Hvo & Hg). exists vo. by rewrite Hc. Qed.

(** One notification. *)
Lemma feed_entry_contents e n s g0 i :
  shard_wf (shard e) →
  shard_wf (shard (feed_entry e (n, s, g0))) ∧
  (contents (shard (feed_entry e (n, s, g0))) !! i = contents (shard e) !! i ∨
   (n = state_name e ∧ s = i ∧ ∃ vo, contents (shard e) !! i = Some vo ∧
      contents (shard (feed_entry e (n, s, g0))) !! i = Some (set_pending vo (Some g0)))).
Proof.
  intros Hwf. unfold feed_entry. destruct (decide (n = state_name e)) as [->|Hn].
  2: { rewrite bool_decide_eq_false_2 by done. split; [done|by left]. }
  rewrite bool_decide_eq_true_2 by done. simpl.
  destruct (should_accept_from (lifecycle e) s); [|split; [done|by left]].
  split; [by apply mark_stale_frame|]. simpl. rewrite mark_stale_contents by done.
  replace (generation_new (incarnation g0) (age g0)) with g0 by by destruct g0.
  destruct (contents (shard e) !! s) as [vo|] eqn:Hvo; [|by left]. case_match; [by left|].
  rewrite lookup_insert. destruct (decide (s = i)) as [->|]; [right|by left]. eauto.
Qed.

Lemma feed_entry_same e x :
  state_name (feed_entry e x) = state_name e ∧ lifecycle (feed_entry e x) = lifecycle e.
Proof. destruct x as [[n s] g0]. unfold feed_entry. by repeat case_match. Qed.

Lemma feed_entry_keeps e n s g0 g i :
  shard_wf (shard e) → (n = state_name e → s = i → g ≤g g0) → marked e g i →
  marked (feed_entry e (n, s, g0)) g i.
Proof.
  intros Hwf Hg Hm. destruct (feed_entry_contents e n s g0 i Hwf) as [_ [Hc|(-> & -> & vo & Hvo & Hc)]].
  - by eapply marked_same.
  - eexists. split; [done|]. right. exists g0. split; [done|by apply Hg].
Qed.

Lemma feed_entry_marks e g0 g i :
  shard_wf (shard e) → known e i → i ∉ departed_nodes (lifecycle e) → g ≤g g0 →
  marked (feed_entry e (state_name e, i, g0)) g i.
Proof.
  intros Hwf [vo Hvo] Hdep Hg. unfold feed_entry, marked. rewrite bool_decide_eq_true_2 by done. simpl.
  rewrite (proj2 (should_accept_from_spec _ _) Hdep). simpl. rewrite mark_stale_contents, Hvo by done.
  replace (generation_new (incarnation g0) (age g0)) with g0 by by destruct g0.
  destruct (generation_leb g0 (vo_generation vo)) eqn:Hle.
  - apply generation_leb_le in Hle. exists vo. split; [done|]. left. gen_lia.
  - rewrite lookup_insert_eq. eexists. split; [done|]. right. eauto.
Qed.

(** A batch. *)
Lemma entries_keep l g i : ∀ e,
  shard_wf (shard e) → (∀ g', (state_name e, i, g') ∈ l → g ≤g g') → marked e g i →
  marked (foldl feed_entry e l) g i.
Proof.
  induction l as [|[[n s] g0] l IH]; intros e Hwf Hg Hm; cbn [foldl]; [done|].
  pose proof (feed_entry_same e (n, s, g0)) as [Hn _]. apply IH.
  - by apply (feed_entry_contents e n s g0 i).
  - intros g'. rewrite Hn. intros Hin. apply Hg. by right.
  - apply feed_entry_keeps; [done| |done]. intros -> ->. apply Hg. by left.
Qed.

Lemma entries_mark l g i : ∀ e,
  shard_wf (shard e) → i ∉ departed_nodes (lifecycle e) → known e i →
  (∀ g', (state_name e, i, g') ∈ l → g ≤g g') → (∃ g', (state_name e, i, g') ∈ l) →
  marked (foldl feed_entry e l) g i.
Proof.
  induction l as [|[[n s] g0] l IH]; intros e Hwf Hdep Hk Hg [g' Hin]; cbn [foldl];
    [by apply elem_of_nil in Hin|].
  pose proof (feed_entry_same e (n, s, g0)) as [Hn Hl].
  destruct (feed_entry_contents e n s g0 i Hwf) as [Hwf' Hc].
  assert (∀ g1, (state_name (feed_entry e (n, s, g0)), i, g1) ∈ l → g ≤g g1) as Hg'
    by (intros g1; rewrite Hn; intros ?; apply Hg; by right).
  apply elem_of_cons in Hin as [[= <- <- <-]|Hin].
  - apply entries_keep; [done..|]. apply feed_entry_marks; [done..|]. apply Hg. by left.
  - apply IH; [done|by rewrite Hl| |done|rewrite Hn; by eexists].
    unfold known. destruct Hc as [Hc|(_ & _ & vo & _ & Hc)]; rewrite Hc; [done|by eexists].
Qed.

Lemma elem_of_entries f n i g :
  (n, i, g) ∈ (λ c, (cn_state_name c, cn_source_node c, cn_generation c)) <$> bf_notifications f ↔
  names f n i g.
Proof.
  rewrite list_elem_of_fmap. unfold names. split.
  - intros ([n' i' g'] & [= -> -> ->] & Hin). done.
  - intros Hin. by exists (mkChangeNotification n i g).
Qed.

Lemma feed_keeps_marked e f g i :
  shard_wf (shard e) → (∀ g', names f (state_name e) i g' → g ≤g g') → marked e g i →
  marked (handle_inbound_change_feed e f) g i.
Proof.
  intros Hwf Hg Hm. unfold handle_inbound_change_feed, route_inbound_batch.
  case_bool_decide; [exact Hm|]. apply entries_keep; [done| |done].
  intros g' Hin%elem_of_entries. by apply Hg.
Qed.

Lemma feed_marks e f g i :
  shard_wf (shard e) → bf_source_node f ≠ engine_node_id e → i ∉ departed_nodes (lifecycle e) →
  known e i → (∀ g', names f (state_name e) i g' → g ≤g g') → (∃ g', names f (state_name e) i g') →
  marked (handle_inbound_change_feed e f) g i.
Proof.
  intros Hwf Hsrc Hdep Hk Hg [g' Hin]. unfold handle_inbound_change_feed, route_inbound_batch.
  rewrite bool_decide_eq_false_2 by done. apply entries_mark; try done.
  - intros g1 Hin1%elem_of_entries. by apply Hg.
  - exists g'. by apply elem_of_entries.
Qed.

(** A pending generation is what a query reports. *)
Lemma marked_stale e g i :
  shard_wf (shard e) → i ≠ engine_node_id e → marked e g i →
  sees e g i ∨ ∀ d clk, finds_stale e d clk i.
Proof.
  intros Hwf Hne (vo & Hvo & [Hle|(pg & Hpg & _)]); [left; by exists vo|right].
  intros d clk. unfold finds_stale, query, query_local. rewrite snapshot_spec by done. fold (contents (shard e)).
  set (stale := keys_where _ _).
  assert (i ∈ stale) as Hin.
  { apply elem_of_keys_where. exists vo. split; [done|]. apply stale_peer_pending; [done|]. by rewrite Hpg. }
  rewrite bool_decide_eq_false_2 by (intros Hn; rewrite Hn in Hin; set_solver).
  simpl. by eexists _, stale.
Qed.
End Marks.

(** ** What a handler does to marks and feeds *)
Section Handlers.
Context `{HashIter} {S V M C : Type} `{!ViewMapOps V M} `{!ViewMapLaws V M} `{Clock C}.
Context (name : string) (p : S → V) (w : Z)
  (ser : SerializeViewFn V) (de : DeserializeViewFn V) (ap : option (InboundDeltaApplierFn V)).
Context (Hcodec : ∀ v, de (ser v) w = Ok v).
Context {Sender : Type}.
Local Abbreviation node_inv := (node_inv name p w ser de ap).
Local Abbreviation sync_valid := (sync_valid w ser ap).
Implicit Types (e : DistributedStateEngine S V M) (a : StateActor S V M) (clk : C) (i j k id : NodeId).
Implicit Types (peers : gmap NodeId Sender) (msg : ActorMsg S V) (f : BatchedChangeFeed).

(** A snapshot keeps what it does not catch up with. *)
Lemma snapshot_marked e src g0 v clk g i :
  node_static name w ser de ap e → shard_wf (shard e) → marked e g i →
  marked (handle_full_snapshot e name src g0 w (ser v) clk).1 g i.
Proof.
  intros (Hname & _ & _ & Hde & _) Hwf Hm.
  destruct (should_accept_from (lifecycle e) src) eqn:Hacc.
  2: { unfold handle_full_snapshot. by rewrite bool_decide_eq_true_2, Hacc by done. }
  destruct (full_snapshot_contents e src g0 w (ser v) clk v Hwf Hacc) as (_ & _ & _ & Hc); [by rewrite Hde|].
  rewrite Hname, snapshot_update_ahead in Hc. simpl in Hc.
  destruct (ahead g0 (contents (shard e) !! src)) eqn:Ha; [|eapply marked_same; [|done]; by rewrite Hc].
  destruct (decide (src = i)) as [->|Hne].
  2: { eapply marked_same; [|done]. by rewrite Hc, lookup_insert_ne. }
  destruct Hm as (vo & Hvo & Hg). rewrite Hvo in Ha, Hc. simpl in Ha, Hc. apply generation_ltb_lt in Ha.
  eexists. split; [by rewrite Hc, lookup_insert_eq|]. simpl.
  destruct Hg as [Hle|(pg & Hpg & Hle)]; [left; gen_lia|]. rewrite Hpg. unfold pending_after. simpl.
  destruct (generation_ltb g0 pg) eqn:Hlt; [right; eauto|left]. apply generation_ltb_ge in Hlt. gen_lia.
Qed.

Lemma sync_marked h id e m clk e' acts g i :
  node_inv h id e → sync_valid h m → ¬ is_delta m → handle_inbound_sync e m clk = Done (e', acts) →
  marked e g i → marked e' g i.
Proof.
  intros Hi Hm Hnd Hh. pose proof (ni_static _ _ _ _ _ _ _ _ _ Hi) as Hst.
  destruct m as [n src g0 w0 data| |n r]; simpl in *; [|done|].
  - injection Hh as Hh. destruct Hm as (-> & v & _ & ->).
    destruct (decide (n = name)) as [->|Hne].
    + intros Hmk. apply (snapshot_marked e src g0 v clk) in Hmk; [by rewrite Hh in Hmk|done|apply Hi].
    + revert Hh. unfold handle_full_snapshot. rewrite bool_decide_eq_false_2 by (destruct Hst; congruence).
      by intros [= <- _].
  - revert Hh. unfold handle_request_snapshot. case_match; [by intros [= <- _]|].
    case_match; [by intros [= <- _]|]. destruct (own_view_value e); simpl; [|done]. by intros [= <- _].
Qed.

(** What the message notifies of. *)
Definition notifies msg (n : string) i g : Prop :=
  ∃ f, msg = MsgInboundWire (WireFeed f) ∧ names f n i g.

Lemma handle_marked h id a peers msg clk a' peers' effs reply g i :
  node_inv h id (sa_engine a) → handled_ok p w ser ap h msg →
  actor_handle a peers msg clk = Done (a', peers', effs, reply) → i ≠ id → ¬ leaves msg i →
  (∀ g', notifies msg name i g' → g ≤g g') → marked (sa_engine a) g i → marked (sa_engine a') g i.
Proof.
  intros Hi [Hproj Hsync] Hh Hne Hl Hn Hm. pose proof (ni_id _ _ _ _ _ _ _ _ _ Hi) as Hid.
  pose proof (ni_ok _ _ _ _ _ _ _ _ _ Hi) as (Hwf & Hown & _). simpl in Hwf, Hown.
  destruct (ni_static _ _ _ _ _ _ _ _ _ Hi) as (Hname & _).
  destruct msg as [f q u|m|[m|f]|d|[k v|k]| |]; simpl in Hh, Hproj.
  - subst q. unfold handle_mutate in Hh. pose proof (mutate_effect p (sa_engine a) f u clk) as He.
    destruct (mutate _ _ _ _ _) as [e r]. injection Hh as <- _ _ _. destruct He as (Hsh & _).
    eapply marked_same; [|exact Hm]. simpl. rewrite Hsh. unfold apply_mutation. simpl.
    rewrite update_own_view_contents by done. rewrite lookup_insert_ne; [done|].
    change (engine_node_id (sa_engine a) ≠ i). congruence.
  - unfold handle_inbound_sync_msg in Hh.
    destruct (handle_inbound_sync _ _ _) as [[e acts]|] eqn:Hr; [|done]. injection Hh as <- _ _ _.
    destruct (Hsync m eq_refl). by eapply sync_marked.
  - unfold handle_inbound_wire in Hh.
    destruct (handle_inbound _ _ _) as [[e acts]|] eqn:Hr; [|done]. injection Hh as <- _ _ _.
    destruct (Hsync m eq_refl). by eapply sync_marked.
  - injection Hh as <- _ _ _. apply feed_keeps_marked; [done| |done].
    intros g' Hin. apply Hn. exists f. by rewrite <- Hname.
  - unfold handle_query_views in Hh. destruct (query _ _ _ _) as [r acts]. by injection Hh as <- _ _ _.
  - destruct (engine_on_node_joined _ _ _ _) as [[e acts]|] eqn:Hj; [|done]. injection Hh as <- _ _ _.
    eapply marked_same; [|exact Hm]. unfold engine_on_node_joined in Hj. simpl in Hj.
    destruct (own_view_value _) as [x|]; simpl in Hj; [|done]. injection Hj as <- _. simpl.
    rewrite node_joined_contents by done. case_bool_decide; [done|].
    destruct (contents (shard (sa_engine a)) !! k) eqn:Hk; [done|].
    rewrite lookup_insert_ne; [done|]. intros ->. destruct Hm as (vo & Hvo & _). congruence.
  - injection Hh as <- _ _ _. eapply marked_same; [|exact Hm]. simpl. rewrite node_left_contents by done.
    case_bool_decide; [done|]. by rewrite lookup_delete_ne.
  - unfold handle_periodic_sync, periodic_sync in Hh.
    destruct (should_periodic_sync _); simpl in Hh; [|by injection Hh as <- _ _ _].
    destruct (own_view_value _); simpl in Hh; [|done]. by injection Hh as <- _ _ _.
  - unfold handle_flush_change_feed, flush_change_feed in Hh. destruct (change_feed_flush _) as [cf b].
    by injection Hh as <- _ _ _.
Qed.

(** The change feed of a node is about the node itself. *)
Definition feed_own e : Prop :=
  cf_node_id (change_feed e) = engine_node_id e ∧
  ∀ key g, cf_pending (change_feed e) !! key = Some g → key = (state_name e, engine_node_id e).

Lemma inbound_feed e (m : WireMessage) clk e' acts :
  handle_inbound e m clk = Done (e', acts) → change_feed e' = change_feed e.
Proof.
  destruct m as [[n src g w' data|n src g w' data|n r]|f]; simpl.
  - intros [= Hh]. revert Hh. unfold handle_full_snapshot. repeat case_match; by intros [= <- _].
  - intros [= Hh]. revert Hh. unfold handle_delta_update. repeat case_match; by intros [= <- _].
  - unfold handle_request_snapshot. repeat case_match; try (by intros [= <- _]).
    destruct (own_view_value e); simpl; [|done]. by intros [= <- _].
  - intros [= <- _]. unfold handle_inbound_change_feed. generalize (route_inbound_batch f (engine_node_id e)).
    intros l. revert e. induction l as [|[[n s] g0] l IH]; intros e; cbn [foldl]; [done|].
    rewrite IH. unfold feed_entry. by repeat case_match.
Qed.

Lemma handle_feed a peers msg clk a' peers' effs reply :
  actor_handle a peers msg clk = Done (a', peers', effs, reply) →
  change_feed (sa_engine a') =
    match msg with
    | MsgMutate _ _ u =>
        match resolve_action (sync_logic (sa_engine a)) u with
        | NotifyChangeFeed => notify_change (change_feed (sa_engine a)) (state_name (sa_engine a))
            (engine_node_id (sa_engine a)) (generation_of (sa_engine a'))
        | _ => change_feed (sa_engine a)
        end
    | MsgFlushChangeFeed => (change_feed_flush (change_feed (sa_engine a))).1
    | _ => change_feed (sa_engine a)
    end.
Proof.
  destruct msg as [f q u|m|m|d|[k v|k]| |]; simpl.
  - unfold handle_mutate, mutate. simpl. destruct (resolve_action _ _); simpl; by intros [= <- _ _ _].
  - unfold handle_inbound_sync_msg. destruct (handle_inbound_sync _ _ _) as [[e acts]|] eqn:Hr; [|done].
    intros [= <- _ _ _]. by eapply (inbound_feed _ (WireSync m)).
  - unfold handle_inbound_wire. destruct (handle_inbound _ _ _) as [[e acts]|] eqn:Hr; [|done].
    intros [= <- _ _ _]. by eapply inbound_feed.
  - unfold handle_query_views. destruct (query _ _ _ _) as [r acts]. by intros [= <- _ _ _].
  - unfold engine_on_node_joined. simpl. destruct (own_view_value _); simpl; [|done]. by intros [= <- _ _ _].
  - by intros [= <- _ _ _].
  - unfold handle_periodic_sync, periodic_sync. destruct (should_periodic_sync _); simpl; [|by intros [= <- _ _ _]].
    destruct (own_view_value _); simpl; [|done]. by intros [= <- _ _ _].
  - unfold handle_flush_change_feed, flush_change_feed. destruct (change_feed_flush _) as [cf b].
    by intros [= <- _ _ _].
Qed.

Lemma handle_feed_own a peers msg clk a' peers' effs reply :
  actor_handle a peers msg clk = Done (a', peers', effs, reply) → feed_own (sa_engine a) →
  feed_own (sa_engine a').
Proof.
  intros Hh [Hcf Hkeys]. destruct (handle_static _ _ _ _ _ _ _ _ Hh) as [[= Hn _] Hid].
  unfold feed_own. rewrite (handle_feed _ _ _ _ _ _ _ _ Hh), Hn, Hid.
  destruct msg as [f q u| | | | | |]; try done.
  - destruct (resolve_action _ u); try done. split.
    + unfold notify_change. by destruct (_ !! _).
    + intros key g. rewrite notify_change_lookup. case_decide; [done|]. apply Hkeys.
  - unfold change_feed_flush. case_bool_decide; [done|]. simpl. split; [done|].
    intros key g. by rewrite lookup_empty.
Qed.

(** Only a flush sends a batch. *)
Lemma handle_wire a peers msg clk a' peers' effs reply s f :
  actor_handle a peers msg clk = Done (a', peers', effs, reply) → SentWire s (WireFeed f) ∈ effs →
  msg = MsgFlushChangeFeed ∧ (change_feed_flush (change_feed (sa_engine a))).2 = Some f.
Proof.
  assert (∀ a peers acts, SentWire s (WireFeed f) ∉ route_actions (Sender:=Sender) (S:=S) (V:=V) (M:=M) a peers acts) as Hno.
  { intros a0 peers0 acts (act & Hin & _)%list_elem_of_bind. destruct act as [m|t m|d m]; simpl in Hin.
    - by apply list_elem_of_fmap in Hin as (y & ? & _).
    - destruct (List.find _ _); [by apply list_elem_of_singleton in Hin|by apply elem_of_nil in Hin].
    - by apply list_elem_of_singleton in Hin. }
  destruct msg as [g q u|m|m|d|[k v|k]| |]; simpl.
  - unfold handle_mutate. destruct (mutate _ _ _ _ _) as [e r]. by intros [= <- _ <- _] ?%Hno.
  - unfold handle_inbound_sync_msg. destruct (handle_inbound_sync _ _ _) as [[e acts]|]; [|done].
    by intros [= <- _ <- _] ?%Hno.
  - unfold handle_inbound_wire. destruct (handle_inbound _ _ _) as [[e acts]|]; [|done].
    by intros [= <- _ <- _] ?%Hno.
  - unfold handle_query_views. destruct (query _ _ _ _) as [r acts]. by intros [= _ _ <- _] ?%Hno.
  - destruct (engine_on_node_joined _ _ _ _) as [[e acts]|]; [|done]. by intros [= <- _ <- _] ?%Hno.
  - intros [= _ _ <- _]. by intros ?%elem_of_nil.
  - unfold handle_periodic_sync. destruct (periodic_sync _) as [[e acts]|]; [|done].
    by intros [= <- _ <- _] ?%Hno.
  - unfold handle_flush_change_feed, flush_change_feed. destruct (change_feed_flush _) as [cf [b|]].
    2: { intros [= _ _ <- _]. by intros ?%elem_of_nil. }
    intros [= _ _ <- _] (y & [= _ ->] & _)%list_elem_of_fmap. done.
Qed.

(** The batch names the node's own state, as it was notified. *)
Lemma flush_names e f n i g :
  feed_own e → (change_feed_flush (change_feed e)).2 = Some f → names f n i g →
  bf_source_node f = engine_node_id e ∧ n = state_name e ∧ i = engine_node_id e ∧
  cf_pending (change_feed e) !! (n, i) = Some g.
Proof.
  intros [Hcf Hkeys] Hf Hn. destruct (change_feed_flush (change_feed e)) as [cf b] eqn:Hfl. simpl in Hf. subst b.
  destruct (flush_some _ _ _ Hfl) as (_ & _ & Hsrc & Hiff & _). apply Hiff in Hn.
  pose proof (Hkeys _ _ Hn) as [= -> ->]. by rewrite Hsrc.
Qed.

(** *** What waits, in order *)

(** Nothing that waits notifies of an older generation. *)
Definition tidy (l : list (ActorMsg S V)) i g : Prop :=
  ∀ msg g', msg ∈ l → notifies msg name i g' → g ≤g g'.

(** The engine, with [l] waiting for it, knows of generation [g] of [i], or will. *)
Definition noticing e (l : list (ActorMsg S V)) i g : Prop :=
  known e i ∧
  ((marked e g i ∧ tidy l i g) ∨
   ∃ l1 f l2, l = l1 ++ MsgInboundWire (WireFeed f) :: l2 ∧ bf_source_node f = i ∧
     (∃ g', names f name i g') ∧ tidy (MsgInboundWire (WireFeed f) :: l2) i g).

Lemma tidy_app l l' i g : tidy l i g → tidy l' i g → tidy (l ++ l') i g.
Proof. intros Hl Hl' msg g' [?|?]%elem_of_app ?; eauto. Qed.

Lemma noticing_app e l l' i g : tidy l' i g → noticing e l i g → noticing e (l ++ l') i g.
Proof.
  intros Ht [Hk [[Hm Hl]|(l1 & f & l2 & -> & Hsrc & Hn & Hl)]]; (split; [done|]).
  - left. split; [done|]. by apply tidy_app.
  - right. exists l1, f, (l2 ++ l'). split_and!; [by rewrite <- (assoc_L app)|done..|].
    by apply (tidy_app (_ :: l2)).
Qed.

Lemma handle_noticing h id a peers msg clk a' peers' effs reply l i g :
  node_inv h id (sa_engine a) → handled_ok p w ser ap h msg →
  actor_handle a peers msg clk = Done (a', peers', effs, reply) → i ≠ id → ¬ leaves msg i →
  i ∉ departed_nodes (lifecycle (sa_engine a)) →
  noticing (sa_engine a) (msg :: l) i g → noticing (sa_engine a') l i g.
Proof.
  intros Hi Hok Hh Hne Hl Hdep [[vo Hvo] Hn].
  pose proof (handle_moves name p w ser de ap Hcodec h id a peers msg clk a' peers' effs reply Hi Hok Hh) as Hmv.
  destruct (mv_sees _ _ _ _ _ _ Hmv (vo_generation vo) i Hne Hl) as (vo' & Hvo' & _).
  { exists vo. split; [done|]. gen_lia. }
  split; [by eexists|]. destruct Hn as [[Hm Ht]|(l1 & f & l2 & Hl12 & Hsrc & [g' Hf] & Ht)].
  - left. split; [|intros m g' Hin; apply Ht; by right].
    eapply (handle_marked h id); [done..| |done]. intros g'. apply Ht. by left.
  - destruct l1 as [|m l1]; injection Hl12 as -> ->; [|right; by exists l1, f, l2; eauto].
    left. split; [|intros m g1 Hin; apply Ht; by right]. simpl in Hh. injection Hh as <- _ _ _.
    destruct (ni_static _ _ _ _ _ _ _ _ _ Hi) as (Hname & _). apply feed_marks; [apply Hi| |done|by eexists| |].
    + rewrite (ni_id _ _ _ _ _ _ _ _ _ Hi). congruence.
    + rewrite Hname. intros g1 Hg1. apply (Ht (MsgInboundWire (WireFeed f))); [by left|by exists f].
    + rewrite Hname. eauto.
Qed.
End Handlers.

(** ** Queues *)

(** For the actors [rs]: their mailboxes are queues. *)
Class OrderedFramework {Ref Msg Fw : Type} `{Countable Ref} `{!ActorFramework Ref Msg Fw}
    (rs : gset Ref) : Prop := {
  of_tell r m f : r ∈ rs → fw_mailbox (fw_tell r m f).1 r = fw_mailbox f r ++ [m];
  of_tell_other r r' m f : r' ∈ rs → r ≠ r' → fw_mailbox (fw_tell r m f).1 r' = fw_mailbox f r';
  of_receive r m f f' :
    r ∈ rs → fw_receive r f = Some (m, f') → fw_mailbox f r = m :: fw_mailbox f' r;
  of_receive_other r r' m f f' :
    r' ∈ rs → r ≠ r' → fw_receive r f = Some (m, f') → fw_mailbox f r' = fw_mailbox f' r';
  of_hands r f : r ∈ rs → fw_mailbox f r ≠ [] → is_Some (fw_receive r f)
}.

Global Instance ordered_reliable {Ref Msg Fw : Type} `{Countable Ref} `{!ActorFramework Ref Msg Fw}
    (rs : gset Ref) : OrderedFramework (Msg:=Msg) (Fw:=Fw) rs → ReliableFramework (Msg:=Msg) (Fw:=Fw) rs.
Proof.
  intros Ho. split.
  - intros r m f Hr. by rewrite of_tell, (comm (++)).
  - intros r r' m f Hr Hne. by rewrite of_tell_other.
  - intros r m f f' Hr Hrec. by rewrite (of_receive r m f f').
  - intros r r' m f f' Hr Hne Hrec. by rewrite (of_receive_other r r' m f f').
  - intros r f. apply of_hands.
Qed.

(** ** The system, left alone *)
Section Feeds.
Context `{HashIter} {S V M C : Type} `{!ViewMapOps V M} `{!ViewMapLaws V M} `{Clock C}.
Context {Ref Fw : Type} `{Countable Ref}.
Context `{!ActorFramework Ref (ActorMsg S V) Fw} `{!ActorFrameworkLaws Ref (ActorMsg S V) Fw}.
Context (rs : gset Ref) `{!OrderedFramework (Msg:=ActorMsg S V) (Fw:=Fw) rs} (K : nat).
Context (name : string) (p : S → V) (w : Z)
  (ser : SerializeViewFn V) (de : DeserializeViewFn V) (ap : option (InboundDeltaApplierFn V)).
Local Abbreviation system := (ActorSystem (Ref:=Ref) (S:=S) (V:=V) (M:=M) (Fw:=Fw)).
Local Abbreviation cell := (ActorCell (S:=S) (V:=V) (M:=M)).
Local Abbreviation reach := (system_reach (C:=C) name p w ser de ap).
Local Abbreviation step := (system_step (C:=C) name p w ser de ap).
Local Abbreviation meshed := (meshed rs K).
Local Abbreviation left_alone := (left_alone (C:=C)).
Local Abbreviation informed := (informed name).
Local Abbreviation handling := (handling (C:=C) name p w ser de ap).
Local Abbreviation noticing := (noticing name).
Implicit Types (sys : system) (c : cell) (r : Ref) (fw : Fw) (clk : C) (i j k id : NodeId).
Implicit Types (msg : ActorMsg S V) (x : Effect (ActorRefPeerSender (Ref:=Ref))).

(** What an effect puts into the mailbox of [r]. *)
Definition told_to r x : list (ActorMsg S V) :=
  match x with
  | SentSync s m => if decide (actor_ref s = r) then [MsgInboundSync m] else []
  | SentWire s m => if decide (actor_ref s = r) then [MsgInboundWire m] else []
  | Spawned _ => []
  end.

Lemma tell_queue r r' m fw :
  r' ∈ rs → fw_mailbox (fw_tell r m fw).1 r' = fw_mailbox fw r' ++ (if decide (r = r') then [m] else []).
Proof.
  intros Hr'. case_decide as Hr; [subst r; by apply of_tell|]. rewrite app_nil_r. by apply of_tell_other.
Qed.

Lemma perform_queue r effs r' : ∀ sys,
  r' ∈ rs → mailbox (perform r sys effs) r' = mailbox sys r' ++ (effs ≫= told_to r').
Proof.
  induction effs as [|x effs IH]; intros sys Hr'; cbn [mbind list_bind]; [by rewrite app_nil_r|].
  change (perform r sys (x :: effs)) with (perform r (perform_effect r sys x) effs).
  rewrite IH by done. rewrite (assoc_L app). f_equal. unfold mailbox. destruct x as [s m|s m|t]; simpl.
  - rewrite send_sync_tell. by apply tell_queue.
  - rewrite send_wire_tell. by apply tell_queue.
  - by rewrite app_nil_r.
Qed.

Lemma handled_queue sys r c msg fw a peers effs r' :
  r ∈ rs → r' ∈ rs → fw_receive r (as_framework sys) = Some (msg, fw) →
  ∃ l, mailbox sys r' = (if decide (r' = r) then msg :: l else l) ∧
    mailbox (handled sys r c fw a peers effs) r' = l ++ (effs ≫= told_to r').
Proof.
  intros Hr Hr' Hrec. exists (fw_mailbox fw r'). split; [|by apply perform_queue].
  unfold mailbox. case_decide as Hd; [subst r'; by apply of_receive|].
  by apply (of_receive_other r r' msg).
Qed.

(** *** The change feeds of the system *)
Definition feeds_own sys : Prop := ∀ r c, as_cells sys !! r = Some c → feed_own (cell_engine c).

Lemma feeds_own_insert sys sys' r c :
  feeds_own sys → as_cells sys' = <[r := c]> (as_cells sys) → feed_own (cell_engine c) → feeds_own sys'.
Proof.
  intros Hf Hc Hown r' c'. rewrite Hc. intros [[<- <-]|[_ ?]]%lookup_insert_Some; [done|by eapply Hf].
Qed.

Lemma system_step_feeds sys sys' : feeds_own sys → step sys sys' → feeds_own sys'.
Proof.
  intros Hf [r id x cfg clk g Hr Hid Hlater|g peers|r msg Hm|fw Hfw
    |r c msg fw clk a peers effs reply Hr Hs Hrec Hage Hh|r c t l1 l2 Hl Hr|r c Hr]; try done.
  - eapply feeds_own_insert; [done|done|]. split; [done|]. intros key g'. simpl. by rewrite lookup_empty.
  - eapply (feeds_own_insert sys _ r (mkActorCell a (cell_registry c))); [done| |].
    + by destruct (perform_frame r effs (set_registry (set_cell (set_framework sys fw) r
        (mkActorCell a (cell_registry c))) (cell_registry c) peers)) as (-> & _).
    + eapply handle_feed_own; [done|]. by apply (Hf r).
  - intros r' c'. destruct (perform_frame r (delayed_fires (stopped c) (registry_of sys (cell_registry c)) t)
      (set_tasks sys (l1 ++ l2))) as (-> & _). apply Hf.
  - eapply (feeds_own_insert sys); [done|reflexivity|]. exact (Hf r c Hr).
Qed.

Lemma system_reach_feeds sys : reach sys → feeds_own sys.
Proof.
  intros (sys0 & (Hc & _) & Hr).
  assert (feeds_own sys0) as Hf by (intros r c; rewrite Hc; by rewrite lookup_empty).
  clear Hc. induction Hr; eauto using system_step_feeds.
Qed.

(** *** From the flush to the silence *)
Context (Hcodec : ∀ v, de (ser v) w = Ok v).

(** [j] shows the state of [i], or knows that it is stale, or one of both is on its way. *)
Definition told sys i ri ci rj cj : Prop :=
  informed sys i ri ci rj cj ∨
  (cf_pending (change_feed (cell_engine ci)) = ∅ ∧
   noticing (cell_engine cj) (mailbox sys rj) i (generation_of (cell_engine ci))).

(** A handler notifies nobody of [i] whose feed is empty. *)
Lemma handling_tidy sys n id r c msg fw clk a peers effs reply i ri ci r' g :
  feeds_own sys → handling sys n id r c msg fw a peers →
  actor_handle (cell_actor c) (registry_of sys (cell_registry c)) msg clk = Done (a, peers, effs, reply) →
  hosts sys i ri ci → cf_pending (change_feed (cell_engine ci)) = ∅ →
  tidy name (effs ≫= told_to r') i g.
Proof.
  intros Hf Hd Hh Hi Hp msg' g' Hin (f & -> & Hn). exfalso.
  pose proof (hd_hosts _ _ _ _ _ _ _ _ _ _ _ _ _ _ _ Hd) as Hr. pose proof Hr as (Hc & _ & Hid).
  apply list_elem_of_bind in Hin as (x & Hx & Hin).
  assert (∃ s, x = SentWire s (WireFeed f)) as [s ->].
  { destruct x as [s m|s m|t]; simpl in Hx; [| |by apply elem_of_nil in Hx].
    - case_decide; [by apply list_elem_of_singleton in Hx|by apply elem_of_nil in Hx].
    - case_decide; [|by apply elem_of_nil in Hx]. apply list_elem_of_singleton in Hx as [= ->]. by exists s. }
  destruct (handle_wire _ _ _ _ _ _ _ _ _ _ Hh Hin) as [_ Hb].
  destruct (flush_names (cell_engine c) f name i g' (Hf r c Hc) Hb Hn) as (_ & _ & Hii & Hg).
  rewrite Hid in Hii. subst i.
  pose proof (tr_unique _ _ _ _ _ _ _ _ (hd_tracks _ _ _ _ _ _ _ _ _ _ _ _ _ _ _ Hd) _ _ _ _ _ Hi Hr) as ->.
  assert (ci = c) as -> by (destruct Hi; congruence). by rewrite Hp, lookup_empty in Hg.
Qed.

Lemma handling_told sys n id r c msg fw clk a peers effs reply i ri ci j rj cj :
  meshed sys → feeds_own sys → handling sys n id r c msg fw a peers →
  actor_handle (cell_actor c) (registry_of sys (cell_registry c)) msg clk = Done (a, peers, effs, reply) →
  hosts sys i ri ci → hosts sys j rj cj → i ≠ j → told sys i ri ci rj cj →
  ∃ ci' cj', hosts (handled sys r c fw a peers effs) i ri ci' ∧
    hosts (handled sys r c fw a peers effs) j rj cj' ∧
    told (handled sys r c fw a peers effs) i ri ci' rj cj'.
Proof.
  intros Hm Hf Hd Hh Hi Hj Hij [Hinf|[Hp Hno]].
  { destruct (handling_informed rs K name p w ser de ap Hcodec sys n id r c msg fw clk a peers effs reply
      i ri ci j rj cj) as (ci' & cj' & ? & ? & ?); [done..|]. exists ci', cj'. by split_and!; [..|left]. }
  pose proof (hd_hosts _ _ _ _ _ _ _ _ _ _ _ _ _ _ _ Hd) as Hr.
  pose proof (hd_moved _ _ _ _ _ _ _ _ _ _ _ _ _ _ _ Hd) as Hmv.
  destruct (handling_forth name p w ser de ap sys n id r c msg fw a peers effs i ri ci Hd Hi) as [ci' Hi'].
  destruct (handling_forth name p w ser de ap sys n id r c msg fw a peers effs j rj cj Hd Hj) as [cj' Hj'].
  exists ci', cj'. split_and!; [done..|].
  assert (informed (handled sys r c fw a peers effs) i ri ci' rj cj' ∨
    (generation_of (cell_engine ci') = generation_of (cell_engine ci) ∧
     cf_pending (change_feed (cell_engine ci')) = ∅)) as [?|[Hg Hp']]; [|by left|right; split; [done|rewrite Hg]].
  - pose proof (proj1 (handling_hosts name p w ser de ap sys n id r c msg fw a peers effs i ri ci' Hd) Hi')
      as [(-> & -> & _)|[Hne Hi2]]; [|right; assert (ci' = ci) as -> by (destruct Hi, Hi2; congruence); done].
    assert (ci = c) as -> by (destruct Hi, Hr; congruence).
    assert (i = id) as -> by (destruct Hi as (_ & _ & ?), Hr as (_ & _ & ?); congruence).
    assert (mutates msg ∨ ¬ mutates msg) as [Hmut|Hmut] by (destruct msg; simpl; tauto).
    + left. destruct (handling_announces rs K name p w ser de ap Hcodec sys n id r c msg fw clk a peers effs reply
        j rj cj) as (cj2 & Hj2 & Hre); [done..| |done|done|].
      { pose proof (me_peaceful rs K _ Hm id r c msg Hr (hd_mail _ _ _ _ _ _ _ _ _ _ _ _ _ _ _ Hd)).
        by destruct msg. }
      assert (cj' = cj2) as -> by (destruct Hj', Hj2; congruence). done.
    + right. unfold generation_of, cell_engine in *. simpl. rewrite (mv_state _ _ _ _ _ _ Hmv Hmut).
      split; [done|]. rewrite (handle_feed _ _ _ _ _ _ _ _ Hh).
      destruct msg; try done. unfold change_feed_flush. by rewrite bool_decide_eq_true_2.
  - pose proof (handling_tidy sys n id r c msg fw clk a peers effs reply i ri ci rj
      (generation_of (cell_engine ci)) Hf Hd Hh Hi Hp) as Ht.
    destruct (handled_queue sys r c msg fw a peers effs rj) as (l & Hl & ->);
      [by eapply meshed_served|by eapply meshed_served|apply Hd|].
    apply noticing_app; [done|]. rewrite Hl in Hno.
    pose proof (proj1 (handling_hosts name p w ser de ap sys n id r c msg fw a peers effs j rj cj' Hd) Hj')
      as [(-> & -> & Hjr)|[Hne Hj2]].
    + rewrite decide_True in Hno by done. assert (cj = c) as -> by (destruct Hj, Hr; congruence).
      assert (j = id) as -> by (destruct Hj as (_ & _ & ?), Hr as (_ & _ & ?); congruence).
      eapply (handle_noticing name p w ser de ap Hcodec (net_history n) id); [|apply Hd|done|done| | |done].
      * by eapply (host_inv name p w ser de ap Hcodec sys n id r c); [apply Hd|].
      * by eapply (handling_peaceful rs K name p w ser de ap sys n id r c msg fw a peers i ri ci).
      * by eapply (me_accepts rs K _ Hm id r c i ri ci).
    + rewrite decide_False in Hno by done. assert (cj' = cj) as -> by (destruct Hj, Hj2; congruence). done.
Qed.

Definition telling i ri j rj sys : Prop :=
  ∃ ci cj, hosts sys i ri ci ∧ hosts sys j rj cj ∧ told sys i ri ci rj cj.

Lemma left_alone_telling i ri j rj sys sys' :
  i ≠ j → reach sys → meshed sys → left_alone sys sys' → telling i ri j rj sys → telling i ri j rj sys'.
Proof.
  intros Hij Hreach Hm Hstep (ci & cj & Hi & Hj & Ht).
  destruct (system_reach_tracks name p w ser de ap sys Hreach) as [n Htr].
  pose proof (system_reach_orderly rs name p w ser de ap sys Hreach) as Hord.
  destruct Hstep as [r c msg fw clk a peers effs reply Hc Hst Hrec _ Hh|r c t l1 l2 Hl Hc].
  - pose proof (handling_intro name p w ser de ap Hcodec sys n r c msg fw clk a peers effs reply Htr Hord Hc Hst Hrec Hh) as Hd.
    destruct (handling_told sys n (engine_node_id (cell_engine c)) r c msg fw clk a peers effs reply i ri ci j rj cj)
      as (ci' & cj' & ? & ? & ?); [done|by apply system_reach_feeds|done..|]. by exists ci', cj'.
  - exists ci, cj. split_and!; [by apply fired_hosts..|]. destruct Ht as [Hinf|[Hp Hno]]; [left|right].
    + by eapply (fired_reaching rs K).
    + split; [done|]. change (fired sys r c t (l1 ++ l2)) with (perform r (set_tasks sys (l1 ++ l2))
        (delayed_fires (stopped c) (registry_of sys (cell_registry c)) t)).
      rewrite perform_queue by by eapply meshed_served. apply noticing_app; [|done].
      intros msg g' (x & Hx & Hin)%list_elem_of_bind (f & -> & _). unfold delayed_fires in Hin.
      destruct (stopped c); [by apply elem_of_nil in Hin|].
      apply list_elem_of_fmap in Hin as (y & -> & _). simpl in Hx.
      case_decide; [by apply list_elem_of_singleton in Hx|by apply elem_of_nil in Hx].
Qed.

(** The notification sets out. *)
Lemma handling_flush sys n i ri ci fw clk a peers effs reply j rj cj :
  meshed sys → feeds_own sys → handling sys n i ri ci MsgFlushChangeFeed fw a peers →
  actor_handle (cell_actor ci) (registry_of sys (cell_registry ci)) MsgFlushChangeFeed clk =
    Done (a, peers, effs, reply) →
  hosts sys j rj cj → i ≠ j → known (cell_engine cj) i →
  cf_pending (change_feed (cell_engine ci)) !! (name, i) = Some (generation_of (cell_engine ci)) →
  telling i ri j rj (handled sys ri ci fw a peers effs).
Proof.
  intros Hm Hf Hd Hh Hj Hij Hk Hp. pose proof (hd_hosts _ _ _ _ _ _ _ _ _ _ _ _ _ _ _ Hd) as Hi.
  pose proof (hd_moved _ _ _ _ _ _ _ _ _ _ _ _ _ _ _ Hd) as Hmv.
  assert (rj ≠ ri) as Hne by (intros ->; destruct Hi as (? & _ & ?), Hj as (? & _ & ?); congruence).
  exists (mkActorCell a (cell_registry ci)), cj. split_and!.
  { apply (handling_hosts name p w ser de ap sys n i ri ci MsgFlushChangeFeed fw a peers effs _ _ _ Hd). by left. }
  { apply (handling_hosts name p w ser de ap sys n i ri ci MsgFlushChangeFeed fw a peers effs _ _ _ Hd). by right. }
  right. pose proof (handle_feed _ _ _ _ _ _ _ _ Hh) as Hcf.
  unfold generation_of, cell_engine in *. simpl. rewrite (mv_state _ _ _ _ _ _ Hmv) by (intros []).
  rewrite Hcf. destruct (handled_queue sys ri ci MsgFlushChangeFeed fw a peers effs rj) as (l & Hl & ->);
    [by eapply meshed_served|by eapply meshed_served|apply Hd|]. rewrite decide_False in Hl by done. subst l.
  destruct (change_feed_flush (change_feed (sa_engine (cell_actor ci)))) as [cf b] eqn:Hfl.
  assert (∃ f, b = Some f) as [f ->].
  { destruct b as [f|]; [by exists f|]. apply flush_none in Hfl as [_ He]. by rewrite He, lookup_empty in Hp. }
  destruct (flush_some _ _ _ Hfl) as (Hcf' & _ & Hsrc & Hiff & _). split; [done|]. split; [done|]. right.
  assert (effs = (λ q, SentWire q.2 (WireFeed f)) <$>
    senders_except i (registry_of sys (cell_registry ci))) as ->.
  { simpl in Hh. unfold handle_flush_change_feed, flush_change_feed in Hh. rewrite Hfl in Hh.
    injection Hh as _ _ <- _. simpl. f_equal. f_equal. apply Hi. }
  set (new := _ ≫= told_to rj).
  assert (Forall (λ m, m = MsgInboundWire (WireFeed f)) new) as Hall.
  { apply Forall_forall. intros m (x & Hx & (q & -> & _)%list_elem_of_fmap)%list_elem_of_bind. simpl in Hx.
    case_decide; [by apply list_elem_of_singleton in Hx|by apply elem_of_nil in Hx]. }
  assert (MsgInboundWire (WireFeed f) ∈ new) as Hin.
  { apply list_elem_of_bind. exists (SentWire (mkActorRefPeerSender rj) (WireFeed f)). split.
    - simpl. rewrite decide_True by done. by left.
    - apply list_elem_of_fmap. exists (j, mkActorRefPeerSender rj). split; [done|]. apply elem_of_senders.
      split; [done|]. by eapply (me_known rs K _ Hm i ri ci j rj cj). }
  destruct new as [|m l2]; [by apply elem_of_nil in Hin|].
  apply Forall_cons in Hall as [-> Hall]. exists (mailbox sys rj), f, l2.
  pose proof (Hf ri ci ltac:(apply Hi)) as Hown. pose proof Hi as (_ & _ & Hid).
  split_and!; [done| | |].
  - destruct Hown as [Hcid _]. unfold cell_engine in *. by rewrite Hsrc, Hcid.
  - eexists. by apply Hiff.
  - intros msg g' Hmsg (f' & -> & Hn). assert (f' = f) as ->.
    { apply elem_of_cons in Hmsg as [[= ->]|Hmsg]; [done|]. rewrite Forall_forall in Hall.
      by apply Hall in Hmsg as [= ->]. }
    apply Hiff in Hn. rewrite Hp in Hn. injection Hn as <-. gen_lia.
Qed.
End Feeds.

(** [C5] Announcing by a change feed, from any state the cluster can be in: let the running actors
    know each other, with no mutation that is held back and no departure of a running node
    waiting ([meshed]), and the framework hand them their messages in the order in which
    they were told.  When the actor of node [i] flushes a change feed that holds its current
    state, node [j] has an entry for [i], and the cluster is then left alone: under any order of
    the actors and the timers it falls silent, within [weight] steps, and then [j] shows
    exactly what [i] has, or every query at [j], whatever its tolerance and whenever it
    comes, finds [i] stale. *)
Theorem actors_feed_converge `{HashIter} {S V M C Ref Fw} `{!ViewMapOps V M} `{!ViewMapLaws V M}
    `{Clock C} `{Countable Ref} `{!ActorFramework Ref (ActorMsg S V) Fw}
    `{!ActorFrameworkLaws Ref (ActorMsg S V) Fw} (rs : gset Ref)
    `{!OrderedFramework (Msg:=ActorMsg S V) (Fw:=Fw) rs} (K : nat)
    (name : string) (p : S → V) (w : Z) (ser : SerializeViewFn V) (de : DeserializeViewFn V)
    (ap : option (InboundDeltaApplierFn V)) (sys : ActorSystem (S:=S) (V:=V) (M:=M) (Fw:=Fw))
    (i j : NodeId) (ri rj : Ref) (ci cj : ActorCell (S:=S) (V:=V) (M:=M))
    fw (clk : C) a peers effs reply :
  (∀ v, de (ser v) w = Ok v) →
  system_reach (C:=C) name p w ser de ap sys → meshed rs K sys →
  hosts sys i ri ci → hosts sys j rj cj → i ≠ j →
  is_Some (get_view (shard (cell_engine cj)) i) →
  cf_pending (change_feed (cell_engine ci)) !! (name, i) = Some (generation_of (cell_engine ci)) →
  fw_receive ri (as_framework sys) = Some (MsgFlushChangeFeed, fw) →
  actor_handle (cell_actor ci) (registry_of sys (cell_registry ci)) MsgFlushChangeFeed clk =
    Done (a, peers, effs, reply) →
  let sys1 := handled sys ri ci fw a peers effs in
  young rs K sys1 →
  (∀ k sys2, nsteps (left_alone (C:=C)) k sys1 sys2 → (k ≤ weight rs K sys1)%nat) ∧
  ∀ sys2, rtc (left_alone (C:=C)) sys1 sys2 →
    (∃ sys3, left_alone (C:=C) sys2 sys3) ∨
    (silent sys2 ∧ ∃ c1 c2, hosts sys2 i ri c1 ∧ hosts sys2 j rj c2 ∧
      (current p (cell_engine c1) (cell_engine c2) ∨
       ∀ (d : Duration) (clk2 : C), finds_stale (cell_engine c2) d clk2 i)).
Proof.
  intros Hcodec Hreach Hm Hi Hj Hij Hknown Hp Hrec Hh sys1 Hy1. pose proof Hi as (Hc & Hst & Hid).
  assert (left_alone (C:=C) sys sys1) as Hstep by by eapply la_handle.
  destruct (system_reach_tracks name p w ser de ap sys Hreach) as [n Ht].
  pose proof (handling_intro name p w ser de ap Hcodec sys n ri ci MsgFlushChangeFeed fw clk a peers effs reply Ht
    (system_reach_orderly rs name p w ser de ap sys Hreach) Hc Hst Hrec Hh) as Hd. rewrite Hid in Hd.
  assert (system_reach (C:=C) name p w ser de ap sys1) as Hreach1
    by (eapply left_alone_reach; [exact Hreach|by apply rtc_once]).
  destruct (left_alone_settles rs K name p w ser de ap Hcodec (telling name i ri j rj) sys1 clk) as [Hk Hrun];
    [|done|by apply (left_alone_keeps rs K name p w ser de ap Hcodec sys sys1 Hreach Hm Hstep)|done| |].
  { intros s1 s2 ???. by apply (left_alone_telling rs K name p w ser de ap Hcodec). }
  { eapply (handling_flush rs K name p w ser de ap sys n i ri ci fw clk a peers effs reply j rj cj); try done.
    - by apply (system_reach_feeds name p w ser de ap).
    - unfold known. destruct (tr_run _ _ _ _ _ _ _ _ Ht _ _ _ Hj) as [_ (Hwf & _)].
      by rewrite <- get_view_contents. }
  split; [done|]. intros sys2 [?|(Hsil & Hreach2 & _ & c1 & c2 & Hi2 & Hj2 & Htold)]%Hrun; [by left|right].
  split; [done|]. exists c1, c2. split_and!; [done..|].
  assert (informed name sys2 i ri c1 rj c2 → current p (cell_engine c1) (cell_engine c2)) as Hcur
    by by eapply (silent_current name p w ser de ap Hcodec).
  destruct Htold as [Hinf|(_ & _ & Hno)]; [left; by apply Hcur|].
  destruct Hsil as [_ Hmail]. rewrite (Hmail j rj c2 Hj2) in Hno.
  destruct Hno as [[Hmk _]|(l1 & f & l2 & Hl & _)]; [|by destruct l1].
  destruct (system_reach_tracks name p w ser de ap sys2 Hreach2) as [n2 Ht2].
  destruct (tr_run _ _ _ _ _ _ _ _ Ht2 _ _ _ Hj2) as [_ (Hwf2 & _)]. pose proof Hj2 as (_ & _ & Hid2).
  destruct (marked_stale _ _ i Hwf2 ltac:(by rewrite Hid2) Hmk) as [Hs|Hs]; [left|by right].
  apply Hcur. by left.
Qed.
