(* ===== verification/Interceptor.v ===== *)
(** Network faults ([dstate-integration/src/interceptor.rs]): the actions an interceptor
    may take, the built-in interceptors and the hash that makes them deterministic.

    The [f64] arithmetic of [DropRate] is the IEEE binary64 arithmetic of [SpecFloat]. *)
From stdpp Require Import prelude gmap fin_sets strings.
From Stdlib Require Import SpecFloat.
From S2P Require Import Prelude Node.

(** [InterceptAction]. *)
Inductive InterceptAction : Type :=
| Deliver (data : bytes)
| Drop
| Delay (data : bytes) (ticks : Z)
| DeliverMany (copies : list bytes).

(** [InterceptContext]. *)
Record InterceptContext : Type := mkInterceptContext {
  ic_current_tick : Z;
  ic_message_id : Z;
  ic_rng_seed : Z
}.

(** [NetworkInterceptor]: [&mut self], so the interceptor after the call is returned. *)
Class NetworkInterceptor (I : Type) : Type :=
  intercept : I → NodeId → NodeId → bytes → InterceptContext → I * InterceptAction.

(** ** [splitmix64] *)
Definition wrapping_add64 (a b : Z) : Z := u64_add a b.
Definition wrapping_mul64 (a b : Z) : Z := u64_mul a b.

Definition splitmix64 (x : Z) : Z :=
  let x := wrapping_add64 x 0x9e3779b97f4a7c15 in
  let x := wrapping_mul64 (Z.lxor x (Z.shiftr x 30)) 0xbf58476d1ce4e5b9 in
  let x := wrapping_mul64 (Z.lxor x (Z.shiftr x 27)) 0x94d049bb133111eb in
  Z.lxor x (Z.shiftr x 31).

(** ** The built-in interceptors *)

Inductive PassThrough : Type := mkPassThrough.
Global Instance PassThrough_intercept : NetworkInterceptor PassThrough :=
  λ i _ _ msg_bytes _, (i, Deliver msg_bytes).

Inductive DropAll : Type := mkDropAll.
Global Instance DropAll_intercept : NetworkInterceptor DropAll := λ i _ _ _ _, (i, Drop).

(** [x as f64], division and comparison of [f64]s. *)
Definition f64_of_u64 (z : Z) : spec_float := binary_normalize 53 1024 z 0 false.
Definition f64_div (a b : spec_float) : spec_float := SFdiv 53 1024 a b.

Record DropRate : Type := mkDropRate { dr_rate : spec_float; dr_seed : Z }.

(** [DropRate::new]: the assertion on the range. *)
Definition drop_rate_new (rate : spec_float) (seed : Z) : outcome DropRate :=
  if SFleb (S754_zero false) rate && SFleb rate (f64_of_u64 1)
  then Done (mkDropRate rate seed) else Panicked "rate must be in [0.0, 1.0]".

Global Instance DropRate_intercept : NetworkInterceptor DropRate := λ i _ _ msg_bytes ctx,
  let hash := splitmix64 (Z.lxor (Z.lxor (dr_seed i) (ic_message_id ctx)) (ic_current_tick ctx)) in
  let prob := f64_div (f64_of_u64 hash) (f64_of_u64 u64_max) in
  (i, if SFltb prob (dr_rate i) then Drop else Deliver msg_bytes).

Record Partition : Type := mkPartition {
  set_a : gset NodeId;
  set_b : gset NodeId;
  is_asymmetric : bool
}.
Definition partition_symmetric (a b : list NodeId) : Partition :=
  mkPartition (list_to_set a) (list_to_set b) false.
Definition partition_asymmetric (a b : list NodeId) : Partition :=
  mkPartition (list_to_set a) (list_to_set b) true.

Global Instance Partition_intercept : NetworkInterceptor Partition := λ i from to msg_bytes _,
  let a_to_b := bool_decide (from ∈ set_a i) && bool_decide (to ∈ set_b i) in
  let b_to_a := bool_decide (from ∈ set_b i) && bool_decide (to ∈ set_a i) in
  (i, if a_to_b || (negb (is_asymmetric i) && b_to_a) then Drop else Deliver msg_bytes).

Record DelayTicks : Type := mkDelayTicks { delay_ticks : Z }.
Global Instance DelayTicks_intercept : NetworkInterceptor DelayTicks :=
  λ i _ _ msg_bytes _, (i, Delay msg_bytes (delay_ticks i)).

Inductive DuplicateAll : Type := mkDuplicateAll.
Global Instance DuplicateAll_intercept : NetworkInterceptor DuplicateAll :=
  λ i _ _ msg_bytes _, (i, DeliverMany [msg_bytes; msg_bytes]).

Record CorruptBytes : Type := mkCorruptBytes { cb_seed : Z }.
(** [bytes[idx] ^= 1 << bit]. *)
Definition flip_bit (data : bytes) (idx : nat) (bit : Z) : bytes :=
  alter (λ b, Z.lxor b (Z.shiftl 1 bit)) idx data.

Global Instance CorruptBytes_intercept : NetworkInterceptor CorruptBytes :=
  λ i _ _ msg_bytes ctx,
  (i, Deliver
    (match msg_bytes with
     | [] => msg_bytes
     | _ :: _ =>
         let hash := splitmix64 (Z.lxor (cb_seed i) (ic_message_id ctx)) in
         let idx := hash mod Z.of_nat (length msg_bytes) in
         let bit := Z.shiftr hash 8 mod 8 in
         flip_bit msg_bytes (Z.to_nat idx) bit
     end)).

(** ** The hash is injective *)
Section Hash.
Lemma wrapping_add64_inj c x y :
  is_u64 x → is_u64 y → wrapping_add64 x c = wrapping_add64 y c → x = y.
Proof. unfold wrapping_add64. width_lia. Qed.

(** Multiplication by a number with an inverse modulo 2^64. *)
Lemma wrapping_mul64_inj c c' x y :
  (c * c') mod u64_modulus = 1 → is_u64 x → is_u64 y →
  wrapping_mul64 x c = wrapping_mul64 y c → x = y.
Proof.
  intros Hc Hx Hy Heq.
  assert (∀ z, is_u64 z → wrapping_mul64 (wrapping_mul64 z c) c' = z) as Hinv.
  { intros z Hz. unfold wrapping_mul64, u64_mul, wrap64.
    rewrite Z.mul_mod_idemp_l, <- Z.mul_assoc, <- Z.mul_mod_idemp_r, Hc, Z.mul_1_r by done.
    by apply wrap64_small. }
  rewrite <- (Hinv x Hx), <- (Hinv y Hy). by rewrite Heq.
Qed.

Lemma xorshift_inj k x y :
  0 < k → 0 ≤ x → 0 ≤ y → Z.lxor x (Z.shiftr x k) = Z.lxor y (Z.shiftr y k) → x = y.
Proof.
  intros Hk Hx Hy Heq. set (d := Z.lxor x y).
  assert (0 ≤ d) as Hd by (apply Z.lxor_nonneg; tauto).
  assert (d = Z.shiftr d k) as Hdk.
  { unfold d. rewrite Z.shiftr_lxor. apply Z.lxor_eq.
    rewrite <- (Z.lxor_nilpotent (Z.lxor x (Z.shiftr x k))).
    rewrite Heq at 2. apply Z.bits_inj'. intros n _.
    rewrite !Z.lxor_spec. by destruct (Z.testbit x n), (Z.testbit y n), (Z.testbit (Z.shiftr x k) n),
      (Z.testbit (Z.shiftr y k) n). }
  apply Z.lxor_eq. fold d. rewrite Z.shiftr_div_pow2 in Hdk by lia.
  assert (2 ≤ 2 ^ k) by (change 2 with (2 ^ 1) at 1; apply Z.pow_le_mono_r; lia).
  Z.to_euclidean_division_equations. nia.
Qed.

Lemma xorshift_u64 k x : 0 ≤ k → is_u64 x → is_u64 (Z.lxor x (Z.shiftr x k)).
Proof.
  intros Hk [H0 H1]. split.
  - apply Z.lxor_nonneg. rewrite Z.shiftr_nonneg. tauto.
  - destruct (decide (Z.lxor x (Z.shiftr x k) = 0)) as [->|Hne]; [done|].
    unfold u64_modulus in *. apply Z.log2_lt_pow2.
    { assert (0 ≤ Z.lxor x (Z.shiftr x k)); [|lia].
      apply Z.lxor_nonneg. rewrite Z.shiftr_nonneg. tauto. }
    eapply Z.le_lt_trans; [apply Z.log2_lxor; [done|by apply Z.shiftr_nonneg]|].
    assert (Z.shiftr x k ≤ x).
    { rewrite Z.shiftr_div_pow2 by done. apply Z.div_le_upper_bound; [lia|].
      assert (0 < 2 ^ k) by lia. nia. }
    rewrite Z.max_l by (by apply Z.log2_le_mono).
    destruct (decide (x = 0)) as [->|]; [done|]. apply Z.log2_lt_pow2; lia.
Qed.

Lemma wrapping_mul64_u64 a b : is_u64 (wrapping_mul64 a b).
Proof. apply wrap64_range. Qed.

Lemma splitmix64_inj x y : is_u64 x → is_u64 y → splitmix64 x = splitmix64 y → x = y.
Proof.
  intros Hx Hy. unfold splitmix64.
  assert (∀ z, is_u64 (wrapping_add64 z 0x9e3779b97f4a7c15)) as Ha by (intros; apply wrap64_range).
  intros Heq.
  apply xorshift_inj in Heq; [|done|apply wrapping_mul64_u64..].
  apply (wrapping_mul64_inj _ 0x319642b2d24d8ec3) in Heq;
    [|done|apply xorshift_u64; [done|apply wrapping_mul64_u64]..].
  apply xorshift_inj in Heq; [|done|apply wrapping_mul64_u64..].
  apply (wrapping_mul64_inj _ 0x96de1b173f119089) in Heq;
    [|done|apply xorshift_u64; [done|apply Ha]..].
  apply xorshift_inj in Heq; [|done|apply Ha..].
  by apply wrapping_add64_inj in Heq.
Qed.
End Hash.

Lemma splitmix64_u64 x : is_u64 (splitmix64 x).
Proof. unfold splitmix64. apply xorshift_u64; [done|apply wrapping_mul64_u64]. Qed.

Lemma lxor_inj_l a x y : Z.lxor a x = Z.lxor a y → x = y.
Proof.
  intros Heq. apply (f_equal (Z.lxor a)) in Heq.
  by rewrite <- !Z.lxor_assoc, Z.lxor_nilpotent, !Z.lxor_0_l in Heq.
Qed.

Lemma lxor_u64 a b : is_u64 a → is_u64 b → is_u64 (Z.lxor a b).
Proof.
  intros [? Ha] [? Hb]. assert (0 ≤ Z.lxor a b) by (apply Z.lxor_nonneg; tauto).
  split; [done|]. destruct (decide (Z.lxor a b = 0)) as [->|Hne]; [done|].
  unfold u64_modulus in *. apply Z.log2_lt_pow2; [lia|].
  eapply Z.le_lt_trans; [by apply Z.log2_lxor|].
  apply Z.max_lub_lt; destruct (decide (a = 0)), (decide (b = 0)); subst; try done;
    apply Z.log2_lt_pow2; lia.
Qed.

(** [splitmix64] is a permutation-grade hash: it maps [u64]s to [u64]s and never
    merges two of them, so under one seed two different messages never get the same
    pseudo-random value. *)
Theorem splitmix64_separates (seed id1 id2 : Z) :
  is_u64 seed → is_u64 id1 → is_u64 id2 →
  is_u64 (splitmix64 (Z.lxor seed id1)) ∧
  (splitmix64 (Z.lxor seed id1) = splitmix64 (Z.lxor seed id2) ↔ id1 = id2).
Proof.
  intros Hs H1 H2. split; [apply splitmix64_u64|]. split; [|by intros ->].
  intros Heq. apply splitmix64_inj in Heq; [|by apply lxor_u64..]. by apply lxor_inj_l in Heq.
Qed.

(** A symmetric partition drops exactly the messages that cross it, in either
    direction; an asymmetric one exactly those from the first set to the second;
    everything else passes unchanged. *)
Theorem partition_drops_crossing (a b : list NodeId) (from to : NodeId) (data : bytes)
    (ctx : InterceptContext) :
  let crosses x y := from ∈ x ∧ to ∈ y in
  let sym := (intercept (partition_symmetric a b) from to data ctx).2 in
  let asym := (intercept (partition_asymmetric a b) from to data ctx).2 in
  (sym = Drop ↔ crosses a b ∨ crosses b a) ∧ (sym = Deliver data ↔ ¬ (crosses a b ∨ crosses b a)) ∧
  (asym = Drop ↔ crosses a b) ∧ (asym = Deliver data ↔ ¬ crosses a b).
Proof.
  unfold intercept, Partition_intercept, partition_symmetric, partition_asymmetric; simpl.
  repeat case_bool_decide; simpl; set_solver.
Qed.

Lemma lxor_pow2_byte x n :
  0 ≤ x < 256 → 0 ≤ n < 8 → 0 ≤ Z.lxor x (Z.shiftl 1 n) < 256 ∧ Z.lxor x (Z.shiftl 1 n) ≠ x.
Proof.
  intros Hx Hn. split_and!.
  - apply Z.lxor_nonneg. rewrite Z.shiftl_nonneg. lia.
  - destruct (decide (Z.lxor x (Z.shiftl 1 n) = 0)) as [->|Hne]; [done|].
    assert (0 ≤ Z.lxor x (Z.shiftl 1 n)) by (apply Z.lxor_nonneg; rewrite Z.shiftl_nonneg; lia).
    change 256 with (2 ^ 8). apply Z.log2_lt_pow2; [lia|].
    eapply Z.le_lt_trans; [apply Z.log2_lxor; [lia|by apply Z.shiftl_nonneg]|].
    apply Z.max_lub_lt.
    + destruct (decide (x = 0)) as [->|]; [done|]. apply Z.log2_lt_pow2; [lia|]. by apply Hx.
    + rewrite Z.shiftl_1_l, Z.log2_pow2 by lia. lia.
  - intros Heq. apply (f_equal (Z.lxor x)) in Heq.
    rewrite <- Z.lxor_assoc, Z.lxor_nilpotent, Z.lxor_0_l, Z.shiftl_1_l in Heq.
    assert (0 < 2 ^ n) by lia. lia.
Qed.

(** [CorruptBytes] delivers the message with exactly one bit of one byte flipped:
    the same length, still bytes, never the message itself; and an empty message
    unchanged. *)
Theorem corrupt_flips_one_bit (i : CorruptBytes) (from to : NodeId) (data : bytes)
    (ctx : InterceptContext) :
  (∀ b, b ∈ data → 0 ≤ b < 256) →
  ∃ out, (intercept i from to data ctx).2 = Deliver out ∧ length out = length data ∧
    (∀ b, b ∈ out → 0 ≤ b < 256) ∧ (data = [] → out = []) ∧
    (data ≠ [] → out ≠ data ∧ ∃ idx bit, 0 ≤ bit < 8 ∧
       out = alter (λ b, Z.lxor b (2 ^ bit)) idx data ∧ (idx < length data)%nat).
Proof.
  intros Hb. unfold intercept, CorruptBytes_intercept; simpl.
  destruct data as [|b0 data']; [by eexists|]. set (data := b0 :: data') in *.
  set (hash := splitmix64 _). set (idx := Z.to_nat (hash mod Z.of_nat (length data))).
  set (bit := Z.shiftr hash 8 mod 8). exists (flip_bit data idx bit).
  assert (0 ≤ bit < 8) as Hbit by (apply Z.mod_pos_bound; lia).
  assert (idx < length data)%nat as Hidx.
  { pose proof (Z.mod_pos_bound hash (Z.of_nat (length data)) ltac:(simpl; lia)). lia. }
  destruct (lookup_lt_is_Some_2 data idx Hidx) as [x Hx].
  assert (0 ≤ x < 256) as Hxb by (apply Hb; by eapply list_elem_of_lookup_2).
  destruct (lxor_pow2_byte x bit Hxb Hbit) as [Hrange Hne].
  unfold flip_bit. split_and!; [done|apply length_alter| |done|].
  - intros y Hy. apply list_elem_of_lookup_1 in Hy as [j Hj].
    destruct (decide (j = idx)) as [->|Hji].
    + rewrite (list_lookup_alter_eq (A:=Z)), Hx in Hj. simpl in Hj. by simplify_eq.
    + rewrite (list_lookup_alter_ne (A:=Z)) in Hj by done. apply Hb. by eapply list_elem_of_lookup_2.
  - intros _. split.
    + intros Heq. apply Hne.
      assert (alter (λ b, Z.lxor b (Z.shiftl 1 bit)) idx data !! idx = data !! idx) as Heq'
        by exact (f_equal (λ l : list Z, l !! idx) Heq).
      rewrite (list_lookup_alter_eq (A:=Z)), Hx in Heq'. by injection Heq'.
    + exists idx, bit. by rewrite Z.shiftl_1_l.
Qed.

(** [C39] A drop rate of 1.0 passes the assertion of the constructor but does not drop
    every message: for every seed and tick there is a message that is delivered, because
    the probability is compared with [<] and the largest hashes divide to exactly 1.0. *)
Theorem full_drop_rate_leaks (seed tick rng : Z) (from to : NodeId) (data : bytes) :
  is_u64 seed → is_u64 tick →
  ∃ i id, drop_rate_new (f64_of_u64 1) seed = Done i ∧ is_u64 id ∧
    (intercept i from to data (mkInterceptContext tick id rng)).2 = Deliver data.
Proof.
  intros Hs Ht.
  set (x := 3558559446808474027).
  exists (mkDropRate (f64_of_u64 1) seed), (Z.lxor x (Z.lxor seed tick)).
  split; [by vm_compute|]. split.
  { apply lxor_u64; [by vm_compute|by apply lxor_u64]. }
  unfold intercept, DropRate_intercept; simpl.
  replace (Z.lxor (Z.lxor seed (Z.lxor x (Z.lxor seed tick))) tick) with x.
  - by vm_compute.
  - apply Z.bits_inj'. intros n _. rewrite !Z.lxor_spec.
    by destruct (Z.testbit x n), (Z.testbit seed n), (Z.testbit tick n).
Qed.
