(* ===== verification/NodeResource.v ===== *)
(** The node resource monitor ([dstate/examples/node_resource.rs]): a state with private
    bookkeeping, its public view, its deltas, the urgency of its changes, and the query for
    the node with the lowest memory use.

    The [f64] arithmetic is the IEEE binary64 arithmetic of [SpecFloat]. *)
From Stdlib Require Import SpecFloat.
From stdpp Require Import prelude gmap strings.
From S2P Require Import Prelude Node Clock Types Traits Interceptor.

(** [f64] operations; the comparisons are false when an operand is not a number. *)
Local Abbreviation f64 := spec_float.
Definition f64_add (a b : f64) : f64 := SFadd 53 1024 a b.
Definition f64_sub (a b : f64) : f64 := SFsub 53 1024 a b.
Definition f64_mul (a b : f64) : f64 := SFmul 53 1024 a b.
Definition f64_zero : f64 := S754_zero false.

Global Instance spec_float_eq_dec : EqDecision spec_float.
Proof. solve_decision. Defined.
Global Program Instance spec_float_countable : Countable spec_float :=
  inj_countable (A:=bool + (bool + (unit + bool * positive * Z)))
    (λ x, match x with
          | S754_zero s => inl s
          | S754_infinity s => inr (inl s)
          | S754_nan => inr (inr (inl ()))
          | S754_finite s m e => inr (inr (inr (s, m, e)))
          end)
    (λ x, Some match x with
          | inl s => S754_zero s
          | inr (inl s) => S754_infinity s
          | inr (inr (inl _)) => S754_nan
          | inr (inr (inr (s, m, e))) => S754_finite s m e
          end) _.
Next Obligation. by intros []. Qed.

(** ** State and view *)
Record NodeResourceState : Type := mkNodeResourceState {
  sample_count : Z;
  cpu_accumulator : f64;
  s_cpu_usage_pct : f64;
  s_memory_used_bytes : Z;
  s_memory_total_bytes : Z;
  s_disk_used_bytes : Z;
  s_disk_total_bytes : Z
}.

Record NodeResourceView : Type := mkNodeResourceView {
  v_cpu_usage_pct : f64;
  v_memory_used_bytes : Z;
  v_memory_total_bytes : Z;
  v_disk_used_bytes : Z;
  v_disk_total_bytes : Z
}.

Global Instance NodeResourceView_eq_dec : EqDecision NodeResourceView.
Proof. solve_decision. Defined.
Global Program Instance NodeResourceView_countable : Countable NodeResourceView :=
  inj_countable (A:=spec_float * Z * Z * Z * Z)
    (λ v, (v_cpu_usage_pct v, v_memory_used_bytes v, v_memory_total_bytes v,
           v_disk_used_bytes v, v_disk_total_bytes v))
    (λ '(c, mu, mt, du, dt), Some (mkNodeResourceView c mu mt du dt)) _.
Next Obligation. by intros []. Qed.

Definition NodeResourceState_default : NodeResourceState :=
  mkNodeResourceState 0 f64_zero f64_zero 0 (8 * 1024 * 1024 * 1024) 0 (100 * 1024 * 1024 * 1024).
Definition NodeResourceView_default : NodeResourceView :=
  mkNodeResourceView f64_zero 0 (8 * 1024 * 1024 * 1024) 0 (100 * 1024 * 1024 * 1024).

Implicit Types (s : NodeResourceState) (v : NodeResourceView).

Definition record_cpu_sample s (cpu_pct : f64) : NodeResourceState :=
  let sample_count := u64_add (sample_count s) 1 in
  let cpu_accumulator := f64_add (cpu_accumulator s) cpu_pct in
  mkNodeResourceState sample_count cpu_accumulator
    (f64_div cpu_accumulator (f64_of_u64 sample_count))
    (s_memory_used_bytes s) (s_memory_total_bytes s) (s_disk_used_bytes s) (s_disk_total_bytes s).

Definition set_memory s (used total : Z) : NodeResourceState :=
  mkNodeResourceState (sample_count s) (cpu_accumulator s) (s_cpu_usage_pct s)
    used total (s_disk_used_bytes s) (s_disk_total_bytes s).

Definition set_disk s (used total : Z) : NodeResourceState :=
  mkNodeResourceState (sample_count s) (cpu_accumulator s) (s_cpu_usage_pct s)
    (s_memory_used_bytes s) (s_memory_total_bytes s) used total.

(** [memory_usage_pct], the same for the state and the view. *)
Definition usage_pct (used total : Z) : f64 :=
  if total =? 0 then f64_zero
  else f64_mul (f64_div (f64_of_u64 used) (f64_of_u64 total)) (f64_of_u64 100).
Definition state_memory_usage_pct s : f64 :=
  usage_pct (s_memory_used_bytes s) (s_memory_total_bytes s).
Definition view_memory_usage_pct v : f64 :=
  usage_pct (v_memory_used_bytes v) (v_memory_total_bytes v).

(** ** Changes and deltas *)
Record NodeResourceDelta : Type := mkNodeResourceDelta {
  d_cpu_usage_pct : option f64;
  d_memory_used_bytes : option Z;
  d_memory_total_bytes : option Z;
  d_disk_used_bytes : option Z;
  d_disk_total_bytes : option Z
}.

Global Instance NodeResourceDelta_eq_dec : EqDecision NodeResourceDelta.
Proof. solve_decision. Defined.
Global Program Instance NodeResourceDelta_countable : Countable NodeResourceDelta :=
  inj_countable (A:=option spec_float * option Z * option Z * option Z * option Z)
    (λ d, (d_cpu_usage_pct d, d_memory_used_bytes d, d_memory_total_bytes d,
           d_disk_used_bytes d, d_disk_total_bytes d))
    (λ '(c, mu, mt, du, dt), Some (mkNodeResourceDelta c mu mt du dt)) _.
Next Obligation. by intros []. Qed.

Inductive NodeResourceChange : Type :=
| CpuSample (new_cpu_usage_pct : f64)
| MemoryUpdate (used total : Z)
| DiskUpdate (used total : Z).

Definition memory_spike_threshold_pct : f64 := f64_of_u64 10.
Definition cpu_suppress_threshold_pct : f64 := f64_of_u64 2.

Definition resource_project_view s : NodeResourceView :=
  mkNodeResourceView (s_cpu_usage_pct s) (s_memory_used_bytes s) (s_memory_total_bytes s)
    (s_disk_used_bytes s) (s_disk_total_bytes s).

Definition resource_project_delta (change : NodeResourceChange) : NodeResourceDelta :=
  match change with
  | CpuSample new_cpu_usage_pct => mkNodeResourceDelta (Some new_cpu_usage_pct) None None None None
  | MemoryUpdate used total => mkNodeResourceDelta None (Some used) (Some total) None None
  | DiskUpdate used total => mkNodeResourceDelta None None None (Some used) (Some total)
  end.

Definition resource_apply_delta v (delta : NodeResourceDelta) : NodeResourceView :=
  mkNodeResourceView (default (v_cpu_usage_pct v) (d_cpu_usage_pct delta))
    (default (v_memory_used_bytes v) (d_memory_used_bytes delta))
    (default (v_memory_total_bytes v) (d_memory_total_bytes delta))
    (default (v_disk_used_bytes v) (d_disk_used_bytes delta))
    (default (v_disk_total_bytes v) (d_disk_total_bytes delta)).

Definition resource_sync_urgency (old_view new_view : NodeResourceView)
    (change : NodeResourceChange) : SyncUrgency :=
  match change with
  | MemoryUpdate _ _ =>
      let old_pct := view_memory_usage_pct old_view in
      let new_pct := view_memory_usage_pct new_view in
      let diff := SFabs (f64_sub new_pct old_pct) in
      if SFleb memory_spike_threshold_pct diff then UrgencyImmediate else UrgencyDefault
  | CpuSample _ =>
      let diff := SFabs (f64_sub (v_cpu_usage_pct new_view) (v_cpu_usage_pct old_view)) in
      if SFltb diff cpu_suppress_threshold_pct then UrgencySuppress else UrgencyDefault
  | DiskUpdate _ _ => UrgencyDefault
  end.

Section Distributed.
Context `{Bincode NodeResourceView, Bincode NodeResourceDelta, Bincode NodeResourceState}.

Global Instance NodeResource_distributed :
  DeltaDistributedState NodeResourceState NodeResourceView NodeResourceDelta NodeResourceChange := {|
  dds_name := "node_resource";
  dds_wire_version := 1;
  dds_storage_version := 1;
  project_view := resource_project_view;
  project_delta := resource_project_delta;
  apply_delta := resource_apply_delta;
  dds_sync_urgency := resource_sync_urgency;
  dds_serialize_view := bincode_serialize;
  dds_deserialize_view := versioned_deserialize 1;
  dds_serialize_delta := bincode_serialize;
  dds_deserialize_delta := versioned_deserialize 1;
  dds_serialize_state := bincode_serialize;
  dds_deserialize_state := versioned_deserialize 1;
  dds_migrate_state := default_migrate_delta_state
|}.

Global Instance NodeResource_laws `{!BincodeLaws NodeResourceView, !BincodeLaws NodeResourceDelta} :
  DeltaCodecLaws NodeResourceState NodeResourceView NodeResourceDelta NodeResourceChange.
Proof. split; simpl; apply versioned_roundtrip. Qed.
End Distributed.

(** ** The query *)
Section Lowest.
Context `{HashIter}.
Implicit Types (views : gmap NodeId (StateViewObject NodeResourceView)).

(** [Iterator::min_by]: the first of the smallest. *)
Definition min_by {A} (le : A → A → bool) (l : list A) : option A :=
  match l with
  | [] => None
  | x :: l => Some (foldl (λ best y, if le best y then best else y) x l)
  end.

Definition memory_of (e : NodeId * StateViewObject NodeResourceView) : Z :=
  v_memory_used_bytes (vo_value e.2).

Definition find_lowest_memory_node views : option NodeId :=
  fst <$> min_by (λ a b, memory_of a <=? memory_of b) (hm_iter views).

Lemma min_by_spec {A} (f : A → Z) (l : list A) :
  match min_by (λ a b, f a <=? f b) l with
  | Some x => x ∈ l ∧ ∀ y, y ∈ l → f x ≤ f y
  | None => l = []
  end.
Proof.
  destruct l as [|x l]; simpl; [done|]. set (best := foldl _ x l).
  enough (best ∈ x :: l ∧ f best ≤ f x ∧ ∀ y, y ∈ l → f best ≤ f y) as (? & ? & ?).
  { split; [done|]. intros y [->|?]%elem_of_cons; auto. }
  unfold best. clear best. revert x. induction l as [|y l IH]; intros x; simpl.
  { split_and!; [by left|done|]. by intros y ?%elem_of_nil. }
  destruct (Z.leb_spec (f x) (f y)).
  - destruct (IH x) as (Hin & Hle & Hall). split_and!; [|done|].
    + apply elem_of_cons in Hin as [->|?]; [by left|by do 2 right].
    + intros z [->|?]%elem_of_cons; [lia|auto].
  - destruct (IH y) as (Hin & Hle & Hall). split_and!; [by right|lia|].
    intros z [->|?]%elem_of_cons; auto.
Qed.
End Lowest.

(** The query finds a node with the lowest memory use: there is an answer exactly when
    there is a node, the answer is one of the nodes, and no node uses less memory. *)
Theorem lowest_memory_found `{HashIter} (views : gmap NodeId (StateViewObject NodeResourceView)) :
  match find_lowest_memory_node views with
  | Some id => ∃ vo, views !! id = Some vo ∧ ∀ k vo', views !! k = Some vo' →
      v_memory_used_bytes (vo_value vo) ≤ v_memory_used_bytes (vo_value vo')
  | None => views = ∅
  end.
Proof.
  unfold find_lowest_memory_node. pose proof (min_by_spec memory_of (hm_iter views)) as Hmin.
  destruct (min_by _ _) as [[id vo]|]; simpl.
  - destruct Hmin as [Hin Hle]. exists vo. split; [by apply elem_of_hm_iter|].
    intros k vo' Hk. apply (Hle (k, vo')). by apply elem_of_hm_iter.
  - apply map_empty. intros k. apply eq_None_not_Some. intros [vo Hvo%elem_of_hm_iter].
    rewrite Hmin in Hvo. by apply elem_of_nil in Hvo.
Qed.

(** ** The mutations an application makes *)

(** A mutation with the change it reports. *)
Definition sample_cpu (pct : spec_float) s : NodeResourceState * NodeResourceChange :=
  let s' := record_cpu_sample s pct in (s', CpuSample (s_cpu_usage_pct s')).
Definition update_memory (used total : Z) s : NodeResourceState * NodeResourceChange :=
  (set_memory s used total, MemoryUpdate used total).
Definition update_disk (used total : Z) s : NodeResourceState * NodeResourceChange :=
  (set_disk s used total, DiskUpdate used total).

(** [C36] The deltas of the monitor are exact: for each kind of mutation, whatever the numbers
    (not a number and the infinities included), the serialized delta, applied by a peer to
    the view before, yields the view after, and leaves the private fields out. *)
Theorem node_resource_deltas_exact
    `{BincodeLaws NodeResourceView, BincodeLaws NodeResourceDelta, Bincode NodeResourceState}
    (f : NodeResourceState → NodeResourceState * NodeResourceChange) (s : NodeResourceState) :
  (∃ pct, f = sample_cpu pct) ∨ (∃ used total, f = update_memory used total) ∨
    (∃ used total, f = update_disk used total) →
  delta_applier (dds_serialize_delta (project_delta (f s).2)) dds_wire_version (project_view s) =
    Ok (project_view (f s).1) ∧
  (∀ count acc, project_view (mkNodeResourceState count acc (s_cpu_usage_pct s) (s_memory_used_bytes s)
     (s_memory_total_bytes s) (s_disk_used_bytes s) (s_disk_total_bytes s)) = project_view s).
Proof.
  intros Hf. split; [|done]. apply (delta_applier_describes f).
  intros s'. by destruct Hf as [[pct ->]|[(used & total & ->)|(used & total & ->)]].
Qed.

(** *** How far two numbers are apart *)
Lemma binary_round_abs sx m e :
  SFabs (binary_round 53 1024 sx m e) = SFabs (binary_round 53 1024 false m e).
Proof.
  unfold binary_round. destruct (shl_align _ _ _) as [mz ez]. unfold binary_round_aux.
  destruct (shr_fexp _ _ (Z.pos mz) ez loc_Exact) as [m1 e1].
  destruct (shr_fexp _ _ (round_nearest_even _ _) e1 loc_Exact) as [m2 e2].
  destruct (shr_m m2); try done. by destruct (e2 <=? _).
Qed.

Lemma binary_normalize_opp z e :
  SFabs (binary_normalize 53 1024 (- z) e false) = SFabs (binary_normalize 53 1024 z e false).
Proof. destruct z; simpl; [done|by rewrite binary_round_abs|by rewrite (binary_round_abs true)]. Qed.

Lemma distance_sym (a b : spec_float) : SFabs (f64_sub a b) = SFabs (f64_sub b a).
Proof.
  unfold f64_sub. destruct a as [sa|sa| |sa ma ea], b as [sb|sb| |sb mb eb];
    try done; try (by destruct sa, sb). simpl. rewrite (Z.min_comm eb ea).
  match goal with |- SFabs (binary_normalize _ _ (?x - ?y) _ _) = _ =>
    replace (y - x) with (- (x - y)) by lia end.
  by rewrite binary_normalize_opp.
Qed.

Definition is_number (x : spec_float) : Prop :=
  match x with S754_zero _ | S754_finite _ _ _ => True | _ => False end.
Global Instance is_number_dec x : Decision (is_number x).
Proof. destruct x; apply _. Defined.

Lemma distance_self (a : spec_float) :
  SFabs (f64_sub a a) = if decide (is_number a) then f64_zero else S754_nan.
Proof. destruct a as [[]|[]| |s m e]; try done. simpl. by rewrite Z.sub_diag. Qed.

(** The urgency of a change.  A disk update has the default one.  A memory update is
    immediate exactly when the percentage moves by at least 10, and never suppressed.  A
    CPU sample is suppressed exactly when the average moves by less than 2, and never
    immediate; an average that does not move is suppressed, unless it is infinite or not a
    number.  The direction of a move does not matter. *)
Theorem resource_urgency_thresholds (old new : NodeResourceView) (change : NodeResourceChange) :
  let distance a b := SFabs (f64_sub b a) in
  let urgency := resource_sync_urgency old new change in
  resource_sync_urgency new old change = urgency ∧
  match change with
  | DiskUpdate _ _ => urgency = UrgencyDefault
  | MemoryUpdate _ _ =>
      (urgency = UrgencyImmediate ↔
         SFleb (f64_of_u64 10)
           (distance (view_memory_usage_pct old) (view_memory_usage_pct new)) = true) ∧
      urgency ≠ UrgencySuppress
  | CpuSample _ =>
      (urgency = UrgencySuppress ↔
         SFltb (distance (v_cpu_usage_pct old) (v_cpu_usage_pct new)) (f64_of_u64 2) = true) ∧
      urgency ≠ UrgencyImmediate ∧
      (v_cpu_usage_pct new = v_cpu_usage_pct old →
         urgency = if decide (is_number (v_cpu_usage_pct old)) then UrgencySuppress else UrgencyDefault)
  end.
Proof.
  intros distance urgency. unfold urgency, distance. split.
  { destruct change; simpl; [by rewrite distance_sym..|done]. }
  destruct change as [pct|used total|used total]; simpl; [| |done];
    unfold cpu_suppress_threshold_pct, memory_spike_threshold_pct.
  - split_and!; [by destruct (SFltb _ _)..|]. intros ->. rewrite distance_self.
    by case_decide.
  - split; by destruct (SFleb _ _).
Qed.

(** The reported CPU usage is the sum of the samples, in their order, over their number. *)
Theorem cpu_usage_is_average (samples : list spec_float) (last_sample : spec_float) :
  Z.of_nat (length samples) < u64_max →
  let s := record_cpu_sample (foldl record_cpu_sample NodeResourceState_default samples) last_sample in
  sample_count s = Z.of_nat (length (samples ++ [last_sample])) ∧
  s_cpu_usage_pct s = f64_div (foldl f64_add f64_zero (samples ++ [last_sample]))
    (f64_of_u64 (Z.of_nat (length (samples ++ [last_sample])))).
Proof.
  intros Hlen s. set (l := samples ++ [last_sample]).
  assert (∀ (l : list spec_float) s0, 0 ≤ sample_count s0 →
    sample_count s0 + Z.of_nat (length l) ≤ u64_max →
    sample_count (foldl record_cpu_sample s0 l) = sample_count s0 + Z.of_nat (length l) ∧
    cpu_accumulator (foldl record_cpu_sample s0 l) = foldl f64_add (cpu_accumulator s0) l) as Hfold.
  { clear. induction l as [|x l IH]; intros s0 H0 Hl; simpl in *; [split; [lia|done]|].
    destruct (IH (record_cpu_sample s0 x)) as [-> ->]; simpl; rewrite u64_succ_small by lia; [lia..|].
    split; [lia|done]. }
  destruct (Hfold samples NodeResourceState_default) as [Hc Ha]; [done|simpl; lia|].
  assert (Z.of_nat (length l) = u64_add (Z.of_nat (length samples)) 1) as Hl.
  { unfold l. rewrite length_app, u64_succ_small by lia. simpl. lia. }
  unfold s. set (s0 := foldl record_cpu_sample _ samples) in *. unfold record_cpu_sample. simpl.
  rewrite Hc, Ha, Hl. split; [done|]. unfold l. by rewrite foldl_app.
Qed.
