(* ===== verification/Transport.v ===== *)
(** The mock transport ([dstate-integration/src/transport.rs]): messages are
    serialized, run through the interceptor pipeline and queued until their tick. *)
From stdpp Require Import prelude gmap strings list.
From S2P Require Import Prelude Node Types Traits Interceptor.

(** [Box<dyn NetworkInterceptor>]. *)
Record DynInterceptor : Type := mkDynInterceptor {
  dyn_type : Type;
  dyn_impl : NetworkInterceptor dyn_type;
  dyn_value : dyn_type
}.
Definition dyn {I} `{impl : NetworkInterceptor I} (i : I) : DynInterceptor :=
  mkDynInterceptor I impl i.

Definition dyn_intercept (d : DynInterceptor) (from to : NodeId) (data : bytes)
    (ctx : InterceptContext) : DynInterceptor * InterceptAction :=
  let '(i, action) := @intercept _ (dyn_impl d) (dyn_value d) from to data ctx in
  (mkDynInterceptor (dyn_type d) (dyn_impl d) i, action).

(** [InFlightMessage]. *)
Record InFlightMessage : Type := mkInFlight {
  if_from : NodeId;
  if_to : NodeId;
  if_data : bytes;
  deliver_at_tick : Z
}.

(** [MockTransport]. *)
Record MockTransport : Type := mkTransport {
  in_flight : list InFlightMessage;
  interceptors : list DynInterceptor;
  message_counter : Z;
  current_tick : Z;
  rng_seed : Z
}.

Record DeliveredMessage : Type := mkDelivered {
  dm_from : NodeId;
  dm_to : NodeId;
  dm_message : WireMessage
}.
Record CorruptedMessage : Type := mkCorrupted {
  cm_from : NodeId;
  cm_to : NodeId;
  cm_error : string
}.
Record DeliveryResult : Type := mkDeliveryResult {
  delivered : list DeliveredMessage;
  corrupted : list CorruptedMessage
}.

Section Transport.
Context `{Bincode WireMessage}.
Implicit Types (t : MockTransport) (ctx : InterceptContext).

Definition transport_new (seed : Z) : MockTransport := mkTransport [] [] 0 0 seed.

(** One interceptor over the pending copies: the copies it passes on and the actions
    it finalizes. *)
Fixpoint intercept_pending (d : DynInterceptor) (from to : NodeId) ctx (pending : list bytes) :
    DynInterceptor * list bytes * list InterceptAction :=
  match pending with
  | [] => (d, [], [])
  | data :: rest =>
      let '(d, action) := dyn_intercept d from to data ctx in
      let '(d, next, final) := intercept_pending d from to ctx rest in
      match action with
      | Deliver data => (d, data :: next, final)
      | Drop => (d, next, final)
      | Delay data ticks => (d, next, Delay data ticks :: final)
      | DeliverMany copies => (d, copies ++ next, final)
      end
  end.

(** The loop over the interceptors. *)
Fixpoint pipeline (ds : list DynInterceptor) (from to : NodeId) ctx (pending : list bytes) :
    list DynInterceptor * list bytes * list InterceptAction :=
  match ds with
  | [] => ([], pending, [])
  | d :: ds =>
      let '(d, pending, final) := intercept_pending d from to ctx pending in
      let '(ds, pending, final') := pipeline ds from to ctx pending in
      (d :: ds, pending, final ++ final')
  end.

Definition apply_interceptors t (from to : NodeId) (data : bytes) ctx :
    MockTransport * list InterceptAction :=
  match interceptors t with
  | [] => (t, [Deliver data])
  | ds =>
      let '(ds, pending, finalized) := pipeline ds from to ctx [data] in
      (mkTransport (in_flight t) ds (message_counter t) (current_tick t) (rng_seed t),
       finalized ++ (Deliver <$> pending))
  end.

(** What an action queues. *)
Definition enqueue (from to : NodeId) (tick : Z) (action : InterceptAction) :
    list InFlightMessage :=
  match action with
  | Deliver data => [mkInFlight from to data (u64_add tick 1)]
  | Drop => []
  | Delay data ticks => [mkInFlight from to data (u64_add (u64_add tick 1) ticks)]
  | DeliverMany copies => (λ data, mkInFlight from to data (u64_add tick 1)) <$> copies
  end.

Definition send_bytes t (from to : NodeId) (data : bytes) : MockTransport :=
  let msg_id := message_counter t in
  let t := mkTransport (in_flight t) (interceptors t) (u64_add (message_counter t) 1)
             (current_tick t) (rng_seed t) in
  let ctx := mkInterceptContext (current_tick t) msg_id (rng_seed t) in
  let '(t, actions) := apply_interceptors t from to data ctx in
  mkTransport (in_flight t ++ (actions ≫= enqueue from to (current_tick t)))
    (interceptors t) (message_counter t) (current_tick t) (rng_seed t).

Definition transport_send t (from to : NodeId) (msg : WireMessage) : MockTransport :=
  send_bytes t from to (bincode_serialize msg).

Definition transport_broadcast t (from : NodeId) (msg : WireMessage) (all_nodes : list NodeId) :
    MockTransport :=
  let data := bincode_serialize msg in
  foldl (λ t to, if negb (bool_decide (to = from)) then send_bytes t from to data else t)
    t all_nodes.

(** One message popped from the queue. *)
Definition deliver_one (tick : Z) (acc : DeliveryResult * list InFlightMessage)
    (msg : InFlightMessage) : DeliveryResult * list InFlightMessage :=
  let '(result, still_waiting) := acc in
  if deliver_at_tick msg <=? tick then
    match bincode_deserialize (if_data msg) with
    | Ok wire_msg =>
        (mkDeliveryResult
           (delivered result ++ [mkDelivered (if_from msg) (if_to msg) wire_msg])
           (corrupted result), still_waiting)
    | Err e =>
        (mkDeliveryResult (delivered result)
           (corrupted result ++ [mkCorrupted (if_from msg) (if_to msg) e]), still_waiting)
    end
  else (result, still_waiting ++ [msg]).

Definition deliver_due t : MockTransport * DeliveryResult :=
  let '(result, still_waiting) :=
    foldl (deliver_one (current_tick t)) (mkDeliveryResult [] [], []) (in_flight t) in
  (mkTransport still_waiting (interceptors t) (message_counter t) (current_tick t) (rng_seed t),
   result).

Definition advance_tick t : MockTransport :=
  mkTransport (in_flight t) (interceptors t) (message_counter t) (u64_add (current_tick t) 1)
    (rng_seed t).

Definition in_flight_count t : nat := length (in_flight t).

Definition add_interceptor t (d : DynInterceptor) : MockTransport :=
  mkTransport (in_flight t) (interceptors t ++ [d]) (message_counter t) (current_tick t)
    (rng_seed t).

Definition clear_interceptors t : MockTransport :=
  mkTransport (in_flight t) [] (message_counter t) (current_tick t) (rng_seed t).

Definition drop_in_flight_for t (id : NodeId) : MockTransport :=
  mkTransport (filter (λ m, if_from m ≠ id ∧ if_to m ≠ id) (in_flight t)) (interceptors t)
    (message_counter t) (current_tick t) (rng_seed t).

(** *** Lemmas *)

Definition is_due (tick : Z) (m : InFlightMessage) : Prop := deliver_at_tick m ≤ tick.
Global Instance is_due_dec tick m : Decision (is_due tick m).
Proof. unfold is_due. apply _. Defined.

(** What a message becomes at its tick. *)
Definition decode_delivered (m : InFlightMessage) : option DeliveredMessage :=
  match bincode_deserialize (if_data m) with
  | Ok w => Some (mkDelivered (if_from m) (if_to m) w)
  | Err _ => None
  end.
Definition decode_corrupted (m : InFlightMessage) : option CorruptedMessage :=
  match bincode_deserialize (A := WireMessage) (if_data m) with
  | Ok _ => None
  | Err e => Some (mkCorrupted (if_from m) (if_to m) e)
  end.

Lemma deliver_fold tick l : ∀ r wait,
  foldl (deliver_one tick) (r, wait) l =
    (mkDeliveryResult
       (delivered r ++ omap decode_delivered (filter (is_due tick) l))
       (corrupted r ++ omap decode_corrupted (filter (is_due tick) l)),
     wait ++ filter (λ m, ¬ is_due tick m) l).
Proof.
  induction l as [|m l IH]; intros r wait; simpl.
  { rewrite !app_nil_r. by destruct r. }
  rewrite !filter_cons. destruct (Z.leb_spec (deliver_at_tick m) tick) as [Hle|Hgt].
  - rewrite (decide_True (P := is_due tick m)) by done.
    rewrite (decide_False (P := ¬ is_due tick m)) by tauto.
    simpl. unfold decode_delivered at 1, decode_corrupted at 1.
    destruct (bincode_deserialize (if_data m)); rewrite IH; simpl; by rewrite <- app_assoc.
  - rewrite (decide_False (P := is_due tick m)) by (unfold is_due; lia).
    rewrite (decide_True (P := ¬ is_due tick m)) by (unfold is_due; lia).
    rewrite IH. by rewrite <- app_assoc.
Qed.

Lemma deliver_due_eq t :
  deliver_due t =
    (mkTransport (filter (λ m, ¬ is_due (current_tick t) m) (in_flight t)) (interceptors t)
       (message_counter t) (current_tick t) (rng_seed t),
     mkDeliveryResult (omap decode_delivered (filter (is_due (current_tick t)) (in_flight t)))
       (omap decode_corrupted (filter (is_due (current_tick t)) (in_flight t)))).
Proof. unfold deliver_due. rewrite deliver_fold. done. Qed.

(** Without interceptors a message is queued as it is. *)
Lemma send_bytes_clean t from to data :
  interceptors t = [] →
  send_bytes t from to data =
    mkTransport (in_flight t ++ [mkInFlight from to data (u64_add (current_tick t) 1)]) []
      (u64_add (message_counter t) 1) (current_tick t) (rng_seed t).
Proof. intros Hi. unfold send_bytes, apply_interceptors; simpl. by rewrite Hi. Qed.

Lemma broadcast_clean from msg all : ∀ t,
  interceptors t = [] →
  in_flight (transport_broadcast t from msg all) = in_flight t ++
    ((λ to, mkInFlight from to (bincode_serialize msg) (u64_add (current_tick t) 1))
       <$> filter (λ to, to ≠ from) all) ∧
  interceptors (transport_broadcast t from msg all) = [] ∧
  current_tick (transport_broadcast t from msg all) = current_tick t.
Proof.
  unfold transport_broadcast. induction all as [|to all IH]; intros t Hi; simpl.
  { by rewrite app_nil_r. }
  rewrite filter_cons. case_bool_decide as Hto; simpl.
  - rewrite decide_False by tauto. by apply IH.
  - rewrite decide_True by done. rewrite send_bytes_clean by done.
    destruct (IH (mkTransport (in_flight t ++ [mkInFlight from to (bincode_serialize msg)
      (u64_add (current_tick t) 1)]) [] (u64_add (message_counter t) 1) (current_tick t)
      (rng_seed t)) eq_refl) as (-> & -> & ->). simpl. by rewrite <- app_assoc.
Qed.

(** Sends one after the other. *)
Definition send_all t (l : list (NodeId * NodeId * WireMessage)) : MockTransport :=
  foldl (λ t m, transport_send t m.1.1 m.1.2 m.2) t l.

Lemma send_all_clean l : ∀ t,
  interceptors t = [] →
  in_flight (send_all t l) = in_flight t ++
    ((λ m, mkInFlight m.1.1 m.1.2 (bincode_serialize m.2) (u64_add (current_tick t) 1)) <$> l) ∧
  current_tick (send_all t l) = current_tick t.
Proof.
  induction l as [|m l IH]; intros t Hi; simpl; [by rewrite app_nil_r|].
  unfold transport_send at 2. rewrite send_bytes_clean by done.
  change (foldl (λ t m, transport_send t m.1.1 m.1.2 m.2)) with send_all.
  destruct (IH (mkTransport (in_flight t ++ [mkInFlight m.1.1 m.1.2 (bincode_serialize m.2)
    (u64_add (current_tick t) 1)]) [] (u64_add (message_counter t) 1) (current_tick t)
    (rng_seed t)) eq_refl) as (Hf & Hc).
  unfold transport_send. rewrite send_bytes_clean by done. rewrite Hf, Hc. simpl.
  by rewrite <- app_assoc.
Qed.

(** Messages queued for one tick: none is delivered before, all of them then. *)
Definition queued (tick : Z) (m : NodeId * NodeId * WireMessage) : InFlightMessage :=
  mkInFlight m.1.1 m.1.2 (bincode_serialize m.2) tick.

Lemma deliver_early t d l :
  in_flight t = queued d <$> l → current_tick t < d →
  deliver_due t = (t, mkDeliveryResult [] []).
Proof.
  intros Hf Hlt. rewrite deliver_due_eq.
  assert (filter (is_due (current_tick t)) (in_flight t) = []) as ->.
  { rewrite Hf. clear -Hlt. induction l as [|m l IH]; [done|].
    rewrite fmap_cons, filter_cons, decide_False; [done|]. unfold is_due. simpl. lia. }
  assert (filter (λ m, ¬ is_due (current_tick t) m) (in_flight t) = in_flight t) as ->.
  { rewrite Hf. clear -Hlt. induction l as [|m l IH]; [done|].
    rewrite fmap_cons, filter_cons, decide_True; [by rewrite IH|]. unfold is_due. simpl. lia. }
  by destruct t.
Qed.

Lemma deliver_all `{!BincodeLaws WireMessage} t d l :
  in_flight t = queued d <$> l → d ≤ current_tick t →
  deliver_due t =
    (mkTransport [] (interceptors t) (message_counter t) (current_tick t) (rng_seed t),
     mkDeliveryResult ((λ m, mkDelivered m.1.1 m.1.2 m.2) <$> l) []).
Proof.
  intros Hf Hle. rewrite deliver_due_eq.
  assert (filter (is_due (current_tick t)) (in_flight t) = in_flight t) as ->.
  { rewrite Hf. clear -Hle. induction l as [|m l IH]; [done|].
    rewrite fmap_cons, filter_cons, decide_True; [by rewrite IH|]. unfold is_due. simpl. lia. }
  assert (filter (λ m, ¬ is_due (current_tick t) m) (in_flight t) = []) as ->.
  { rewrite Hf. clear -Hle. induction l as [|m l IH]; [done|].
    rewrite fmap_cons, filter_cons, decide_False; [done|]. unfold is_due. simpl. lia. }
  rewrite Hf. do 2 f_equal; clear -BincodeLaws0; (induction l as [|m l IH]; [done|]);
    rewrite !fmap_cons, <- IH; simpl; unfold decode_delivered at 1 || unfold decode_corrupted at 1;
    simpl; by rewrite bincode_roundtrip.
Qed.
End Transport.

(** [C37] Delivery loses nothing and is idempotent within a tick: every queued message
    that is due comes out exactly once, in queue order, as a delivered message or, when
    its bytes do not parse, as a corrupted one; the others stay queued in order; asking
    again in the same tick yields nothing. *)
Theorem delivery_conserves `{Bincode WireMessage} (t : MockTransport) :
  let '(t', r) := deliver_due t in
  let due := filter (is_due (current_tick t)) (in_flight t) in
  delivered r = omap decode_delivered due ∧
  corrupted r = omap decode_corrupted due ∧
  (length (delivered r) + length (corrupted r) + in_flight_count t' = in_flight_count t)%nat ∧
  (∀ m, m ∈ in_flight t' ↔ m ∈ in_flight t ∧ current_tick t < deliver_at_tick m) ∧
  (deliver_due t').2 = mkDeliveryResult [] [].
Proof.
  rewrite deliver_due_eq. simpl. split_and!; [done..| | |].
  - unfold in_flight_count; simpl.
    assert (∀ l, length (omap decode_delivered l) + length (omap decode_corrupted l) = length l)%nat
      as Hsplit.
    { induction l as [|m l IH]; simpl; [done|].
      unfold decode_delivered at 1, decode_corrupted at 1.
      destruct (bincode_deserialize (if_data m)); unfold omap in *; simpl; lia. }
    rewrite Hsplit. induction (in_flight t) as [|m l IH]; [done|].
    rewrite !filter_cons. destruct (decide (is_due (current_tick t) m));
      [rewrite decide_False by tauto|rewrite decide_True by tauto]; simpl; lia.
  - intros m. rewrite list_elem_of_filter. unfold is_due. rewrite Z.nle_gt. tauto.
  - rewrite deliver_due_eq. simpl.
    assert (filter (is_due (current_tick t)) (filter (λ m, ¬ is_due (current_tick t) m)
      (in_flight t)) = []) as ->; [|done].
    induction (in_flight t) as [|m l IH]; [done|]. rewrite filter_cons.
    case_decide; [|done]. rewrite filter_cons, decide_False by done. done.
Qed.

(** [C38] A clean network is reliable and first-in-first-out: what is sent in a tick
    arrives in the next one, complete, in order and unchanged, and not before. *)
Theorem clean_network_fifo `{!Bincode WireMessage} `{!BincodeLaws WireMessage} (t : MockTransport)
    (l : list (NodeId * NodeId * WireMessage)) :
  interceptors t = [] → in_flight t = [] → 0 ≤ current_tick t < u64_max →
  (deliver_due (send_all t l)).2 = mkDeliveryResult [] [] ∧
  let '(t', r) := deliver_due (advance_tick (send_all t l)) in
  delivered r = (λ m, mkDelivered m.1.1 m.1.2 m.2) <$> l ∧ corrupted r = [] ∧ in_flight t' = [].
Proof.
  intros Hi Hf Ht. destruct (send_all_clean l t Hi) as [Hq Hc]. rewrite Hf in Hq. simpl in Hq.
  split.
  - rewrite (deliver_early _ (u64_add (current_tick t) 1) l); [done|done|].
    rewrite Hc, u64_succ_small; lia.
  - rewrite (deliver_all _ (u64_add (current_tick t) 1) l); [done|done|]. simpl. by rewrite Hc.
Qed.

(** The order of the pipeline matters as documented: a partition in front keeps
    every crossing message out of the queue; a delay is final, so a [DropAll] behind it
    drops nothing and the message is queued for exactly the baseline tick plus the
    delay; the other way round the message is dropped; a duplicator queues two copies. *)
Theorem interceptor_chain_order (t : MockTransport) (from to : NodeId) (data : bytes)
    (a b : list NodeId) (rest : list DynInterceptor) (k : Z) :
  let with_chain ds := mkTransport (in_flight t) ds (message_counter t) (current_tick t) (rng_seed t) in
  (from ∈ a ∧ to ∈ b →
     in_flight (send_bytes (with_chain (dyn (partition_asymmetric a b) :: rest)) from to data)
       = in_flight t) ∧
  in_flight (send_bytes (with_chain [dyn (mkDelayTicks k); dyn mkDropAll]) from to data) =
    in_flight t ++ [mkInFlight from to data (u64_add (u64_add (current_tick t) 1) k)] ∧
  in_flight (send_bytes (with_chain [dyn mkDropAll; dyn (mkDelayTicks k)]) from to data) =
    in_flight t ∧
  in_flight (send_bytes (with_chain [dyn mkDuplicateAll]) from to data) =
    in_flight t ++ [mkInFlight from to data (u64_add (current_tick t) 1);
                    mkInFlight from to data (u64_add (current_tick t) 1)].
Proof.
  intros with_chain. split_and!; [|done|by unfold send_bytes; simpl; rewrite app_nil_r|done].
  intros [Ha Hb]. unfold send_bytes, apply_interceptors. simpl.
  unfold dyn_intercept. simpl. unfold intercept, Partition_intercept. simpl.
  rewrite !bool_decide_eq_true_2 by (by apply elem_of_list_to_set). simpl.
  assert (∀ ds ctx, (pipeline ds from to ctx []).1.2 = [] ∧ (pipeline ds from to ctx []).2 = [])
    as Hnone.
  { induction ds as [|d ds IH]; intros ctx; simpl; [done|].
    specialize (IH ctx). destruct (pipeline ds from to ctx []) as [[??]?]. done. }
  specialize (Hnone rest (mkInterceptContext (current_tick t) (message_counter t) (rng_seed t))).
  destruct (pipeline rest _ _ _ _) as [[??]?]. simpl in *. destruct Hnone as [-> ->].
  simpl. by rewrite app_nil_r.
Qed.
