(* ===== verification/Faults.v ===== *)
(** What the interceptors of the mock transport may do to a message: the contract of an
    interceptor that forges nothing and delays within limits, the built-in interceptors
    that keep it, and what a send then queues. *)
From stdpp Require Import prelude gmap fin_sets strings list.
From S2P Require Import Prelude Node Types Traits Interceptor Transport.

(** The payloads an action lets through, and the ticks it adds. *)
Definition payloads (a : InterceptAction) : list bytes :=
  match a with
  | Deliver d | Delay d _ => [d]
  | Drop => []
  | DeliverMany copies => copies
  end.
Definition added_ticks (a : InterceptAction) : Z :=
  match a with Delay _ ticks => ticks | _ => 0 end.

(** An action on [data] that lets through only [data], later by a number of ticks that
    satisfies [D]. *)
Definition action_ok (D : Z → Prop) (data : bytes) (a : InterceptAction) : Prop :=
  (∀ b, b ∈ payloads a → b = data) ∧ D (added_ticks a).

(** An interceptor all of whose actions, now and later, are such. *)
Definition obeys (D : Z → Prop) (d : DynInterceptor) : Prop :=
  ∃ P : dyn_type d → Prop, P (dyn_value d) ∧
    ∀ v from to data ctx, P v →
      P (@intercept _ (dyn_impl d) v from to data ctx).1 ∧
      action_ok D data (@intercept _ (dyn_impl d) v from to data ctx).2.

(** It forges nothing; it also delays by at most [B] ticks. *)
Definition honest : DynInterceptor → Prop := obeys (λ _, True).
Definition tame (B : Z) : DynInterceptor → Prop := obeys (λ ticks, 0 ≤ ticks ≤ B).

Lemma obeys_mono (D D' : Z → Prop) d : (∀ z, D z → D' z) → obeys D d → obeys D' d.
Proof.
  intros HD (P & Hv & Hall). exists P. split; [done|]. intros v from to data ctx HP.
  destruct (Hall v from to data ctx HP) as (? & ? & ?). split_and!; auto. split; auto.
Qed.

Lemma tame_honest B d : tame B d → honest d.
Proof. by apply obeys_mono. Qed.

Lemma tame_mono B B' d : B ≤ B' → tame B d → tame B' d.
Proof. intros HB. apply obeys_mono. lia. Qed.

(** The contract of an interceptor whose state does not matter. *)
Lemma obeys_always {I} `{impl : NetworkInterceptor I} (D : Z → Prop) (i : I) :
  (∀ from to data ctx, (intercept i from to data ctx).1 = i ∧
     action_ok D data (intercept i from to data ctx).2) →
  obeys D (dyn i).
Proof.
  intros Hi. exists (λ v, v = i). split; [done|]. intros v from to data ctx ->. apply Hi.
Qed.

(** Every built-in interceptor but the one that corrupts. *)
Lemma builtin_tame B : 0 ≤ B →
  tame B (dyn mkPassThrough) ∧ tame B (dyn mkDropAll) ∧ tame B (dyn mkDuplicateAll) ∧
  (∀ i : DropRate, tame B (dyn i)) ∧ (∀ i : Partition, tame B (dyn i)) ∧
  (∀ k, 0 ≤ k ≤ B → tame B (dyn (mkDelayTicks k))).
Proof.
  intros HB. split_and!; intros; apply obeys_always; intros from to data ctx; split; try done;
    unfold action_ok, intercept, DropRate_intercept, Partition_intercept; simpl;
    repeat case_match; simpl; set_solver by lia.
Qed.

(** ** The pipeline *)
Section Pipeline.
Context (D : Z → Prop).
Implicit Types (data : bytes) (ctx : InterceptContext).

Definition copies_of data (l : list bytes) : Prop := ∀ b, b ∈ l → b = data.
Definition all_ok data (l : list InterceptAction) : Prop := ∀ a, a ∈ l → action_ok D data a.

Lemma dyn_intercept_obeys d from to data ctx :
  obeys D d → obeys D (dyn_intercept d from to data ctx).1 ∧
  action_ok D data (dyn_intercept d from to data ctx).2.
Proof.
  intros (P & Hv & Hall). unfold dyn_intercept.
  destruct (Hall _ from to data ctx Hv) as [Hv' Ha].
  destruct (@intercept _ (dyn_impl d) (dyn_value d) from to data ctx) as [v' a].
  split; [|done]. by exists P.
Qed.

Lemma intercept_pending_obeys data from to ctx pending : ∀ d,
  obeys D d → copies_of data pending →
  let '(d', next, final) := intercept_pending d from to ctx pending in
  obeys D d' ∧ copies_of data next ∧ all_ok data final.
Proof.
  unfold copies_of, all_ok. induction pending as [|x pending IH]; intros d Hd Hp; simpl.
  { split_and!; [done|..]; set_solver. }
  destruct (dyn_intercept_obeys d from to x ctx Hd) as [Hd' Ha].
  destruct (dyn_intercept d from to x ctx) as [d1 action]. simpl in *.
  specialize (IH d1 Hd' ltac:(intros; apply Hp; by right)).
  destruct (intercept_pending d1 from to ctx pending) as [[d2 next] final].
  destruct IH as (Hd2 & Hn & Hf). assert (x = data) as -> by (apply Hp; by left).
  pose proof (proj1 Ha) as Hb. destruct action; simpl in *; split_and!; try done.
  - intros b [->|?]%elem_of_cons; [apply Hb; by left|auto].
  - intros a [->|?]%elem_of_cons; auto.
  - intros b [?|?]%elem_of_app; auto.
Qed.

Lemma pipeline_obeys data from to ctx ds : ∀ pending,
  Forall (obeys D) ds → copies_of data pending →
  let '(ds', pending', final) := pipeline ds from to ctx pending in
  Forall (obeys D) ds' ∧ copies_of data pending' ∧ all_ok data final.
Proof.
  induction ds as [|d ds IH]; intros pending Hds Hp; simpl.
  { split_and!; [done..|]. by intros a ?%elem_of_nil. }
  apply Forall_cons in Hds as [Hd Hds].
  pose proof (intercept_pending_obeys data from to ctx pending d Hd Hp) as H1.
  destruct (intercept_pending d from to ctx pending) as [[d1 next] f1].
  destruct H1 as (Hd1 & Hn & Hf1). specialize (IH next Hds Hn).
  destruct (pipeline ds from to ctx next) as [[ds2 p2] f2]. destruct IH as (? & ? & Hf2).
  split_and!; [by constructor|done|]. intros a [?|?]%elem_of_app; auto.
Qed.

(** A message queued at [tick] is the data, for the next tick or later by ticks in [D]. *)
Definition queued_ok (tick : Z) (to : NodeId) data (m : InFlightMessage) : Prop :=
  if_to m = to ∧ if_data m = data ∧
  (deliver_at_tick m = u64_add tick 1 ∨
   ∃ k, D k ∧ deliver_at_tick m = u64_add (u64_add tick 1) k).

Lemma enqueue_ok from to tick data a m :
  (∃ b, a = Deliver b ∧ b = data) ∨ action_ok D data a →
  m ∈ enqueue from to tick a → queued_ok tick to data m.
Proof.
  intros [(b & -> & ->)|[Hb HD]].
  { intros ->%list_elem_of_singleton. split_and!; [done..|]. by left. }
  destruct a as [b| |b k|l]; simpl in *.
  - intros ->%list_elem_of_singleton. split_and!; [done|apply Hb; by left|by left].
  - by intros ?%elem_of_nil.
  - intros ->%list_elem_of_singleton. split_and!; [done|apply Hb; by left|right; eauto].
  - intros (b & -> & Hin)%list_elem_of_fmap. split_and!; [done|by apply Hb|by left].
Qed.

(** Sending keeps the queue and appends copies of the data. *)
Lemma send_bytes_obeys t from to data :
  Forall (obeys D) (interceptors t) →
  let t' := send_bytes t from to data in
  Forall (obeys D) (interceptors t') ∧ current_tick t' = current_tick t ∧
  ∃ l, in_flight t' = in_flight t ++ l ∧ ∀ m, m ∈ l → queued_ok (current_tick t) to data m.
Proof.
  intros Hds. unfold send_bytes, apply_interceptors.
  cbn [interceptors in_flight current_tick message_counter rng_seed].
  destruct (interceptors t) as [|d ds] eqn:Hi.
  { simpl. split_and!; [done..|]. eexists. split; [done|].
    intros m ->%list_elem_of_singleton. split_and!; [done..|]. by left. }
  set (ctx := mkInterceptContext _ _ _).
  pose proof (pipeline_obeys data from to ctx (d :: ds) [data] Hds
    ltac:(by intros b ->%list_elem_of_singleton)) as Hp.
  destruct (pipeline (d :: ds) from to ctx [data]) as [[ds2 p2] f2].
  destruct Hp as (Hds' & Hp2 & Hf). simpl. split; [done|]. split; [done|].
  eexists. split; [done|]. intros m (a & Hm & [Ha|(x & -> & Hx)%list_elem_of_fmap]%elem_of_app)%list_elem_of_bind.
  - eapply enqueue_ok; [right; by apply Hf|done].
  - eapply enqueue_ok; [left; exists x; split; [done|by apply Hp2]|done].
Qed.

Lemma broadcast_obeys `{Bincode WireMessage} from msg all : ∀ t,
  Forall (obeys D) (interceptors t) →
  let t' := transport_broadcast t from msg all in
  Forall (obeys D) (interceptors t') ∧ current_tick t' = current_tick t ∧
  ∃ l, in_flight t' = in_flight t ++ l ∧
    ∀ m, m ∈ l → ∃ to, to ∈ all ∧ to ≠ from ∧
      queued_ok (current_tick t) to (bincode_serialize msg) m.
Proof.
  unfold transport_broadcast. induction all as [|to all IH]; intros t Hds; simpl.
  { split_and!; [done..|]. exists []. rewrite app_nil_r. split; [done|].
    by intros m ?%elem_of_nil. }
  case_bool_decide as Hto; simpl.
  - destruct (IH t Hds) as (? & ? & l & Hl & Hm). split_and!; [done..|]. exists l.
    split; [done|]. intros m (k & ? & ?)%Hm. exists k. split; [by right|done].
  - destruct (send_bytes_obeys t from to (bincode_serialize msg) Hds) as (H1 & Ht1 & l1 & Hl1 & Hm1).
    destruct (IH _ H1) as (H2 & Ht2 & l2 & Hl2 & Hm2).
    split_and!; [done|congruence|]. exists (l1 ++ l2). rewrite Hl2, Hl1, app_assoc.
    split; [done|]. intros m [?|Hm]%elem_of_app.
    + exists to. split_and!; [by left|done|auto].
    + destruct (Hm2 m Hm) as (k & ? & ? & ?). exists k. rewrite <- Ht1.
      split_and!; [by right|done..].
Qed.
End Pipeline.
