(* ===== verification/Cluster.v ===== *)
(** The mock cluster ([dstate-integration/src/cluster.rs]): engines on named nodes, the
    transport between them, scheduled sends, change-feed flushes and a shared clock that
    advances tick by tick.

    The nodes are a [BTreeMap]; the theorems hold whatever the order of its keys, which
    is the order of [hm_iter]. *)
From stdpp Require Import prelude gmap fin_maps strings pretty.
From S2P Require Import Prelude Node Clock Types ViewMap ShardCore SyncLogic ChangeFeed.
From S2P Require Import Versioning Lifecycle Diagnostics Engine Traits Interceptor Transport.

(** [ScheduledAction]. *)
Record ScheduledAction : Type := mkScheduled {
  sc_message : SyncMessage;
  sc_deliver_at_tick : Z
}.

(** [MockNode<S, V>]. *)
Record MockNode (S V M : Type) : Type := mkMockNode {
  mn_engine : DistributedStateEngine S V M;
  scheduled : list ScheduledAction;
  feed_flush_counter : Z;
  feed_flush_interval : Z
}.
Arguments mkMockNode {S V M}.
Arguments mn_engine {S V M}.
Arguments scheduled {S V M}.
Arguments feed_flush_counter {S V M}.
Arguments feed_flush_interval {S V M}.

(** [MockCluster<S, V>]. *)
Record MockCluster (S V M : Type) : Type := mkCluster {
  mc_nodes : gmap NodeId (MockNode S V M);
  mc_transport : MockTransport;
  mc_clock : TestClock;
  mc_tick_duration : Duration;
  mc_current_tick : Z;
  mc_corrupted_count : Z
}.
Arguments mkCluster {S V M}.
Arguments mc_nodes {S V M}.
Arguments mc_transport {S V M}.
Arguments mc_clock {S V M}.
Arguments mc_tick_duration {S V M}.
Arguments mc_current_tick {S V M}.
Arguments mc_corrupted_count {S V M}.

(** [u64::div_ceil]. *)
Definition div_ceil (a b : Z) : Z := (a + b - 1) / b.

Section Cluster.
Context `{HashIter} {S V M : Type} `{!ViewMapOps V M} `{!Bincode WireMessage}.
Local Abbreviation cluster := (MockCluster S V M).
Local Abbreviation node := (MockNode S V M).
Local Abbreviation engine := (DistributedStateEngine S V M).
Implicit Types (c : cluster) (nd : node).

(** Field updates. *)
Definition set_nodes c (nodes : gmap NodeId node) : cluster :=
  mkCluster nodes (mc_transport c) (mc_clock c) (mc_tick_duration c) (mc_current_tick c)
    (mc_corrupted_count c).
Definition set_transport c (t : MockTransport) : cluster :=
  mkCluster (mc_nodes c) t (mc_clock c) (mc_tick_duration c) (mc_current_tick c)
    (mc_corrupted_count c).
Definition set_node c (id : NodeId) nd : cluster := set_nodes c (<[id := nd]> (mc_nodes c)).
Definition set_mn_engine nd (e : engine) : node :=
  mkMockNode e (scheduled nd) (feed_flush_counter nd) (feed_flush_interval nd).

(** [MockCluster::new]. *)
Definition cluster_new (clock : TestClock) (tick_duration : Duration) (seed : Z) : cluster :=
  mkCluster ∅ (transport_new seed) clock tick_duration 0 0.

Definition all_node_ids c : list NodeId := (hm_iter (mc_nodes c)).*1.
Definition node_count c : nat := size (mc_nodes c).

(** [self.tick_duration.as_millis().max(1) as u64]. *)
Definition tick_ms c : Z := as_u64 (Z.max (as_millis (mc_tick_duration c)) 1).

(** *** [route_actions] *)
Definition delay_in_ticks c (delay : Duration) : Z :=
  let delay_ms := as_u64 (as_millis delay) in
  if delay_ms =? 0 then 0 else Z.max (div_ceil delay_ms (tick_ms c)) 1.

Definition route_one (all_nodes : list NodeId) (from : NodeId) c (action : EngineAction) : cluster :=
  match action with
  | BroadcastSync msg =>
      set_transport c (transport_broadcast (mc_transport c) from (WireSync msg) all_nodes)
  | SendSync target message =>
      set_transport c (transport_send (mc_transport c) from target (WireSync message))
  | ScheduleDelayed delay message =>
      match mc_nodes c !! from with
      | Some nd =>
          set_node c from
            (mkMockNode (mn_engine nd)
               (scheduled nd ++
                  [mkScheduled message (u64_add (mc_current_tick c) (delay_in_ticks c delay))])
               (feed_flush_counter nd) (feed_flush_interval nd))
      | None => c
      end
  end.

Definition cluster_route_actions c (from : NodeId) (actions : list EngineAction) : cluster :=
  foldl (route_one (all_node_ids c) from) c actions.

(** The loops that route collected actions. *)
Definition route_all c (l : list (NodeId * list EngineAction)) : cluster :=
  foldl (λ c p, cluster_route_actions c p.1 p.2) c l.

(** *** [add_node] *)

(** Announces [new_id] to the nodes [ids]; collects the non-empty actions. *)
Fixpoint announce_to_existing c (new_id : NodeId) (default_view : V) (ids : list NodeId) :
    outcome (cluster * list (NodeId * list EngineAction)) :=
  match ids with
  | [] => Done (c, [])
  | existing_id :: ids =>
      nd ← expect (mc_nodes c !! existing_id) "called `Option::unwrap()` on a `None` value";
      '(e, actions) ← engine_on_node_joined (mn_engine nd) new_id default_view (mc_clock c);
      let c := set_node c existing_id (set_mn_engine nd e) in
      '(c, rest) ← announce_to_existing c new_id default_view ids;
      Done (c, match actions with [] => rest | _ => (existing_id, actions) :: rest end)
  end.

(** Announces the existing nodes to the new engine. *)
Fixpoint announce_existing (clk : TestClock) (e : engine) (default_view : V) (ids : list NodeId) :
    outcome (engine * list (list EngineAction)) :=
  match ids with
  | [] => Done (e, [])
  | existing_id :: ids =>
      '(e, actions) ← engine_on_node_joined e existing_id default_view clk;
      '(e, rest) ← announce_existing clk e default_view ids;
      Done (e, match actions with [] => rest | _ => actions :: rest end)
  end.

Definition feed_interval c (e : engine) : Z :=
  let batch_ms := as_u64 (as_millis (batch_interval (change_feed_config (engine_sync_strategy e)))) in
  Z.max (div_ceil batch_ms (tick_ms c)) 1.

Definition add_node c (e : engine) (default_view : V) : outcome cluster :=
  let new_id := engine_node_id e in
  if bool_decide (is_Some (mc_nodes c !! new_id))
  then Panicked "node already exists in cluster"
  else
    let existing_ids := all_node_ids c in
    '(c, all_actions) ← announce_to_existing c new_id default_view existing_ids;
    let c := route_all c all_actions in
    let interval := feed_interval c e in
    '(e, new_node_actions) ← announce_existing (mc_clock c) e default_view existing_ids;
    let c := set_node c new_id (mkMockNode e [] 0 interval) in
    Done (foldl (λ c actions, cluster_route_actions c new_id actions) c new_node_actions).

(** *** [remove_node] and [remove_node_hard] *)
Definition all_on_node_left (nodes : gmap NodeId node) (id : NodeId) : gmap NodeId node :=
  (λ nd, set_mn_engine nd (engine_on_node_left (mn_engine nd) id)) <$> nodes.

Definition remove_node c (id : NodeId) : cluster :=
  set_nodes c (all_on_node_left (delete id (mc_nodes c)) id).

Definition remove_node_hard c (id : NodeId) : cluster :=
  let c := set_transport c (drop_in_flight_for (mc_transport c) id) in
  set_nodes c (all_on_node_left (delete id (mc_nodes c)) id).

(** *** [tick] *)

(** Phase 1: handing over one delivered message. *)
Fixpoint deliver_messages c (msgs : list DeliveredMessage) :
    outcome (cluster * list (NodeId * list EngineAction)) :=
  match msgs with
  | [] => Done (c, [])
  | msg :: msgs =>
      match mc_nodes c !! dm_to msg with
      | Some nd =>
          '(e, actions) ← handle_inbound (mn_engine nd) (dm_message msg) (mc_clock c);
          let c := set_node c (dm_to msg) (set_mn_engine nd e) in
          '(c, rest) ← deliver_messages c msgs;
          Done (c, match actions with [] => rest | _ => (dm_to msg, actions) :: rest end)
      | None => deliver_messages c msgs
      end
  end.

Definition deliver_phase c : outcome cluster :=
  let '(t, delivery) := deliver_due (mc_transport c) in
  let c := mkCluster (mc_nodes c) t (mc_clock c) (mc_tick_duration c) (mc_current_tick c)
             (u64_add (mc_corrupted_count c) (Z.of_nat (length (corrupted delivery)))) in
  '(c, pending_actions) ← deliver_messages c (delivered delivery);
  Done (route_all c pending_actions).

(** Phase 2: the scheduled actions of one node. *)
Definition timer_one c (id : NodeId) : cluster :=
  match mc_nodes c !! id with
  | Some nd =>
      let due := filter (λ a, sc_deliver_at_tick a ≤ mc_current_tick c) (scheduled nd) in
      let remaining := filter (λ a, ¬ sc_deliver_at_tick a ≤ mc_current_tick c) (scheduled nd) in
      let c := set_node c id (mkMockNode (mn_engine nd) remaining (feed_flush_counter nd)
                                (feed_flush_interval nd)) in
      foldl (λ c a, set_transport c
                      (transport_broadcast (mc_transport c) id (WireSync (sc_message a))
                         (all_node_ids c))) c due
  | None => c
  end.

(** Phase 3: the change feed of one node. *)
Definition flush_one c (id : NodeId) : cluster :=
  match mc_nodes c !! id with
  | Some nd =>
      if (0 <? Z.of_nat (pending_change_feed_count (mn_engine nd))) then
        let counter := u64_add (feed_flush_counter nd) 1 in
        if feed_flush_interval nd <=? counter then
          let '(e, batch) := flush_change_feed (mn_engine nd) in
          let c := set_node c id (mkMockNode e (scheduled nd) 0 (feed_flush_interval nd)) in
          match batch with
          | Some feed =>
              set_transport c
                (transport_broadcast (mc_transport c) id (WireFeed feed) (all_node_ids c))
          | None => c
          end
        else set_node c id (mkMockNode (mn_engine nd) (scheduled nd) counter (feed_flush_interval nd))
      else set_node c id (mkMockNode (mn_engine nd) (scheduled nd) 0 (feed_flush_interval nd))
  | None => c
  end.

(** Phase 4. *)
Definition advance_phase c : cluster :=
  mkCluster (mc_nodes c) (advance_tick (mc_transport c)) (advance (mc_clock c) (mc_tick_duration c))
    (mc_tick_duration c) (u64_add (mc_current_tick c) 1) (mc_corrupted_count c).

Definition tick c : outcome cluster :=
  c ← deliver_phase c;
  let node_ids := all_node_ids c in
  let c := foldl timer_one c node_ids in
  let c := foldl flush_one c node_ids in
  Done (advance_phase c).

Fixpoint tick_n c (n : nat) : outcome cluster :=
  match n with
  | O => Done c
  | Datatypes.S n => c ← tick c; tick_n c n
  end.

(** *** [settle] *)
Definition is_settled c : bool :=
  if (0 <? Z.of_nat (in_flight_count (mc_transport c))) then false
  else
    forallb (λ p : NodeId * node,
      bool_decide (scheduled p.2 = []) &&
      negb (0 <? Z.of_nat (pending_change_feed_count (mn_engine p.2)))) (hm_iter (mc_nodes c)).

(** [settle_with_limit]: the cluster and the number of ticks; the limit the code
    asserts bounds the loop. *)
Fixpoint settle_with_limit c (max_ticks : nat) : outcome (cluster * nat) :=
  if is_settled c then Done (c, 0%nat)
  else
    match max_ticks with
    | O => Panicked "settle exceeded the tick limit"
    | Datatypes.S max_ticks =>
        c ← tick c;
        '(c, ticks) ← settle_with_limit c max_ticks;
        Done (c, Datatypes.S ticks)
    end.

Definition settle c : outcome (cluster * nat) := settle_with_limit c 1000.

(** *** Access *)
Definition cluster_mutate c (id : NodeId) (mutate_fn : S → S) (project_fn : S → V)
    (urgency : SyncUrgency) : outcome cluster :=
  nd ← expect (mc_nodes c !! id) "node not in cluster";
  let '(e, r) := mutate (mn_engine nd) mutate_fn project_fn urgency (mc_clock c) in
  Done (cluster_route_actions (set_node c id (set_mn_engine nd e)) id (mr_actions r)).

Definition cluster_engine c (id : NodeId) : outcome engine :=
  nd ← expect (mc_nodes c !! id) "no entry found for key"; Done (mn_engine nd).

Definition cluster_in_flight_count c : nat := in_flight_count (mc_transport c).
End Cluster.

(** [MockCluster::<TestState, TestState>::with_test_state]: [n] nodes named ["0"],
    ["1"], ... *)
Section WithTestState.
Context `{HashIter} {M : Type} `{!ViewMapOps TestState M} `{!Bincode WireMessage}
  `{!Bincode TestState}.

Definition test_state_engine (clock : TestClock) (config : StateConfig) (i : nat) :
    DistributedStateEngine TestState TestState M :=
  engine_new (ds_name (S := TestState)) (mkNodeId (pretty i)) TestState_default (λ s, s) config
    (ds_wire_version (S := TestState)) clock bincode_serialize
    (versioned_deserialize (ds_wire_version (S := TestState))) None.

Fixpoint add_test_nodes (c : MockCluster TestState TestState M) (config : StateConfig)
    (ids : list nat) : outcome (MockCluster TestState TestState M) :=
  match ids with
  | [] => Done c
  | i :: ids =>
      c ← add_node c (test_state_engine (mc_clock c) config i) TestState_default;
      add_test_nodes c config ids
  end.

Definition with_test_state (n : nat) (config : StateConfig) :
    outcome (MockCluster TestState TestState M) :=
  add_test_nodes (cluster_new (with_base_unix_ms 0 1000000) (from_millis 100) 42) config (seq 0 n).
End WithTestState.
