(* ===== verification/ClusterProps.v ===== *)
(** The mock cluster as an instance of the abstract network: every operation of a
    cluster whose interceptors forge nothing is a sequence of network steps, so what
    holds of the network holds of the cluster; and no operation of the harness panics
    inside an engine. *)
From stdpp Require Import prelude gmap fin_maps strings relations.
From S2P Require Import Prelude Node Clock Types ViewMap ShardCore ShardProps SyncLogic.
From S2P Require Import ChangeFeed Versioning Lifecycle Diagnostics Engine EngineProps.
From S2P Require Import Protocol Accounting Network Traits Interceptor Transport Faults.
From S2P Require Import NetworkRuns Cluster.

(** ** What the transport carries *)
Section Honest.
Context `{!Bincode WireMessage}.

(** The transport carries only messages of [l]. *)
Definition transport_ok (l : list WireMessage) (t : MockTransport) : Prop :=
  Forall honest (interceptors t) ∧
  ∀ m, m ∈ in_flight t → ∃ msg, msg ∈ l ∧ if_data m = bincode_serialize msg.

Lemma transport_ok_mono l l' t :
  (∀ m, m ∈ l → m ∈ l') → transport_ok l t → transport_ok l' t.
Proof. intros Hsub [? Hm]. split; [done|]. intros m (msg & ? & ?)%Hm. eauto. Qed.

Lemma send_ok l t from to msg :
  transport_ok l t → msg ∈ l → transport_ok l (send_bytes t from to (bincode_serialize msg)).
Proof.
  intros [Hi Hm] Hin.
  destruct (send_bytes_obeys _ t from to (bincode_serialize msg) Hi) as (Hi' & _ & l' & Hl & Hm').
  split; [done|]. rewrite Hl. intros m [?|Hml]%elem_of_app; [eauto|].
  destruct (Hm' m Hml) as (_ & ? & _). eauto.
Qed.

Lemma broadcast_ok l from msg all t :
  transport_ok l t → msg ∈ l → transport_ok l (transport_broadcast t from msg all).
Proof.
  intros [Hi Hm] Hin.
  destruct (broadcast_obeys _ from msg all t Hi) as (Hi' & _ & l' & Hl & Hm').
  split; [done|]. rewrite Hl. intros m [?|Hml]%elem_of_app; [eauto|].
  destruct (Hm' m Hml) as (k & _ & _ & _ & ? & _). eauto.
Qed.

Lemma deliver_due_ok `{!BincodeLaws WireMessage} l t :
  transport_ok l t →
  transport_ok l (deliver_due t).1 ∧ ∀ m, m ∈ delivered (deliver_due t).2 → dm_message m ∈ l.
Proof.
  intros [Hi Hm]. rewrite deliver_due_eq. simpl. split.
  - split; [done|]. simpl. intros m [_ ?]%list_elem_of_filter. by apply Hm.
  - intros m (x & [_ Hx]%list_elem_of_filter & Hd)%list_elem_of_omap.
    destruct (Hm x Hx) as (msg & Hin & Hdata). unfold decode_delivered in Hd.
    rewrite Hdata, bincode_roundtrip in Hd. by simplify_eq.
Qed.
End Honest.

(** ** The simulation *)
Section Simulation.
Context `{HashIter} {S V M : Type} `{!ViewMapOps V M} `{!ViewMapLaws V M}.
Context `{!Bincode WireMessage} `{!BincodeLaws WireMessage}.
Context (name : string) (p : S → V) (w : Z)
  (ser : SerializeViewFn V) (de : DeserializeViewFn V) (ap : option (InboundDeltaApplierFn V)).
Local Abbreviation cluster := (MockCluster S V M).
Local Abbreviation network := (Network S V M).
Local Abbreviation step := (net_step (C:=TestClock) name p w ser de ap).
Local Abbreviation grows := (NetworkRuns.grows (C:=TestClock) name p w ser de ap).
Implicit Types (c : cluster) (n : network) (nd : MockNode S V M).

(** The network [n] stands for the cluster [c]. *)
Definition sim c n : Prop :=
  net_nodes n = mn_engine <$> mc_nodes c ∧
  transport_ok (net_messages n) (mc_transport c) ∧
  (∀ id nd, mc_nodes c !! id = Some nd →
     node_good id (mn_engine nd) ∧
     ∀ a, a ∈ scheduled nd → WireSync (sc_message a) ∈ net_messages n).

Lemma sim_transport c n t :
  sim c n → transport_ok (net_messages n) t → sim (set_transport c t) n.
Proof. by intros (? & _ & ?) ?. Qed.

(** Replacing the bookkeeping of a node. *)
Lemma sim_node c n id nd nd' :
  sim c n → mc_nodes c !! id = Some nd → mn_engine nd' = mn_engine nd →
  (∀ a, a ∈ scheduled nd' → WireSync (sc_message a) ∈ net_messages n) →
  sim (set_node c id nd') n.
Proof.
  intros (Hn & Ht & Hs) Hnd He Hsc. split_and!; simpl; [|done|].
  - rewrite fmap_insert, He, Hn. symmetry. apply insert_id. by rewrite lookup_fmap, Hnd.
  - intros k x [[<- <-]|[_ Hk]]%lookup_insert_Some; [|by apply Hs].
    split; [|done]. rewrite He. by apply Hs.
Qed.

(** Replacing the engine of a node by a network step. *)
Lemma sim_engine c n n' id nd e' :
  sim c n → mc_nodes c !! id = Some nd → node_good id e' →
  net_nodes n' = <[id := e']> (net_nodes n) →
  (∀ m, m ∈ net_messages n → m ∈ net_messages n') →
  sim (set_node c id (set_mn_engine nd e')) n'.
Proof.
  intros (Hn & Ht & Hs) Hnd Hg Hn' Hsub. split_and!; simpl.
  - by rewrite fmap_insert, Hn', Hn.
  - by eapply transport_ok_mono.
  - intros k x [[<- <-]|[_ Hk]]%lookup_insert_Some; simpl.
    + split; [done|]. intros a Ha. apply Hsub. by eapply Hs.
    + destruct (Hs k x Hk) as [? Hx]. split; [done|]. auto.
Qed.

Lemma sim_lookup c n id nd :
  sim c n → mc_nodes c !! id = Some nd →
  net_nodes n !! id = Some (mn_engine nd) ∧ node_good id (mn_engine nd).
Proof. intros (Hn & _ & Hs) Hnd. split; [by rewrite Hn, lookup_fmap, Hnd|by apply Hs]. Qed.

(** A call of a node's engine. *)
Lemma sim_call c n id nd op e' acts batch :
  sim c n → mc_nodes c !! id = Some nd → host_call p w ap (mn_engine nd) op →
  run_engine_op (C:=TestClock) (mn_engine nd) op = Done (e', acts, batch) →
  ∃ n', grows n n' ∧ sim (set_node c id (set_mn_engine nd e')) n' ∧
    (∀ m, m ∈ outgoing acts batch → m ∈ net_messages n').
Proof.
  intros Hsim Hnd Hop Hr. destruct (sim_lookup _ _ _ _ Hsim Hnd) as [Hn Hg].
  destruct (grows_call name p w ser de ap n id (mn_engine nd) op e' acts batch)
    as (n' & Hgr & Hn' & Hout); [done..|].
  exists n'. split_and!; [done| |done]. eapply sim_engine; [done..|by eapply node_good_call|done|].
  apply Hgr.
Qed.

(** A delivery to a node's engine. *)
Lemma sim_deliver c n id nd msg clk e' acts :
  sim c n → mc_nodes c !! id = Some nd → msg ∈ net_messages n →
  handle_inbound (C:=TestClock) (mn_engine nd) msg clk = Done (e', acts) →
  ∃ n', grows n n' ∧ sim (set_node c id (set_mn_engine nd e')) n' ∧
    (∀ a, a ∈ acts → WireSync (action_message a) ∈ net_messages n').
Proof.
  intros Hsim Hnd Hmsg Hr. destruct (sim_lookup _ _ _ _ Hsim Hnd) as [Hn Hg].
  destruct (grows_deliver name p w ser de ap n id (mn_engine nd) msg clk e' acts)
    as (n' & Hgr & Hn' & Hout); [done..|].
  assert (run_engine_op (mn_engine nd) (OpInbound msg clk) = Done (e', acts, None)) as Hop
    by (simpl; by rewrite Hr).
  exists n'. split_and!; [done|..].
  - eapply sim_engine; [done..|by eapply node_good_call|done|]. apply Hgr.
  - intros a Ha. apply Hout. apply elem_of_app. left. apply list_elem_of_fmap. eauto.
Qed.

(** *** Routing *)

Definition actions_known n (acts : list EngineAction) : Prop :=
  ∀ a, a ∈ acts → WireSync (action_message a) ∈ net_messages n.

Lemma route_one_sim all from c n act :
  sim c n → WireSync (action_message act) ∈ net_messages n → sim (route_one all from c act) n.
Proof.
  intros Hsim Hm. pose proof Hsim as (_ & Ht & Hs). destruct act as [m|t m|d m]; simpl in *.
  - apply sim_transport; [done|]. by apply broadcast_ok.
  - apply sim_transport; [done|]. by apply send_ok.
  - destruct (mc_nodes c !! from) as [nd|] eqn:Hnd; [|done].
    eapply sim_node; [done..|]. simpl. intros a [Ha|Ha]%elem_of_app.
    + by eapply Hs.
    + by apply list_elem_of_singleton in Ha as ->.
Qed.

Lemma fold_route_sim all from n acts : ∀ c,
  sim c n → actions_known n acts → sim (foldl (route_one all from) c acts) n.
Proof.
  induction acts as [|a acts IH]; intros c Hsim Ha; simpl; [done|].
  apply IH; [|intros ??; apply Ha; by right]. apply route_one_sim; [done|]. apply Ha. by left.
Qed.

Lemma route_all_sim n l : ∀ c,
  sim c n → (∀ id acts, (id, acts) ∈ l → actions_known n acts) → sim (route_all c l) n.
Proof.
  induction l as [|[id acts] l IH]; intros c Hsim Hl; simpl; [done|].
  apply IH; [|intros ???; eapply Hl; by right]. apply fold_route_sim; [done|].
  eapply Hl. by left.
Qed.

Lemma actions_known_mono n n' acts :
  (∀ m, m ∈ net_messages n → m ∈ net_messages n') → actions_known n acts → actions_known n' acts.
Proof. intros Hsub Ha a Hin. apply Hsub. by apply Ha. Qed.

(** *** The phases of a tick *)

Lemma deliver_messages_sim msgs : ∀ c n,
  sim c n → (∀ m, m ∈ msgs → dm_message m ∈ net_messages n) →
  ∃ c' l n', deliver_messages c msgs = Done (c', l) ∧ grows n n' ∧ sim c' n' ∧
    (∀ id acts, (id, acts) ∈ l → actions_known n' acts).
Proof.
  induction msgs as [|msg msgs IH]; intros c n Hsim Hm; simpl.
  { exists c, [], n. split_and!; [done|apply grows_refl|done|]. by intros ?? ?%elem_of_nil. }
  destruct (mc_nodes c !! dm_to msg) as [nd|] eqn:Hnd.
  - destruct (sim_lookup _ _ _ _ Hsim Hnd) as [_ [Hok _]].
    destruct (run_engine_op_done (mn_engine nd) (OpInbound (dm_message msg) (mc_clock c)) Hok)
      as (e' & acts & b & Hr & _). simpl in Hr.
    destruct (handle_inbound _ _ _) as [[e1 a1]|] eqn:Hh; [|done]. simpl.
    destruct (sim_deliver c n (dm_to msg) nd (dm_message msg) (mc_clock c) e1 a1 Hsim Hnd)
      as (n1 & Hg1 & Hsim1 & Ha1); [apply Hm; by left|done|].
    destruct (IH _ n1 Hsim1) as (c' & l & n' & Hd & Hg & Hsim' & Hl).
    { intros m Hin. apply Hg1, Hm. by right. }
    rewrite Hd. simpl. eexists c', _, n'. split_and!; [done|by eapply grows_trans|done|].
    assert (actions_known n' a1) as Ha' by (eapply actions_known_mono; [apply Hg|done]).
    destruct a1 as [|x a1]; [done|]. intros id acts' [Heq|?]%elem_of_cons; [|by eapply Hl].
    by injection Heq as -> ->.
  - apply (IH c n Hsim). intros m Hin. apply Hm. by right.
Qed.

Lemma deliver_phase_sim c n :
  sim c n → ∃ c' n', deliver_phase c = Done c' ∧ grows n n' ∧ sim c' n'.
Proof.
  intros Hsim. pose proof Hsim as (Hn & Ht & Hs). unfold deliver_phase.
  destruct (deliver_due_ok _ _ Ht) as [Ht' Hm]. destruct (deliver_due (mc_transport c)) as [t r].
  simpl in *. set (c1 := mkCluster _ _ _ _ _ _).
  assert (sim c1 n) as Hsim1 by done.
  destruct (deliver_messages_sim (delivered r) c1 n Hsim1 Hm) as (c' & l & n' & -> & Hg & Hsim' & Hl).
  simpl. exists (route_all c' l), n'. split_and!; [done|done|]. by apply route_all_sim.
Qed.

Lemma timer_one_sim c n id : sim c n → sim (timer_one c id) n.
Proof.
  intros Hsim. unfold timer_one. destruct (mc_nodes c !! id) as [nd|] eqn:Hnd; [|done].
  set (c1 := set_node _ _ _).
  destruct (proj2 (proj2 Hsim) id nd Hnd) as [_ Hsc].
  assert (sim c1 n) as Hsim1.
  { eapply sim_node; [done..|]. simpl. intros a [_ Ha]%list_elem_of_filter. auto. }
  assert (∀ l c2, sim c2 n → (∀ a, a ∈ l → WireSync (sc_message a) ∈ net_messages n) →
    sim (foldl (λ c a, set_transport c (transport_broadcast (mc_transport c) id
      (WireSync (sc_message a)) (all_node_ids c))) c2 l) n) as Hfold.
  { induction l as [|a l IH]; intros c2 Hs2 Hl; simpl; [done|].
    apply IH; [|intros ??; apply Hl; by right]. apply sim_transport; [done|].
    apply broadcast_ok; [apply Hs2|]. apply Hl. by left. }
  apply Hfold; [done|]. intros a [_ Ha]%list_elem_of_filter. auto.
Qed.

Lemma flush_one_sim c n id : sim c n → ∃ n', grows n n' ∧ sim (flush_one c id) n'.
Proof.
  intros Hsim. unfold flush_one. destruct (mc_nodes c !! id) as [nd|] eqn:Hnd.
  2: { exists n. split; [apply grows_refl|done]. }
  destruct (proj2 (proj2 Hsim) id nd Hnd) as [_ Hsc].
  destruct (0 <? Z.of_nat _); [destruct (feed_flush_interval nd <=? _)|].
  2, 3: exists n; split; [apply grows_refl|]; by eapply sim_node.
  destruct (flush_change_feed (mn_engine nd)) as [e b] eqn:Hf.
  destruct (sim_call c n id nd OpFlushFeed e [] b Hsim Hnd I) as (n' & Hg & Hsim' & Hout).
  { simpl. by rewrite Hf. }
  exists n'. split; [done|].
  set (c1 := set_node c id (mkMockNode e (scheduled nd) 0 (feed_flush_interval nd))).
  assert (sim c1 n') as Hsim1.
  { replace c1 with (set_node (set_node c id (set_mn_engine nd e)) id
      (mkMockNode e (scheduled nd) 0 (feed_flush_interval nd))).
    - eapply sim_node; [done|apply lookup_insert_eq|done|]. simpl. intros a Ha.
      apply Hg. auto.
    - unfold c1, set_node, set_nodes. simpl. by rewrite insert_insert_eq. }
  destruct b as [feed|]; [|done]. apply sim_transport; [done|].
  apply broadcast_ok; [apply Hsim1|]. apply Hout. simpl. by left.
Qed.

Lemma fold_timer_sim n l : ∀ c, sim c n → sim (foldl timer_one c l) n.
Proof. induction l as [|id l IH]; intros c Hsim; [done|]. apply IH. by apply timer_one_sim. Qed.

Lemma fold_flush_sim l : ∀ c n, sim c n → ∃ n', grows n n' ∧ sim (foldl flush_one c l) n'.
Proof.
  induction l as [|id l IH]; intros c n Hsim; simpl; [exists n; split; [apply grows_refl|done]|].
  destruct (flush_one_sim c n id Hsim) as (n1 & Hg1 & Hsim1).
  destruct (IH _ n1 Hsim1) as (n2 & Hg2 & Hsim2). exists n2.
  split; [by eapply grows_trans|done].
Qed.

Lemma tick_sim c n : sim c n → ∃ c' n', tick c = Done c' ∧ grows n n' ∧ sim c' n'.
Proof.
  intros Hsim. unfold tick. destruct (deliver_phase_sim c n Hsim) as (c1 & n1 & -> & Hg1 & Hsim1).
  simpl. destruct (fold_flush_sim (all_node_ids c1) _ n1
    (fold_timer_sim n1 (all_node_ids c1) c1 Hsim1)) as (n2 & Hg2 & Hsim2).
  eexists _, n2. split_and!; [done|by eapply grows_trans|]. exact Hsim2.
Qed.

(** *** Mutations and membership *)

Lemma mutate_sim c n id nd f u :
  sim c n → mc_nodes c !! id = Some nd → age (generation_of (mn_engine nd)) < u64_max →
  ∃ c' n', cluster_mutate c id f p u = Done c' ∧ grows n n' ∧ sim c' n'.
Proof.
  intros Hsim Hnd Hage. unfold cluster_mutate. rewrite Hnd. simpl.
  destruct (mutate (mn_engine nd) f p u (mc_clock c)) as [e r] eqn:Hm.
  destruct (sim_call c n id nd (OpMutate f p u (mc_clock c)) e (mr_actions r) None Hsim Hnd)
    as (n' & Hg & Hsim' & Hout); [done|simpl; by rewrite Hm|].
  eexists _, n'. split_and!; [done|done|]. apply fold_route_sim; [done|].
  intros a Ha. apply Hout. apply elem_of_app. left. apply list_elem_of_fmap. eauto.
Qed.

(** Every node, one after the other, is told that [k] left. *)
Lemma all_left_sim c n k :
  sim c n → ∃ n', grows n n' ∧ sim (set_nodes c (all_on_node_left (mc_nodes c) k)) n'.
Proof.
  intros Hsim. pose proof Hsim as (Hn & Ht & Hs).
  assert (∀ id e, net_nodes n !! id = Some e → node_good id e) as Hgood.
  { intros id e. rewrite Hn, lookup_fmap. destruct (mc_nodes c !! id) as [nd|] eqn:Hid; [|done].
    intros [= <-]. by apply Hs. }
  destruct (grows_all_leave name p w ser de ap n k Hgood) as (n' & Hg & Hn').
  pose proof Hg as (_ & Hsub & _). exists n'. split; [done|]. split_and!; simpl.
  - rewrite Hn', Hn. unfold all_on_node_left. rewrite <- !map_fmap_compose. by apply map_fmap_ext.
  - by eapply transport_ok_mono.
  - intros id x. unfold all_on_node_left. rewrite lookup_fmap.
    destruct (mc_nodes c !! id) as [nd|] eqn:Hid; [|done]. intros [= <-].
    destruct (Hs id nd Hid) as [Hg' Hsc]. split; [|by eauto].
    by apply (node_good_call (C:=TestClock) id (mn_engine nd) (OpLeave k) _ [] None).
Qed.

(** Stopping a node. *)
Lemma stop_sim c n k :
  sim c n → ∃ n', rtc step n n' ∧ sim (set_nodes c (delete k (mc_nodes c))) n' ∧
    net_history n' = net_history n ∧ net_messages n' = net_messages n.
Proof.
  intros (Hn & Ht & Hs). eexists. split_and!; [apply rtc_once, (net_crash _ _ _ _ _ _ _ k)|..];
    [|done..]. split_and!; simpl; [|done|].
  - by rewrite Hn, fmap_delete.
  - intros id nd [_ Hid]%lookup_delete_Some. by apply Hs.
Qed.

(** Announcing a node to the others. *)
Lemma set_node_twice c id nd nd' : set_node (set_node c id nd) id nd' = set_node c id nd'.
Proof. unfold set_node, set_nodes. simpl. by rewrite insert_insert_eq. Qed.

Lemma outgoing_actions n acts :
  (∀ m, m ∈ outgoing acts None → m ∈ net_messages n) → actions_known n acts.
Proof.
  intros Hm a Ha. apply Hm, elem_of_app. left. apply list_elem_of_fmap. eauto.
Qed.

(** A join, as a call of the node's engine. *)
Lemma join_sim c n id nd k v clk :
  sim c n → mc_nodes c !! id = Some nd →
  ∃ e' acts n', engine_on_node_joined (C:=TestClock) (mn_engine nd) k v clk = Done (e', acts) ∧
    grows n n' ∧ sim (set_node c id (set_mn_engine nd e')) n' ∧ actions_known n' acts.
Proof.
  intros Hsim Hnd. destruct (sim_lookup _ _ _ _ Hsim Hnd) as [_ [Hok _]].
  destruct (run_engine_op_done (mn_engine nd) (OpJoin k v clk) Hok) as (e' & acts & b & Hr & _).
  pose proof Hr as Hr'. simpl in Hr.
  destruct (engine_on_node_joined _ _ _ _) as [[e1 a1]|]; [|done].
  cbn in Hr. injection Hr as -> -> <-.
  destruct (sim_call c n id nd (OpJoin k v clk) e' acts None Hsim Hnd I Hr') as (n' & Hg & Hs & Hout).
  exists e', acts, n'. split_and!; [done..|]. by apply outgoing_actions.
Qed.

Lemma announce_to_existing_sim k v ids : ∀ c n,
  sim c n → (∀ id, id ∈ ids → is_Some (mc_nodes c !! id)) →
  ∃ c' l n', announce_to_existing c k v ids = Done (c', l) ∧ grows n n' ∧ sim c' n' ∧
    (∀ id acts, (id, acts) ∈ l → actions_known n' acts).
Proof.
  induction ids as [|id ids IH]; intros c n Hsim Hids; simpl.
  { exists c, [], n. split_and!; [done|apply grows_refl|done|]. by intros ?? ?%elem_of_nil. }
  destruct (Hids id ltac:(by left)) as [nd Hnd]. rewrite Hnd. simpl.
  destruct (join_sim c n id nd k v (mc_clock c) Hsim Hnd) as (e1 & a1 & n1 & -> & Hg1 & Hs1 & Ha1).
  simpl. destruct (IH _ n1 Hs1) as (c' & l & n' & Hd & Hg & Hs & Hl).
  { intros j Hj. simpl. apply lookup_insert_is_Some'. right. apply Hids. by right. }
  rewrite Hd. simpl. eexists c', _, n'. split_and!; [done|by eapply grows_trans|done|].
  assert (actions_known n' a1) as Ha' by (eapply actions_known_mono; [apply Hg|done]).
  destruct a1 as [|x a1]; [done|]. intros j acts [Heq|?]%elem_of_cons; [|by eapply Hl].
  by injection Heq as -> ->.
Qed.

(** Announcing the others to a node. *)
Lemma announce_existing_sim id v clk ids : ∀ c n nd,
  sim c n → mc_nodes c !! id = Some nd →
  ∃ e' l n', announce_existing clk (mn_engine nd) v ids = Done (e', l) ∧ grows n n' ∧
    sim (set_node c id (set_mn_engine nd e')) n' ∧ (∀ acts, acts ∈ l → actions_known n' acts).
Proof.
  induction ids as [|k ids IH]; intros c n nd Hsim Hnd; simpl.
  { exists (mn_engine nd), [], n. split_and!; [done|apply grows_refl| |by intros ? ?%elem_of_nil].
    eapply sim_node; [done..|]. intros a Ha. by eapply Hsim. }
  destruct (join_sim c n id nd k v clk Hsim Hnd) as (e1 & a1 & n1 & -> & Hg1 & Hs1 & Ha1).
  destruct (IH _ n1 (set_mn_engine nd e1) Hs1) as (e' & l & n' & Hd & Hg & Hs & Hl);
    [apply lookup_insert_eq|].
  simpl in *. rewrite Hd. rewrite set_node_twice in Hs. simpl.
  eexists e', _, n'. split_and!; [done|by eapply grows_trans|done|].
  assert (actions_known n' a1) as Ha' by (eapply actions_known_mono; [apply Hg|done]).
  destruct a1; [done|]. by intros acts [->|?]%elem_of_cons; [|apply Hl].
Qed.

(** *** Histories of a cluster *)

Lemma fold_routes_sim k n l : ∀ c,
  sim c n → (∀ acts, acts ∈ l → actions_known n acts) →
  sim (foldl (λ c acts, cluster_route_actions c k acts) c l) n.
Proof.
  induction l as [|acts l IH]; intros c Hsim Hl; simpl; [done|].
  apply IH; [|intros ??; apply Hl; by right]. apply fold_route_sim; [done|]. apply Hl. by left.
Qed.

(** The network [n], reachable, stands for [c]; [used] has the latest incarnation under
    every name that was ever used. *)
Definition tracked (used : gmap NodeId Z) c n : Prop :=
  rtc step net_init n ∧ sim c n ∧ names_used used n.

Lemma tracked_grows used c n c' n' :
  tracked used c n → grows n n' → sim c' n' → tracked used c' n'.
Proof.
  intros (Hr & _ & Hu) Hg Hs. split_and!; [|done|by eapply names_used_grows].
  etrans; [done|apply Hg].
Qed.

Lemma tracked_same used c n c' : tracked used c n → sim c' n → tracked used c' n.
Proof. intros Ht Hs. eapply tracked_grows; [done|apply grows_refl|done]. Qed.

Lemma cluster_new_tracked clock d seed : tracked ∅ (cluster_new clock d seed) net_init.
Proof.
  split_and!; [done| |by apply names_used_init]. split_and!; simpl.
  - by rewrite fmap_empty.
  - split; [by constructor|]. by intros m ?%elem_of_nil.
  - intros id nd. by rewrite lookup_empty.
Qed.

(** A name may be used again once its node is gone, with a later incarnation. *)
Definition restartable (used : gmap NodeId Z) c (id : NodeId) (clk : TestClock) : Prop :=
  mc_nodes c !! id = None ∧ later_start used id clk.

(** Starting a node that is not running. *)
Lemma start_tracked used c n id x cfg clk interval :
  tracked used c n → restartable used c id clk →
  let e := engine_new (C:=TestClock) name id x p cfg w clk ser de ap in
  ∃ n', step n n' ∧ net_messages n' = net_messages n ∧
    tracked (<[id := as_u64 (unix_ms clk)]> used) (set_node c id (mkMockNode e [] 0 interval)) n'.
Proof.
  intros (Hr & (Hn & Htr & Hnd) & Hu) (Hid & Hlater) e.
  destruct (engine_new_ok (M:=M) name id x p cfg w clk ser de ap) as [Hok _]. fold e in Hok.
  destruct (names_used_start name p w ser de ap used n id x cfg clk Hu Hlater) as [Hstep Hu'].
  eexists. split_and!; [exact Hstep|done|]. split_and!; [by eapply rtc_r| |done].
  split_and!; simpl; [by rewrite fmap_insert, Hn|done|].
  intros k nd [[<- <-]|[_ Hk]]%lookup_insert_Some; [|by apply Hnd].
  split; [done|]. by intros a ?%elem_of_nil.
Qed.

(** Adding a node. *)
Lemma add_node_tracked used c n id x cfg clk v :
  tracked used c n → restartable used c id clk →
  ∃ c' n', add_node c (engine_new (C:=TestClock) name id x p cfg w clk ser de ap) v = Done c' ∧
    tracked (<[id := as_u64 (unix_ms clk)]> used) c' n'.
Proof.
  intros Ht Hre. pose proof Hre as (Hid & Hclk). set (e := engine_new _ _ _ _ _ _ _ _ _ _).
  pose proof Ht as (_ & Hsim & _). unfold add_node. change (engine_node_id e) with id.
  rewrite bool_decide_eq_false_2 by (rewrite Hid; by intros [? ?]).
  destruct (announce_to_existing_sim id v (all_node_ids c) c n Hsim) as (c1 & l & n1 & Hd & Hg1 & Hs1 & Hl).
  { intros k (y & -> & Hy)%list_elem_of_fmap. destruct y. apply elem_of_hm_iter in Hy. eauto. }
  rewrite Hd. cbn [outcome_bind mbind]. set (c2 := route_all c1 l).
  assert (sim c2 n1) as Hs2 by (by apply route_all_sim).
  assert (tracked used c2 n1) as Ht2 by (by eapply tracked_grows).
  assert (mc_nodes c2 !! id = None) as Hid2.
  { pose proof (proj1 (proj2 (proj2 Hg1)) id) as Hdom. unfold runs_as in Hdom.
    destruct Hs2 as [Hn2 _], Hsim as [Hn _]. rewrite Hn2, Hn, !lookup_fmap, Hid in Hdom.
    by destruct (mc_nodes c2 !! id). }
  destruct (start_tracked used c2 n1 id x cfg clk (feed_interval c2 e) Ht2 (conj Hid2 Hclk))
    as (n3 & _ & _ & Ht3). fold e in Ht3.
  set (c3 := set_node c2 id (mkMockNode e [] 0 (feed_interval c2 e))) in *.
  destruct (announce_existing_sim id v (mc_clock c2) (all_node_ids c) c3 n3
    (mkMockNode e [] 0 (feed_interval c2 e))) as (e' & l' & n' & He' & Hg' & Hs' & Hl');
    [apply Ht3|apply lookup_insert_eq|].
  simpl in He'. rewrite He'. eexists _, n'. split; [done|].
  eapply tracked_grows; [exact Ht3|exact Hg'|]. apply fold_routes_sim; [|done].
  unfold c3 in Hs'. by rewrite set_node_twice in Hs'.
Qed.

(** What a test does with a cluster: it adds nodes, under new names or under the name of
    a node that is gone and was started earlier, mutates them, lets time pass, removes
    them, and installs interceptors that forge nothing.  Two things the harness offers are
    left out: [CorruptBytes], as what it flips may decode to a message nobody sent
    ([builtin_tame] has all the other interceptors), and changing the engine of a node
    behind the cluster's back. *)
Inductive cluster_reach : gmap NodeId Z → cluster → Prop :=
| reach_new clock d seed : cluster_reach ∅ (cluster_new clock d seed)
| reach_add used c id x cfg clk v c' :
    cluster_reach used c → restartable used c id clk →
    add_node c (engine_new (C:=TestClock) name id x p cfg w clk ser de ap) v = Done c' →
    cluster_reach (<[id := as_u64 (unix_ms clk)]> used) c'
| reach_mutate used c id nd f u c' :
    cluster_reach used c → mc_nodes c !! id = Some nd →
    age (generation_of (mn_engine nd)) < u64_max →
    cluster_mutate c id f p u = Done c' → cluster_reach used c'
| reach_tick used c c' : cluster_reach used c → tick c = Done c' → cluster_reach used c'
| reach_remove used c id : cluster_reach used c → cluster_reach used (remove_node c id)
| reach_remove_hard used c id : cluster_reach used c → cluster_reach used (remove_node_hard c id)
| reach_interceptor used c d :
    cluster_reach used c → honest d →
    cluster_reach used (set_transport c (add_interceptor (mc_transport c) d))
| reach_clear used c :
    cluster_reach used c → cluster_reach used (set_transport c (clear_interceptors (mc_transport c))).

Lemma remove_tracked used c n id :
  tracked used c n → ∃ n', tracked used (remove_node c id) n'.
Proof.
  intros (Hr & Hsim & Hu). destruct (stop_sim c n id Hsim) as (n1 & Hr1 & Hs1 & Hh1 & _).
  assert (tracked used (set_nodes c (delete id (mc_nodes c))) n1) as Ht1.
  { split_and!; [by etrans|done|]. eapply names_used_stop; [done..|]. intros k e.
    destruct Hs1 as [-> _], Hsim as [-> _]. rewrite !lookup_fmap. simpl.
    rewrite lookup_delete. by case_decide. }
  destruct (all_left_sim _ _ id Hs1) as (n' & Hg & Hs'). exists n'. by eapply tracked_grows.
Qed.

Lemma reach_tracked used c : cluster_reach used c → ∃ n, tracked used c n.
Proof.
  induction 1 as [clock d seed|used c id x cfg clk v c' _ [n Ht] Hre Ha
    |used c id nd f u c' _ [n Ht] Hnd Hage Hm|used c c' _ [n Ht] Htick
    |used c id _ [n Ht]|used c id _ [n Ht]|used c d _ [n Ht] Hd|used c _ [n Ht]].
  - exists net_init. apply cluster_new_tracked.
  - destruct (add_node_tracked used c n id x cfg clk v Ht Hre) as (c1 & n1 & Ha1 & Ht1).
    exists n1. congruence.
  - destruct (mutate_sim c n id nd f u (proj1 (proj2 Ht)) Hnd Hage) as (c1 & n1 & Hm1 & Hg & Hs).
    exists n1. assert (c' = c1) as -> by congruence. by eapply tracked_grows.
  - destruct (tick_sim c n (proj1 (proj2 Ht))) as (c1 & n1 & Hm1 & Hg & Hs).
    exists n1. assert (c' = c1) as -> by congruence. by eapply tracked_grows.
  - by eapply remove_tracked.
  - apply (remove_tracked used (set_transport c (drop_in_flight_for (mc_transport c) id)) n id).
    eapply tracked_same; [done|]. destruct Ht as (_ & Hsim & _). apply sim_transport; [done|].
    destruct Hsim as (_ & [Hi Hm] & _). split; [done|]. simpl.
    intros m [_ ?]%list_elem_of_filter. by apply Hm.
  - exists n. eapply tracked_same; [done|]. destruct Ht as (_ & Hsim & _).
    apply sim_transport; [done|]. destruct Hsim as (_ & [Hi Hm] & _). split; [|done]. simpl.
    apply Forall_app_2; [done|]. by constructor.
  - exists n. eapply tracked_same; [done|]. destruct Ht as (_ & Hsim & _).
    apply sim_transport; [done|]. destruct Hsim as (_ & [Hi Hm] & _). split; [|done].
    by constructor.
Qed.
End Simulation.

(** [C11] The mock cluster is one of the schedules of the abstract network.  Whatever a test
    does through the cluster (nodes added, removed, removed hard and restarted, mutations,
    ticks) with interceptors that forge nothing (they drop, delay, duplicate, partition, as
    all the built-in ones but [CorruptBytes] do), the engines of the cluster are those of a
    network state reachable by single calls and deliveries, and every message in flight is
    the encoding of one that network handed out. *)
Theorem cluster_refines_network `{HashIter} {S V M} `{!ViewMapOps V M} `{!ViewMapLaws V M}
    `{!Bincode WireMessage} `{!BincodeLaws WireMessage}
    (name : string) (p : S → V) (w : Z) (ser : SerializeViewFn V) (de : DeserializeViewFn V)
    (ap : option (InboundDeltaApplierFn V)) (used : gmap NodeId Z) (c : MockCluster S V M) :
  cluster_reach name p w ser de ap used c →
  ∃ n : Network S V M,
    rtc (net_step (C:=TestClock) name p w ser de ap) net_init n ∧
    net_nodes n = mn_engine <$> mc_nodes c ∧
    ∀ m, m ∈ in_flight (mc_transport c) →
      ∃ msg, msg ∈ net_messages n ∧ if_data m = bincode_serialize msg.
Proof.
  intros Hr. destruct (reach_tracked name p w ser de ap used c Hr) as (n & Hn & (He & [_ Hm] & _) & _).
  by exists n.
Qed.

(** [C10] A test that drives a cluster with interceptors that forge nothing (all the built-in
    ones but [CorruptBytes], see [cluster_reach]) never meets a panic of an engine or a wrong
    view: a tick goes through, a mutation of an existing node goes through, and a node is
    added under a new name or restarted under its old one with a later incarnation; and
    whatever node [i] shows of node [j] is the placeholder, or a view not ahead of [j]'s own,
    equal to [j]'s current one at the same generation. *)
Theorem cluster_views_never_wrong `{HashIter} {S V M} `{!ViewMapOps V M} `{!ViewMapLaws V M}
    `{!Bincode WireMessage} `{!BincodeLaws WireMessage}
    (name : string) (p : S → V) (w : Z) (ser : SerializeViewFn V) (de : DeserializeViewFn V)
    (ap : option (InboundDeltaApplierFn V)) (used : gmap NodeId Z) (c : MockCluster S V M) :
  (∀ v, de (ser v) w = Ok v) →
  cluster_reach name p w ser de ap used c →
  is_done (tick c) ∧
  (∀ id nd f u, mc_nodes c !! id = Some nd → age (generation_of (mn_engine nd)) < u64_max →
     is_done (cluster_mutate c id f p u)) ∧
  (∀ id x cfg clk v, restartable used c id clk →
     is_done (add_node c (engine_new (C:=TestClock) name id x p cfg w clk ser de ap) v)) ∧
  (∀ i j ndi ndj vo, mc_nodes c !! i = Some ndi → mc_nodes c !! j = Some ndj →
     get_view (shard (mn_engine ndi)) j = Some vo →
     vo_generation vo = generation_zero ∨
     (vo_generation vo ≤g generation_of (mn_engine ndj) ∧
      (vo_generation vo = generation_of (mn_engine ndj) →
       vo_value vo = p (so_value (sh_state (shard (mn_engine ndj))))))).
Proof.
  intros Hcodec Hr. destruct (reach_tracked name p w ser de ap used c Hr) as [n Ht].
  pose proof Ht as (Hreach & Hsim & _). split_and!.
  - destruct (tick_sim name p w ser de ap c n Hsim) as (c' & n' & -> & _). by eexists.
  - intros id nd f u Hnd Hage.
    destruct (mutate_sim name p w ser de ap c n id nd f u Hsim Hnd Hage) as (c' & n' & -> & _). by eexists.
  - intros id x cfg clk v Hre.
    destruct (add_node_tracked name p w ser de ap used c n id x cfg clk v Ht Hre)
      as (c' & n' & -> & _). by eexists.
  - intros i j ndi ndj vo Hi Hj.
    destruct (sim_lookup c n i ndi Hsim Hi) as [Hei _].
    destruct (sim_lookup c n j ndj Hsim Hj) as [Hej _].
    intros Hvo. destruct (net_view name p w ser de ap n i j _ _ vo
      (net_reachable_inv name p w ser de ap n Hcodec Hreach) Hei Hej Hvo) as [?|[_ ?]]; auto.
Qed.
