(* ===== verification/Convergence.v ===== *)
(** Convergence of the mock cluster: on a clean network a pushed mutation reaches every
    node, and the cluster settles within two ticks. *)
From stdpp Require Import prelude gmap fin_maps strings relations.
From S2P Require Import Prelude Node Clock Types ViewMap ShardCore ShardProps SyncLogic.
From S2P Require Import ChangeFeed Versioning Lifecycle Diagnostics Engine EngineProps.
From S2P Require Import Protocol Accounting Network Traits Interceptor Transport Cluster.
From S2P Require Import ClusterProps.

Section Quiet.
Context `{HashIter} {S V M : Type} `{!ViewMapOps V M}.
Context `{!Bincode WireMessage} `{!BincodeLaws WireMessage}.
Local Abbreviation cluster := (MockCluster S V M).
Implicit Types (c : cluster) (nd x : MockNode S V M).

(** Nothing scheduled, nothing to flush. *)
Definition quiet x : Prop :=
  scheduled x = [] ∧ pending_change_feed_count (mn_engine x) = 0%nat.
Definition all_quiet c : Prop := ∀ k x, mc_nodes c !! k = Some x → quiet x.

(** The same nodes with the same engines. *)
Definition same_engines c c' : Prop :=
  ∀ k, mn_engine <$> mc_nodes c' !! k = mn_engine <$> mc_nodes c !! k.

Lemma is_settled_spec c :
  is_settled c = true ↔ in_flight (mc_transport c) = [] ∧ all_quiet c.
Proof.
  unfold is_settled, in_flight_count.
  assert ((0 <? Z.of_nat (length (in_flight (mc_transport c)))) = true ↔
    in_flight (mc_transport c) ≠ []) as Hf.
  { rewrite Z.ltb_lt. destruct (in_flight _); simpl; [|split; [done|lia]]. split; [lia|done]. }
  destruct (0 <? _); [naive_solver|].
  rewrite forallb_forall. split.
  - intros Hall. split; [destruct (in_flight _); naive_solver|]. intros k x Hx.
    specialize (Hall (k, x)). rewrite <- list_elem_of_In, elem_of_hm_iter in Hall.
    apply Hall in Hx as [Hs Hp]%andb_true_iff. simpl in *. apply bool_decide_eq_true in Hs.
    split; [done|]. apply negb_true_iff, Z.ltb_ge in Hp. lia.
  - intros [_ Hq] [k x] Hx. rewrite <- list_elem_of_In, elem_of_hm_iter in Hx.
    destruct (Hq k x Hx) as [Hs Hp]. cbn [snd]. by rewrite bool_decide_eq_true_2, Hp by done.
Qed.

Lemma set_node_id c k x : mc_nodes c !! k = Some x → set_node c k x = c.
Proof. intros Hx. unfold set_node, set_nodes. rewrite insert_id by done. by destruct c. Qed.

Lemma timers_quiet ids : ∀ c, all_quiet c → foldl timer_one c ids = c.
Proof.
  induction ids as [|id ids IH]; intros c Hq; simpl; [done|].
  assert (timer_one c id = c) as ->; [|by apply IH].
  unfold timer_one. destruct (mc_nodes c !! id) as [x|] eqn:Hx; [|done].
  destruct (Hq id x Hx) as [Hs _]. rewrite Hs, !filter_nil. cbn [foldl].
  apply set_node_id. rewrite Hx. destruct x. simpl in Hs. by rewrite Hs.
Qed.

Lemma flush_quiet c id :
  all_quiet c →
  all_quiet (flush_one c id) ∧ same_engines c (flush_one c id) ∧
  mc_transport (flush_one c id) = mc_transport c.
Proof.
  intros Hq. unfold flush_one. destruct (mc_nodes c !! id) as [x|] eqn:Hx; [|done].
  destruct (Hq id x Hx) as [Hs Hp]. rewrite Hp. simpl. split_and!; [| |done].
  - intros k y Hy. simpl in Hy. apply lookup_insert_Some in Hy as [[<- <-]|[_ Hy]];
      [by split|by eapply Hq].
  - intros k. simpl. rewrite lookup_insert. case_decide; [subst; by rewrite Hx|done].
Qed.

Lemma flushes_quiet ids : ∀ c,
  all_quiet c →
  all_quiet (foldl flush_one c ids) ∧ same_engines c (foldl flush_one c ids) ∧
  mc_transport (foldl flush_one c ids) = mc_transport c.
Proof.
  induction ids as [|id ids IH]; intros c Hq; simpl; [done|].
  destruct (flush_quiet c id Hq) as (Hq1 & Hs1 & Ht1).
  destruct (IH _ Hq1) as (Hq2 & Hs2 & Ht2). split_and!; [done| |congruence].
  intros k. by rewrite Hs2.
Qed.

(** After a delivery that leaves every node quiet, the tick only counts. *)
Lemma tick_quiet c c1 :
  deliver_phase c = Done c1 → all_quiet c1 →
  ∃ c2, tick c = Done c2 ∧ all_quiet c2 ∧ same_engines c1 c2 ∧
    mc_transport c2 = advance_tick (mc_transport c1).
Proof.
  intros Hd Hq. unfold tick. rewrite Hd. cbn [outcome_bind mbind]. rewrite timers_quiet by done.
  destruct (flushes_quiet (all_node_ids c1) c1 Hq) as (Hq2 & Hs2 & Ht2).
  eexists. split_and!; [done|exact Hq2|exact Hs2|]. simpl. by rewrite Ht2.
Qed.

(** One message delivered to several nodes that take it without an answer. *)
Lemma deliver_each from msg ids : ∀ c,
  NoDup ids →
  (∀ k, k ∈ ids → ∃ x e', mc_nodes c !! k = Some x ∧
     handle_inbound (mn_engine x) msg (mc_clock c) = Done (e', [])) →
  ∃ c', deliver_messages c ((λ k, mkDelivered from k msg) <$> ids) = Done (c', []) ∧
    mc_transport c' = mc_transport c ∧
    ∀ k, if decide (k ∈ ids)
      then ∃ x e', mc_nodes c !! k = Some x ∧
        handle_inbound (mn_engine x) msg (mc_clock c) = Done (e', []) ∧
        mc_nodes c' !! k = Some (set_mn_engine x e')
      else mc_nodes c' !! k = mc_nodes c !! k.
Proof.
  induction ids as [|id ids IH]; intros c Hnd Hids; simpl.
  { exists c. split_and!; [done..|]. intros k. by destruct (decide (k ∈ [])) as [?%elem_of_nil|]. }
  apply NoDup_cons in Hnd as [Hni Hnd].
  destruct (Hids id ltac:(by left)) as (x & e' & Hx & Hh). rewrite Hx, Hh. simpl.
  set (c1 := set_node c id (set_mn_engine x e')).
  assert (∀ k, k ∈ ids → mc_nodes c1 !! k = mc_nodes c !! k) as Hne.
  { intros k Hk. apply lookup_insert_ne. by intros ->. }
  destruct (IH c1 Hnd) as (c' & Hd & Ht & Hc').
  { intros k Hk. rewrite Hne by done. apply Hids. by right. }
  unfold fmap in Hd. rewrite Hd. simpl. exists c'. split_and!; [done..|].
  intros k. specialize (Hc' k). destruct (decide (k ∈ id :: ids)) as [Hin|Hin].
  - destruct (decide (k ∈ ids)) as [Hk|Hk]; [by rewrite (Hne k Hk) in Hc'|].
    apply elem_of_cons in Hin as [->|?]; [|done]. rewrite Hc'.
    exists x, e'. split_and!; [done..|]. apply lookup_insert_eq.
  - destruct (decide (k ∈ ids)) as [Hk|Hk]; [destruct Hin; by right|]. rewrite Hc'.
    apply lookup_insert_ne. intros ->. apply Hin. by left.
Qed.
End Quiet.

(** ** A pushed mutation *)
Section Push.
Context `{HashIter} {S V M : Type} `{!ViewMapOps V M} `{!ViewMapLaws V M}.
Context `{!Bincode WireMessage} `{!BincodeLaws WireMessage}.
Context (name : string) (p : S → V) (w : Z)
  (ser : SerializeViewFn V) (de : DeserializeViewFn V) (ap : option (InboundDeltaApplierFn V)).
Local Abbreviation cluster := (MockCluster S V M).
Local Abbreviation engine := (DistributedStateEngine S V M).
Implicit Types (c : cluster) (nd x : MockNode S V M) (a b : engine).

(** Two nodes of a reachable network that have not left each other. *)
Lemma network_pair (n : Network S V M) i j a b :
  (∀ v, de (ser v) w = Ok v) → net_inv name p w ser de ap n →
  net_nodes n !! i = Some a → net_nodes n !! j = Some b → i ≠ j →
  engine_should_accept_from a j = true → engine_should_accept_from b i = true →
  link a b ∧ shard_wf (shard b) ∧ not_ahead a b ∧ 0 ≤ age (generation_of a).
Proof.
  intros Hcodec (Hh & Hn & _) Ha Hb Hne Hab Hba.
  pose proof (Hn i a Ha) as Hia. pose proof (Hn j b Hb) as Hib.
  destruct (Hh _ _ _ (ni_own _ _ _ _ _ _ _ _ _ Hia)) as [[Hui [Hage _]] Hpos].
  pose proof (ni_id _ _ _ _ _ _ _ _ _ Hia) as Hida. pose proof (ni_id _ _ _ _ _ _ _ _ _ Hib) as Hidb.
  destruct (ni_static _ _ _ _ _ _ _ _ _ Hia) as (Hna & Hwa & Hsa & Hda & _).
  destruct (ni_static _ _ _ _ _ _ _ _ _ Hib) as (Hnb & Hwb & Hsb & Hdb & _).
  pose proof (ni_ok _ _ _ _ _ _ _ _ _ Hib) as (Hwf & _).
  split_and!; [|done| |done].
  - split; [congruence|congruence|by rewrite Hida|by rewrite Hidb|].
    intros v. by rewrite Hsa, Hdb, Hwa.
  - intros vo Hvo. rewrite Hida in Hvo.
    destruct (ni_views _ _ _ _ _ _ _ _ _ Hib i vo Hvo) as [Hz|Hv].
    + rewrite Hz. split; [by split|]. unfold gen_le, is_u64 in *. simpl. lia.
    + split; [by apply (Hh _ _ _ Hv)|]. by apply (ni_last _ _ _ _ _ _ _ _ _ Hia _ _ Hv).
Qed.

(** The cluster right after a mutation that is pushed: the engine advanced, and one
    message waits for every other node. *)
Definition pushed c c1 (id : NodeId) (a' : engine) (msg : WireMessage) (ids : list NodeId) : Prop :=
  all_quiet c1 ∧ mc_clock c1 = mc_clock c ∧
  interceptors (mc_transport c1) = [] ∧
  current_tick (mc_transport c1) = current_tick (mc_transport c) ∧
  in_flight (mc_transport c1) =
    queued (u64_add (current_tick (mc_transport c)) 1) <$> ((λ k, (id, k, msg)) <$> ids) ∧
  NoDup ids ∧ (∀ k, k ∈ ids ↔ k ≠ id ∧ is_Some (mc_nodes c !! k)) ∧
  (mn_engine <$> mc_nodes c1 !! id = Some a') ∧
  (∀ k, k ≠ id → mc_nodes c1 !! k = mc_nodes c !! k).

Lemma mutate_pushed c id nd f u :
  is_settled c = true → interceptors (mc_transport c) = [] → mc_nodes c !! id = Some nd →
  resolve_action (sync_logic (mn_engine nd)) u = BroadcastSnapshot ∨
    resolve_action (sync_logic (mn_engine nd)) u = BroadcastDelta →
  let '(a', r) := mutate (mn_engine nd) f p u (mc_clock c) in
  let msg := WireSync (own_snapshot a' (serialize_view a' (p (so_value (sh_state (shard a')))))) in
  ∃ c1 ids, cluster_mutate c id f p u = Done c1 ∧ pushed c c1 id a' msg ids.
Proof.
  intros [Hf Hq]%is_settled_spec Hi Hnd Hu. unfold cluster_mutate. rewrite Hnd. cbn [expect outcome_bind mbind].
  pose proof (mutate_effect p (mn_engine nd) f u (mc_clock c)) as He.
  assert (change_feed (mutate (mn_engine nd) f p u (mc_clock c)).1 = change_feed (mn_engine nd))
    as Hfeed by (unfold mutate; simpl; by destruct Hu as [-> | ->]).
  destruct (mutate _ _ _ _ _) as [a' r]. simpl in Hfeed. destruct He as (_ & _ & _ & _ & Hacts).
  assert (mr_actions r = [BroadcastSync (own_snapshot a' (serialize_view a'
    (p (so_value (sh_state (shard a'))))))]) as -> by (by destruct Hu as [Hu|Hu]; rewrite Hu in Hacts).
  set (c0 := set_node c id (set_mn_engine nd a')). set (msg := WireSync _).
  exists (set_transport c0 (transport_broadcast (mc_transport c) id msg (all_node_ids c0))),
    (filter (λ k, k ≠ id) (all_node_ids c0)).
  split; [done|].
  destruct (broadcast_clean id msg (all_node_ids c0) (mc_transport c) Hi) as (Hfl & Hi' & Ht).
  unfold pushed. simpl. rewrite Hi', Ht, Hfl. simpl. split_and!; try done.
  - intros k x Hx. simpl in Hx. apply lookup_insert_Some in Hx as [[<- <-]|[_ Hx]]; [|by eapply Hq].
    destruct (Hq id nd Hnd) as [Hs Hp]. split; [done|]. simpl.
    unfold pending_change_feed_count in *. by rewrite Hfeed.
  - rewrite Hf, <- list_fmap_compose. done.
  - apply NoDup_filter, NoDup_hm_iter_fst.
  - intros k. rewrite list_elem_of_filter. unfold all_node_ids. rewrite list_elem_of_fmap. split.
    + intros [Hk ([k' x] & -> & Hx)]. split; [done|]. apply elem_of_hm_iter in Hx. simpl in *.
      rewrite lookup_insert_ne in Hx by done. eauto.
    + intros [Hk [x Hx]]. split; [done|]. exists (k, x). split; [done|]. apply elem_of_hm_iter.
      simpl. by rewrite lookup_insert_ne.
  - by rewrite lookup_insert_eq.
  - intros k Hk. by apply lookup_insert_ne.
Qed.

(** The first tick delivers nothing, the second one everything. *)
Lemma pushed_first_tick c c1 id a' msg ids :
  pushed c c1 id a' msg ids → 0 ≤ current_tick (mc_transport c) < u64_max →
  ∃ c2, tick c1 = Done c2 ∧ all_quiet c2 ∧ same_engines c1 c2 ∧
    mc_transport c2 = advance_tick (mc_transport c1).
Proof.
  intros (Hq & _ & Hi & Ht & Hf & _) Htick.
  set (c1' := mkCluster (mc_nodes c1) (mc_transport c1) (mc_clock c1) (mc_tick_duration c1)
    (mc_current_tick c1) (u64_add (mc_corrupted_count c1) 0)).
  apply (tick_quiet c1 c1'); [|exact Hq].
  unfold deliver_phase. rewrite (deliver_early _ _ _ Hf); [done|].
  rewrite Ht, u64_succ_small; lia.
Qed.

Lemma pushed_second_tick c c1 c2 id a' msg ids :
  pushed c c1 id a' msg ids → 0 ≤ current_tick (mc_transport c) < u64_max →
  all_quiet c2 → same_engines c1 c2 → mc_transport c2 = advance_tick (mc_transport c1) →
  (∀ k x clk, k ∈ ids → mc_nodes c !! k = Some x →
     ∃ b', handle_inbound (mn_engine x) msg (clk : TestClock) = Done (b', [])) →
  ∃ c3, tick c2 = Done c3 ∧ all_quiet c3 ∧ in_flight (mc_transport c3) = [] ∧
    ∀ k, if decide (k ∈ ids)
      then ∃ x clk b', mc_nodes c !! k = Some x ∧
        handle_inbound (mn_engine x) msg (clk : TestClock) = Done (b', []) ∧
        mn_engine <$> mc_nodes c3 !! k = Some b'
      else mn_engine <$> mc_nodes c3 !! k = mn_engine <$> mc_nodes c1 !! k.
Proof.
  intros (_ & _ & Hi & Ht & Hf & Hnd & Hids & _ & Hnodes) Htick Hq Hs Htr Hrec.
  set (t := mkTransport [] (interceptors (mc_transport c2)) (message_counter (mc_transport c2))
    (current_tick (mc_transport c2)) (rng_seed (mc_transport c2))).
  set (c2' := mkCluster (mc_nodes c2) t (mc_clock c2) (mc_tick_duration c2) (mc_current_tick c2)
    (u64_add (mc_corrupted_count c2) (Z.of_nat 0))).
  assert (∀ k, k ∈ ids → ∃ x y, mc_nodes c !! k = Some x ∧ mc_nodes c2 !! k = Some y ∧
    mn_engine y = mn_engine x) as Hsame.
  { intros k Hk. pose proof Hk as [Hne [x Hx]]%Hids. specialize (Hs k). rewrite Hnodes, Hx in Hs by done.
    destruct (mc_nodes c2 !! k) as [y|]; [|done]. exists x, y. simpl in Hs. split_and!; congruence. }
  destruct (deliver_each id msg ids c2' Hnd) as (c3 & Hd & Ht3 & Hc3).
  { intros k Hk. destruct (Hsame k Hk) as (x & y & Hx & Hy & He).
    destruct (Hrec k x (mc_clock c2) Hk Hx) as [b' Hb]. exists y, b'. by rewrite He. }
  assert (deliver_phase c2 = Done c3) as Hphase.
  { unfold deliver_phase. rewrite (deliver_all (mc_transport c2) (u64_add (current_tick (mc_transport c)) 1)
      ((λ k, (id, k, msg)) <$> ids)); [|by rewrite Htr; exact Hf|].
    2: { rewrite Htr. simpl. rewrite Ht. lia. }
    rewrite <- list_fmap_compose. cbn [delivered corrupted length]. fold t. fold c2'.
    change (compose _ _) with (λ k, mkDelivered id k msg). by rewrite Hd. }
  destruct (tick_quiet c2 c3 Hphase) as (c4 & Htk & Hq4 & Hs4 & Ht4).
  { intros k x Hx. specialize (Hc3 k). destruct (decide (k ∈ ids)) as [Hk|Hk].
    - destruct Hc3 as (y & b' & Hy & Hb & Hx'). rewrite Hx in Hx'. injection Hx' as ->.
      destruct (Hq k y Hy) as [Hsc Hp]. split; [done|]. unfold pending_change_feed_count in *. simpl.
      by rewrite (handle_inbound_feed _ _ _ _ _ Hb).
    - rewrite Hc3 in Hx. by eapply Hq. }
  exists c4. split_and!; [done|done|by rewrite Ht4; simpl; rewrite Ht3|].
  intros k. specialize (Hc3 k). destruct (decide (k ∈ ids)) as [Hk|Hk].
  - destruct Hc3 as (y & b' & Hy & Hb & Hx'). destruct (Hsame k Hk) as (x & y' & Hx & Hy' & He).
    change (mc_nodes c2 !! k = Some y) in Hy. assert (y' = y) as -> by congruence.
    exists x, (mc_clock c2), b'. rewrite Hs4, Hx'. split_and!; [done|by rewrite <- He|done].
  - rewrite Hs4, Hc3. apply Hs.
Qed.

Lemma settle_two c1 c2 c3 :
  is_settled c1 = false → tick c1 = Done c2 → is_settled c2 = false → tick c2 = Done c3 →
  is_settled c3 = true → settle c1 = Done (c3, 2%nat).
Proof.
  intros H1 T1 H2 T2 H3. unfold settle.
  change 1000%nat with (Datatypes.S (Datatypes.S 998)). cbn [settle_with_limit].
  rewrite H1, T1. cbn [outcome_bind mbind]. rewrite H2, T2. cbn [outcome_bind mbind].
  change 998%nat with (Datatypes.S 997). cbn [settle_with_limit]. by rewrite H3.
Qed.

(** Every other node takes the message in, and the cluster settles. *)
Lemma pushed_settles c c1 id nd a' msg ids :
  pushed c c1 id a' msg ids → 0 ≤ current_tick (mc_transport c) < u64_max →
  mc_nodes c !! id = Some nd →
  (∀ k x (clk : TestClock), k ≠ id → mc_nodes c !! k = Some x →
     ∃ b', handle_inbound (mn_engine x) msg clk = Done (b', []) ∧ current p a' b') →
  ∃ c2 ticks, settle c1 = Done (c2, ticks) ∧ (ticks ≤ 2)%nat ∧
    mn_engine <$> mc_nodes c2 !! id = Some a' ∧
    (∀ k, is_Some (mc_nodes c2 !! k) ↔ is_Some (mc_nodes c !! k)) ∧
    (∀ k x, k ≠ id → mc_nodes c2 !! k = Some x → current p a' (mn_engine x)).
Proof.
  intros Hp Htick Hnd Hrec. pose proof Hp as (Hq & _ & _ & _ & Hf & _ & Hids & Hid & Hnodes).
  destruct (decide (ids = [])) as [->|Hne].
  - exists c1, 0%nat. assert (∀ k, k ≠ id → mc_nodes c !! k = None) as Hnone.
    { intros k Hk. apply eq_None_not_Some. intros Hs. by apply (not_elem_of_nil k), Hids. }
    split_and!; [|lia|done| |].
    + unfold settle. change 1000%nat with (Datatypes.S 999). cbn [settle_with_limit].
      by rewrite (proj2 (is_settled_spec c1)).
    + intros k. destruct (decide (k = id)) as [->|]; [|by rewrite Hnodes].
      destruct (mc_nodes c1 !! id); [|done]. rewrite Hnd. split; eauto.
    + intros k x Hk. by rewrite Hnodes, Hnone.
  - assert (∀ k x clk, k ∈ ids → mc_nodes c !! k = Some x →
      ∃ b', handle_inbound (mn_engine x) msg (clk : TestClock) = Done (b', [])) as Hrec'.
    { intros k x clk [Hk _]%Hids Hx. destruct (Hrec k x clk Hk Hx) as (b' & ? & _). eauto. }
    destruct (pushed_first_tick _ _ _ _ _ _ Hp Htick) as (c2 & T1 & Hq2 & Hs2 & Ht2).
    destruct (pushed_second_tick _ _ c2 _ _ _ _ Hp Htick Hq2 Hs2 Ht2 Hrec')
      as (c3 & T2 & Hq3 & Hf3 & Hc3).
    assert (∀ c0, in_flight (mc_transport c0) = in_flight (mc_transport c1) → is_settled c0 = false)
      as Hbusy.
    { intros c0 Hc0. destruct (is_settled c0) eqn:Hs; [|done].
      apply is_settled_spec in Hs as [Hs _]. rewrite Hc0, Hf in Hs. by destruct ids. }
    exists c3, 2%nat. split_and!; [|lia|..].
    + apply (settle_two c1 c2 c3); [by apply Hbusy|done|apply Hbusy; by rewrite Ht2|done|].
      by apply is_settled_spec.
    + specialize (Hc3 id). destruct (decide (id ∈ ids)) as [[? _]%Hids|]; [done|]. by rewrite Hc3.
    + intros k. specialize (Hc3 k). destruct (decide (k ∈ ids)) as [Hk|Hk].
      * destruct Hc3 as (x & _ & b' & Hx & _ & Hb). rewrite Hx.
        destruct (mc_nodes c3 !! k); [|done]. split; eauto.
      * rewrite <- !(fmap_is_Some mn_engine), Hc3. destruct (decide (k = id)) as [->|Hki].
        -- rewrite Hid, Hnd. split; eauto.
        -- by rewrite Hnodes.
    + intros k x Hk Hx. specialize (Hc3 k). destruct (decide (k ∈ ids)) as [Hin|Hin].
      * destruct Hc3 as (y & clk & b' & Hy & Hb & Hx'). rewrite Hx in Hx'. injection Hx' as ->.
        destruct (Hrec k y clk Hk Hy) as (b2 & Hb2 & Hcur). by assert (b' = b2) as -> by congruence.
      * destruct Hin. apply Hids. split; [done|]. rewrite Hx, Hnodes in Hc3 by done.
        destruct (mc_nodes c !! k); [eauto|done].
Qed.
End Push.

(** [C9] Convergence.  In a settled cluster on a clean network, a mutation that is pushed
    reaches everybody: the cluster settles again after at most two ticks, the same nodes
    run, the mutated node has its new state, and every other node shows exactly that
    state's view at its generation. *)
Theorem cluster_push_converges `{HashIter} {S V M} `{!ViewMapOps V M} `{!ViewMapLaws V M}
    `{!Bincode WireMessage} `{!BincodeLaws WireMessage}
    (name : string) (p : S → V) (w : Z) (ser : SerializeViewFn V) (de : DeserializeViewFn V)
    (ap : option (InboundDeltaApplierFn V)) (used : gmap NodeId Z) (c : MockCluster S V M)
    (id : NodeId) (nd : MockNode S V M) (f : S → S) (u : SyncUrgency) :
  (∀ v, de (ser v) w = Ok v) →
  cluster_reach name p w ser de ap used c →
  is_settled c = true → interceptors (mc_transport c) = [] →
  0 ≤ current_tick (mc_transport c) < u64_max →
  mc_nodes c !! id = Some nd → age (generation_of (mn_engine nd)) < u64_max →
  resolve_action (sync_logic (mn_engine nd)) u = BroadcastSnapshot ∨
    resolve_action (sync_logic (mn_engine nd)) u = BroadcastDelta →
  (∀ k x, k ≠ id → mc_nodes c !! k = Some x →
     engine_should_accept_from (mn_engine nd) k = true ∧
     engine_should_accept_from (mn_engine x) id = true) →
  ∃ c1 c2 ticks a', cluster_mutate c id f p u = Done c1 ∧
    settle c1 = Done (c2, ticks) ∧ (ticks ≤ 2)%nat ∧
    mn_engine <$> mc_nodes c2 !! id = Some a' ∧
    so_value (sh_state (shard a')) = f (so_value (sh_state (shard (mn_engine nd)))) ∧
    (∀ k, is_Some (mc_nodes c2 !! k) ↔ is_Some (mc_nodes c !! k)) ∧
    (∀ k x, k ≠ id → mc_nodes c2 !! k = Some x → current p a' (mn_engine x)).
Proof.
  intros Hcodec Hr Hset Hint Htick Hnd Hage Hu Hacc.
  destruct (reach_tracked name p w ser de ap used c Hr) as (n & Hreach & Hsim & _).
  pose proof (net_reachable_inv name p w ser de ap n Hcodec Hreach) as Hinv.
  destruct (sim_lookup c n id nd Hsim Hnd) as [Ha _].
  pose proof (mutate_pushed p c id nd f u Hset Hint Hnd Hu) as Hp.
  assert (∀ k x (clk : TestClock), k ≠ id → mc_nodes c !! k = Some x →
    let '(a', r) := mutate (mn_engine nd) f p u (mc_clock c) in
    let msg := own_snapshot a' (serialize_view a' (p (so_value (sh_state (shard a'))))) in
    ∃ b', handle_inbound (mn_engine x) (WireSync msg) clk = Done (b', []) ∧ current p a' b') as Hrec.
  { intros k x clk Hk Hx. destruct (sim_lookup c n k x Hsim Hx) as [Hb _].
    destruct (Hacc k x Hk Hx) as [Hak Hxi].
    destruct (network_pair name p w ser de ap n id k _ _ Hcodec Hinv Ha Hb) as (Hl & Hwf & Hna & H0);
      [done..|].
    pose proof (pushed_snapshot_received p _ _ f u (mc_clock c) clk Hl Hwf Hna (conj H0 Hage) Hu) as Hrec.
    destruct (mutate _ _ _ _ _) as [a' r]. apply Hrec. }
  pose proof (mutate_effect p (mn_engine nd) f u (mc_clock c)) as He.
  destruct (mutate (mn_engine nd) f p u (mc_clock c)) as [a' r].
  destruct He as (_ & _ & _ & Hval & _). destruct Hp as (c1 & ids & Hm & Hp).
  destruct (pushed_settles p c c1 id nd a' _ ids Hp Htick Hnd Hrec)
    as (c2 & ticks & Hs & Ht & Hid & Hdom & Hcur).
  by exists c1, c2, ticks, a'.
Qed.
