(* ===== verification/Settle.v ===== *)
(** Termination of [settle]: every message can cause only so many answers, the
    interceptors delay only so long, every scheduled send and every change feed has its
    tick; so there is a tick, computed by [deadline], after which nothing is left. *)
From stdpp Require Import prelude gmap fin_maps strings relations.
From S2P Require Import Prelude Node Clock Types ViewMap ShardCore ShardProps SyncLogic.
From S2P Require Import ChangeFeed Versioning Lifecycle Diagnostics Engine EngineProps.
From S2P Require Import Protocol Accounting Network Traits Interceptor Transport Faults.
From S2P Require Import Cluster ClusterProps Convergence.

(** How many answers, one to the other, a message can still cause: a delta may cause a
    request for a snapshot, a request the snapshot, and a snapshot or a feed nothing. *)
Definition replies (m : WireMessage) : Z :=
  match m with
  | WireSync (DeltaUpdate _ _ _ _ _) => 2
  | WireSync (RequestSnapshot _ _) => 1
  | _ => 0
  end.

Lemma replies_nonneg m : 0 ≤ replies m.
Proof. destruct m as [[]|]; simpl; lia. Qed.

(** ** Clocks and counters of a cluster *)
Section Timers.
Context `{HashIter} {S V M : Type} `{!ViewMapOps V M} `{!ViewMapLaws V M}.
Context `{!Bincode WireMessage}.
Local Abbreviation cluster := (MockCluster S V M).
Implicit Types (c : cluster) (nd x : MockNode S V M) (t : MockTransport).

Lemma send_bytes_tick t from to data : current_tick (send_bytes t from to data) = current_tick t.
Proof.
  unfold send_bytes, apply_interceptors. cbn [interceptors].
  destruct (interceptors t) as [|d ds]; [done|]. by destruct (pipeline _ _ _ _ _) as [[??]?].
Qed.

Lemma broadcast_tick from msg all : ∀ t,
  current_tick (transport_broadcast t from msg all) = current_tick t.
Proof.
  unfold transport_broadcast. induction all as [|to all IH]; intros t; simpl; [done|].
  rewrite IH. case_match; [apply send_bytes_tick|done].
Qed.

(** What the node keeps for its timers, its queue of scheduled sends, its feed. *)
Definition same_timers x x' : Prop :=
  feed_flush_counter x' = feed_flush_counter x ∧ feed_flush_interval x' = feed_flush_interval x.
Definition same_books x x' : Prop :=
  same_timers x x' ∧ scheduled x' = scheduled x ∧
  cf_pending (change_feed (mn_engine x')) = cf_pending (change_feed (mn_engine x)).

(** No node is new, the nodes that are left are related by [R], the clocks stand. *)
Definition nodes_rel (R : MockNode S V M → MockNode S V M → Prop) c c' : Prop :=
  mc_current_tick c' = mc_current_tick c ∧
  current_tick (mc_transport c') = current_tick (mc_transport c) ∧
  ∀ id x', mc_nodes c' !! id = Some x' → ∃ x, mc_nodes c !! id = Some x ∧ R x x'.

Section Rel.
Context (R : MockNode S V M → MockNode S V M → Prop) `{!PreOrder R}.

Global Instance nodes_rel_preorder : PreOrder (nodes_rel R).
Proof.
  split.
  - intros c. split_and!; [done..|]. intros id x Hx. by exists x.
  - intros c1 c2 c3 (Ht1 & Hc1 & Hn1) (Ht2 & Hc2 & Hn2). split_and!; [congruence..|].
    intros id x3 (x2 & (x1 & Hx1 & HR)%Hn1 & HR')%Hn2. exists x1. split; [done|by etrans].
Qed.

Lemma nodes_rel_transport c t :
  current_tick t = current_tick (mc_transport c) → nodes_rel R c (set_transport c t).
Proof. intros Ht. split_and!; [done..|]. intros id x Hx. by exists x. Qed.

Lemma nodes_rel_node c id x x' :
  mc_nodes c !! id = Some x → R x x' → nodes_rel R c (set_node c id x').
Proof.
  intros Hx HR. split_and!; [done..|]. simpl. intros k y.
  intros [[<- <-]|[_ Hy]]%lookup_insert_Some; [eauto|by exists y].
Qed.
End Rel.

Global Instance same_timers_preorder : PreOrder same_timers.
Proof. split; [done|]. intros x y z [] []. split; congruence. Qed.
Global Instance same_books_preorder : PreOrder same_books.
Proof.
  split; [done|]. intros x y z (Hxy & ? & ?) (Hyz & ? & ?). split; [by etrans|].
  split; congruence.
Qed.

Lemma nodes_rel_timers c c' : nodes_rel same_books c c' → nodes_rel same_timers c c'.
Proof. intros (? & ? & Hn). split_and!; [done..|]. intros id x' (x & ? & ? & _)%Hn. eauto. Qed.

(** *** Routing keeps the timers *)
Lemma route_one_timers all from c act : nodes_rel same_timers c (route_one all from c act).
Proof.
  destruct act as [m|t m|d m]; simpl.
  - by apply (nodes_rel_transport same_timers), broadcast_tick.
  - by apply (nodes_rel_transport same_timers), send_bytes_tick.
  - destruct (mc_nodes c !! from) as [x|] eqn:Hx; [|reflexivity]. eapply (nodes_rel_node same_timers); [done|by split].
Qed.

Lemma route_actions_timers c from acts :
  nodes_rel same_timers c (cluster_route_actions c from acts).
Proof.
  unfold cluster_route_actions. generalize (all_node_ids c) as all. revert c.
  induction acts as [|a acts IH]; intros c all; simpl; [done|].
  etrans; [apply route_one_timers|apply IH].
Qed.

Lemma fold_rel {A} (R : MockNode S V M → MockNode S V M → Prop) `{!PreOrder R}
    (f : cluster → A → cluster) l :
  (∀ c a, nodes_rel R c (f c a)) → ∀ c, nodes_rel R c (foldl f c l).
Proof. intros Hf. induction l as [|a l IH]; intros c; simpl; [done|]. etrans; [apply Hf|apply IH]. Qed.

Lemma set_engine_timers c id x e :
  mc_nodes c !! id = Some x → nodes_rel same_timers c (set_node c id (set_mn_engine x e)).
Proof. intros Hx. eapply (nodes_rel_node same_timers); [done|by split]. Qed.

(** *** The clock and counter invariant *)

(** The two tick counters agree; every flush counter is below its interval. *)
Definition node_timers x : Prop :=
  0 ≤ feed_flush_counter x < feed_flush_interval x ∧ feed_flush_interval x ≤ u64_max.
Definition timers_ok c : Prop :=
  mc_current_tick c = current_tick (mc_transport c) ∧ 0 ≤ mc_current_tick c ∧
  ∀ id x, mc_nodes c !! id = Some x → node_timers x.

Lemma nodes_rel_timers_ok c c' : nodes_rel same_timers c c' → timers_ok c → timers_ok c'.
Proof.
  intros (Ht & Hc & Hn) (He & H0 & Hok). split_and!; [congruence|lia|].
  intros id x' (x & Hx & Hcnt & Hint)%Hn. specialize (Hok id x Hx).
  unfold node_timers in *. by rewrite Hcnt, Hint.
Qed.

Lemma announce_to_existing_timers k v ids : ∀ c c' l,
  announce_to_existing c k v ids = Done (c', l) → nodes_rel same_timers c c'.
Proof.
  induction ids as [|id ids IH]; intros c c' l; simpl; [by intros [= <- _]|].
  destruct (mc_nodes c !! id) as [x|] eqn:Hx; simpl; [|done].
  destruct (engine_on_node_joined _ _ _ _) as [[e acts]|]; simpl; [|done].
  destruct (announce_to_existing _ _ _ ids) as [[c1 l1]|] eqn:Hr; simpl; [|done].
  intros [= <- _]. etrans; [by eapply set_engine_timers|by eapply IH].
Qed.

Lemma deliver_messages_timers msgs : ∀ c c' l,
  deliver_messages c msgs = Done (c', l) → nodes_rel same_timers c c'.
Proof.
  induction msgs as [|msg msgs IH]; intros c c' l; simpl; [by intros [= <- _]|].
  destruct (mc_nodes c !! dm_to msg) as [x|] eqn:Hx; [|by apply IH].
  destruct (handle_inbound _ _ _) as [[e acts]|]; simpl; [|done].
  destruct (deliver_messages _ msgs) as [[c1 l1]|] eqn:Hr; simpl; [|done].
  intros [= <- _]. etrans; [by eapply set_engine_timers|by eapply IH].
Qed.

Lemma timer_one_timers c id : nodes_rel same_timers c (timer_one c id).
Proof.
  unfold timer_one. destruct (mc_nodes c !! id) as [x|] eqn:Hx; [|reflexivity].
  set (x' := mkMockNode _ _ _ _). transitivity (set_node c id x').
  { eapply (nodes_rel_node same_timers); [done|by split]. }
  apply (fold_rel same_timers). intros c' a.
  by apply (nodes_rel_transport same_timers), broadcast_tick.
Qed.

Lemma flush_one_timers c id : timers_ok c → timers_ok (flush_one c id).
Proof.
  intros (He & H0 & Hn). unfold flush_one. destruct (mc_nodes c !! id) as [x|] eqn:Hx; [|done].
  pose proof (Hn id x Hx) as Hok. unfold node_timers in Hok.
  assert (∀ y, node_timers y → timers_ok (set_node c id y)) as Hset.
  { intros y Hy. split_and!; [done..|]. simpl.
    intros k z [[<- <-]|[_ Hz]]%lookup_insert_Some; [done|by eapply Hn]. }
  case_match; [|apply Hset; unfold node_timers; simpl; lia].
  rewrite u64_succ_small by lia. destruct (Z.leb_spec (feed_flush_interval x) (feed_flush_counter x + 1)).
  - destruct (flush_change_feed _) as [e b].
    assert (timers_ok (set_node c id (mkMockNode e (scheduled x) 0 (feed_flush_interval x)))) as Hs
      by (apply Hset; unfold node_timers; simpl; lia).
    destruct b; [|done]. destruct Hs as (He' & H0' & Hn'). split_and!; [|done..].
    simpl in *. by rewrite broadcast_tick.
  - apply Hset. unfold node_timers; simpl; lia.
Qed.

Lemma deliver_phase_timers c c' : deliver_phase c = Done c' → nodes_rel same_timers c c'.
Proof.
  unfold deliver_phase. rewrite deliver_due_eq. cbn [corrupted delivered].
  set (c1 := mkCluster _ _ _ _ _ _).
  assert (nodes_rel same_timers c c1) as Hc1.
  { split_and!; [done..|]. intros id x Hx. by exists x. }
  destruct (deliver_messages c1 _) as [[c2 l]|] eqn:Hd; [|done]. intros [= <-].
  etrans; [exact Hc1|]. etrans; [by eapply deliver_messages_timers|].
  apply fold_rel; [apply _|]. intros c0 q. apply route_actions_timers.
Qed.

Lemma tick_timers c c' :
  tick c = Done c' → timers_ok c → timers_ok c'.
Proof.
  unfold tick. destruct (deliver_phase c) as [c1|] eqn:Hd; [|done]. intros [= <-] Hok.
  assert (timers_ok (foldl timer_one c1 (all_node_ids c1))) as Hok2.
  { eapply nodes_rel_timers_ok; [|exact Hok]. etrans; [by eapply deliver_phase_timers|].
    apply fold_rel; [apply _|]. apply timer_one_timers. }
  assert (∀ l c2, timers_ok c2 → timers_ok (foldl flush_one c2 l)) as Hfl.
  { induction l as [|id l IH]; intros c2 ?; simpl; [done|]. by apply IH, flush_one_timers. }
  destruct (Hfl (all_node_ids c1) _ Hok2) as (He & H0 & Hn).
  split_and!; [simpl; by rewrite He|apply u64_add_range|exact Hn].
Qed.

(** A tick advances the tick counter by one. *)
Lemma tick_clock c c' : tick c = Done c' → mc_current_tick c' = u64_add (mc_current_tick c) 1.
Proof.
  unfold tick. destruct (deliver_phase c) as [c1|] eqn:Hd; [|done]. intros [= <-]. simpl. f_equal.
  transitivity (mc_current_tick c1); [|by apply deliver_phase_timers in Hd as (? & _)].
  transitivity (mc_current_tick (foldl timer_one c1 (all_node_ids c1))).
  - generalize (foldl timer_one c1 (all_node_ids c1)) as c2. generalize (all_node_ids c1) as l.
    induction l as [|id l IH]; intros c2; simpl; [done|]. rewrite IH. unfold flush_one.
    by repeat case_match.
  - by destruct (fold_rel same_timers timer_one (all_node_ids c1) timer_one_timers c1) as (? & _).
Qed.

Lemma feed_interval_range c (e : DistributedStateEngine S V M) :
  1 ≤ feed_interval c e ≤ u64_max.
Proof.
  unfold feed_interval, div_ceil. set (a := as_u64 (as_millis (batch_interval _))).
  pose proof (as_u64_range (as_millis (batch_interval (change_feed_config (engine_sync_strategy e))))) as Ha.
  pose proof (as_u64_range (Z.max (as_millis (mc_tick_duration c)) 1)) as Hb.
  fold a in Ha. fold (tick_ms c) in Hb. unfold is_u64 in *.
  destruct (decide (tick_ms c = 0)) as [->|Hne]; [rewrite Zdiv_0_r; width_lia|].
  assert ((a + tick_ms c - 1) / tick_ms c ≤ a).
  { destruct (decide (a = 0)) as [->|]; [rewrite Z.div_small by lia; lia|].
    apply Z.div_le_upper_bound; nia. }
  unfold u64_max, u64_modulus in *. lia.
Qed.
End Timers.

Section ReachTimers.
Context `{HashIter} {S V M : Type} `{!ViewMapOps V M} `{!ViewMapLaws V M}.
Context `{!Bincode WireMessage}.
Context (name : string) (p : S → V) (w : Z)
  (ser : SerializeViewFn V) (de : DeserializeViewFn V) (ap : option (InboundDeltaApplierFn V)).
Implicit Types (c : MockCluster S V M) (x : MockNode S V M).

Lemma add_node_timers c e v c' : add_node c e v = Done c' → timers_ok c → timers_ok c'.
Proof.
  unfold add_node. case_bool_decide; [done|].
  destruct (announce_to_existing _ _ _ _) as [[c1 l]|] eqn:Ha; [|done]. cbn [outcome_bind mbind].
  destruct (announce_existing _ _ _ _) as [[e' l']|]; [|done]. intros [= <-] Hok.
  set (c2 := route_all c1 l).
  assert (timers_ok c2) as Hok2.
  { eapply nodes_rel_timers_ok; [|exact Hok]. etrans; [by eapply announce_to_existing_timers|].
    apply (fold_rel same_timers). intros c0 q. apply route_actions_timers. }
  eapply nodes_rel_timers_ok;
    [apply (fold_rel same_timers); intros c0 q; apply route_actions_timers|].
  destruct Hok2 as (He & Hz & Hn). split_and!; [done..|]. simpl.
  intros k x [[<- <-]|[_ Hx]]%lookup_insert_Some; [|by eapply Hn].
  pose proof (feed_interval_range c2 e). unfold node_timers. simpl. lia.
Qed.

Lemma remove_node_timers c id : nodes_rel same_timers c (remove_node c id).
Proof.
  split_and!; [done..|]. intros k x. unfold remove_node, set_nodes, all_on_node_left.
  cbn [mc_nodes]. rewrite lookup_fmap. 
  intros (y & [_ Hy]%lookup_delete_Some & ->)%fmap_Some. by exists y.
Qed.

Lemma reach_timers_ok used c : cluster_reach name p w ser de ap used c → timers_ok c.
Proof.
  induction 1 as [clock d seed|used c id x cfg clk v c' _ IH Hre Ha
    |used c id nd f u c' _ IH Hnd Hage Hm|used c c' _ IH Htick
    |used c id _ IH|used c id _ IH|used c d _ IH Hd|used c _ IH].
  - split_and!; simpl; [done..|]. intros id x. by rewrite lookup_empty.
  - by eapply add_node_timers.
  - revert Hm. unfold cluster_mutate. rewrite Hnd. cbn [expect outcome_bind mbind].
    destruct (mutate _ _ _ _ _) as [e r]. intros [= <-]. eapply nodes_rel_timers_ok; [|exact IH].
    etrans; [by apply set_engine_timers|apply route_actions_timers].
  - by eapply tick_timers.
  - eapply nodes_rel_timers_ok; [apply remove_node_timers|done].
  - eapply nodes_rel_timers_ok; [|exact IH]. etrans; [|apply remove_node_timers].
    by apply (nodes_rel_transport same_timers).
  - eapply nodes_rel_timers_ok; [by apply (nodes_rel_transport same_timers)|done].
  - eapply nodes_rel_timers_ok; [by apply (nodes_rel_transport same_timers)|done].
Qed.
End ReachTimers.

(** ** Deadlines *)
Section Deadlines.
Context `{HashIter} {S V M : Type} `{!ViewMapOps V M} `{!ViewMapLaws V M}.
Context `{!Bincode WireMessage} `{!BincodeLaws WireMessage}.
Local Abbreviation cluster := (MockCluster S V M).
Local Abbreviation engine := (DistributedStateEngine S V M).
Implicit Types (c : cluster) (x : MockNode S V M) (t : MockTransport) (e : engine).
(** The most ticks an interceptor adds. *)
Context (B : Z).

(** The answers of what a transport carries. *)
Definition replies_of (data : bytes) : Z :=
  match bincode_deserialize data with Ok m => replies m | Err _ => 0 end.

(** By when everything a message causes has arrived: a message in flight, a scheduled
    send, a pending change feed. *)
Definition flight_deadline (now : Z) (m : InFlightMessage) : Z :=
  Z.max (deliver_at_tick m) now + (1 + B) * replies_of (if_data m).
Definition send_deadline (tick : Z) (m : WireMessage) : Z := tick + (1 + B) * (1 + replies m).
Definition scheduled_deadline (now : Z) (a : ScheduledAction) : Z :=
  send_deadline (Z.max (sc_deliver_at_tick a) now) (WireSync (sc_message a)).
Definition feed_deadline (now : Z) x : list Z :=
  match pending_change_feed_count (mn_engine x) with
  | O => []
  | _ => [now + (feed_flush_interval x - feed_flush_counter x) + B]
  end.
Definition node_deadlines (now : Z) x : list Z :=
  feed_deadline now x ++ (scheduled_deadline now <$> scheduled x).
Definition deadlines c : list Z :=
  let now := mc_current_tick c in
  (flight_deadline now <$> in_flight (mc_transport c)) ++
  (hm_iter (mc_nodes c) ≫= λ p, node_deadlines now p.2).
(** The tick by which the cluster is settled. *)
Definition deadline c : Z := foldr Z.max (mc_current_tick c) (deadlines c).

(** Everything is due by [T]. *)
Definition node_on_time (T now : Z) x : Prop := ∀ d, d ∈ node_deadlines now x → d ≤ T.
Definition on_time (T : Z) c : Prop :=
  Forall (tame B) (interceptors (mc_transport c)) ∧
  (∀ m, m ∈ in_flight (mc_transport c) → flight_deadline (mc_current_tick c) m ≤ T) ∧
  (∀ id x, mc_nodes c !! id = Some x → node_on_time T (mc_current_tick c) x).

Lemma foldr_max_ge (z : Z) l : z ≤ foldr Z.max z l ∧ ∀ d, d ∈ l → d ≤ foldr Z.max z l.
Proof.
  induction l as [|x l [IH1 IH2]]; simpl; [split; [done|by intros d ?%elem_of_nil]|].
  split; [lia|]. intros d [->|?%IH2]%elem_of_cons; lia.
Qed.

Lemma deadline_on_time c :
  Forall (tame B) (interceptors (mc_transport c)) → on_time (deadline c) c.
Proof.
  intros Ht. destruct (foldr_max_ge (mc_current_tick c) (deadlines c)) as [_ Hmax].
  split_and!; [done|..].
  - intros m Hm. apply Hmax, elem_of_app. left. apply list_elem_of_fmap. eauto.
  - intros id x Hx d Hd. apply Hmax, elem_of_app. right. apply list_elem_of_bind.
    exists (id, x). by rewrite elem_of_hm_iter.
Qed.

(** After the deadline nothing is left. *)
Lemma past_deadline T c :
  0 ≤ B → timers_ok c → on_time T c → T < mc_current_tick c → is_settled c = true.
Proof.
  intros HB (_ & _ & Hn) (_ & Hf & Hx) Hlt. apply is_settled_spec. split.
  - destruct (in_flight (mc_transport c)) as [|m l]; [done|].
    specialize (Hf m ltac:(by left)). unfold flight_deadline, replies_of in Hf.
    case_match; [pose proof (replies_nonneg a)|]; nia.
  - intros id x Hid. specialize (Hx id x Hid). pose proof (Hn id x Hid) as [Hc _].
    unfold node_on_time, node_deadlines, feed_deadline in Hx. split.
    + destruct (scheduled x) as [|a l]; [done|].
      specialize (Hx (scheduled_deadline (mc_current_tick c) a)).
      unfold scheduled_deadline, send_deadline in Hx. pose proof (replies_nonneg (WireSync (sc_message a))).
      specialize (Hx ltac:(apply elem_of_app; right; by left)). nia.
    + destruct (pending_change_feed_count _) as [|k]; [done|].
      specialize (Hx _ ltac:(apply elem_of_app; left; by left)). lia.
Qed.

(** *** Answers *)

(** An answer: one targeted message that causes fewer answers than [msg] did. *)
Definition answer_to (msg : WireMessage) (a : EngineAction) : Prop :=
  ∃ target m, a = SendSync target m ∧ replies (WireSync m) < replies msg.

Lemma handle_inbound_answers e msg (clk : TestClock) e' acts a :
  handle_inbound e msg clk = Done (e', acts) → a ∈ acts → answer_to msg a.
Proof.
  destruct msg as [[n s g w' d|n s g w' d|n r]|f]; simpl.
  - intros [= Heq] Ha. assert ((handle_full_snapshot e n s g w' d clk).2 = []) as Hnil.
    { unfold handle_full_snapshot. by repeat (case_match; simpl). }
    rewrite Heq in Hnil. simpl in Hnil. subst acts. by apply elem_of_nil in Ha.
  - intros [= Heq] Ha. assert (a ∈ (handle_delta_update e n s g w' d clk).2) as Hin
      by by rewrite Heq.
    revert Hin. unfold handle_delta_update, make_snapshot_request.
    repeat (case_match; simpl); first [by intros ?%elem_of_nil
      |intros ->%list_elem_of_singleton; eexists _, _; split; [done|simpl; lia]].
  - unfold handle_request_snapshot.
    case_match; [by intros [= _ <-] ?%elem_of_nil|].
    case_match; [by intros [= _ <-] ?%elem_of_nil|].
    destruct (own_view_value e); simpl; [|done].
    intros [= _ <-] ->%list_elem_of_singleton. eexists _, _. split; [done|simpl; lia].
  - by intros [= _ <-] ?%elem_of_nil.
Qed.

Lemma set_engine_books c id x e :
  mc_nodes c !! id = Some x → cf_pending (change_feed e) = cf_pending (change_feed (mn_engine x)) →
  nodes_rel same_books c (set_node c id (set_mn_engine x e)).
Proof. intros Hx Hf. eapply (nodes_rel_node same_books); [done|]. by split_and!. Qed.

Lemma deliver_messages_books msgs : ∀ c c' l,
  deliver_messages c msgs = Done (c', l) →
  nodes_rel same_books c c' ∧ mc_transport c' = mc_transport c ∧
  ∀ id acts a, (id, acts) ∈ l → a ∈ acts → ∃ msg, msg ∈ msgs ∧ answer_to (dm_message msg) a.
Proof.
  induction msgs as [|msg msgs IH]; intros c c' l; simpl.
  { intros [= <- <-]. split_and!; [done..|]. by intros ??? ?%elem_of_nil. }
  destruct (mc_nodes c !! dm_to msg) as [x|] eqn:Hx.
  - destruct (handle_inbound _ _ _) as [[e acts]|] eqn:Hh; simpl; [|done].
    destruct (deliver_messages _ msgs) as [[c1 l1]|] eqn:Hr; simpl; [|done].
    destruct (IH _ _ _ Hr) as (Hb & Ht & Hl). intros [= <- <-]. split_and!.
    + etrans; [eapply set_engine_books; [done|]|exact Hb].
      by rewrite (handle_inbound_feed _ _ _ _ _ Hh).
    + by rewrite Ht.
    + assert (∀ id acts' a, (id, acts') ∈ (dm_to msg, acts) :: l1 → a ∈ acts' →
        ∃ m, m ∈ msg :: msgs ∧ answer_to (dm_message m) a) as Hall.
      { intros id acts' a [[= -> ->]|Hin]%elem_of_cons Ha.
        - exists msg. split; [by left|by eapply handle_inbound_answers].
        - destruct (Hl _ _ _ Hin Ha) as (m & ? & ?). exists m. split; [by right|done]. }
      destruct acts; [|exact Hall]. intros id acts' a Hin Ha. apply (Hall id acts'); [by right|done].
  - intros Hr. destruct (IH _ _ _ Hr) as (Hb & Ht & Hl). split_and!; [done..|].
    intros id acts a Hin Ha. destruct (Hl _ _ _ Hin Ha) as (m & ? & ?). exists m.
    split; [by right|done].
Qed.

(** *** Sends in time *)

(** The transport within a tick at [now]: what it carries is for later ticks. *)
Definition carries (T now : Z) t : Prop :=
  Forall (tame B) (interceptors t) ∧ current_tick t = now ∧
  ∀ m, m ∈ in_flight t →
    now < deliver_at_tick m ∧ deliver_at_tick m + (1 + B) * replies_of (if_data m) ≤ T.

Lemma queued_in_time T now to msg m :
  0 ≤ B → 0 ≤ now → T < u64_max → send_deadline now msg ≤ T →
  queued_ok (λ k, 0 ≤ k ≤ B) now to (bincode_serialize msg) m →
  now < deliver_at_tick m ∧ deliver_at_tick m + (1 + B) * replies_of (if_data m) ≤ T.
Proof.
  unfold send_deadline, replies_of. intros HB Hnow HT Hd (_ & -> & Hdue).
  rewrite bincode_roundtrip. pose proof (replies_nonneg msg).
  assert (now + 1 + B ≤ T) by nia. unfold u64_max in *.
  destruct Hdue as [->|(k & Hk & ->)]; rewrite !u64_add_small by (rewrite ?u64_add_small by lia; lia);
    nia.
Qed.

Lemma send_carries T now from to msg t :
  0 ≤ B → 0 ≤ now → T < u64_max → send_deadline now msg ≤ T →
  carries T now t → carries T now (transport_send t from to msg).
Proof.
  intros HB Hnow HT Hd (Ht & Hc & Hf).
  destruct (send_bytes_obeys _ t from to (bincode_serialize msg) Ht) as (Ht' & Hc' & l & Hl & Hm).
  split_and!; [done|unfold transport_send; congruence|]. unfold transport_send. rewrite Hl.
  intros m [?|Hin]%elem_of_app; [auto|]. rewrite Hc in Hm. by eapply queued_in_time; [..|by apply Hm].
Qed.

Lemma broadcast_carries T now from msg all t :
  0 ≤ B → 0 ≤ now → T < u64_max → send_deadline now msg ≤ T →
  carries T now t → carries T now (transport_broadcast t from msg all).
Proof.
  intros HB Hnow HT Hd (Ht & Hc & Hf).
  destruct (broadcast_obeys _ from msg all t Ht) as (Ht' & Hc' & l & Hl & Hm).
  split_and!; [done|congruence|]. rewrite Hl. rewrite Hc in Hm.
  intros m [?|Hin]%elem_of_app; [auto|]. destruct (Hm m Hin) as (to & _ & _ & ?).
  by eapply queued_in_time.
Qed.
(** *** The phases of a tick *)

(** The cluster within a tick at [now]: the transport carries only later messages, and
    the nodes are on time as [Q] says. *)
Definition within (T now : Z) (Q : NodeId → MockNode S V M → Prop) c : Prop :=
  mc_current_tick c = now ∧ carries T now (mc_transport c) ∧
  ∀ id x, mc_nodes c !! id = Some x → node_timers x ∧ Q id x.

Lemma same_books_on_time T now x x' : same_books x x' → node_on_time T now x → node_on_time T now x'.
Proof.
  intros ((Hc & Hi) & Hs & Hp). unfold node_on_time, node_deadlines, feed_deadline,
    pending_change_feed_count, pending_count. by rewrite Hc, Hi, Hs, Hp.
Qed.

Lemma deliver_phase_on_time T c c' :
  0 ≤ B → T < u64_max → timers_ok c → on_time T c → deliver_phase c = Done c' →
  within T (mc_current_tick c) (λ _, node_on_time T (mc_current_tick c)) c'.
Proof.
  intros HB HT (He & Hnow & Hn) (Ht & Hf & Hx). set (now := mc_current_tick c) in *.
  unfold deliver_phase. rewrite deliver_due_eq. cbn [corrupted delivered].
  set (c1 := mkCluster _ _ _ _ _ _).
  assert (carries T now (mc_transport c1)) as Hc1.
  { split_and!; [done|done|]. simpl. unfold is_due. rewrite <- He.
    intros m [Hdue Hm]%list_elem_of_filter. specialize (Hf m Hm). unfold flight_deadline in Hf. lia. }
  destruct (deliver_messages c1 _) as [[c2 l]|] eqn:Hd; [|done]. intros [= <-].
  destruct (deliver_messages_books _ _ _ _ Hd) as ((Hc2 & _ & Hb) & Htr & Hl).
  assert (within T now (λ _, node_on_time T now) c2) as Hw.
  { split_and!; [done|by rewrite Htr|]. intros id x' (x & Hid & Hsame)%Hb. split.
    - destruct Hsame as [[Hcnt Hint] _]. unfold node_timers. rewrite Hcnt, Hint. by apply (Hn id).
    - eapply same_books_on_time; [done|]. by eapply Hx. }
  assert (∀ id acts a, (id, acts) ∈ l → a ∈ acts →
    ∃ target m, a = SendSync target m ∧ send_deadline now (WireSync m) ≤ T) as Hans.
  { intros id acts a Hin Ha. destruct (Hl _ _ _ Hin Ha) as (d & Hd' & tgt & m & -> & Hlt).
    exists tgt, m. split; [done|]. apply list_elem_of_omap in Hd' as (y & Hy & Hdec).
    apply list_elem_of_filter in Hy as [_ Hy]. specialize (Hf y Hy).
    unfold decode_delivered in Hdec. unfold flight_deadline, replies_of in Hf.
    destruct (bincode_deserialize (if_data y)) as [msg|]; [|done]. injection Hdec as <-.
    cbn [dm_message] in Hlt. unfold send_deadline.
    assert ((1 + B) * (1 + replies (WireSync m)) ≤ (1 + B) * replies msg) by nia. lia. }
  clear Hd Hl Htr Hb Hc2 Hc1. revert c2 Hw. induction l as [|[id acts] l IH]; intros c2 Hw; simpl; [done|].
  apply IH; [intros; eapply Hans; [by right|done]|].
  assert (∀ a, a ∈ acts → ∃ target m, a = SendSync target m ∧ send_deadline now (WireSync m) ≤ T)
    as Hacts by (intros a; eapply Hans; by left).
  unfold cluster_route_actions. generalize (all_node_ids c2) as all. clear IH Hans.
  revert c2 Hw. induction acts as [|a acts IH]; intros c2 Hw all; simpl; [done|].
  apply IH; [intros; apply Hacts; by right|].
  destruct (Hacts a ltac:(by left)) as (tgt & m & -> & Hm). destruct Hw as (Hc & Htr & Hw).
  split_and!; [done|by apply send_carries|done].
Qed.

(** A scheduled send leaves the node in the phase of the timers. *)
Definition timers_done (T now : Z) x : Prop :=
  node_on_time T now x ∧ ∀ a, a ∈ scheduled x → now < sc_deliver_at_tick a.

Lemma timer_one_on_time T now (Q : NodeId → Prop) c id :
  0 ≤ B → 0 ≤ now → T < u64_max →
  within T now (λ k x, node_on_time T now x ∧ (Q k → timers_done T now x)) c →
  within T now (λ k x, node_on_time T now x ∧ (Q k ∨ k = id → timers_done T now x)) (timer_one c id).
Proof.
  intros HB Hnow HT (Hc & Htr & Hw). unfold timer_one.
  destruct (mc_nodes c !! id) as [x|] eqn:Hid.
  2: { split_and!; [done..|]. intros k x Hk. destruct (Hw k x Hk) as (? & ? & ?).
    split_and!; [done..|]. intros [?| ->]; [auto|congruence]. }
  destruct (Hw id x Hid) as (Hti & Hot & _). rewrite Hc.
  set (c1 := set_node _ _ _).
  assert (within T now (λ k x, node_on_time T now x ∧ (Q k ∨ k = id → timers_done T now x)) c1) as Hw1.
  { split_and!; [done..|]. simpl. intros k y [[<- <-]|[Hne Hy]]%lookup_insert_Some.
    - assert (node_on_time T now (mkMockNode (mn_engine x)
        (filter (λ a, ¬ sc_deliver_at_tick a ≤ now) (scheduled x)) (feed_flush_counter x)
        (feed_flush_interval x))) as Hy.
      { intros d [Hd|(a & -> & [_ Ha]%list_elem_of_filter)%list_elem_of_fmap]%elem_of_app;
          apply Hot, elem_of_app; [by left|right]. apply list_elem_of_fmap. eauto. }
      split_and!; [done..|]. split; [done|]. simpl.
      intros a [Ha _]%list_elem_of_filter. lia.
    - destruct (Hw k y Hy) as (? & ? & ?). split_and!; [done..|]. intros [?|?]; [auto|congruence]. }
  assert (∀ a, a ∈ filter (λ a, sc_deliver_at_tick a ≤ now) (scheduled x) →
    send_deadline now (WireSync (sc_message a)) ≤ T) as Hdue.
  { intros a [Hle Ha]%list_elem_of_filter.
    assert (scheduled_deadline now a ≤ T) as Hd.
    { apply Hot, elem_of_app. right. apply list_elem_of_fmap. eauto. }
    unfold scheduled_deadline in Hd. by rewrite Z.max_r in Hd. }
  revert Hw1. generalize c1. clear c1. revert Hdue.
  generalize (filter (λ a, sc_deliver_at_tick a ≤ now) (scheduled x)) as l.
  induction l as [|a l IH]; intros Hdue c1 Hw1; simpl; [done|].
  apply IH; [intros; apply Hdue; by right|]. destruct Hw1 as (Hc1 & Htr1 & Hn1).
  split_and!; [done| |done]. apply broadcast_carries; try done. apply Hdue. by left.
Qed.
Lemma timers_done_next T now x :
  timers_done T now x → (∀ d, d ∈ feed_deadline (now + 1) x → d ≤ T) →
  node_on_time T (now + 1) x.
Proof.
  intros [Hot Hs] Hf d [Hd|(a & -> & Ha)%list_elem_of_fmap]%elem_of_app; [by apply Hf|].
  assert (scheduled_deadline now a ≤ T) as Hd.
  { apply Hot, elem_of_app. right. apply list_elem_of_fmap. eauto. }
  specialize (Hs a Ha). unfold scheduled_deadline in *. by rewrite Z.max_l in * by lia.
Qed.

(** A node whose feed is in time stays in the phase of the feeds. *)
Lemma timers_done_feed T now x x' :
  timers_done T now x → scheduled x' = scheduled x →
  (∀ d, d ∈ feed_deadline now x' → d ≤ T) → timers_done T now x'.
Proof.
  intros [Hot Hs] Heq Hf. split; [|by rewrite Heq].
  intros d [Hd|Hd]%elem_of_app; [by apply Hf|]. rewrite Heq in Hd. apply Hot, elem_of_app. by right.
Qed.

Lemma flush_empties e e' b :
  flush_change_feed e = (e', b) → pending_change_feed_count e' = 0%nat.
Proof.
  unfold flush_change_feed, pending_change_feed_count, pending_count.
  destruct (change_feed_flush (change_feed e)) as [cf batch] eqn:Hf. intros [= <- <-]. simpl.
  destruct batch as [b|].
  - destruct (flush_some _ _ _ Hf) as (-> & _). apply map_size_empty.
  - apply flush_none in Hf as [-> ->]. apply map_size_empty.
Qed.

Lemma flush_one_on_time T now (Q : NodeId → Prop) c id :
  0 ≤ B → 0 ≤ now → T < u64_max →
  within T now (λ k x, timers_done T now x ∧ (Q k → node_on_time T (now + 1) x)) c →
  within T now (λ k x, timers_done T now x ∧ (Q k ∨ k = id → node_on_time T (now + 1) x))
    (flush_one c id).
Proof.
  intros HB Hnow HT (Hc & Htr & Hw). unfold flush_one.
  destruct (mc_nodes c !! id) as [x|] eqn:Hid.
  2: { split_and!; [done..|]. intros k x Hk. destruct (Hw k x Hk) as (? & ? & ?).
    split_and!; [done..|]. intros [?| ->]; [auto|congruence]. }
  destruct (Hw id x Hid) as (Hti & Htd & _). pose proof Hti as [Hcnt Hmax].
  (* replacing the node by one whose feed is in time at both ticks *)
  assert (∀ x', node_timers x' → scheduled x' = scheduled x →
    (∀ d, d ∈ feed_deadline now x' ++ feed_deadline (now + 1) x' → d ≤ T) →
    within T now (λ k x, timers_done T now x ∧ (Q k ∨ k = id → node_on_time T (now + 1) x))
      (set_node c id x')) as Hset.
  { intros x' Hti' Hsc Hd. split_and!; [done..|]. simpl.
    assert (timers_done T now x') as Htd'.
    { eapply timers_done_feed; [done..|]. intros d ?. apply Hd, elem_of_app. by left. }
    intros k y [[<- <-]|[Hne Hy]]%lookup_insert_Some.
    - split_and!; [done..|]. intros _. apply timers_done_next; [done|].
      intros d ?. apply Hd, elem_of_app. by right.
    - destruct (Hw k y Hy) as (? & ? & ?). split_and!; [done..|]. intros [?|?]; [auto|congruence]. }
  unfold pending_change_feed_count in *.
  destruct (Z.ltb_spec 0 (Z.of_nat (pending_count (change_feed (mn_engine x))))) as [Hp|Hp].
  2: { apply Hset; [unfold node_timers; simpl; lia|done|]. unfold feed_deadline, pending_change_feed_count.
    simpl. assert (pending_count (change_feed (mn_engine x)) = 0%nat) as -> by lia.
    by intros d ?%elem_of_nil. }
  assert (now + (feed_flush_interval x - feed_flush_counter x) + B ≤ T) as Hdl.
  { apply (proj1 Htd), elem_of_app. left. unfold feed_deadline, pending_change_feed_count.
    destruct (pending_count _); [lia|by left]. }
  rewrite u64_succ_small by (unfold u64_max in *; lia).
  destruct (Z.leb_spec (feed_flush_interval x) (feed_flush_counter x + 1)) as [Hle|Hgt].
  - destruct (flush_change_feed (mn_engine x)) as [e b] eqn:Hf.
    pose proof (flush_empties _ _ _ Hf) as He.
    destruct (Hset (mkMockNode e (scheduled x) 0 (feed_flush_interval x))) as (Hc' & Htr' & Hw').
    { unfold node_timers; simpl; lia. }
    { done. }
    { unfold feed_deadline. simpl. rewrite He. by intros d ?%elem_of_nil. }
    destruct b; [|done]. split_and!; [done| |done]. apply broadcast_carries; try done.
    unfold send_deadline. simpl. lia.
  - apply Hset; [unfold node_timers; simpl; lia|done|]. unfold feed_deadline. simpl.
    destruct (pending_change_feed_count _); [by intros d ?%elem_of_nil|].
    intros d [->|[->|?%elem_of_nil]%elem_of_cons]%elem_of_cons; [lia|lia|done].
Qed.

(** Folding a phase over the nodes. *)
Lemma fold_phase (step : cluster → NodeId → cluster) T now (P R : MockNode S V M → Prop) ids :
  (∀ (Q : NodeId → Prop) c id,
     within T now (λ k x, P x ∧ (Q k → R x)) c →
     within T now (λ k x, P x ∧ (Q k ∨ k = id → R x)) (step c id)) →
  ∀ (Q : NodeId → Prop) c, within T now (λ k x, P x ∧ (Q k → R x)) c →
    within T now (λ k x, P x ∧ (Q k ∨ k ∈ ids → R x)) (foldl step c ids).
Proof.
  intros Hstep. induction ids as [|id ids IH]; intros Q c (Hc & Htr & Hw); simpl.
  - split_and!; [done..|]. intros k x Hk. destruct (Hw k x Hk) as (? & ? & HR).
    split_and!; [done..|]. intros [?|?%elem_of_nil]; [auto|done].
  - destruct (IH (λ k, Q k ∨ k = id) _ (Hstep Q c id (conj Hc (conj Htr Hw)))) as (Hc' & Htr' & Hw').
    split_and!; [done..|]. intros k x Hk. destruct (Hw' k x Hk) as (? & ? & HR).
    split_and!; [done..|]. rewrite elem_of_cons. naive_solver.
Qed.
(** A phase that visits every node. *)
Lemma phase_visits (step : cluster → NodeId → cluster) T now (P R : MockNode S V M → Prop) c :
  (∀ (Q : NodeId → Prop) c id,
     within T now (λ k x, P x ∧ (Q k → R x)) c →
     within T now (λ k x, P x ∧ (Q k ∨ k = id → R x)) (step c id)) →
  (∀ c id k, is_Some (mc_nodes (step c id) !! k) → is_Some (mc_nodes c !! k)) →
  within T now (λ _ x, P x) c →
  ∀ ids, (∀ k, is_Some (mc_nodes c !! k) → k ∈ ids) →
  within T now (λ _ x, R x) (foldl step c ids) ∧
  ∀ k, is_Some (mc_nodes (foldl step c ids) !! k) → is_Some (mc_nodes c !! k).
Proof.
  intros Hstep Hdom (Hc & Htr & Hw) ids Hids.
  assert (∀ l c', ∀ k, is_Some (mc_nodes (foldl step c' l) !! k) → is_Some (mc_nodes c' !! k)) as Hfold.
  { induction l as [|id l IH]; intros c' k; simpl; [done|]. intros ?%IH. by eapply Hdom. }
  split; [|apply Hfold].
  destruct (fold_phase step T now P R ids Hstep (λ _, False) c) as (Hc' & Htr' & Hw').
  { split_and!; [done..|]. intros k x Hk. destruct (Hw k x Hk). by split_and!. }
  split_and!; [done..|]. intros k x Hk. destruct (Hw' k x Hk) as (? & _ & HR). split; [done|].
  apply HR. right. apply Hids, (Hfold ids). eauto.
Qed.

Lemma timer_one_dom c id k :
  is_Some (mc_nodes (timer_one c id) !! k) → is_Some (mc_nodes c !! k).
Proof. intros [x Hx]. destruct (timer_one_timers c id) as (_ & _ & Hn). destruct (Hn k x Hx) as (y & ? & _). eauto. Qed.

Lemma flush_one_dom c id k :
  is_Some (mc_nodes (flush_one c id) !! k) → is_Some (mc_nodes c !! k).
Proof.
  unfold flush_one. destruct (mc_nodes c !! id) as [x|] eqn:Hx; [|done].
  assert (∀ y, is_Some (mc_nodes (set_node c id y) !! k) → is_Some (mc_nodes c !! k)) as Hset.
  { intros y. simpl. rewrite lookup_insert_is_Some'. intros [<-|?]; eauto. }
  repeat case_match; apply Hset.
Qed.

(** One tick later everything is still due by [T]. *)
Lemma tick_on_time T c c' :
  0 ≤ B → T < u64_max → mc_current_tick c ≤ T → timers_ok c → on_time T c → tick c = Done c' →
  on_time T c' ∧ mc_current_tick c' = mc_current_tick c + 1.
Proof.
  intros HB HT Hle Hok Hot. unfold tick. destruct (deliver_phase c) as [c1|] eqn:Hd; [|done].
  intros [= <-]. set (now := mc_current_tick c) in *. pose proof Hok as (_ & Hnow & _).
  fold now in Hnow. set (ids := all_node_ids c1).
  assert (∀ k, is_Some (mc_nodes c1 !! k) → k ∈ ids) as Hids.
  { intros k [x Hx]. apply list_elem_of_fmap. exists (k, x). by rewrite elem_of_hm_iter. }
  destruct (phase_visits timer_one T now (node_on_time T now) (timers_done T now) c1) with (ids := ids)
    as [Hw2 Hdom2]; [intros; by apply timer_one_on_time|apply timer_one_dom| |done|].
  { by apply deliver_phase_on_time. }
  destruct (phase_visits flush_one T now (timers_done T now) (node_on_time T (now + 1))
    (foldl timer_one c1 ids)) with (ids := ids) as [(Hc3 & (Ht & Htick & Hf) & Hw3) _];
    [intros; by apply flush_one_on_time|apply flush_one_dom|done|auto|].
  set (c3 := foldl flush_one (foldl timer_one c1 ids) ids) in *.
  assert (u64_add now 1 = now + 1) as Hsucc by (apply u64_succ_small; unfold u64_max in *; lia).
  unfold advance_phase, on_time. simpl. rewrite Hc3, Hsucc. split; [|done]. split_and!; [done| |].
  - intros m Hm. destruct (Hf m Hm) as [? ?]. unfold flight_deadline. lia.
  - intros id x Hx. by apply Hw3 in Hx as [_ ?].
Qed.
End Deadlines.

(** ** The loop *)
Section Loop.
Context `{HashIter} {S V M : Type} `{!ViewMapOps V M} `{!ViewMapLaws V M}.
Context `{!Bincode WireMessage} `{!BincodeLaws WireMessage}.
Context (name : string) (p : S → V) (w : Z)
  (ser : SerializeViewFn V) (de : DeserializeViewFn V) (ap : option (InboundDeltaApplierFn V)).
Local Abbreviation reach := (cluster_reach name p w ser de ap).

Lemma reach_tick_done used (c : MockCluster S V M) :
  reach used c → ∃ c', tick c = Done c' ∧ reach used c'.
Proof.
  intros Hr. destruct (reach_tracked name p w ser de ap used c Hr) as (n & _ & Hsim & _).
  destruct (tick_sim name p w ser de ap c n Hsim) as (c' & n' & Htick & _).
  exists c'. split; [done|by eapply reach_tick].
Qed.

Lemma settle_loop B T used limit : ∀ c : MockCluster S V M,
  0 ≤ B → T < u64_max → reach used c → on_time B T c → T < mc_current_tick c + Z.of_nat limit →
  ∃ c' ticks, settle_with_limit c limit = Done (c', ticks) ∧ is_settled c' = true ∧ reach used c' ∧
    Z.of_nat ticks ≤ Z.max 0 (T + 1 - mc_current_tick c).
Proof.
  induction limit as [|limit IH]; intros c HB HT Hr Hot Hlim.
  { exists c, 0%nat. pose proof (reach_timers_ok _ _ _ _ _ _ _ _ Hr) as Hok.
    assert (is_settled c = true) as Hs by (eapply past_deadline; [done..|lia]).
    simpl. rewrite Hs. split_and!; [done..|lia]. }
  cbn [settle_with_limit]. destruct (is_settled c) eqn:Hs.
  { exists c, 0%nat. split_and!; [done..|lia]. }
  pose proof (reach_timers_ok _ _ _ _ _ _ _ _ Hr) as Hok.
  assert (mc_current_tick c ≤ T) as Hle.
  { destruct (decide (mc_current_tick c ≤ T)); [done|].
    rewrite (past_deadline B T c) in Hs; [done..|lia]. }
  destruct (reach_tick_done used c Hr) as (c1 & Htick & Hr1). rewrite Htick. cbn [outcome_bind mbind].
  destruct (tick_on_time B T c c1 HB HT Hle Hok Hot Htick) as [Hot1 Hnow].
  destruct (IH c1 HB HT Hr1 Hot1 ltac:(lia)) as (c' & k & -> & Hset & Hr' & Hk).
  exists c', (Datatypes.S k). split_and!; [done..|lia].
Qed.
End Loop.

(** [C3] Termination of [settle].  Whatever was done to a cluster through its operations, with
    interceptors that forge nothing and delay by at most [B] ticks (they may drop, duplicate
    and partition): with a limit beyond
    [deadline B c], the loop does not run into its limit and no tick panics; it returns
    a settled cluster after at most as many ticks as there are up to the deadline. *)
Theorem settle_terminates `{HashIter} {S V M} `{!ViewMapOps V M} `{!ViewMapLaws V M}
    `{!Bincode WireMessage} `{!BincodeLaws WireMessage}
    (name : string) (p : S → V) (w : Z) (ser : SerializeViewFn V) (de : DeserializeViewFn V)
    (ap : option (InboundDeltaApplierFn V)) (used : gmap NodeId Z) (c : MockCluster S V M)
    (B : Z) (limit : nat) :
  cluster_reach name p w ser de ap used c →
  0 ≤ B → Forall (tame B) (interceptors (mc_transport c)) →
  deadline B c < u64_max → deadline B c < mc_current_tick c + Z.of_nat limit →
  ∃ c' ticks, settle_with_limit c limit = Done (c', ticks) ∧ is_settled c' = true ∧
    cluster_reach name p w ser de ap used c' ∧
    Z.of_nat ticks ≤ deadline B c + 1 - mc_current_tick c.
Proof.
  intros Hr HB Ht HT Hlim.
  destruct (settle_loop name p w ser de ap B (deadline B c) used limit c HB HT Hr
    (deadline_on_time B c Ht) Hlim) as (c' & k & Hs & Hset & Hr' & Hk).
  exists c', k. split_and!; [done..|].
  destruct (foldr_max_ge (mc_current_tick c) (deadlines B c)) as [Hge _]. unfold deadline in *. lia.
Qed.
