(* ===== verification/Channel.v ===== *)
(** What one node knows of another over a network that loses nothing and keeps the order:
    an abstract specification, without engines.

    A channel leads from a node, the sender, to another one that observes it.  The sender
    has a generation, perhaps a pending announcement and some scheduled snapshots; on the
    way are snapshots and announcements; the observer has an entry.  The [chain] of a
    channel is the sequence of generations that were announced by change feeds and not
    superseded: the pending one of the entry, those on the way, the one not flushed yet.
    The chain is ordered, and the pair is [covered]: the entry shows the sender's
    generation, or a snapshot of it is on its way, or it is on the chain. *)
From stdpp Require Import prelude strings sorting.
From S2P Require Import Prelude Node ShardCore ShardProps.

(** ** Data *)

(** The entry of the sender at the observer, and the observer. *)
Record entry : Type := mkEntry {
  en_generation : Generation;
  en_pending : option Generation
}.
Record observer : Type := mkObserver {
  ob_accepts : bool;
  ob_entry : option entry
}.

(** The sender; [sd_feeds] says that it announces by change feeds. *)
Record sender : Type := mkSender {
  sd_generation : Generation;
  sd_pending : option Generation;
  sd_scheduled : list Generation;
  sd_feeds : Prop
}.

Inductive packet : Type :=
| Snapshot (g : Generation)
| Announce (gs : list Generation).

Implicit Types (g : Generation) (e : entry) (ob : observer) (s : sender) (pk : packet).
Implicit Types (q : list packet) (ox : option sender) (oy : option observer).

(** *** What the observer does *)
Definition mark e g : entry :=
  if generation_leb g (en_generation e) then e else mkEntry (en_generation e) (Some g).
Definition mark_all e (gs : list Generation) : entry := foldl mark e gs.

Definition take_snapshot g (o : option entry) : option entry :=
  match o with
  | Some e =>
      if generation_ltb (en_generation e) g
      then Some (mkEntry g (pending_after g (en_pending e))) else Some e
  | None => Some (mkEntry g None)
  end.

Definition receive pk ob : observer :=
  if ob_accepts ob then
    mkObserver true
      (match pk with
       | Snapshot g => take_snapshot g (ob_entry ob)
       | Announce gs => (λ e, mark_all e gs) <$> ob_entry ob
       end)
  else ob.

(** The generation a placeholder waits for, and the observer of a node that joins. *)
Definition unsynced : Generation := generation_new 1 0.
Definition joined ob : observer :=
  mkObserver true (Some (default (mkEntry generation_zero (Some unsynced)) (ob_entry ob))).

(** ** The invariant of a channel *)
Definition announced pk : list Generation := match pk with Announce gs => gs | _ => [] end.
Definition carried pk : list Generation := match pk with Snapshot g => [g] | _ => [] end.

Definition held oy : list Generation :=
  option_list ((oy ≫= ob_entry) ≫= en_pending).
Definition shown oy : list Generation := option_list (en_generation <$> (oy ≫= ob_entry)).
Definition unflushed ox : list Generation := option_list (ox ≫= sd_pending).
Definition waiting ox : list Generation := default [] (sd_scheduled <$> ox).

Definition chain ox oy q : list Generation := held oy ++ (q ≫= announced) ++ unflushed ox.
Definition snapshots ox q : list Generation := (q ≫= carried) ++ waiting ox.

(** Not ahead of the sender; [z] is the latest incarnation of its name. *)
Definition bounded (z : option Z) ox g : Prop :=
  match ox with
  | Some s => g ≤g sd_generation s
  | None => g ≤g unsynced ∨ ∃ i, z = Some i ∧ incarnation g ≤ i
  end.

Definition ordered (l : list Generation) : Prop := StronglySorted gen_le l.

Definition covered s e q (ch : list Generation) : Prop :=
  en_generation e = sd_generation s ∨ Snapshot (sd_generation s) ∈ q ∨
  sd_generation s ∈ sd_scheduled s ∨ (sd_feeds s ∧ sd_generation s ∈ ch).

Definition paired ox oy q : Prop :=
  ∀ s ob, ox = Some s → oy = Some ob →
    ob_accepts ob = true ∧ ∃ e, ob_entry ob = Some e ∧ covered s e q (chain ox oy q).

Record channel (z : option Z) ox oy q : Prop := {
  ch_bounded : ∀ g, g ∈ shown oy ++ snapshots ox q ++ chain ox oy q → bounded z ox g;
  ch_lower : ∀ g, g ∈ chain ox oy q → unsynced ≤g g;
  ch_order : ordered (chain ox oy q);
  ch_paired : paired ox oy q
}.

(** *** Ordered lists *)
Lemma ordered_sublist l l' : l' `sublist_of` l → ordered l → ordered l'.
Proof.
  unfold ordered. induction 1 as [|x l1 l2 Hs IH|x l1 l2 Hs IH]; intros Ho; [done|..].
  - apply StronglySorted_cons in Ho as [Hx Ho]. apply StronglySorted_cons.
    split; [|auto]. apply Forall_forall. intros y Hy. eapply Forall_forall; [exact Hx|].
    by eapply elem_of_sublist.
  - apply StronglySorted_cons in Ho as [_ Ho]. auto.
Qed.

Lemma ordered_snoc l g : ordered l → (∀ g', g' ∈ l → g' ≤g g) → ordered (l ++ [g]).
Proof.
  intros Ho Hl. apply StronglySorted_app. split_and!; [|done|by repeat constructor].
  intros x y Hx ->%list_elem_of_singleton. auto.
Qed.

Lemma ordered_cons l g : ordered l → (∀ g', g' ∈ l → g ≤g g') → ordered (g :: l).
Proof. intros Ho Hl. apply StronglySorted_cons. split; [by apply Forall_forall|done]. Qed.

(** *** Marking *)
Lemma mark_generation e g : en_generation (mark e g) = en_generation e.
Proof. unfold mark. by case_match. Qed.

Lemma mark_all_generation gs : ∀ e, en_generation (mark_all e gs) = en_generation e.
Proof.
  unfold mark_all. induction gs as [|g gs IH]; intros e; simpl; [done|].
  by rewrite IH, mark_generation.
Qed.

Definition pending_list e : list Generation := option_list (en_pending e).

Lemma mark_pending e g : pending_list (mark e g) `sublist_of` pending_list e ++ [g].
Proof.
  unfold mark, pending_list. case_match; simpl.
  - apply sublist_inserts_r. done.
  - by apply sublist_inserts_l.
Qed.

Lemma mark_all_pending gs : ∀ e, pending_list (mark_all e gs) `sublist_of` pending_list e ++ gs.
Proof.
  unfold mark_all. induction gs as [|g gs IH]; intros e; simpl; [by rewrite app_nil_r|].
  etrans; [apply IH|]. change (g :: gs) with ([g] ++ gs). rewrite (assoc_L (++)).
  apply sublist_app; [apply mark_pending|done].
Qed.

(** The last generation announced, if nothing later is, is held or shown. *)
Lemma mark_keeps e g top :
  en_generation e ≤g top → g ≤g top → ordered (pending_list e ++ [g]) →
  top ∈ pending_list e ++ [g] → en_generation e = top ∨ top ∈ pending_list (mark e g).
Proof.
  intros He Hg Ho Hin. unfold mark. destruct (generation_leb g (en_generation e)) eqn:E.
  - apply elem_of_app in Hin as [Hin|Hin]; [by right|].
    apply list_elem_of_singleton in Hin as ->. left. apply generation_leb_le in E.
    by apply (anti_symm gen_le).
  - right. unfold pending_list. simpl. apply list_elem_of_singleton.
    apply elem_of_app in Hin as [Hin|Hin]; [|by apply list_elem_of_singleton in Hin].
    apply StronglySorted_app in Ho as (Ho & _). apply (anti_symm gen_le); [|done].
    apply Ho; [done|by left].
Qed.

Lemma mark_all_keeps top gs : ∀ e,
  en_generation e ≤g top → (∀ g, g ∈ gs → g ≤g top) → ordered (pending_list e ++ gs) →
  top ∈ pending_list e ++ gs →
  en_generation e = top ∨ top ∈ pending_list (mark_all e gs).
Proof.
  unfold mark_all. induction gs as [|g gs IH]; intros e He Hgs Ho Hin; simpl.
  { right. by rewrite app_nil_r in Hin. }
  assert (pending_list e ++ g :: gs = (pending_list e ++ [g]) ++ gs) as Heq
    by by rewrite <- (assoc_L (++)).
  rewrite Heq in Hin, Ho.
  assert (en_generation e = top ∨ top ∈ pending_list (mark e g) ++ gs) as [?|Hin']; [|by left|].
  { apply elem_of_app in Hin as [Hin|Hin]; [|right; apply elem_of_app; by right].
    destruct (mark_keeps e g top) as [?|Hk]; [done|apply Hgs; by left| |done|by left|].
    - eapply ordered_sublist; [|exact Ho]. by apply sublist_inserts_r.
    - right. apply elem_of_app. by left. }
  rewrite <- (mark_generation e g). apply IH; [by rewrite mark_generation| | |done].
  - intros g' ?. apply Hgs. by right.
  - eapply ordered_sublist; [|exact Ho]. apply sublist_app; [apply mark_pending|done].
Qed.

(** ** What happens on a channel keeps the invariant *)
Section Channel.
Implicit Types (z : option Z).

Lemma elem_of_chain ox oy q g :
  g ∈ chain ox oy q ↔ g ∈ held oy ∨ g ∈ q ≫= announced ∨ g ∈ unflushed ox.
Proof. unfold chain. by rewrite !elem_of_app. Qed.

Lemma elem_of_snapshots ox q g : g ∈ snapshots ox q ↔ Snapshot g ∈ q ∨ g ∈ waiting ox.
Proof.
  unfold snapshots. rewrite elem_of_app, list_elem_of_bind.
  assert ((∃ pk, g ∈ carried pk ∧ pk ∈ q) ↔ Snapshot g ∈ q) as ->; [|done].
  split; [|intros; exists (Snapshot g); split; [by left|done]].
  intros ([g'|gs] & Hg & Hq); simpl in Hg; [|by apply elem_of_nil in Hg].
  by apply list_elem_of_singleton in Hg as ->.
Qed.

Lemma chain_snapshots ox oy q gs : chain ox oy (q ++ (Snapshot <$> gs)) = chain ox oy q.
Proof.
  unfold chain. rewrite bind_app.
  assert ((Snapshot <$> gs) ≫= announced = []) as ->; [|by rewrite app_nil_r].
  induction gs; [done|]. simpl. done.
Qed.

Lemma entry_bounded z ox ob q e :
  channel z ox (Some ob) q → ob_entry ob = Some e → bounded z ox (en_generation e).
Proof.
  intros Hc He. apply (ch_bounded _ _ _ _ Hc), elem_of_app. left. unfold shown. simpl.
  rewrite He. by left.
Qed.

Lemma snapshot_bounded z ox oy q g : channel z ox oy q → Snapshot g ∈ q → bounded z ox g.
Proof.
  intros Hc Hg. apply (ch_bounded _ _ _ _ Hc), elem_of_app. right. apply elem_of_app. left.
  apply elem_of_snapshots. by left.
Qed.

Lemma chain_bounded z ox oy q g : channel z ox oy q → g ∈ chain ox oy q → bounded z ox g.
Proof. intros Hc Hg. apply (ch_bounded _ _ _ _ Hc). rewrite !elem_of_app. auto. Qed.

(** Less announced, nothing new shown or on its way. *)
Lemma channel_shrink z ox oy q z' ox' oy' q' :
  channel z ox oy q →
  (∀ g, bounded z ox g → bounded z' ox' g) →
  (∀ g, g ∈ shown oy' ∨ g ∈ snapshots ox' q' →
     g ∈ shown oy ∨ g ∈ snapshots ox q ∨ bounded z' ox' g) →
  chain ox' oy' q' `sublist_of` chain ox oy q →
  paired ox' oy' q' → channel z' ox' oy' q'.
Proof.
  intros [Hb Hl Ho _] Hz Hs Hc Hp.
  assert (∀ g, g ∈ chain ox' oy' q' → g ∈ chain ox oy q) as Hin
    by (intros g ?; by eapply elem_of_sublist).
  split; [|auto|by eapply ordered_sublist|done].
  intros g. rewrite !elem_of_app. intros [Hg|[Hg|Hg]].
  - destruct (Hs g (or_introl Hg)) as [?|[?|?]]; [..|done]; apply Hz, Hb; rewrite !elem_of_app; auto.
  - destruct (Hs g (or_intror Hg)) as [?|[?|?]]; [..|done]; apply Hz, Hb; rewrite !elem_of_app; auto.
  - apply Hz, Hb. rewrite !elem_of_app. auto.
Qed.

(** *** Receipt *)
Lemma receive_snapshot z ox e g q :
  channel z ox (Some (mkObserver true (Some e))) (Snapshot g :: q) →
  channel z ox (Some (mkObserver true (take_snapshot g (Some e)))) q.
Proof.
  intros Hc. pose proof (snapshot_bounded _ _ _ _ g Hc ltac:(by left)) as Hg.
  pose proof (entry_bounded _ _ _ _ e Hc eq_refl) as He.
  assert (∀ g0, pending_after g (en_pending e) = Some g0 → en_pending e = Some g0) as Hpend.
  { intros g0 [? _]%pending_after_spec. done. }
  eapply channel_shrink; [exact Hc|done|..].
  - intros g0. rewrite !elem_of_snapshots. unfold shown. simpl.
    case_match; simpl; intros [Hg0|[Hg0|Hg0]]; try apply list_elem_of_singleton in Hg0 as ->;
      rewrite ?list_elem_of_singleton, ?elem_of_cons; auto.
  - unfold chain, held. simpl. case_match; simpl; [|done]. apply sublist_app; [|done].
    destruct (pending_after g (en_pending e)) as [g0|] eqn:Hp; [|apply sublist_nil_l].
    by rewrite (Hpend g0 eq_refl).
  - intros s ob -> [= <-]. simpl. destruct (ch_paired _ _ _ _ Hc s _ eq_refl eq_refl) as [_ (? & [= <-] & Hcov)].
    split; [done|]. simpl in Hg, He. destruct (generation_ltb (en_generation e) g) eqn:E.
    + eexists. split; [done|]. apply generation_ltb_lt in E. unfold covered in *. simpl.
      destruct Hcov as [Heq|[[[= ->]|Hq]%elem_of_cons|[Hs|[Hf Hch]]]]; auto.
      { exfalso. rewrite Heq in E. gen_lia. }
      destruct (decide (g = sd_generation s)) as [->|Hne]; [by left|]. do 3 right. split; [done|].
      rewrite elem_of_chain in *. destruct Hch as [Hh|?]; [left|by right].
      unfold held in *. simpl in *. destruct (en_pending e) as [g0|] eqn:Ep; simpl in *;
        [|by apply elem_of_nil in Hh]. apply list_elem_of_singleton in Hh as <-.
      assert (pending_after g (Some (sd_generation s)) = Some (sd_generation s)) as ->; [|by left].
      apply pending_after_spec. split; [done|]. apply gen_lt_not_le. intros Hle. apply Hne.
      by apply (anti_symm gen_le).
    + apply generation_ltb_ge in E. exists e. split; [done|]. unfold covered in *.
      destruct Hcov as [Heq|[[[= Heq]|Hq]%elem_of_cons|[Hs|[Hf Hch]]]]; auto.
      left. apply (anti_symm gen_le); [done|]. gen_lia.
Qed.

Lemma receive_announce z ox e gs q :
  channel z ox (Some (mkObserver true (Some e))) (Announce gs :: q) →
  channel z ox (Some (mkObserver true (Some (mark_all e gs)))) q.
Proof.
  intros Hc. pose proof (entry_bounded _ _ _ _ e Hc eq_refl) as He.
  pose proof (mark_all_pending gs e) as Hsub.
  assert (chain ox (Some (mkObserver true (Some e))) (Announce gs :: q) =
    (pending_list e ++ gs) ++ (q ≫= announced) ++ unflushed ox) as Hchain.
  { unfold chain, held, pending_list. simpl. by rewrite <- !app_assoc. }
  eapply channel_shrink; [exact Hc|done|..].
  - intros g. rewrite !elem_of_snapshots. unfold shown. simpl. rewrite mark_all_generation.
    rewrite !elem_of_cons. tauto.
  - rewrite Hchain. unfold chain. by apply sublist_app.
  - intros s ob -> [= <-]. destruct (ch_paired _ _ _ _ Hc s _ eq_refl eq_refl) as [_ (? & [= <-] & Hcov)].
    split; [done|]. eexists. split; [done|]. unfold covered in *. rewrite mark_all_generation.
    destruct Hcov as [Heq|[[?|Hq]%elem_of_cons|[Hs|[Hf Hch]]]]; auto; [done|].
    rewrite Hchain in Hch. apply elem_of_app in Hch as [Hch|Hch].
    + destruct (mark_all_keeps (sd_generation s) gs e) as [?|Hk]; [done| | |done|auto|].
      * intros g Hg. apply (chain_bounded _ _ _ _ g Hc). rewrite Hchain, !elem_of_app. auto.
      * pose proof (ch_order _ _ _ _ Hc) as Ho. rewrite Hchain in Ho.
        eapply ordered_sublist; [|exact Ho]. by apply sublist_inserts_r.
      * do 3 right. split; [done|]. apply elem_of_chain. by left.
    + do 3 right. split; [done|]. apply elem_of_chain. right. by apply elem_of_app.
Qed.

Lemma channel_receive z ox ob pk q :
  channel z ox (Some ob) (pk :: q) → channel z ox (Some (receive pk ob)) q.
Proof.
  intros Hc. destruct ob as [[] [e|]]; unfold receive; simpl.
  - destruct pk; [by apply receive_snapshot|by apply receive_announce].
  - assert (∀ s, ox ≠ Some s) as Hno.
    { intros s ->. destruct (ch_paired _ _ _ _ Hc s _ eq_refl eq_refl) as [_ (? & ? & _)]. done. }
    eapply channel_shrink; [exact Hc|done|..|intros s ? ?; by destruct (Hno s)].
    + intros g. rewrite !elem_of_snapshots, !elem_of_cons. unfold shown. destruct pk; simpl; [|tauto].
      rewrite list_elem_of_singleton. intros [->|[?|?]]; tauto.
    + unfold chain, held. destruct pk; simpl; [done|]. rewrite <- app_assoc. by apply sublist_inserts_l.
  - eapply channel_shrink; [exact Hc|done|..].
    + intros g. rewrite !elem_of_snapshots, !elem_of_cons. tauto.
    + unfold chain. simpl. rewrite <- app_assoc. apply sublist_app; [done|]. by apply sublist_inserts_l.
    + intros s ? -> [= <-]. by destruct (ch_paired _ _ _ _ Hc s _ eq_refl eq_refl).
  - eapply channel_shrink; [exact Hc|done|..].
    + intros g. rewrite !elem_of_snapshots, !elem_of_cons. tauto.
    + unfold chain. simpl. rewrite <- app_assoc. by apply sublist_inserts_l.
    + intros s ? -> [= <-]. by destruct (ch_paired _ _ _ _ Hc s _ eq_refl eq_refl).
Qed.

(** A packet to a node that is not there is lost. *)
Lemma channel_lost z ox pk q : channel z ox None (pk :: q) → channel z ox None q.
Proof.
  intros Hc. eapply channel_shrink; [exact Hc|done|..|by intros ???].
  - intros g. rewrite !elem_of_snapshots, !elem_of_cons. tauto.
  - unfold chain. simpl. rewrite <- app_assoc. by apply sublist_inserts_l.
Qed.

(** *** Departures *)
Lemma channel_sender_gone z ox oy q :
  (∀ s, ox = Some s → z = Some (incarnation (sd_generation s))) →
  channel z ox oy q → channel z None ((λ _, mkObserver false None) <$> oy) q.
Proof.
  intros Hz Hc. eapply channel_shrink; [exact Hc|..|by intros ???].
  - destruct ox as [s|]; [|done]. simpl. intros g Hg. right. eexists. split; [by apply Hz|].
    gen_lia.
  - intros g. rewrite !elem_of_snapshots. unfold shown. destruct oy; simpl;
      rewrite !elem_of_nil; tauto.
  - assert (held ((λ _, mkObserver false None) <$> oy) = []) as Hh by by destruct oy.
    unfold chain. rewrite Hh, (left_id_L [] (++)). apply sublist_inserts_l, sublist_app; [done|]. apply sublist_nil_l.
Qed.

Lemma channel_observer_gone z ox oy q : channel z ox oy q → channel z ox None q.
Proof.
  intros Hc. eapply channel_shrink; [exact Hc|done|..|by intros ???].
  - intros g. unfold shown. simpl. rewrite elem_of_nil. tauto.
  - unfold chain. simpl. by apply sublist_inserts_l.
Qed.

Lemma channel_cut z ox oy q : ox = None ∨ oy = None → channel z ox oy q → channel z ox oy [].
Proof.
  intros Hn Hc. eapply channel_shrink; [exact Hc|done|..].
  - intros g. rewrite !elem_of_snapshots, elem_of_nil. tauto.
  - unfold chain. simpl. apply sublist_app; [done|]. by apply sublist_inserts_l.
  - intros s ob -> ->. by destruct Hn.
Qed.

(** *** The sender acts *)

(** What is broadcast reaches the nodes that are there. *)
Definition sends oy q : list packet := match oy with Some _ => q | None => [] end.

Lemma elem_of_sends oy q pk : pk ∈ sends oy q → pk ∈ q.
Proof. destruct oy; [done|]. by intros ?%elem_of_nil. Qed.

(** Snapshots that are not ahead of the sender are sent; its announcements do not change. *)
Lemma channel_send z s s' oy q gs :
  channel z (Some s) oy q → sd_generation s ≤g sd_generation s' → sd_pending s' = sd_pending s →
  (∀ g, g ∈ gs ∨ g ∈ sd_scheduled s' → g ≤g sd_generation s' ) →
  (∀ ob e, oy = Some ob → ob_entry ob = Some e → covered s e q (chain (Some s) oy q) →
     covered s' e (q ++ (Snapshot <$> gs)) (chain (Some s) oy q)) →
  channel z (Some s') oy (q ++ sends oy (Snapshot <$> gs)).
Proof.
  intros Hc Hle Hp Hgs Hcov.
  assert (chain (Some s') oy (q ++ sends oy (Snapshot <$> gs)) = chain (Some s) oy q) as Hchain.
  { transitivity (chain (Some s') oy q); [|unfold chain, unflushed; simpl; by rewrite Hp].
    destruct oy; [apply chain_snapshots|]. by rewrite app_nil_r. }
  eapply channel_shrink; [exact Hc|..].
  - intros g Hg. simpl in *. by etrans.
  - intros g. rewrite !elem_of_snapshots, elem_of_app. simpl.
    intros [?|[[?|Hg%elem_of_sends]|?]]; auto.
    apply list_elem_of_fmap in Hg as (g' & [= <-] & Hg). auto.
  - by rewrite Hchain.
  - rewrite <- Hchain in Hcov. intros s0 ob [= <-] ->.
    destruct (ch_paired _ _ _ _ Hc s ob eq_refl eq_refl) as [Ha (e & He & Hce)].
    split; [done|]. exists e. split; [done|]. eapply Hcov; [done|done|]. by rewrite Hchain.
Qed.

(** A new generation is pushed to everyone, or scheduled. *)
Lemma channel_push z s oy q g (F : Prop) :
  channel z (Some s) oy q → sd_generation s ≤g g →
  channel z (Some (mkSender g (sd_pending s) (sd_scheduled s) F)) oy (q ++ sends oy [Snapshot g]).
Proof.
  intros Hc Hle. apply (channel_send z s _ oy q [g]); [done..| |].
  - simpl. intros g' [->%list_elem_of_singleton|Hg']; [done|]. etrans; [|exact Hle].
    apply (ch_bounded _ _ _ _ Hc), elem_of_app. right. apply elem_of_app. left.
    apply elem_of_snapshots. by right.
  - intros ob e _ _ _. right. left. simpl. apply elem_of_app. right. by left.
Qed.

Lemma channel_schedule z s oy q g (F : Prop) :
  channel z (Some s) oy q → sd_generation s ≤g g →
  channel z (Some (mkSender g (sd_pending s) (sd_scheduled s ++ [g]) F)) oy q.
Proof.
  intros Hc Hle. pose proof (channel_send z s (mkSender g (sd_pending s) (sd_scheduled s ++ [g]) F)
    oy q [] Hc Hle eq_refl) as Hs.
  replace (q ++ sends oy (Snapshot <$> [])) with q in Hs by (destruct oy; simpl; by rewrite app_nil_r).
  apply Hs; simpl.
  - intros g' [?%elem_of_nil|[Hg'| ->%list_elem_of_singleton]%elem_of_app]; [done| |done].
    etrans; [|exact Hle]. apply (ch_bounded _ _ _ _ Hc), elem_of_app. right. apply elem_of_app. left.
    apply elem_of_snapshots. by right.
  - intros ob e _ _ _. right. right. left. simpl. apply elem_of_app. right. by left.
Qed.

(** Some scheduled snapshots are sent, the others kept. *)
Lemma channel_timer z s oy q due remaining :
  channel z (Some s) oy q → (∀ g, g ∈ sd_scheduled s ↔ g ∈ due ∨ g ∈ remaining) →
  channel z (Some (mkSender (sd_generation s) (sd_pending s) remaining (sd_feeds s))) oy
    (q ++ sends oy (Snapshot <$> due)).
Proof.
  intros Hc Hsplit. apply (channel_send z s _ oy q due); simpl; [done..| |].
  - intros g Hg. apply Hsplit in Hg.
    apply (ch_bounded _ _ _ _ Hc), elem_of_app. right. apply elem_of_app. left.
    apply elem_of_snapshots. by right.
  - intros ob e _ _ [?|[?|[[?|?]%Hsplit|?]]]; unfold covered; simpl; auto.
    + right. left. apply elem_of_app. by left.
    + right. left. apply elem_of_app. right. apply list_elem_of_fmap. eauto.
Qed.

(** A new generation is announced, later. *)
Lemma channel_notify z s oy q g (F : Prop) :
  channel z (Some s) oy q → sd_generation s ≤g g → unsynced ≤g g → F →
  channel z (Some (mkSender g (Some g) (sd_scheduled s) F)) oy q.
Proof.
  intros Hc Hle Hlow HF. set (s' := mkSender _ _ _ _).
  assert (∀ g', g' ∈ held oy ++ (q ≫= announced) → g' ∈ chain (Some s) oy q) as Hin.
  { intros g' Hg'. unfold chain. rewrite (assoc_L (++)). apply elem_of_app. by left. }
  assert (chain (Some s') oy q = (held oy ++ (q ≫= announced)) ++ [g]) as Hchain
    by by rewrite <- (assoc_L (++)).
  assert (∀ g', bounded z (Some s) g' → bounded z (Some s') g') as Hb
    by (intros g' Hg'; simpl in *; by etrans).
  split.
  - intros g'. rewrite Hchain, 3!elem_of_app.
    intros [Hg'|[Hg'|[Hg'%Hin|Hg']]].
    + apply Hb, (ch_bounded _ _ _ _ Hc). rewrite !elem_of_app. auto.
    + apply Hb, (ch_bounded _ _ _ _ Hc). rewrite !elem_of_app. auto.
    + apply Hb, (ch_bounded _ _ _ _ Hc). rewrite !elem_of_app. auto.
    + apply list_elem_of_singleton in Hg' as ->. by simpl.
  - intros g'. rewrite Hchain. intros [Hg'%Hin|Hg']%elem_of_app.
    + by apply (ch_lower _ _ _ _ Hc).
    + by apply list_elem_of_singleton in Hg' as ->.
  - rewrite Hchain. apply ordered_snoc.
    + eapply ordered_sublist; [|exact (ch_order _ _ _ _ Hc)]. unfold chain. rewrite (assoc_L (++)).
      by apply sublist_inserts_r.
    + intros g' Hg'%Hin. etrans; [|exact Hle]. by apply (chain_bounded _ _ _ _ _ Hc).
  - intros s0 ob [= <-] ->. destruct (ch_paired _ _ _ _ Hc s ob eq_refl eq_refl) as [Ha (e & He & _)].
    split; [done|]. exists e. split; [done|]. do 3 right. split; [done|].
    rewrite Hchain. apply elem_of_app. right. by left.
Qed.

(** The announcement is flushed. *)
Lemma channel_flush z s oy q :
  channel z (Some s) oy q →
  channel z (Some (mkSender (sd_generation s) None (sd_scheduled s) (sd_feeds s))) oy
    (q ++ sends oy [Announce (option_list (sd_pending s))]).
Proof.
  intros Hc. set (s' := mkSender _ _ _ _). set (q' := q ++ _).
  assert (∀ g, Snapshot g ∈ q' ↔ Snapshot g ∈ q) as Hsnap.
  { intros g. unfold q'. rewrite elem_of_app. split; [|by left].
    intros [?|Hg%elem_of_sends]; [done|]. by apply list_elem_of_singleton in Hg. }
  assert (is_Some oy → chain (Some s') oy q' = chain (Some s) oy q) as Hchain.
  { intros [ob ->]. unfold chain, q', unflushed. rewrite bind_app. simpl. by rewrite !app_nil_r. }
  eapply channel_shrink; [exact Hc|done|..].
  - intros g. rewrite !elem_of_snapshots, Hsnap. simpl. tauto.
  - destruct oy; [by rewrite Hchain|]. unfold q', chain. simpl. rewrite !app_nil_r.
    by apply sublist_inserts_r.
  - intros s0 ob [= <-] Ho. pose proof Ho as ->.
    destruct (ch_paired _ _ _ _ Hc s ob eq_refl eq_refl) as [Ha (e & He & Hce)].
    split; [done|]. exists e. split; [done|]. rewrite Hchain by done.
    unfold covered in *. rewrite Hsnap. done.
Qed.

(** *** Arrivals *)

(** A node starts that the observer has heard of, or not. *)
Lemma channel_start_sender z oy q i (F : Prop) :
  channel z None oy q → (∀ j, z = Some j → j < i) → 0 < i →
  channel (Some i) (Some (mkSender (generation_new i 0) None [] F)) (joined <$> oy)
    (q ++ sends oy [Snapshot (generation_new i 0)]).
Proof.
  intros Hc Hz Hi. set (g := generation_new i 0). set (s := mkSender _ _ _ _).
  assert (unsynced ≤g g) as Hu by (unfold unsynced, g; gen_lia).
  assert (∀ g', bounded z None g' → bounded (Some i) (Some s) g') as Hb.
  { intros g' [?|(j & Hj%Hz & ?)]; simpl; [by etrans|]. unfold g. gen_lia. }
  assert (chain (Some s) (joined <$> oy) (q ++ sends oy [Snapshot g]) =
    held (joined <$> oy) ++ (q ≫= announced)) as Hchain.
  { unfold chain. simpl. rewrite bind_app, app_nil_r. destruct oy; simpl; by rewrite app_nil_r. }
  assert (∀ g', g' ∈ held (joined <$> oy) → g' = unsynced ∨ g' ∈ held oy) as Hheld.
  { intros g'. unfold held. destruct oy as [[a [e|]]|]; simpl; [by right|..].
    - intros ->%list_elem_of_singleton. by left.
    - by right. }
  assert (∀ g', g' ∈ held oy ++ (q ≫= announced) → g' ∈ chain None oy q) as Hold.
  { intros g'. unfold chain. simpl. by rewrite app_nil_r. }
  split.
  - intros g'. rewrite Hchain, !elem_of_app, elem_of_snapshots, elem_of_app.
    intros [Hg'|[[[Hg'|Hg'%elem_of_sends]|Hg']|[[->|Hg']%Hheld|Hg']]].
    + unfold shown in Hg'. destruct oy as [[a [e|]]|]; simpl in Hg';
        try apply list_elem_of_singleton in Hg' as ->; try by apply elem_of_nil in Hg'.
      * apply Hb. by apply (entry_bounded _ _ _ _ e Hc).
      * unfold g. simpl. gen_lia.
    + apply Hb. by eapply snapshot_bounded.
    + apply list_elem_of_singleton in Hg' as [= ->]. change (g ≤g g). done.
    + by apply elem_of_nil in Hg'.
    + exact Hu.
    + apply Hb, (chain_bounded _ _ _ _ _ Hc), Hold, elem_of_app. by left.
    + apply Hb, (chain_bounded _ _ _ _ _ Hc), Hold, elem_of_app. by right.
  - intros g'. rewrite Hchain. intros [[->|Hg']%Hheld|Hg']%elem_of_app; [done|..];
      apply (ch_lower _ _ _ _ Hc), Hold, elem_of_app; auto.
  - rewrite Hchain. pose proof (ch_order _ _ _ _ Hc) as Ho. pose proof (ch_lower _ _ _ _ Hc) as Hl.
    unfold chain in Ho, Hl. simpl in Ho, Hl. rewrite app_nil_r in Ho, Hl.
    unfold held in *. destruct oy as [[a [e|]]|]; simpl in *; [done| |done].
    apply ordered_cons; [done|]. auto.
  - intros s0 ob [= <-] Ho. apply fmap_Some in Ho as (ob0 & -> & ->). split; [done|].
    eexists. split; [done|]. right. left. simpl. apply elem_of_app. right. by left.
Qed.

(** A node starts, and hears of a sender that is there, or of none. *)
Lemma channel_start_observer z ox q :
  channel z ox None q → (∀ s, ox = Some s → unsynced ≤g sd_generation s) →
  channel z ox
    (Some (if ox then joined (mkObserver true None) else mkObserver true None))
    (q ++ match ox with Some s => [Snapshot (sd_generation s)] | None => [] end).
Proof.
  intros Hc Hu. destruct ox as [s|].
  - specialize (Hu s eq_refl). set (oy := Some (joined _)).
    assert (chain (Some s) oy (q ++ [Snapshot (sd_generation s)]) =
      unsynced :: chain (Some s) None q) as Hchain.
    { rewrite (chain_snapshots _ _ _ [sd_generation s]). done. }
    split.
    + intros g. rewrite Hchain, !elem_of_app, elem_of_snapshots, elem_of_app.
      intros [Hg|[[[Hg|Hg]|Hg]|[->|Hg]%elem_of_cons]].
      * unfold shown in Hg. simpl in Hg. apply list_elem_of_singleton in Hg as ->.
        simpl. etrans; [|exact Hu]. unfold unsynced. gen_lia.
      * by eapply snapshot_bounded.
      * apply list_elem_of_singleton in Hg as [= ->]. by simpl.
      * apply (ch_bounded _ _ _ _ Hc). rewrite !elem_of_app, elem_of_snapshots. auto.
      * done.
      * by apply (chain_bounded _ _ _ _ _ Hc).
    + intros g. rewrite Hchain. intros [->|Hg]%elem_of_cons; [done|]. by apply (ch_lower _ _ _ _ Hc).
    + rewrite Hchain. apply ordered_cons; [apply (ch_order _ _ _ _ Hc)|apply (ch_lower _ _ _ _ Hc)].
    + intros s0 ob [= <-] [= <-]. split; [done|]. eexists. split; [done|].
      right. left. apply elem_of_app. right. by left.
  - rewrite app_nil_r. eapply channel_shrink; [exact Hc|done|..|by intros ???].
    + intros g. unfold shown. simpl. rewrite elem_of_nil. tauto.
    + done.
Qed.

Lemma channel_empty : channel None None None [].
Proof.
  split.
  - by intros g ?%elem_of_nil.
  - by intros g ?%elem_of_nil.
  - apply SSorted_nil.
  - by intros ???.
Qed.

(** *** Nothing on the way, nothing pending *)
Lemma channel_settled z s ob :
  channel z (Some s) (Some ob) [] → sd_pending s = None → sd_scheduled s = [] →
  ∃ e, ob_entry ob = Some e ∧
    (en_generation e = sd_generation s ∨ (sd_feeds s ∧ en_pending e = Some (sd_generation s))).
Proof.
  intros Hc Hp Hs. destruct (ch_paired _ _ _ _ Hc s ob eq_refl eq_refl) as [_ (e & He & Hcov)].
  exists e. split; [done|]. destruct Hcov as [?|[?%elem_of_nil|[Hg|[Hf Hg]]]]; [by left|done|..].
  - rewrite Hs in Hg. by apply elem_of_nil in Hg.
  - right. split; [done|]. apply elem_of_chain in Hg as [Hg|[Hg|Hg]].
    + unfold held in Hg. simpl in Hg. rewrite He in Hg. simpl in Hg.
      destruct (en_pending e); [|by apply elem_of_nil in Hg].
      by apply list_elem_of_singleton in Hg as ->.
    + by apply elem_of_nil in Hg.
    + unfold unflushed in Hg. simpl in Hg. rewrite Hp in Hg. by apply elem_of_nil in Hg.
Qed.
End Channel.
