(* ===== verification/Calm.v ===== *)
(** The channels of a mock cluster without faults: every pair of its nodes is a channel of
    [Channel.v], and what the cluster does is what happens on channels.  From this
    invariant the consistency of a settled cluster follows. *)
From stdpp Require Import prelude gmap fin_maps strings relations sorting.
From S2P Require Import Prelude Node Clock Types ViewMap ShardCore ShardProps SyncLogic.
From S2P Require Import ChangeFeed Versioning Lifecycle Diagnostics Engine EngineProps.
From S2P Require Import Protocol Accounting Network Traits Interceptor Transport Faults.
From S2P Require Import Cluster ClusterProps Convergence Settle Channel.

(** ** Engines as ends of channels *)
Section Ends.
Context `{HashIter} {S V M C : Type} `{!ViewMapOps V M} `{!ViewMapLaws V M} `{Clock C}.
Context (name : string) (p : S → V) (w : Z)
  (ser : SerializeViewFn V) (de : DeserializeViewFn V) (ap : option (InboundDeltaApplierFn V)).
Local Abbreviation engine := (DistributedStateEngine S V M).
Local Abbreviation static_ok := (node_static name w ser de ap).
Implicit Types (e : engine) (clk : C) (i j : NodeId).

Definition entry_of (vo : StateViewObject V) : entry :=
  mkEntry (vo_generation vo) (vo_pending_remote_generation vo).

(** The engine as observer of [i]. *)
Definition observer_of i e : observer :=
  mkObserver (should_accept_from (lifecycle e) i) (entry_of <$> contents (shard e) !! i).

(** The messages of a network without faults: snapshots and feeds of their source. *)
Definition is_snapshot_of i (m : SyncMessage) : Prop :=
  ∃ g v, m = FullSnapshot name i g w (ser v).
Definition from_ok i (msg : WireMessage) : Prop :=
  match msg with
  | WireSync m => is_snapshot_of i m
  | WireFeed f => bf_source_node f = i ∧
      ∀ n, n ∈ bf_notifications f → cn_state_name n = name ∧ cn_source_node n = i
  end.
Definition sync_generation (m : SyncMessage) : Generation :=
  match m with
  | FullSnapshot _ _ g _ _ | DeltaUpdate _ _ g _ _ => g
  | RequestSnapshot _ _ => generation_zero
  end.
Definition packet_of (msg : WireMessage) : packet :=
  match msg with
  | WireSync m => Snapshot (sync_generation m)
  | WireFeed f => Announce (cn_generation <$> bf_notifications f)
  end.

Lemma observer_of_same i e e' :
  lifecycle e' = lifecycle e → contents (shard e') !! i = contents (shard e) !! i →
  observer_of i e' = observer_of i e.
Proof. intros Hl Hc. unfold observer_of. by rewrite Hl, Hc. Qed.

(** What the engine does with a message is what the observer does with the packet. *)
Definition takes_in i (msg : WireMessage) e e' : Prop :=
  observer_of i e' = receive (packet_of msg) (observer_of i e) ∧
  ∀ k, k ≠ i → observer_of k e' = observer_of k e.

Lemma snapshot_takes_in e src g v clk :
  (∀ v, de (ser v) w = Ok v) → static_ok e → shard_wf (shard e) →
  let e' := (handle_full_snapshot e name src g w (ser v) clk).1 in
  takes_in src (WireSync (FullSnapshot name src g w (ser v))) e e' ∧
  sh_state (shard e') = sh_state (shard e).
Proof.
  intros Hcodec (Hn & _ & _ & Hde & _) Hwf e'.
  destruct (should_accept_from (lifecycle e) src) eqn:Hacc.
  2: { assert (e' = e) as ->.
       { unfold e', handle_full_snapshot. rewrite bool_decide_eq_true_2 by done. simpl. by rewrite ?Hacc. }
       split; [split; [|done]|done]. unfold receive, observer_of. simpl. by rewrite Hacc. }
  destruct (full_snapshot_contents e src g w (ser v) clk v Hwf Hacc) as (_ & _ & Hst & Hc);
    [by rewrite Hde|].
  destruct (full_snapshot_same e (state_name e) src g w (ser v) clk) as (_ & _ & Hl).
  rewrite Hn in Hc, Hl, Hst. fold e' in Hc, Hl, Hst. rewrite snapshot_update_ahead in Hc.
  assert (∀ k, k ≠ src → observer_of k e' = observer_of k e) as Hother.
  { intros k Hk. apply observer_of_same; [done|]. rewrite Hc.
    by destruct (ahead _ _); [rewrite lookup_insert_ne|]. }
  split; [split; [|done]|done]. unfold receive, observer_of. simpl. rewrite Hl, Hacc, Hc.
  f_equal. unfold ahead. destruct (contents (shard e) !! src) as [vo|] eqn:Hvo; simpl;
    [|by rewrite lookup_insert_eq].
  destruct (generation_ltb (vo_generation vo) g); [by rewrite lookup_insert_eq|by rewrite Hvo].
Qed.

(** One notification. *)
Lemma feed_entry_observer e s g i :
  shard_wf (shard e) → state_name e = name →
  let e' := feed_entry e (name, s, g) in
  shard_wf (shard e') ∧ state_name e' = name ∧
  observer_of i e' =
    (if decide (s = i) then receive (Announce [g]) (observer_of i e) else observer_of i e).
Proof.
  intros Hwf Hn e'. unfold e', feed_entry. rewrite bool_decide_eq_true_2 by done. simpl.
  destruct (should_accept_from (lifecycle e) s) eqn:Hacc; simpl.
  2: { split_and!; [done..|]. case_decide; [subst|done].
       unfold receive, observer_of. simpl. by rewrite Hacc. }
  destruct (mark_stale_frame (S:=S) (shard e) s (incarnation g) (age g)) as (Hwf' & _).
  split_and!; [auto|done|]. unfold receive, observer_of. simpl. rewrite mark_stale_contents by done.
  replace (generation_new (incarnation g) (age g)) with g by by destruct g.
  case_decide as Hi; [subst i; rewrite Hacc|].
  - destruct (contents (shard e) !! s) as [vo|] eqn:Hvo; simpl; [|by rewrite Hvo].
    unfold mark_all, mark. simpl. destruct (generation_leb g (vo_generation vo)).
    + by rewrite Hvo.
    + by rewrite lookup_insert_eq.
  - destruct (contents (shard e) !! s) as [vo|]; [|done].
    case_match; [done|by rewrite lookup_insert_ne].
Qed.

Local Arguments feed_entry : simpl never.
Lemma feed_takes_in e f i :
  shard_wf (shard e) → state_name e = name → from_ok i (WireFeed f) → i ≠ engine_node_id e →
  takes_in i (WireFeed f) e (handle_inbound_change_feed e f).
Proof.
  intros Hwf Hn [Hsrc Hf] Hne.
  unfold takes_in, handle_inbound_change_feed, route_inbound_batch. simpl.
  rewrite bool_decide_eq_false_2 by congruence. clear Hsrc Hne.
  assert (∀ k, observer_of k (foldl feed_entry e
      ((λ n, (cn_state_name n, cn_source_node n, cn_generation n)) <$> bf_notifications f)) =
    if decide (k = i) then receive (Announce (cn_generation <$> bf_notifications f)) (observer_of k e)
    else observer_of k e) as Hall.
  2: { split; [rewrite Hall, decide_True by done; done|].
       intros k Hk. by rewrite Hall, decide_False. }
  revert e Hwf Hn Hf. induction (bf_notifications f) as [|[n s g] l IH]; intros e Hwf Hn Hf k; simpl.
  { case_decide; [|done]. unfold receive, observer_of. simpl. case_match; [|done].
    by destruct (contents (shard e) !! k). }
  destruct (Hf (mkChangeNotification n s g)) as [Hn' Hs']; [by left|]. simpl in Hn', Hs'. subst n s.
  destruct (feed_entry_observer e i g k Hwf Hn) as (Hwf' & Hnm & Ho).
  rewrite IH; [|done..|].
  2: { intros n Hin. apply Hf. by right. }
  rewrite Ho. destruct (decide (k = i)) as [->|Hk]; [|by rewrite decide_False by congruence].
  rewrite decide_True by done.
  unfold receive. destruct (observer_of i e) as [[] o]; simpl; [|done].
  by destruct o.
Qed.

(** Receipt: no answer, and only the entry of the source changes. *)
Lemma inbound_takes_in src e msg clk e' acts :
  (∀ v, de (ser v) w = Ok v) → static_ok e → host_ok (host e) → src ≠ engine_node_id e →
  from_ok src msg → handle_inbound e msg clk = Done (e', acts) →
  acts = [] ∧ takes_in src msg e e' ∧ change_feed e' = change_feed e ∧
  static e' = static e ∧ generation_of e' = generation_of e.
Proof.
  intros Hcodec Hst (Hwf & _) Hne Hfrom Hh. pose proof (handle_inbound_feed _ _ _ _ _ Hh) as Hfeed.
  destruct (handle_inbound_ok anything anything e msg clk e' acts) as [_ Hst'];
    [by destruct msg as [[]|]|done|].
  assert (acts = [] ∧ takes_in src msg e e' ∧ generation_of e' = generation_of e) as (? & ? & ?);
    [|by split_and!].
  clear Hfeed Hst'. unfold generation_of. destruct msg as [m|f]; simpl in Hfrom.
  - destruct Hfrom as (g & v & ->). simpl in Hh. injection Hh as Hh.
    pose proof (snapshot_takes_in e src g v clk Hcodec Hst Hwf) as [Ht Hs].
    pose proof (full_snapshot_same e name src g w (ser v) clk) as (Ha & _).
    rewrite Hh in Ht, Ha, Hs. simpl in *. by rewrite Hs.
  - simpl in Hh. injection Hh as <- <-. split_and!; [done| |].
    + apply feed_takes_in; [done|apply Hst|done|done].
    + unfold handle_inbound_change_feed. generalize (route_inbound_batch f (engine_node_id e)).
      clear. intros l. revert e. induction l as [|[[n s] g] l IH]; intros e; simpl; [done|].
      rewrite IH. unfold feed_entry. by repeat case_match.
Qed.
End Ends.

(** ** Nodes and queues *)
Section Calm.
Context `{HashIter} {S V M : Type} `{!ViewMapOps V M} `{!ViewMapLaws V M}.
Context `{!Bincode WireMessage} `{!BincodeLaws WireMessage}.
Context (name : string) (p : S → V) (w : Z)
  (ser : SerializeViewFn V) (de : DeserializeViewFn V) (ap : option (InboundDeltaApplierFn V)).
Local Abbreviation cluster := (MockCluster S V M).
Local Abbreviation engine := (DistributedStateEngine S V M).
Local Abbreviation nodes := (gmap NodeId (MockNode S V M)).
Local Abbreviation static_ok := (node_static name w ser de ap).
Local Abbreviation from_ok := (from_ok name w ser).
Implicit Types (c : cluster) (x y : MockNode S V M) (e : engine) (i j k : NodeId).
Implicit Types (N : nodes) (l : list DeliveredMessage) (d : DeliveredMessage) (z : option Z).

(** The node as a sender: its announcements are the pending entry of its change feed. *)
Definition uses_feed e : Prop := push_mode (engine_sync_strategy e) = Some ActiveFeedLazyPull.
Definition sender_of x : sender :=
  mkSender (generation_of (mn_engine x))
    (cf_pending (change_feed (mn_engine x)) !! (name, engine_node_id (mn_engine x)))
    ((λ a, sync_generation (sc_message a)) <$> scheduled x) (uses_feed (mn_engine x)).

(** What is on the way from [i] to [j]. *)
Definition queue i j l : list packet :=
  omap (λ d, if decide (dm_from d = i ∧ dm_to d = j) then Some (packet_of (dm_message d)) else None) l.

Record node_calm z i x : Prop := {
  nc_good : node_good i (mn_engine x);
  nc_static : static_ok (mn_engine x);
  nc_incarnation : z = Some (incarnation (generation_of (mn_engine x)));
  nc_generation : gen_u64 (generation_of (mn_engine x)) ∧ 0 < incarnation (generation_of (mn_engine x));
  nc_feed : cf_node_id (change_feed (mn_engine x)) = i ∧
    ∀ key g, cf_pending (change_feed (mn_engine x)) !! key = Some g → key = (name, i);
  nc_scheduled : ∀ a, a ∈ scheduled x → is_snapshot_of name w ser i (sc_message a)
}.

Definition message_calm d : Prop := dm_from d ≠ dm_to d ∧ from_ok (dm_from d) (dm_message d).

Definition channel_at (used : gmap NodeId Z) N l i j : Prop :=
  channel (used !! i) (sender_of <$> N !! i) (observer_of i ∘ mn_engine <$> N !! j) (queue i j l).

Record calm (used : gmap NodeId Z) N l : Prop := {
  calm_node : ∀ i x, N !! i = Some x → node_calm (used !! i) i x;
  calm_message : ∀ d, d ∈ l → message_calm d;
  calm_channel : ∀ i j, i ≠ j → channel_at used N l i j
}.

Lemma queue_app i j l l' : queue i j (l ++ l') = queue i j l ++ queue i j l'.
Proof. apply omap_app. Qed.

Lemma queue_cons i j d l :
  queue i j (d :: l) =
    if decide (dm_from d = i ∧ dm_to d = j) then packet_of (dm_message d) :: queue i j l
    else queue i j l.
Proof. unfold queue. simpl. by case_decide. Qed.

(** *** Delivery *)
Lemma calm_deliver used N d l x clk e' acts :
  (∀ v, de (ser v) w = Ok v) → calm used N (d :: l) → N !! dm_to d = Some x →
  handle_inbound (C:=TestClock) (mn_engine x) (dm_message d) clk = Done (e', acts) →
  acts = [] ∧ calm used (<[dm_to d := set_mn_engine x e']> N) l.
Proof.
  intros Hcodec [Hn Hm Hc] Hx Hh.
  destruct (Hm d ltac:(by left)) as [Hne Hfrom].
  pose proof (Hn _ _ Hx) as Hnx. destruct Hnx as [Hgood Hst Hinc Hgen Hfeed Hsch].
  pose proof Hgood as [Hok Hid].
  destruct (inbound_takes_in name w ser de ap (dm_from d) (mn_engine x) (dm_message d) clk e' acts)
    as (-> & [Hsrc Hother] & Hcf & Hst' & Hg'); [done..|by rewrite Hid|done|done|].
  split; [done|].
  assert (node_good (dm_to d) e') as Hgood'.
  { eapply (node_good_call (C:=TestClock) _ _ (OpInbound (dm_message d) clk) e' [] None); [done|].
    simpl. by rewrite Hh. }
  assert (sender_of (set_mn_engine x e') = sender_of x) as Hs.
  { unfold sender_of, uses_feed, engine_sync_strategy. simpl.
    assert (sync_logic e' = sync_logic (mn_engine x)) as -> by (unfold static in Hst'; congruence).
    by rewrite Hg', Hcf, (proj2 Hgood'), Hid. }
  split.
  - intros i y [[<- <-]|[_ Hy]]%lookup_insert_Some; [|by apply Hn].
    split; simpl; rewrite ?Hg', ?Hcf; try done. by eapply node_static_same.
  - intros d' ?. apply Hm. by right.
  - intros i j Hij. specialize (Hc i j Hij). unfold channel_at in *. simpl in Hc.
    assert (sender_of <$> <[dm_to d := set_mn_engine x e']> N !! i = sender_of <$> N !! i) as ->.
    { destruct (decide (dm_to d = i)) as [<-|Hi]; [|by rewrite lookup_insert_ne].
      by rewrite lookup_insert_eq, Hx; simpl; rewrite Hs. }
    destruct (decide (dm_to d = j)) as [Hj|Hj].
    + subst j. rewrite Hx in Hc. rewrite lookup_insert_eq. simpl in *.
      destruct (decide (dm_from d = i)) as [Hi|Hi].
      * subst i. rewrite decide_True in Hc by done. rewrite Hsrc. by apply channel_receive.
      * rewrite decide_False in Hc by tauto. by rewrite Hother.
    + rewrite lookup_insert_ne by done. by rewrite decide_False in Hc by tauto.
Qed.

Lemma calm_lost used N d l : calm used N (d :: l) → N !! dm_to d = None → calm used N l.
Proof.
  intros [Hn Hm Hc] Hx. split; [done|intros d' ?; apply Hm; by right|].
  intros i j Hij. specialize (Hc i j Hij). unfold channel_at in *. simpl in Hc.
  case_decide as Hd; [|done]. destruct Hd as [<- <-]. rewrite Hx in *. by eapply channel_lost.
Qed.

(** *** One node acts *)

(** The nodes that a broadcast is for, and the messages it queues. *)
Definition members N (all : list NodeId) : Prop := NoDup all ∧ ∀ j, j ∈ all ↔ is_Some (N !! j).
Definition fan k (all : list NodeId) (msgs : list WireMessage) : list DeliveredMessage :=
  msgs ≫= λ msg, (λ to, mkDelivered k to msg) <$> filter (λ to, to ≠ k) all.

Lemma members_all c : members (mc_nodes c) (all_node_ids c).
Proof.
  split; [apply NoDup_hm_iter_fst|]. intros j. unfold all_node_ids. rewrite list_elem_of_fmap. split.
  - intros ([j' x] & -> & Hx%elem_of_hm_iter). by exists x.
  - intros [x Hx]. exists (j, x). by rewrite elem_of_hm_iter.
Qed.

Lemma queue_broadcast i j k msg all :
  NoDup all → queue i j ((λ to, mkDelivered k to msg) <$> filter (λ to, to ≠ k) all) =
    if decide (i = k ∧ j ≠ k ∧ j ∈ all) then [packet_of msg] else [].
Proof.
  induction 1 as [|to all Hto Hall IH].
  { simpl. rewrite decide_False; [done|]. intros (_ & _ & ?%elem_of_nil). done. }
  rewrite filter_cons. destruct (decide (to ≠ k)) as [Hk|Hk].
  - rewrite fmap_cons, queue_cons. cbn [dm_from dm_to dm_message]. destruct (decide (k = i ∧ to = j)) as [[-> ->]|Hne]; rewrite IH.
    + rewrite decide_False by tauto. rewrite decide_True; [done|]. split_and!; [done..|by left].
    + apply decide_ext. rewrite elem_of_cons. naive_solver.
  - rewrite IH. apply decide_ext. rewrite elem_of_cons. naive_solver.
Qed.

Lemma queue_fan i j k all msgs :
  NoDup all → queue i j (fan k all msgs) =
    if decide (i = k ∧ j ≠ k ∧ j ∈ all) then packet_of <$> msgs else [].
Proof.
  intros Hall. induction msgs as [|msg msgs IH]; [simpl; by case_decide|].
  change (fan k all (msg :: msgs)) with
    (((λ to, mkDelivered k to msg) <$> filter (λ to, to ≠ k) all) ++ fan k all msgs).
  rewrite queue_app, queue_broadcast, IH by done. by case_decide.
Qed.

(** Node [k] changes and sends [msgs] to the others. *)
Lemma calm_update used N l k x x' all msgs :
  calm used N l → N !! k = Some x → node_calm (used !! k) k x' →
  (∀ i, i ≠ k → observer_of i (mn_engine x') = observer_of i (mn_engine x)) →
  members N all → (∀ msg, msg ∈ msgs → from_ok k msg) →
  (∀ oy q, channel (used !! k) (Some (sender_of x)) oy q →
     channel (used !! k) (Some (sender_of x')) oy (q ++ sends oy (packet_of <$> msgs))) →
  calm used (<[k := x']> N) (l ++ fan k all msgs).
Proof.
  intros [Hn Hm Hc] Hx Hx' Hobs [Hnd Hall] Hmsgs Hch. split.
  - intros i y [[<- <-]|[_ Hy]]%lookup_insert_Some; [done|by apply Hn].
  - intros d [?|Hd]%elem_of_app; [by apply Hm|].
    apply list_elem_of_bind in Hd as (msg & (to & -> & [Hto _]%list_elem_of_filter)%list_elem_of_fmap & Hmsg).
    split; [done|]. by apply Hmsgs.
  - intros i j Hij. specialize (Hc i j Hij). unfold channel_at in *. rewrite queue_app, queue_fan by done.
    assert (observer_of i ∘ mn_engine <$> <[k := x']> N !! j = observer_of i ∘ mn_engine <$> N !! j) as ->.
    { destruct (decide (k = j)) as [<-|Hj]; [|by rewrite lookup_insert_ne].
      rewrite lookup_insert_eq, Hx. simpl. by rewrite Hobs. }
    destruct (decide (k = i)) as [<-|Hi].
    + rewrite lookup_insert_eq. rewrite Hx in Hc. apply Hch in Hc. simpl in *.
      destruct (N !! j) as [y|] eqn:Hy; simpl in *.
      * rewrite decide_True; [done|]. split_and!; [done..|]. apply Hall. eauto.
      * rewrite decide_False; [done|]. intros (_ & _ & [? ?]%Hall). congruence.
    + rewrite lookup_insert_ne, decide_False by naive_solver. by rewrite app_nil_r.
Qed.

(** Only the bookkeeping of a node changes. *)
Lemma calm_bookkeeping used N l k x x' :
  calm used N l → N !! k = Some x → mn_engine x' = mn_engine x → scheduled x' = scheduled x →
  calm used (<[k := x']> N) l.
Proof.
  intros Hcalm Hx He Hs. replace l with (l ++ fan k [] []) by by rewrite app_nil_r.
  pose proof (calm_node _ _ _ Hcalm k x Hx) as Hn.
  assert (sender_of x' = sender_of x) as Hsx by (unfold sender_of; by rewrite He, Hs).
  destruct Hcalm as [Hno Hm Hc]. simpl. rewrite app_nil_r. split; [|done|].
  - intros i y [[<- <-]|[_ Hy]]%lookup_insert_Some; [|by apply Hno].
    destruct Hn. split; rewrite ?He, ?Hs; done.
  - intros i j Hij. specialize (Hc i j Hij). unfold channel_at in *. rewrite !lookup_insert.
    repeat case_decide; subst; rewrite ?Hx in Hc; simpl in *; by rewrite ?Hsx, ?He.
Qed.

(** *** The transport *)
Definition sent (t : MockTransport) : list DeliveredMessage := omap decode_delivered (in_flight t).

(** No interceptor; what is on the way is due in order, and at most in the next tick. *)
Definition clean (t : MockTransport) : Prop :=
  interceptors t = [] ∧ 0 ≤ current_tick t < u64_max ∧
  StronglySorted Z.le (deliver_at_tick <$> in_flight t) ∧
  ∀ m, m ∈ in_flight t → deliver_at_tick m ≤ current_tick t + 1.

Lemma enqueue_clean t t' new :
  clean t → interceptors t' = [] → current_tick t' = current_tick t →
  in_flight t' = in_flight t ++ new →
  (∀ m, m ∈ new → deliver_at_tick m = u64_add (current_tick t) 1) → clean t'.
Proof.
  intros (Hi & Htick & Hs & Hd) Hi' Htick' Hf Hnew. unfold clean. rewrite Hi', Htick', Hf.
  rewrite u64_succ_small in Hnew by lia. split_and!; [done|lia|lia|..].
  - rewrite fmap_app. apply StronglySorted_app. split_and!; [|done|].
    + intros a b (m & -> & Hm)%list_elem_of_fmap (m' & -> & Hm')%list_elem_of_fmap.
      specialize (Hd m Hm). specialize (Hnew m' Hm'). lia.
    + clear -Hnew. induction new as [|m new IH]; [apply SSorted_nil|].
      rewrite fmap_cons. apply StronglySorted_cons. split.
      * apply Forall_fmap, Forall_forall. intros m' Hm'. simpl.
        rewrite (Hnew m), (Hnew m'); [done|by right|by left].
      * apply IH. intros m' ?. apply Hnew. by right.
  - intros m [Hm|Hm]%elem_of_app; [by apply Hd|]. rewrite Hnew by done. lia.
Qed.

Lemma sent_app t t' new :
  in_flight t' = in_flight t ++ new → sent t' = sent t ++ omap decode_delivered new.
Proof. intros Hf. unfold sent. by rewrite Hf, omap_app. Qed.

Lemma decode_queued from to msg tick :
  decode_delivered (mkInFlight from to (bincode_serialize msg) tick) = Some (mkDelivered from to msg).
Proof. unfold decode_delivered. simpl. by rewrite bincode_roundtrip. Qed.

Lemma broadcast_sent t k msg all :
  clean t →
  let t' := transport_broadcast t k msg all in
  clean t' ∧ sent t' = sent t ++ fan k all [msg] ∧ current_tick t' = current_tick t.
Proof.
  intros Hcl. destruct (broadcast_clean k msg all t (proj1 Hcl)) as (Hf & Hi & Ht). split_and!; [|..|done].
  - eapply enqueue_clean; [done..|]. by intros m (to & -> & _)%list_elem_of_fmap.
  - rewrite (sent_app _ _ _ Hf). f_equal. simpl. rewrite app_nil_r. clear -BincodeLaws0.
    induction (filter (λ to, to ≠ k) all) as [|to l IH]; [done|]. rewrite !fmap_cons. simpl.
    by rewrite decode_queued, <- IH.
Qed.

Lemma send_sent t from to msg :
  clean t →
  let t' := transport_send t from to msg in
  clean t' ∧ sent t' = sent t ++ [mkDelivered from to msg] ∧ current_tick t' = current_tick t.
Proof.
  intros Hcl. unfold transport_send. rewrite send_bytes_clean by apply Hcl.
  split_and!; [|..|done].
  - eapply enqueue_clean; [done..|]. by intros m ->%list_elem_of_singleton.
  - erewrite sent_app; [|done]. simpl. by rewrite decode_queued.
Qed.

(** *** The cluster *)
Definition cluster_calm used c : Prop :=
  clean (mc_transport c) ∧ calm used (mc_nodes c) (sent (mc_transport c)).

(** Node [k] changes, then broadcasts one message or none. *)
Lemma cluster_update used c k x x' msg :
  cluster_calm used c → mc_nodes c !! k = Some x → node_calm (used !! k) k x' →
  (∀ i, i ≠ k → observer_of i (mn_engine x') = observer_of i (mn_engine x)) →
  from_ok k msg →
  (∀ oy q, channel (used !! k) (Some (sender_of x)) oy q →
     channel (used !! k) (Some (sender_of x')) oy (q ++ sends oy [packet_of msg])) →
  let c' := set_node c k x' in
  cluster_calm used (set_transport c'
    (transport_broadcast (mc_transport c) k msg (all_node_ids c'))).
Proof.
  intros [Hcl Hcalm] Hx Hx' Hobs Hmsg Hch c'.
  destruct (broadcast_sent (mc_transport c) k msg (all_node_ids c') Hcl) as (Hcl' & Hsent & _).
  split; [done|]. simpl. rewrite Hsent. eapply calm_update; [done..| | |done].
  - destruct (members_all c') as [Hnd Hall]. split; [done|]. intros j. rewrite Hall. simpl.
    rewrite lookup_insert_is_Some. destruct (decide (k = j)) as [<-|]; naive_solver.
  - by intros ? ->%list_elem_of_singleton.
Qed.

Lemma cluster_update_quiet used c k x x' :
  cluster_calm used c → mc_nodes c !! k = Some x → node_calm (used !! k) k x' →
  (∀ i, i ≠ k → observer_of i (mn_engine x') = observer_of i (mn_engine x)) →
  (∀ oy q, channel (used !! k) (Some (sender_of x)) oy q →
     channel (used !! k) (Some (sender_of x')) oy q) →
  cluster_calm used (set_node c k x').
Proof.
  intros [Hcl Hcalm] Hx Hx' Hobs Hch. split; [done|]. simpl.
  replace (sent (mc_transport c)) with (sent (mc_transport c) ++ fan k (all_node_ids c) [])
    by apply app_nil_r.
  eapply calm_update; [done..|apply members_all|by intros ? ?%elem_of_nil|].
  intros oy q Hq%Hch. destruct oy; simpl; by rewrite app_nil_r.
Qed.

(** *** Mutations *)

(** The engine after a mutation, as observer, as sender and as a node. *)
Lemma mutate_observer e f u (clk : TestClock) i :
  host_ok (host e) → i ≠ engine_node_id e →
  observer_of i (mutate e f p u clk).1 = observer_of i e.
Proof.
  intros (Hwf & [own Hown] & _) Hi. pose proof (mutate_effect p e f u clk) as He.
  destruct (mutate e f p u clk) as [e' r]. destruct He as (Hsh & (_ & Hl & _) & _).
  apply observer_of_same; [done|]. simpl. rewrite Hsh. unfold apply_mutation. simpl.
  rewrite update_own_view_contents; [|done|by eexists]. by rewrite lookup_insert_ne.
Qed.

Lemma mutate_feed e f u (clk : TestClock) :
  resolve_action (sync_logic e) u ≠ NotifyChangeFeed →
  change_feed (mutate e f p u clk).1 = change_feed e.
Proof. intros Hu. unfold mutate. simpl. by destruct (resolve_action (sync_logic e) u). Qed.

Lemma mutate_node z i x f u (clk : TestClock) (books : list ScheduledAction) cnt int :
  node_calm z i x → age (generation_of (mn_engine x)) < u64_max →
  let e' := (mutate (mn_engine x) f p u clk).1 in
  (∀ a, a ∈ books → a ∈ scheduled x ∨
     ∃ delay, resolve_action (sync_logic (mn_engine x)) u = ScheduleDelayedSync delay ∧
       sc_message a = own_snapshot e' (serialize_view e' (p (so_value (sh_state (shard e')))))) →
  node_calm z i (mkMockNode e' books cnt int).
Proof.
  intros [Hgood Hst Hinc [[Hgi Hga] Hpos] [Hcid Hkeys] Hsch] Hage e' Hbooks.
  pose proof (mutate_effect p (mn_engine x) f u clk) as He.
  pose proof (mutate_feed (mn_engine x) f u clk) as Hquiet.
  assert (run_engine_op (mn_engine x) (OpMutate f p u clk) = Done (e', mr_actions
    (mutate (mn_engine x) f p u clk).2, None)) as Hrun by (unfold e'; simpl; by destruct (mutate _ _ _ _ _)).
  pose proof (node_good_call _ _ _ _ _ _ Hgood Hrun) as Hgood'.
  unfold e' in *. destruct (mutate _ _ _ _ _) as [e1 r]. simpl in *.
  destruct He as (Hsh & (Hst1 & Hl & Hid) & Hg & _ & Hacts).
  assert (static_ok e1) as Hst' by by eapply node_static_same.
  split; simpl; rewrite ?Hg; try done.
  - split; [|done]. split; [done|]. apply u64_add_range.
  - destruct (decide (resolve_action (sync_logic (mn_engine x)) u = NotifyChangeFeed)) as [Hu|Hu].
    + rewrite Hu in Hacts. destruct Hacts as [_ ->]. split; [done|]. intros key g.
      rewrite notify_change_lookup. case_decide as Hk; [|by apply Hkeys]. intros _. rewrite Hk.
      destruct Hst as (-> & _), Hgood as [_ ->]. done.
    + by rewrite Hquiet.
  - intros a [?|(d & _ & ->)]%Hbooks; [by apply Hsch|]. unfold own_snapshot.
    destruct Hst' as (-> & -> & -> & _), Hgood' as [_ ->]. by eexists _, _.
Qed.

(** The engine [e'] of the node is further than [x], and pushes its own snapshot. *)
Record advanced i x e' : Prop := {
  adv_id : engine_node_id e' = engine_node_id (mn_engine x);
  adv_generation : generation_of (mn_engine x) ≤g generation_of e';
  adv_lower : unsynced ≤g generation_of (mn_engine x);
  adv_feeds : uses_feed e' = uses_feed (mn_engine x);
  adv_observer : ∀ k, k ≠ i → observer_of k e' = observer_of k (mn_engine x);
  adv_message : from_ok i (WireSync (own_snapshot e'
    (serialize_view e' (p (so_value (sh_state (shard e')))))))
}.

Lemma node_lower z i x : node_calm z i x → unsynced ≤g generation_of (mn_engine x).
Proof.
  intros Hn. destruct (nc_generation _ _ _ Hn) as [[_ ?] ?]. unfold unsynced, is_u64 in *. gen_lia.
Qed.

Lemma mutate_advanced z i x f u (clk : TestClock) :
  node_calm z i x → age (generation_of (mn_engine x)) < u64_max →
  advanced i x (mutate (mn_engine x) f p u clk).1.
Proof.
  intros Hn Hage. pose proof (node_lower _ _ _ Hn) as Hlow.
  destruct Hn as [[Hok Hid] Hst _ [[_ Hu] _] _ _].
  pose proof (λ k, mutate_observer (mn_engine x) f u clk k Hok) as Hobs. rewrite Hid in Hobs.
  pose proof (mutate_effect p (mn_engine x) f u clk) as He.
  destruct (mutate _ _ _ _ _) as [e' r]. simpl in *. destruct He as (_ & (Hst' & _ & Hid') & Hg & _ & _).
  split; [done| |done| |done|].
  - rewrite Hg. unfold next_generation, is_u64 in *. rewrite u64_succ_small by lia. gen_lia.
  - unfold uses_feed, engine_sync_strategy. unfold static in Hst'. congruence.
  - unfold own_snapshot. assert (static_ok e') as (-> & -> & -> & _) by by eapply node_static_same.
    rewrite Hid', Hid. by eexists _, _.
Qed.

Section Advanced.
Context z i x e' (Hadv : advanced i x e') (cnt int : Z)
  (oy : option observer) (q : list packet).
Hypothesis Hch : channel z (Some (sender_of x)) oy q.

Lemma sender_pushed :
  change_feed e' = change_feed (mn_engine x) →
  channel z (Some (sender_of (mkMockNode e' (scheduled x) cnt int))) oy
    (q ++ sends oy [Snapshot (generation_of e')]).
Proof.
  intros Hcf. destruct Hadv as [Hid Hle _ _ _ _]. unfold sender_of. simpl. rewrite Hcf, Hid.
  exact (channel_push z (sender_of x) oy q _ _ Hch Hle).
Qed.

Lemma sender_scheduled a :
  change_feed e' = change_feed (mn_engine x) → sync_generation (sc_message a) = generation_of e' →
  channel z (Some (sender_of (mkMockNode e' (scheduled x ++ [a]) cnt int))) oy q.
Proof.
  intros Hcf Ha. destruct Hadv as [Hid Hle _ _ _ _]. unfold sender_of. simpl.
  rewrite Hcf, Hid, fmap_app. simpl. rewrite Ha.
  exact (channel_schedule z (sender_of x) oy q _ _ Hch Hle).
Qed.

Lemma sender_notified :
  change_feed e' = notify_change (change_feed (mn_engine x)) name (engine_node_id (mn_engine x))
    (generation_of e') → uses_feed (mn_engine x) →
  channel z (Some (sender_of (mkMockNode e' (scheduled x) cnt int))) oy q.
Proof.
  intros Hcf Hf. destruct Hadv as [Hid Hle Hlow Huses _ _]. unfold sender_of. simpl. rewrite Hid, Huses.
  assert (cf_pending (change_feed e') !! (name, engine_node_id (mn_engine x)) =
    Some (generation_of e')) as ->.
  { rewrite Hcf, notify_change_lookup, decide_True by done. f_equal.
    destruct (cf_pending _ !! _) as [g|] eqn:Hp; [|done].
    destruct (generation_ltb g (generation_of e')) eqn:E; [done|]. apply generation_ltb_ge in E.
    apply (anti_symm gen_le); [|done]. etrans; [|exact Hle].
    apply (chain_bounded _ _ _ _ g Hch), elem_of_chain. right. right. unfold unflushed. simpl.
    rewrite Hp. by left. }
  exact (channel_notify z (sender_of x) oy q _ _ Hch Hle (transitivity Hlow Hle) Hf).
Qed.
End Advanced.

Lemma mutate_calm used c id x f u c' :
  cluster_calm used c → mc_nodes c !! id = Some x →
  age (generation_of (mn_engine x)) < u64_max →
  resolve_action (sync_logic (mn_engine x)) u ≠ SuppressSync →
  cluster_mutate c id f p u = Done c' → cluster_calm used c'.
Proof.
  intros Hcalm Hx Hage Hu. unfold cluster_mutate. rewrite Hx. cbn [expect outcome_bind mbind].
  pose proof (calm_node _ _ _ (proj2 Hcalm) id x Hx) as Hn.
  pose proof (mutate_advanced _ id x f u (mc_clock c) Hn Hage) as Hadv.
  pose proof (mutate_node (used !! id) id x f u (mc_clock c)) as Hnode.
  pose proof (mutate_feed (mn_engine x) f u (mc_clock c)) as Hfeed.
  pose proof (mutate_effect p (mn_engine x) f u (mc_clock c)) as He.
  destruct (mutate _ _ _ _ _) as [e' r]. simpl in Hnode, Hadv, Hfeed.
  destruct He as (_ & _ & _ & _ & Hacts). destruct (nc_static _ _ _ Hn) as (Hname & _).
  intros [= <-]. unfold set_mn_engine.
  assert (node_calm (used !! id) id (mkMockNode e' (scheduled x) (feed_flush_counter x)
    (feed_flush_interval x))) as Hx' by (apply Hnode; auto).
  destruct (resolve_action (sync_logic (mn_engine x)) u) as [| | |delay|] eqn:Hact; [..|done];
    [| |destruct Hacts as [Hacts Hcf]|]; rewrite Hacts; unfold cluster_route_actions; simpl.
  1-2: apply (cluster_update used c id x); [done..|apply Hadv|apply Hadv|];
    intros oy q Hq; apply (sender_pushed _ id); auto.
  - apply (cluster_update_quiet used c id x); [done..|apply Hadv|]. intros oy q Hq.
    apply (sender_notified _ id); [done..|by rewrite Hcf, Hname|].
    destruct (resolve_action_matrix (sync_logic (mn_engine x)) u) as (_ & _ & _ & Hm & _).
    by apply Hm in Hact as [_ ?].
  - rewrite lookup_insert_eq. simpl. rewrite set_node_twice.
    apply (cluster_update_quiet used c id x); [done|done| |apply Hadv|].
    + apply Hnode; [done..|]. intros a [?|Ha]%elem_of_app; [by left|].
      apply list_elem_of_singleton in Ha as ->. right. by exists delay.
    + intros oy q Hq. apply (sender_scheduled _ id); auto.
Qed.

(** *** The phases of a tick *)
Lemma due_split (n : Z) (l : list InFlightMessage) :
  StronglySorted Z.le (deliver_at_tick <$> l) →
  l = filter (is_due n) l ++ filter (λ m, ¬ is_due n m) l.
Proof.
  induction l as [|m l IH]; intros Hs; [done|].
  rewrite fmap_cons in Hs. apply StronglySorted_cons in Hs as [Hm Hs]. rewrite !filter_cons.
  destruct (decide (is_due n m)) as [Hd|Hd].
  - rewrite (decide_False (P := ¬ is_due n m)) by tauto. simpl. f_equal. by apply IH.
  - rewrite (decide_True (P := ¬ is_due n m)) by done.
    assert (filter (is_due n) l = []) as Hnone.
    { destruct (filter (is_due n) l) as [|m' l'] eqn:Hf; [done|].
      assert (m' ∈ filter (is_due n) l) as [Hm' Hin]%list_elem_of_filter by (rewrite Hf; by left).
      rewrite Forall_fmap, Forall_forall in Hm. specialize (Hm m' Hin). unfold is_due in *. simpl in *. lia. }
    rewrite Hnone in *. simpl. f_equal. by apply IH.
Qed.

Lemma deliver_due_clean t :
  clean t → clean (deliver_due t).1 ∧
    sent t = delivered (deliver_due t).2 ++ sent (deliver_due t).1.
Proof.
  intros (Hi & Htick & Hs & Hd). rewrite deliver_due_eq. simpl. split.
  - split_and!; [done|simpl; lia|simpl; lia|..]; simpl.
    + pose proof (due_split (current_tick t) _ Hs) as Hsp. rewrite Hsp, fmap_app in Hs.
      by apply StronglySorted_app in Hs as (_ & _ & ?).
    + intros m [_ Hm]%list_elem_of_filter. by apply Hd.
  - unfold sent. simpl. rewrite <- omap_app. by rewrite <- due_split.
Qed.

Lemma deliver_messages_calm used rest msgs : (∀ v, de (ser v) w = Ok v) → ∀ c c' acts,
  calm used (mc_nodes c) (msgs ++ rest) → deliver_messages c msgs = Done (c', acts) →
  acts = [] ∧ mc_transport c' = mc_transport c ∧ calm used (mc_nodes c') rest.
Proof.
  intros Hcodec. induction msgs as [|d msgs IH]; intros c c' acts Hcalm; simpl; [by intros [= <- <-]|].
  destruct (mc_nodes c !! dm_to d) as [x|] eqn:Hx.
  2: { intros Hd. eapply IH; [|done]. by eapply calm_lost. }
  destruct (handle_inbound _ _ _) as [[e a]|] eqn:Hh; simpl; [|done].
  destruct (calm_deliver used (mc_nodes c) d (msgs ++ rest) x (mc_clock c) e a Hcodec Hcalm Hx Hh)
    as [-> Hcalm'].
  destruct (deliver_messages _ msgs) as [[c1 l1]|] eqn:Hd; simpl; [|done]. intros [= <- <-].
  by apply (IH (set_node c (dm_to d) (set_mn_engine x e)) c1 l1).
Qed.

Lemma deliver_phase_calm used c c' :
  (∀ v, de (ser v) w = Ok v) → cluster_calm used c → deliver_phase c = Done c' →
  cluster_calm used c' ∧ current_tick (mc_transport c') = current_tick (mc_transport c).
Proof.
  intros Hcodec [Hcl Hcalm]. unfold deliver_phase.
  destruct (deliver_due_clean _ Hcl) as [Hcl' Hsent]. rewrite Hsent in Hcalm.
  assert (current_tick (deliver_due (mc_transport c)).1 = current_tick (mc_transport c)) as Htick
    by by rewrite deliver_due_eq.
  destruct (deliver_due (mc_transport c)) as [t r]. simpl in *.
  destruct (deliver_messages _ _) as [[c1 l]|] eqn:Hd; [|done]. intros [= <-].
  eapply deliver_messages_calm in Hd as (-> & Ht & Hcalm'); [|done|exact Hcalm].
  simpl. unfold cluster_calm. rewrite Ht. by split.
Qed.

(** The broadcasts of a timer. *)
Lemma broadcasts_sent k due : ∀ c,
  clean (mc_transport c) →
  let c' := foldl (λ c a, set_transport c (transport_broadcast (mc_transport c) k
    (WireSync (sc_message a)) (all_node_ids c))) c due in
  ∃ t, c' = set_transport c t ∧ clean t ∧ current_tick t = current_tick (mc_transport c) ∧
    sent t = sent (mc_transport c) ++
      fan k (all_node_ids c) ((λ a, WireSync (sc_message a)) <$> due).
Proof.
  induction due as [|a due IH]; intros c Hcl; simpl.
  { exists (mc_transport c). rewrite app_nil_r. split_and!; [by destruct c|done..]. }
  destruct (broadcast_sent (mc_transport c) k (WireSync (sc_message a)) (all_node_ids c) Hcl)
    as (Hcl1 & Hs1 & Ht1).
  set (c1 := set_transport c _). destruct (IH c1 Hcl1) as (t & -> & Hcl' & Ht & Hs).
  exists t. split_and!; [done|done|by rewrite Ht|]. rewrite Hs. simpl. rewrite Hs1.
  rewrite <- (assoc_L (++)). unfold fan at 1. simpl. by rewrite app_nil_r.
Qed.

Lemma members_insert c k x x' :
  mc_nodes c !! k = Some x → members (mc_nodes c) (all_node_ids (set_node c k x')).
Proof.
  intros Hx. destruct (members_all (set_node c k x')) as [Hnd Hall]. split; [done|].
  intros j. rewrite Hall. simpl. rewrite lookup_insert_is_Some'. naive_solver.
Qed.

Lemma timer_one_calm used c k :
  cluster_calm used c →
  cluster_calm used (timer_one c k) ∧
  current_tick (mc_transport (timer_one c k)) = current_tick (mc_transport c).
Proof.
  intros [Hcl Hcalm]. unfold timer_one. destruct (mc_nodes c !! k) as [x|] eqn:Hx; [|done].
  set (due := filter (λ a, sc_deliver_at_tick a ≤ mc_current_tick c) (scheduled x)).
  set (remaining := filter (λ a, ¬ sc_deliver_at_tick a ≤ mc_current_tick c) (scheduled x)).
  set (x' := mkMockNode _ _ _ _). set (c1 := set_node c k x').
  destruct (broadcasts_sent k due c1 Hcl) as (t & -> & Hcl' & Ht & Hs). split; [|done].
  split; [done|]. simpl. rewrite Hs. simpl.
  pose proof (calm_node _ _ _ Hcalm k x Hx) as Hn.
  eapply calm_update; [done|done| |done|by eapply members_insert|..].
  - destruct Hn. split; try done. simpl. intros a [_ Ha]%list_elem_of_filter. auto.
  - intros msg (a & -> & [_ Ha]%list_elem_of_filter)%list_elem_of_fmap. by apply (nc_scheduled _ _ _ Hn).
  - intros oy q Hq.
    pose proof (channel_timer _ _ _ _ (sync_generation ∘ sc_message <$> due)
      (sync_generation ∘ sc_message <$> remaining) Hq) as Ht'.
    assert (Snapshot <$> (sync_generation ∘ sc_message <$> due) =
      packet_of <$> ((λ a, WireSync (sc_message a)) <$> due)) as <- by by rewrite <- !list_fmap_compose.
    apply Ht'. intros g. unfold sender_of. simpl. rewrite <- elem_of_app, <- fmap_app.
    rewrite !list_elem_of_fmap. apply exist_proper. intros a. unfold due, remaining.
    rewrite elem_of_app, !list_elem_of_filter. destruct (decide (sc_deliver_at_tick a ≤ mc_current_tick c)); tauto.
Qed.

(** A flush hands out the pending announcement. *)
Lemma flush_own z k x e feed :
  node_calm z k x → flush_change_feed (mn_engine x) = (e, feed) →
  pending_change_feed_count (mn_engine x) ≠ 0%nat →
  ∃ f, feed = Some f ∧ from_ok k (WireFeed f) ∧
    packet_of (WireFeed f) = Announce (option_list (sd_pending (sender_of x))) ∧
    (∀ books cnt int, (∀ a, a ∈ books → a ∈ scheduled x) → node_calm z k (mkMockNode e books cnt int)) ∧
    (∀ i, observer_of i e = observer_of i (mn_engine x)) ∧
    ∀ cnt int, sender_of (mkMockNode e (scheduled x) cnt int) =
      mkSender (sd_generation (sender_of x)) None (sd_scheduled (sender_of x)) (sd_feeds (sender_of x)).
Proof.
  intros [[Hok Hid] Hst Hinc Hg [Hcid Hkeys] Hsch]. unfold flush_change_feed, pending_change_feed_count.
  destruct (change_feed_flush (change_feed (mn_engine x))) as [cf b] eqn:Hf. intros [= <- <-] Hcnt.
  destruct b as [f|]; [|apply flush_none in Hf as [_ Hf]; destruct Hcnt; unfold pending_count; by rewrite Hf].
  destruct (flush_some _ _ _ Hf) as (Hempty & Hcf & Hsrc & Hin & Hlen).
  assert (∀ n, n ∈ bf_notifications f → cn_state_name n = name ∧ cn_source_node n = k ∧
    cf_pending (change_feed (mn_engine x)) !! (name, k) = Some (cn_generation n)) as Hown.
  { intros [n s g] Hn. apply Hin in Hn. specialize (Hkeys _ _ Hn) as [= -> ->]. done. }
  exists f. split_and!; [done|..].
  - split; [congruence|]. intros n Hn. by destruct (Hown n Hn) as (? & ? & _).
  - unfold sender_of. simpl. rewrite Hid. f_equal.
    assert (∃ n, bf_notifications f = [n]) as [n Hn].
    { unfold pending_count in *. destruct (bf_notifications f) as [|n [|n' l]] eqn:Hl; [done|by eexists|].
      exfalso. assert (cf_pending (change_feed (mn_engine x)) = {[(name, k) := cn_generation n]}) as Hp.
      { apply map_eq. intros key. destruct (decide (key = (name, k))) as [->|Hne].
        - rewrite lookup_singleton_eq. apply Hown. by left.
        - rewrite lookup_singleton_ne by done. destruct (cf_pending _ !! key) eqn:Hk; [|done].
          by destruct (Hne (Hkeys _ _ Hk)). }
      rewrite Hp, map_size_singleton in Hlen. done. }
    rewrite Hn in *. destruct (Hown n ltac:(by left)) as (_ & _ & ->). done.
  - intros books cnt int Hbooks. split; simpl; rewrite ?Hempty; try done.
    + split; [congruence|]. intros key g. by rewrite lookup_empty.
    + auto.
  - done.
  - intros cnt int. unfold sender_of. simpl. by rewrite Hempty, lookup_empty.
Qed.

Lemma flush_one_calm used c k :
  cluster_calm used c →
  cluster_calm used (flush_one c k) ∧
  current_tick (mc_transport (flush_one c k)) = current_tick (mc_transport c).
Proof.
  intros Hcalm. pose proof Hcalm as [Hcl Hc]. unfold flush_one.
  destruct (mc_nodes c !! k) as [x|] eqn:Hx; [|done].
  assert (∀ cnt, cluster_calm used (set_node c k
    (mkMockNode (mn_engine x) (scheduled x) cnt (feed_flush_interval x)))) as Hbooks.
  { intros cnt. split; [done|]. by eapply calm_bookkeeping. }
  destruct (0 <? Z.of_nat _) eqn:Hcnt; [|done]. destruct (feed_flush_interval x <=? _); [|done].
  destruct (flush_change_feed (mn_engine x)) as [e feed] eqn:Hf.
  pose proof (calm_node _ _ _ Hc k x Hx) as Hn.
  destruct (flush_own _ _ _ _ _ Hn Hf) as (f & -> & Hfrom & Hpk & Hnode & Hobs & Hs); [lia|].
  assert (∀ t, current_tick (transport_broadcast t k (WireFeed f) (all_node_ids (set_node c k
    (mkMockNode e (scheduled x) 0 (feed_flush_interval x))))) = current_tick t) as Htick
    by (intros; apply broadcast_tick).
  split; [|apply Htick].
  apply (cluster_update used c k x); [done|done|by apply Hnode|by intros; apply Hobs|done|].
  intros oy q Hq. rewrite Hpk, Hs. by apply channel_flush.
Qed.

Lemma tick_calm used c c' :
  (∀ v, de (ser v) w = Ok v) → cluster_calm used c →
  current_tick (mc_transport c) + 1 < u64_max → tick c = Done c' → cluster_calm used c'.
Proof.
  intros Hcodec Hcalm Htick. unfold tick. destruct (deliver_phase c) as [c1|] eqn:Hd; [|done].
  intros [= <-]. destruct (deliver_phase_calm used c c1 Hcodec Hcalm Hd) as [Hc1 Ht1].
  assert (∀ (step : cluster → NodeId → cluster) ids,
    (∀ c k, cluster_calm used c → cluster_calm used (step c k) ∧
       current_tick (mc_transport (step c k)) = current_tick (mc_transport c)) →
    ∀ c, cluster_calm used c → cluster_calm used (foldl step c ids) ∧
      current_tick (mc_transport (foldl step c ids)) = current_tick (mc_transport c)) as Hfold.
  { intros step ids Hstep. induction ids as [|k ids IH]; intros c0 Hc0; simpl; [done|].
    destruct (Hstep c0 k Hc0) as [Hc0' <-]. by apply IH. }
  destruct (Hfold timer_one (all_node_ids c1) (timer_one_calm used) c1 Hc1) as [Hc2 Ht2].
  destruct (Hfold flush_one (all_node_ids c1) (flush_one_calm used) _ Hc2) as [Hc3 Ht3].
  set (c3 := foldl flush_one _ _) in *. destruct Hc3 as [(Hi & Hr & Hs & Hdue) Hc3].
  assert (current_tick (mc_transport c3) = current_tick (mc_transport c)) as Ht by congruence.
  split; [|exact Hc3]. unfold clean. simpl. rewrite u64_succ_small by lia.
  split_and!; [done|lia|lia|done|]. intros m Hm. specialize (Hdue m Hm). lia.
Qed.

(** *** Nodes that go *)

(** [x'] is [x] with another engine: its observer of [k] is changed by [f], nothing else. *)
Definition neighbour (f : observer → observer) k z i x x' : Prop :=
  node_calm z i x' ∧ sender_of x' = sender_of x ∧
  observer_of k (mn_engine x') = f (observer_of k (mn_engine x)) ∧
  ∀ j, j ≠ k → observer_of j (mn_engine x') = observer_of j (mn_engine x).

(** A call that keeps the sender's side of the engine. *)
Lemma same_sender z i x op e' acts b :
  node_calm z i x → run_engine_op (C:=TestClock) (mn_engine x) op = Done (e', acts, b) →
  static e' = static (mn_engine x) → change_feed e' = change_feed (mn_engine x) →
  generation_of e' = generation_of (mn_engine x) →
  node_calm z i (set_mn_engine x e') ∧ sender_of (set_mn_engine x e') = sender_of x.
Proof.
  intros [Hgood Hst Hinc Hg Hfeed Hsch] Hr Hst' Hcf Hgen.
  pose proof (node_good_call _ _ _ _ _ _ Hgood Hr) as Hgood'. split.
  - split; simpl; rewrite ?Hgen, ?Hcf; try done. by eapply node_static_same.
  - unfold sender_of, uses_feed, engine_sync_strategy. simpl.
    assert (sync_logic e' = sync_logic (mn_engine x)) as -> by (unfold static in Hst'; congruence).
    by rewrite Hgen, Hcf, (proj2 Hgood'), (proj2 Hgood).
Qed.

Lemma left_neighbour z i x k :
  node_calm z i x → k ≠ i →
  neighbour (λ _, mkObserver false None) k z i x (set_mn_engine x (engine_on_node_left (mn_engine x) k)).
Proof.
  intros Hn Hk. pose proof (nc_good _ _ _ Hn) as [(Hwf & _) Hid].
  destruct (node_left_frame (S:=S) (shard (mn_engine x)) k) as (_ & _ & Hs).
  destruct (same_sender z i x (OpLeave k) (engine_on_node_left (mn_engine x) k) [] None Hn)
    as [Hn' Hsend]; [done..| |].
  { unfold generation_of. simpl. by rewrite Hs. }
  assert (contents (shard (engine_on_node_left (mn_engine x) k)) =
    delete k (contents (shard (mn_engine x)))) as Hc.
  { simpl. rewrite node_left_contents by done. unfold engine_node_id in Hid.
    by rewrite bool_decide_eq_false_2 by congruence. }
  split_and!; [done|done|..]; intros; unfold observer_of; cbn [mn_engine set_mn_engine]; rewrite Hc.
  - rewrite lookup_delete_eq. unfold should_accept_from. simpl.
    by rewrite bool_decide_eq_true_2 by set_solver.
  - rewrite lookup_delete_ne by done. unfold should_accept_from. simpl. f_equal. f_equal.
    apply bool_decide_ext. set_solver.
Qed.

Lemma remove_calm used c k : cluster_calm used c → cluster_calm used (remove_node c k).
Proof.
  intros [Hcl [Hn Hm Hc]]. split; [done|]. simpl. unfold all_on_node_left.
  set (f := λ nd : MockNode S V M, set_mn_engine nd (engine_on_node_left (mn_engine nd) k)).
  assert (∀ i x, i ≠ k → mc_nodes c !! i = Some x →
    neighbour (λ _, mkObserver false None) k (used !! i) i x (f x)) as Hf
    by (intros i x Hi Hx; apply left_neighbour; eauto).
  split; [|done|].
  - intros i x'. rewrite lookup_fmap, lookup_delete. case_decide as Hi; [done|].
    intros (x & Hx & ->)%fmap_Some. by apply (Hf i x).
  - intros i j Hij. specialize (Hc i j Hij). unfold channel_at in *.
    rewrite !lookup_fmap, !lookup_delete.
    destruct (decide (k = i)) as [->|Hi].
    + rewrite decide_False by done. simpl. eapply channel_sender_gone in Hc.
      * destruct (mc_nodes c !! j) as [y|] eqn:Hy; [|exact Hc].
        destruct (Hf j y) as (_ & _ & Ho & _); [done..|]. simpl in *. by rewrite Ho.
      * intros s (x & Hx & ->)%fmap_Some. apply (nc_incarnation _ _ _ (Hn i x Hx)).
    + assert (sender_of <$> (f <$> mc_nodes c !! i) = sender_of <$> mc_nodes c !! i) as ->.
      { destruct (mc_nodes c !! i) as [x|] eqn:Hx; [|done]. simpl.
        by destruct (Hf i x) as (_ & -> & _). }
      case_decide as Hj; [simpl; by eapply channel_observer_gone|].
      destruct (mc_nodes c !! j) as [y|] eqn:Hy; [|exact Hc]. simpl in *.
      destruct (Hf j y) as (_ & _ & _ & Ho); [done..|]. by rewrite Ho.
Qed.

(** The same with the messages of the node, from it and to it. *)
Lemma sent_drop t k :
  sent (drop_in_flight_for t k) = filter (λ d, dm_from d ≠ k ∧ dm_to d ≠ k) (sent t).
Proof.
  unfold sent. cbn [drop_in_flight_for in_flight].
  induction (in_flight t) as [|m l IH]; [done|].
  assert (∀ l : list InFlightMessage, omap decode_delivered (m :: l) =
    option_list (decode_delivered m) ++ omap decode_delivered l) as Hcons
    by (intros; simpl; by destruct (decode_delivered m)).
  assert (∀ d, decode_delivered m = Some d → dm_from d = if_from m ∧ dm_to d = if_to m) as Hd.
  { unfold decode_delivered. case_match; [by intros ? [= <-]|done]. }
  rewrite Hcons, filter_app, <- IH, filter_cons.
  destruct (decode_delivered m) as [d|]; simpl.
  - destruct (Hd d eq_refl) as [Hfr Hto]. rewrite filter_cons, Hfr, Hto.
    by case_decide; rewrite ?Hcons.
  - by case_decide; rewrite ?Hcons.
Qed.

Lemma queue_drop i j k l :
  queue i j (filter (λ d, dm_from d ≠ k ∧ dm_to d ≠ k) l) =
    if decide (i = k ∨ j = k) then [] else queue i j l.
Proof.
  induction l as [|d l IH]; [simpl; by case_decide|].
  rewrite filter_cons, queue_cons.
  destruct (decide (dm_from d ≠ k ∧ dm_to d ≠ k)) as [Hd|Hd].
  - rewrite queue_cons, IH. destruct (decide (dm_from d = i ∧ dm_to d = j)) as [[<- <-]|]; [|done].
    by rewrite !decide_False by tauto.
  - rewrite IH. destruct (decide (dm_from d = i ∧ dm_to d = j)) as [[<- <-]|]; [|done].
    by rewrite !decide_True by (destruct (decide (dm_from d = k)), (decide (dm_to d = k)); tauto).
Qed.

Lemma remove_hard_calm used c k : cluster_calm used c → cluster_calm used (remove_node_hard c k).
Proof.
  intros Hcalm. destruct (remove_calm used c k Hcalm) as [(Hi & Ht & Hs & Hd) [Hn Hm Hc]].
  split.
  - split_and!; [exact Hi|apply Ht|apply Ht|..]; simpl.
    + simpl in Hs. clear -Hs. induction (in_flight (mc_transport c)) as [|m l IH]; [done|].
      rewrite fmap_cons in Hs. apply StronglySorted_cons in Hs as [Hm Hs]. rewrite filter_cons.
      case_decide; [|by apply IH]. rewrite fmap_cons. apply StronglySorted_cons. split; [|by apply IH].
      rewrite Forall_fmap, Forall_forall in Hm |- *. intros m' [_ Hm']%list_elem_of_filter. by apply Hm.
    + intros m [_ Hm']%list_elem_of_filter. by apply Hd.
  - simpl. rewrite sent_drop. split; [done| |].
    + intros d [_ Hin]%list_elem_of_filter. by apply Hm.
    + intros i j Hij. specialize (Hc i j Hij). unfold channel_at in *. rewrite queue_drop.
      case_decide as Hk; [|exact Hc]. eapply channel_cut; [|exact Hc]. simpl.
      unfold all_on_node_left. rewrite !lookup_fmap, !lookup_delete.
      destruct Hk as [->| ->]; [left|right]; by rewrite decide_True.
Qed.
End Calm.
