(* ===== verification/Consistency.v ===== *)
(** Nodes that join a cluster without faults, and the consistency of such a cluster once
    it is settled. *)
From stdpp Require Import prelude gmap fin_maps strings relations sorting.
From S2P Require Import Prelude Node Clock Types ViewMap ShardCore ShardProps SyncLogic.
From S2P Require Import ChangeFeed Versioning Lifecycle Diagnostics Engine EngineProps.
From S2P Require Import Protocol Accounting Network NetworkRuns Traits Interceptor Transport Faults.
From S2P Require Import Cluster ClusterProps Convergence Settle Channel Calm.

Section Joins.
Context `{HashIter} {S V M : Type} `{!ViewMapOps V M} `{!ViewMapLaws V M}.
Context `{!Bincode WireMessage} `{!BincodeLaws WireMessage}.
Context (name : string) (p : S → V) (w : Z)
  (ser : SerializeViewFn V) (de : DeserializeViewFn V) (ap : option (InboundDeltaApplierFn V)).
Local Abbreviation cluster := (MockCluster S V M).
Local Abbreviation engine := (DistributedStateEngine S V M).
Local Abbreviation nodes := (gmap NodeId (MockNode S V M)).
Local Abbreviation node_calm := (node_calm name w ser de ap).
Local Abbreviation calm := (calm name w ser de ap).
Local Abbreviation cluster_calm := (cluster_calm name w ser de ap).
Local Abbreviation neighbour := (neighbour name w ser de ap).
Local Abbreviation sender_of := (sender_of name).
Local Abbreviation is_snapshot_of := (is_snapshot_of name w ser).
Implicit Types (c : cluster) (x y : MockNode S V M) (e : engine) (i j k : NodeId).
Implicit Types (N : nodes) (z : option Z) (m : SyncMessage).

(** *** One engine hears of a node *)

(** The snapshot a node sends. *)
Definition snapshot_from x i m : Prop :=
  is_snapshot_of i m ∧ sync_generation m = generation_of (mn_engine x).

Lemma join_neighbour z i x k v (clk : TestClock) e' acts :
  node_calm z i x → k ≠ i → engine_on_node_joined (mn_engine x) k v clk = Done (e', acts) →
  neighbour joined k z i x (set_mn_engine x e') ∧ ∃ m, acts = [SendSync k m] ∧ snapshot_from x i m.
Proof.
  intros Hn Hk Hj. pose proof (nc_good _ _ _ _ _ _ _ _ Hn) as [(Hwf & _) Hid].
  pose proof (nc_static _ _ _ _ _ _ _ _ Hn) as (Hname & Hw & Hser & _).
  assert (run_engine_op (mn_engine x) (OpJoin k v clk) = Done (e', acts, None)) as Hrun
    by (simpl; by rewrite Hj).
  destruct (node_joined_frame (S:=S) (shard (mn_engine x)) k v clk) as (_ & Hid' & Hs).
  unfold engine_on_node_joined in Hj. simpl in Hj.
  destruct (own_view_value _) as [u|]; simpl in Hj; [|done]. injection Hj as <- <-.
  set (e' := map_diagnostics _ _) in *.
  destruct (same_sender name w ser de ap z i x (OpJoin k v clk) e' _ None Hn Hrun) as [Hn' Hsend];
    [done..|unfold generation_of; simpl; by rewrite Hs|].
  assert (contents (shard e') = match contents (shard (mn_engine x)) !! k with
    | Some _ => contents (shard (mn_engine x))
    | None => <[k := placeholder_view k v (now clk)]> (contents (shard (mn_engine x)))
    end) as Hc.
  { simpl. rewrite node_joined_contents by done. unfold engine_node_id in Hid.
    by rewrite bool_decide_eq_false_2 by congruence. }
  split; [split_and!; [done|done|..]|].
  - unfold observer_of, joined. cbn [mn_engine set_mn_engine]. rewrite Hc. simpl.
    unfold should_accept_from. simpl. rewrite bool_decide_eq_false_2 by set_solver. f_equal.
    destruct (contents (shard (mn_engine x)) !! k) as [vo|] eqn:Hvo; [by rewrite Hvo|].
    by rewrite lookup_insert_eq.
  - intros j Hjk. unfold observer_of. cbn [mn_engine set_mn_engine]. rewrite Hc. f_equal.
    + unfold should_accept_from. simpl. f_equal. apply bool_decide_ext. set_solver.
    + destruct (contents (shard (mn_engine x)) !! k); [done|]. by rewrite lookup_insert_ne.
  - eexists. split; [done|]. unfold snapshot_from, own_snapshot, generation_of, engine_node_id in *.
    simpl. rewrite Hname, Hw, Hser, Hid', Hid, Hs. split; [|done]. by eexists _, _.
Qed.

(** *** The nodes that are there hear of node [k] *)
Lemma announce_to_existing_calm (used : gmap NodeId Z) k v ids : ∀ c c' l,
  (∀ j x, mc_nodes c !! j = Some x → node_calm (used !! j) j x) → NoDup ids → k ∉ ids →
  announce_to_existing c k v ids = Done (c', l) →
  mc_transport c' = mc_transport c ∧ mc_clock c' = mc_clock c ∧
  (∀ j, if decide (j ∈ ids)
     then ∃ x x', mc_nodes c !! j = Some x ∧ mc_nodes c' !! j = Some x' ∧
       neighbour joined k (used !! j) j x x'
     else mc_nodes c' !! j = mc_nodes c !! j) ∧
  ∃ ms : list (NodeId * SyncMessage),
    l = (λ q, (q.1, [SendSync k q.2])) <$> ms ∧ ms.*1 = ids ∧
    ∀ q, q ∈ ms → ∃ x, mc_nodes c !! q.1 = Some x ∧ snapshot_from x q.1 q.2.
Proof.
  induction ids as [|id ids IH]; intros c c' l Hn Hnd Hk; simpl.
  { intros [= <- <-]. split_and!; [done..| |].
    - intros j. by destruct (decide (j ∈ [])) as [?%elem_of_nil|].
    - exists []. split_and!; [done..|]. by intros q ?%elem_of_nil. }
  apply NoDup_cons in Hnd as [Hni Hnd]. apply not_elem_of_cons in Hk as [Hkid Hk].
  destruct (mc_nodes c !! id) as [x|] eqn:Hx; simpl; [|done].
  destruct (engine_on_node_joined _ _ _ _) as [[e a]|] eqn:Hj; simpl; [|done].
  destruct (join_neighbour (used !! id) id x k v (mc_clock c) e a) as [Hnb (m & -> & Hm)]; [by auto..|].
  destruct (announce_to_existing _ _ _ ids) as [[c1 l1]|] eqn:Hr; simpl; [|done]. intros [= <- <-].
  set (c0 := set_node c id (set_mn_engine x e)) in *.
  assert (∀ j, j ≠ id → mc_nodes c0 !! j = mc_nodes c !! j) as Hne.
  { intros j ?. by apply lookup_insert_ne. }
  destruct (IH c0 c1 l1) as (Ht & Hclk & Hnodes & ms & -> & Hms & Hfrom); [|done..|].
  { intros j y. unfold c0. simpl.
    intros [[<- <-]|[_ Hy]]%lookup_insert_Some; [apply Hnb|by apply Hn]. }
  split_and!; [done|done| |].
  - intros j. specialize (Hnodes j). destruct (decide (j = id)) as [->|Hjid].
    + destruct (decide (id ∈ ids)) as [|_]; [done|].
      destruct (decide (id ∈ id :: ids)) as [_|Hin]; [|destruct Hin; by left].
      exists x, (set_mn_engine x e). split_and!; [done| |done].
      rewrite Hnodes. apply lookup_insert_eq.
    + rewrite Hne in Hnodes by done.
      destruct (decide (j ∈ ids)), (decide (j ∈ id :: ids)) as [Hin|Hin]; try done.
      * destruct Hin. by right.
      * by apply elem_of_cons in Hin as [?|?].
  - exists ((id, m) :: ms). split_and!; [done|by rewrite fmap_cons, Hms|].
    intros q [->|Hq]%elem_of_cons; [by exists x|]. destruct (Hfrom q Hq) as (y & Hy & ?).
    exists y. rewrite Hne in Hy; [done|]. intros Heq. apply Hni. rewrite <- Hms, <- Heq.
    by apply list_elem_of_fmap_2.
Qed.

(** *** Node [k] hears of the others *)
Lemma announce_existing_calm z k v (clk : TestClock) ids : ∀ x e' l,
  node_calm z k x → k ∉ ids → NoDup ids →
  announce_existing clk (mn_engine x) v ids = Done (e', l) →
  node_calm z k (set_mn_engine x e') ∧ sender_of (set_mn_engine x e') = sender_of x ∧
  (∀ j, observer_of j e' =
     if decide (j ∈ ids) then joined (observer_of j (mn_engine x)) else observer_of j (mn_engine x)) ∧
  ∃ ms : list (NodeId * SyncMessage),
    l = (λ q, [SendSync q.1 q.2]) <$> ms ∧ ms.*1 = ids ∧ ∀ q, q ∈ ms → snapshot_from x k q.2.
Proof.
  induction ids as [|id ids IH]; intros x e' l Hn Hk Hnd; simpl.
  { intros [= <- <-]. split_and!; [by destruct x|by destruct x| |].
    - intros j. by destruct (decide (j ∈ [])) as [?%elem_of_nil|].
    - exists []. split_and!; [done..|]. by intros q ?%elem_of_nil. }
  apply NoDup_cons in Hnd as [Hni Hnd]. apply not_elem_of_cons in Hk as [Hkid Hk].
  destruct (engine_on_node_joined _ _ _ _) as [[e a]|] eqn:Hj; simpl; [|done].
  destruct (join_neighbour z k x id v clk e a) as [(Hn1 & Hs1 & Ho1 & Hother) (m & -> & Hm)]; [by auto..|].
  destruct (announce_existing _ _ _ ids) as [[e1 l1]|] eqn:Hr; simpl; [|done]. intros [= <- <-].
  destruct (IH (set_mn_engine x e) e1 l1 Hn1 Hk Hnd Hr) as (Hn' & Hs' & Ho' & ms & -> & Hms & Hfrom).
  split_and!; [done|by rewrite <- Hs1| |].
  - intros j. rewrite Ho'. simpl in *. destruct (decide (j = id)) as [->|Hjid].
    + destruct (decide (id ∈ ids)) as [|_]; [done|].
      destruct (decide (id ∈ id :: ids)) as [_|Hin]; [done|]. destruct Hin. by left.
    + rewrite Hother by done.
      destruct (decide (j ∈ ids)), (decide (j ∈ id :: ids)) as [Hin|Hin]; try done.
      * destruct Hin. by right.
      * by apply elem_of_cons in Hin as [?|?].
  - exists ((id, m) :: ms). split_and!; [done|by rewrite fmap_cons, Hms|].
    intros q [->|Hq]%elem_of_cons; [done|]. destruct (Hfrom q Hq) as [? Hg]. split; [done|].
    rewrite Hg. by apply (f_equal sd_generation) in Hs1.
Qed.

(** *** The snapshots they exchange *)
Lemma sends_sent {A} (f : A → NodeId * NodeId * SyncMessage) l : ∀ c,
  clean (mc_transport c) →
  ∃ t, foldl (λ c a, set_transport c
      (transport_send (mc_transport c) (f a).1.1 (f a).1.2 (WireSync (f a).2))) c l = set_transport c t ∧
    clean t ∧ sent t = sent (mc_transport c) ++ ((λ a, mkDelivered (f a).1.1 (f a).1.2 (WireSync (f a).2)) <$> l).
Proof.
  induction l as [|a l IH]; intros c Hcl; simpl.
  { exists (mc_transport c). rewrite app_nil_r. split_and!; [by destruct c|done..]. }
  destruct (send_sent (mc_transport c) (f a).1.1 (f a).1.2 (WireSync (f a).2) Hcl) as (Hcl1 & Hs1 & _).
  destruct (IH (set_transport c _) Hcl1) as (t & -> & Hcl' & Hs). exists t.
  split_and!; [done|done|]. rewrite Hs. simpl. by rewrite Hs1, <- (assoc_L (++)).
Qed.

Definition to_node k (ms : list (NodeId * SyncMessage)) : list DeliveredMessage :=
  (λ q, mkDelivered q.1 k (WireSync q.2)) <$> ms.
Definition from_node k (ms : list (NodeId * SyncMessage)) : list DeliveredMessage :=
  (λ q, mkDelivered k q.1 (WireSync q.2)) <$> ms.

(** At most one of them is for a given channel. *)
Lemma queue_one (mk : NodeId * SyncMessage → DeliveredMessage) key i j ms :
  (∀ q, dm_message (mk q) = WireSync q.2) → (∀ q, dm_from (mk q) = i ∧ dm_to (mk q) = j ↔ q.1 = key) →
  NoDup ms.*1 →
  queue i j (mk <$> ms) =
    match (list_to_map ms : gmap NodeId SyncMessage) !! key with
    | Some m => [Snapshot (sync_generation m)] | None => [] end.
Proof.
  intros Hmsg Hkey. induction ms as [|q ms IH]; intros Hnd; [simpl; by rewrite lookup_empty|].
  rewrite fmap_cons in Hnd. apply NoDup_cons in Hnd as [Hni Hnd].
  rewrite fmap_cons, queue_cons, IH by done. destruct q as [k m]. simpl. destruct (decide (k = key)) as [->|Hne].
  - rewrite decide_True by by apply Hkey. rewrite lookup_insert_eq.
    rewrite not_elem_of_list_to_map_1 by done. by rewrite Hmsg.
  - rewrite decide_False by by rewrite Hkey. by rewrite lookup_insert_ne.
Qed.

Lemma queue_none (mk : NodeId * SyncMessage → DeliveredMessage) i j ms :
  (∀ q, ¬ (dm_from (mk q) = i ∧ dm_to (mk q) = j)) → queue i j (mk <$> ms) = [].
Proof.
  intros Hno. induction ms as [|q ms IH]; [done|]. rewrite fmap_cons, queue_cons, IH.
  by rewrite decide_False.
Qed.

(** For every node that is there, and only for them. *)
Definition one_for_each N (P : NodeId → MockNode S V M → SyncMessage → Prop)
    (ms : list (NodeId * SyncMessage)) : Prop :=
  NoDup ms.*1 ∧ (∀ q, q ∈ ms → ∃ y, N !! q.1 = Some y ∧ P q.1 y q.2) ∧
  ∀ j, match N !! j with
       | Some y => ∃ m, (list_to_map ms : gmap NodeId SyncMessage) !! j = Some m ∧ P j y m
       | None => (list_to_map ms : gmap NodeId SyncMessage) !! j = None
       end.

Lemma one_for_each_intro N P ms ids :
  members N ids → ms.*1 = ids →
  (∀ q, q ∈ ms → ∃ y, N !! q.1 = Some y ∧ P q.1 y q.2) → one_for_each N P ms.
Proof.
  intros [Hnd Hall] <- Hms. split_and!; [done|done|]. intros j.
  destruct (N !! j) as [y|] eqn:Hy.
  - assert (j ∈ ms.*1) as Hin by (apply Hall; eauto).
    apply list_elem_of_fmap in Hin as ([j' m] & -> & Hin). simpl in Hy. exists m. simpl.
    split; [by apply elem_of_list_to_map_1|].
    destruct (Hms _ Hin) as (y' & Hy' & HP). simpl in *. congruence.
  - apply not_elem_of_list_to_map_1. rewrite Hall, Hy. by intros [? ?].
Qed.

(** *** The channels after a node joined *)
Lemma calm_join (used : gmap NodeId Z) N N1 l k x' (inc : Z) (F : Prop) msA msB :
  calm used N l → N !! k = None → (∀ b, used !! k = Some b → b < inc) → 0 < inc →
  (∀ j, match N !! j with
        | Some x => ∃ x1, N1 !! j = Some x1 ∧ neighbour joined k (used !! j) j x x1
        | None => N1 !! j = None end) →
  one_for_each N (λ j x m, snapshot_from x j m) msA →
  one_for_each N (λ _ _ m, snapshot_from x' k m) msB →
  node_calm (Some inc) k x' → sender_of x' = mkSender (generation_new inc 0) None [] F →
  (∀ j, j ≠ k → observer_of j (mn_engine x') =
     match N !! j with Some _ => joined (mkObserver true None) | None => mkObserver true None end) →
  calm (<[k := inc]> used) (<[k := x']> N1) (l ++ to_node k msA ++ from_node k msB).
Proof.
  intros [Hn Hm Hc] Hk Hz Hi HN (HndA & HmsA & HA) (HndB & HmsB & HB) Hx' Hsend Hobs.
  assert (generation_of (mn_engine x') = generation_new inc 0) as Hgen
    by by apply (f_equal sd_generation) in Hsend.
  split.
  - intros j x. rewrite !lookup_insert. case_decide; [intros [= <-]; by subst|]. intros Hx.
    specialize (HN j). destruct (N !! j) as [y|]; [|congruence].
    destruct HN as (x1 & Hx1 & Hnb & _). congruence.
  - intros d [Hd|[Hd|Hd]%elem_of_app]%elem_of_app; [by apply Hm|..];
      apply list_elem_of_fmap in Hd as (q & -> & Hq).
    + destruct (HmsA q Hq) as (y & Hy & Hs & _). split; [|exact Hs]. simpl. congruence.
    + destruct (HmsB q Hq) as (y & Hy & Hs & _). split; [|exact Hs]. simpl. congruence.
  - intros a b Hab. specialize (Hc a b Hab). unfold channel_at, to_node, from_node in *. rewrite !queue_app.
    destruct (decide (k = a)) as [->|Hka].
    + rewrite (queue_none _ a b msA), (queue_one _ b a b msB) by naive_solver.
      rewrite !lookup_insert_eq, (lookup_insert_ne _ a b) by done. simpl. rewrite Hsend, Hk in *.
      specialize (HN b). specialize (HB b). destruct (N !! b) as [y|].
      * destruct HN as (y1 & -> & _ & _ & Ho & _). destruct HB as (m & -> & _ & Hg).
        rewrite Hgen in Hg. rewrite Hg. simpl in *. rewrite Ho.
        exact (channel_start_sender _ _ _ inc F Hc Hz Hi).
      * rewrite HN, HB. simpl in *. exact (channel_start_sender _ _ _ inc F Hc Hz Hi).
    + rewrite (lookup_insert_ne used), (lookup_insert_ne N1 k a) by done.
      assert (sender_of <$> N1 !! a = sender_of <$> N !! a) as ->.
      { specialize (HN a). destruct (N !! a) as [y|]; [|by rewrite HN].
        destruct HN as (y1 & -> & _ & Hs & _). simpl. by rewrite Hs. }
      destruct (decide (k = b)) as [->|Hkb].
      * rewrite lookup_insert_eq, (queue_one _ a a b msA), (queue_none _ a b msB) by naive_solver.
        simpl. rewrite Hobs by done. specialize (HA a). rewrite Hk in Hc.
        assert (∀ s, sender_of <$> N !! a = Some s → unsynced ≤g sd_generation s) as Hlow.
        { intros s (y & Hy & ->)%fmap_Some. exact (node_lower _ _ _ _ _ _ _ _ (Hn a y Hy)). }
        pose proof (channel_start_observer _ _ _ Hc Hlow) as Hch.
        destruct (N !! a) as [y|]; simpl in *.
        -- destruct HA as (m & -> & _ & ->). exact Hch.
        -- rewrite HA. exact Hch.
      * rewrite (lookup_insert_ne N1 k b) by done.
        rewrite (queue_none _ a b msA), (queue_none _ a b msB) by naive_solver. rewrite !app_nil_r.
        specialize (HN b). destruct (N !! b) as [y|]; [|by rewrite HN].
        destruct HN as (y1 & -> & _ & _ & _ & Ho). simpl in *. by rewrite Ho by congruence.
Qed.

(** *** Adding a node *)
Local Abbreviation new_engine id s0 cfg clk :=
  (engine_new (S:=S) (V:=V) (M:=M) (C:=TestClock) name id s0 p cfg w clk ser de ap).

Lemma new_node_calm id s0 cfg (clk : TestClock) interval :
  0 < as_u64 (unix_ms clk) →
  let x1 := mkMockNode (new_engine id s0 cfg clk) [] 0 interval in
  node_calm (Some (as_u64 (unix_ms clk))) id x1 ∧
  sender_of x1 = mkSender (generation_new (as_u64 (unix_ms clk)) 0) None [] (uses_feed (mn_engine x1)) ∧
  ∀ j, j ≠ id → observer_of j (mn_engine x1) = mkObserver true None.
Proof.
  intros Hpos x1. destruct (engine_new_ok (M:=M) name id s0 p cfg w clk ser de ap) as [Hok _].
  split_and!; [|done|].
  - split; try done.
    + split; [|done]. split; [apply as_u64_range|done].
    + by intros a ?%elem_of_nil.
  - intros j Hj. unfold observer_of, x1. cbn [mn_engine].
    destruct (shard_new_contents (S:=S) (M:=M) id
      (new_state_object s0 (as_u64 (unix_ms clk)) clk) (p s0) clk) as [_ Hc].
    change (contents (shard (new_engine id s0 cfg clk)) = {[id := own_view_object id
      (new_state_object s0 (as_u64 (unix_ms clk)) clk) (p s0) (now clk)]}) in Hc.
    rewrite Hc, lookup_singleton_ne by done. done.
Qed.

Lemma add_node_calm used c id s0 cfg clk v c' :
  cluster_calm used c → restartable used c id clk →
  add_node c (new_engine id s0 cfg clk) v = Done c' →
  cluster_calm (<[id := as_u64 (unix_ms clk)]> used) c'.
Proof.
  intros [Hcl Hcalm] (Hid & Hpos & Hclk). unfold add_node. change (engine_node_id _) with id.
  rewrite bool_decide_eq_false_2 by (rewrite Hid; by intros [? ?]).
  pose proof (members_all c) as Hall. set (ids := all_node_ids c) in *.
  assert (id ∉ ids) as Hni by (rewrite (proj2 Hall), Hid; by intros [? ?]).
  destruct (announce_to_existing c id v ids) as [[c1 l]|] eqn:Ha; [|done]. cbn [outcome_bind mbind].
  destruct (announce_to_existing_calm used id v ids c c1 l (calm_node _ _ _ _ _ _ _ _ Hcalm)
    (proj1 Hall) Hni Ha) as (Ht1 & _ & Hnodes & msA & -> & HidsA & HfromA).
  destruct (sends_sent (λ q : NodeId * SyncMessage, (q.1, id, q.2)) msA c1) as (t & Hroute & Hclt & Hst);
    [by rewrite Ht1|].
  assert (route_all c1 ((λ q, (q.1, [SendSync id q.2])) <$> msA) = set_transport c1 t) as ->.
  { rewrite <- Hroute. unfold route_all. by rewrite foldl_fmap. }
  set (c2 := set_transport c1 t). set (interval := feed_interval c2 _).
  destruct (new_node_calm id s0 cfg clk interval Hpos) as (Hn1 & Hs1 & Ho1).
  set (x1 := mkMockNode _ [] 0 interval) in *.
  destruct (announce_existing (mc_clock c2) (new_engine id s0 cfg clk) v ids) as [[e' l']|] eqn:Hb; [|done].
  destruct (announce_existing_calm _ id v (mc_clock c2) ids x1 e' l' Hn1 Hni (proj1 Hall) Hb)
    as (Hn' & Hs' & Ho' & msB & -> & HidsB & HfromB).
  cbn [outcome_bind mbind]. set (c3 := set_node c2 id (mkMockNode e' [] 0 interval)).
  destruct (sends_sent (λ q : NodeId * SyncMessage, (id, q.1, q.2)) msB c3 Hclt) as (t' & Hroute' & Hclt' & Hst').
  intros [= <-]. rewrite foldl_fmap.
  match goal with |- cluster_calm _ ?c' => change c' with
    (foldl (λ c (q : NodeId * SyncMessage), set_transport c
      (transport_send (mc_transport c) id q.1 (WireSync q.2))) c3 msB) end.
  simpl in Hroute'. rewrite Hroute'. split; [done|].
  change (mc_nodes (set_transport c3 t')) with (<[id := set_mn_engine x1 e']> (mc_nodes c1)).
  change (mc_transport (set_transport c3 t')) with t'. rewrite Hst'.
  change (mc_transport c3) with t. rewrite Hst, Ht1, <- (assoc_L (++)).
  eapply (calm_join used (mc_nodes c)); [done|done|done|done|..].
  - intros j. specialize (Hnodes j). destruct (mc_nodes c !! j) as [x|] eqn:Hj.
    + destruct (decide (j ∈ ids)) as [_|Hin]; [|destruct Hin; apply Hall; eauto].
      destruct Hnodes as (y & x1' & Hy & Hx1 & Hnb). exists x1'. by simplify_eq.
    + destruct (decide (j ∈ ids)) as [[? ?]%Hall|_]; congruence.
  - by apply (one_for_each_intro _ _ _ ids).
  - apply (one_for_each_intro _ _ _ ids); [done|done|]. intros q Hq.
    assert (q.1 ∈ ids) as [y Hy]%Hall by (rewrite <- HidsB; by apply list_elem_of_fmap_2).
    exists y. split; [done|]. destruct (HfromB q Hq) as [? Hg]. split; [done|]. rewrite Hg.
    by apply (f_equal sd_generation) in Hs'.
  - done.
  - by rewrite Hs', Hs1.
  - intros j Hj. cbn [mn_engine set_mn_engine]. rewrite Ho'. cbn [mn_engine x1]. rewrite Ho1 by done.
    destruct (mc_nodes c !! j) as [y|] eqn:Hy.
    + destruct (decide (j ∈ ids)) as [_|Hin]; [done|]. destruct Hin. apply Hall; eauto.
    + destruct (decide (j ∈ ids)) as [[? ?]%Hall|_]; [congruence|done].
Qed.

(** ** Clusters without faults *)

(** No interceptor is installed, no update is suppressed, and the clock does not overflow.
    A mutation that resolves to [SuppressSync] (by its urgency, or by the default urgency
    under [periodic_only]) is left out, as it tells no one that the view has changed. *)
Inductive clean_reach : gmap NodeId Z → cluster → Prop :=
| clean_new clock d seed : clean_reach ∅ (cluster_new clock d seed)
| clean_add used c id s0 cfg clk v c' :
    clean_reach used c → restartable used c id clk →
    add_node c (new_engine id s0 cfg clk) v = Done c' →
    clean_reach (<[id := as_u64 (unix_ms clk)]> used) c'
| clean_mutate used c id x f u c' :
    clean_reach used c → mc_nodes c !! id = Some x →
    age (generation_of (mn_engine x)) < u64_max →
    resolve_action (sync_logic (mn_engine x)) u ≠ SuppressSync →
    cluster_mutate c id f p u = Done c' → clean_reach used c'
| clean_tick used c c' :
    clean_reach used c → mc_current_tick c + 1 < u64_max → tick c = Done c' → clean_reach used c'
| clean_remove used c id : clean_reach used c → clean_reach used (remove_node c id)
| clean_remove_hard used c id : clean_reach used c → clean_reach used (remove_node_hard c id).

Lemma clean_reach_reach used c : clean_reach used c → cluster_reach name p w ser de ap used c.
Proof.
  induction 1; [apply reach_new|by eapply reach_add|by eapply reach_mutate|by eapply reach_tick
    |by apply reach_remove|by apply reach_remove_hard].
Qed.

Lemma clean_reach_calm used c :
  (∀ v, de (ser v) w = Ok v) → clean_reach used c → cluster_calm used c.
Proof.
  intros Hcodec. induction 1 as [clock d seed|used c id s0 cfg clk v c' _ IH Hre Ha
    |used c id x f u c' _ IH Hx Hage Hu Hm|used c c' Hr IH Htick Ht|used c id _ IH|used c id _ IH].
  - split; [split_and!; [done|done|done|apply SSorted_nil|by intros m ?%elem_of_nil]|].
    split; simpl.
    + intros i x. by rewrite lookup_empty.
    + by intros d' ?%elem_of_nil.
    + intros i j _. unfold channel_at. rewrite !lookup_empty. apply channel_empty.
  - by eapply add_node_calm.
  - by eapply mutate_calm.
  - eapply tick_calm; [done..| |done]. apply clean_reach_reach in Hr.
    destruct (reach_timers_ok _ _ _ _ _ _ _ _ Hr) as (<- & _). done.
  - by apply remove_calm.
  - by apply remove_hard_calm.
Qed.

Lemma clean_reach_tick_n used n : ∀ c c',
  clean_reach used c → mc_current_tick c + Z.of_nat n < u64_max → tick_n c n = Done c' →
  clean_reach used c'.
Proof.
  induction n as [|n IH]; intros c c' Hr Hn; cbn [tick_n]; [by intros [= <-]|].
  destruct (tick c) as [c1|] eqn:Ht; [|done]. cbn [outcome_bind mbind]. apply IH.
  - eapply clean_tick; [done| |done]. lia.
  - assert (mc_current_tick c1 = mc_current_tick c + 1) as ->; [|lia].
    pose proof (reach_timers_ok _ _ _ _ _ _ _ _ (clean_reach_reach _ _ Hr)) as (_ & H0 & _).
    rewrite (tick_clock _ _ Ht). apply u64_succ_small. lia.
Qed.
End Joins.

Lemma settle_tick_n `{HashIter} {S V M} `{!ViewMapOps V M} `{!Bincode WireMessage} limit :
  ∀ (c c' : MockCluster S V M) k, settle_with_limit c limit = Done (c', k) → tick_n c k = Done c'.
Proof.
  induction limit as [|limit IH]; intros c c' k; cbn [settle_with_limit];
    (destruct (is_settled c); [by intros [= <- <-]|]); [done|].
  destruct (tick c) as [c1|] eqn:Ht; [|done]. cbn [outcome_bind mbind].
  destruct (settle_with_limit c1 limit) as [[c2 k2]|] eqn:Hs; [|done]. intros [= <- <-].
  cbn [tick_n]. rewrite Ht. by apply IH.
Qed.

(** ** Consistency *)
Section Consistency.
Context {S V M : Type} `{HashIter} `{!ViewMapOps V M}.
Implicit Types (e a b : DistributedStateEngine S V M).

(** A query of [b] reports the view of [a] as stale, and with lazy pull asks [a] for a
    snapshot. *)
Definition reports_stale a b : Prop :=
  ∀ R d (proj : gmap NodeId (StateViewObject V) → R) (clk : TestClock), ∃ r stale acts,
    query b d proj clk = (EngineStale r stale, acts) ∧ engine_node_id a ∈ stale ∧
    (pull_on_query (sl_strategy (sync_logic b)) = true →
     make_snapshot_request b (engine_node_id a) ∈ acts).

(** Every node shows every other node as it is, or, if that one announces its updates by
    change feeds, knows exactly the generation it has not seen and reports it. *)
Definition consistent (p : S → V) (c : MockCluster S V M) : Prop :=
  ∀ i j x y, mc_nodes c !! i = Some x → mc_nodes c !! j = Some y → i ≠ j →
    let a := mn_engine x in let b := mn_engine y in
    current p a b ∨
    (uses_feed a ∧ reports_stale a b ∧
     ∃ vo, get_view (shard b) (engine_node_id a) = Some vo ∧
       vo_pending_remote_generation vo = Some (generation_of a)).
End Consistency.

(** A tick starts and stops no node. *)
Lemma tick_n_dom `{HashIter} {S V M} `{!ViewMapOps V M} `{!ViewMapLaws V M}
    `{!Bincode WireMessage} `{!BincodeLaws WireMessage}
    (name : string) (p : S → V) (w : Z) (ser : SerializeViewFn V) (de : DeserializeViewFn V)
    (ap : option (InboundDeltaApplierFn V)) (used : gmap NodeId Z) n : ∀ c c' : MockCluster S V M,
  cluster_reach name p w ser de ap used c → tick_n c n = Done c' →
  dom (mc_nodes c') = dom (mc_nodes c).
Proof.
  induction n as [|n IH]; intros c c' Hr; cbn [tick_n]; [by intros [= <-]|].
  destruct (tick c) as [c1|] eqn:Ht; [|done]. cbn [outcome_bind mbind]. intros Hn.
  rewrite (IH c1 c'); [|by eapply reach_tick|done].
  destruct (reach_tracked _ _ _ _ _ _ _ _ Hr) as (n0 & _ & Hsim & _).
  destruct (tick_sim name p w ser de ap c n0 Hsim) as (c2 & n2 & Ht2 & (_ & _ & Hrun & _) & Hsim2).
  assert (c2 = c1) as -> by congruence. destruct Hsim as [Hn0 _], Hsim2 as [Hn2 _].
  apply set_eq. intros k. rewrite !elem_of_dom. specialize (Hrun k). unfold runs_as in Hrun.
  rewrite Hn0, Hn2, !lookup_fmap in Hrun.
  by destruct (mc_nodes c1 !! k), (mc_nodes c !! k).
Qed.

Lemma settled_consistent `{HashIter} {S V M} `{!ViewMapOps V M} `{!ViewMapLaws V M}
    `{!Bincode WireMessage} `{!BincodeLaws WireMessage}
    (name : string) (p : S → V) (w : Z) (ser : SerializeViewFn V) (de : DeserializeViewFn V)
    (ap : option (InboundDeltaApplierFn V)) (used : gmap NodeId Z) (c : MockCluster S V M) :
  (∀ v, de (ser v) w = Ok v) →
  clean_reach name p w ser de ap used c → is_settled c = true → consistent p c.
Proof.
  intros Hcodec Hr [Hflight Hquiet]%is_settled_spec i j x y Hx Hy Hij a b.
  destruct (clean_reach_calm _ _ _ _ _ _ _ _ Hcodec Hr) as [_ [Hn _ Hc]].
  specialize (Hc i j Hij). unfold channel_at, sent in Hc. rewrite Hflight, Hx, Hy in Hc. simpl in Hc.
  pose proof (nc_good _ _ _ _ _ _ _ _ (Hn i x Hx)) as [_ Hida].
  pose proof (nc_good _ _ _ _ _ _ _ _ (Hn j y Hy)) as [(Hwf & _) Hidb].
  fold a in Hida. fold b in Hidb, Hwf. simpl in Hwf. rewrite <- Hida in *.
  destruct (Hquiet _ x Hx) as [Hs Hp].
  destruct (channel_settled _ _ _ Hc) as (e & He & Hcase).
  { unfold sender_of. simpl. unfold pending_change_feed_count, pending_count in Hp.
    apply map_size_empty_inv in Hp. by rewrite Hp, lookup_empty. }
  { simpl. by rewrite Hs. }
  simpl in He. apply fmap_Some in He as (vo & Hvo & ->). fold b in Hvo. simpl in Hcase.
  destruct (reach_tracked _ _ _ _ _ _ _ _ (clean_reach_reach _ _ _ _ _ _ _ _ Hr)) as (n & Hnet & Hsim & _).
  assert (get_view (shard b) (engine_node_id a) = Some vo) as Hview by by rewrite get_view_contents.
  pose proof (net_reachable_inv _ _ _ _ _ _ _ Hcodec Hnet) as Hinv.
  destruct (sim_lookup _ _ _ _ Hsim Hx) as [Hnx _]. destruct (sim_lookup _ _ _ _ Hsim Hy) as [Hny _].
  destruct Hcase as [Hg|[Hf Hpend]]; [left|right].
  - exists vo. split_and!; [done| |done].
    destruct (net_view _ _ _ _ _ _ n j (engine_node_id a) b a vo Hinv Hny Hnx Hview) as [Hz|(_ & _ & Hv)];
      [|by apply Hv].
    exfalso. pose proof (nc_generation _ _ _ _ _ _ _ _ (Hn _ x Hx)) as [_ Hpos].
    rewrite Hz in Hg. rewrite <- Hg in Hpos. simpl in Hpos. lia.
  - split_and!; [done| |by exists vo]. intros R d proj clk.
    apply (query_pending b (engine_node_id a) vo d proj clk); [done|congruence| |done|by eexists].
    by destruct (ch_paired _ _ _ _ Hc _ _ eq_refl eq_refl) as [Ha _].
Qed.

(** Eventual consistency, safety: once a cluster without faults is settled, it is
    consistent, whatever was done to it before: nodes added, removed, removed hard and
    restarted, mutations pushed, delayed or announced by change feeds. *)
Theorem settled_cluster_consistent `{HashIter} {S V M} `{!ViewMapOps V M} `{!ViewMapLaws V M}
    `{!Bincode WireMessage} `{!BincodeLaws WireMessage}
    (name : string) (p : S → V) (w : Z) (ser : SerializeViewFn V) (de : DeserializeViewFn V)
    (ap : option (InboundDeltaApplierFn V)) (used : gmap NodeId Z) (c : MockCluster S V M) :
  (∀ v, de (ser v) w = Ok v) →
  clean_reach name p w ser de ap used c → is_settled c = true → consistent p c.
Proof. apply settled_consistent. Qed.

(** [C2] Eventual consistency, liveness: a cluster without faults (no interceptors, no mutation
    that resolves to [SuppressSync]) that is left alone settles, by the tick [deadline 0 c],
    and then it is consistent. *)
Theorem settle_makes_consistent `{HashIter} {S V M} `{!ViewMapOps V M} `{!ViewMapLaws V M}
    `{!Bincode WireMessage} `{!BincodeLaws WireMessage}
    (name : string) (p : S → V) (w : Z) (ser : SerializeViewFn V) (de : DeserializeViewFn V)
    (ap : option (InboundDeltaApplierFn V)) (used : gmap NodeId Z) (c : MockCluster S V M)
    (limit : nat) :
  (∀ v, de (ser v) w = Ok v) → clean_reach name p w ser de ap used c →
  deadline 0 c + 1 < u64_max → deadline 0 c < mc_current_tick c + Z.of_nat limit →
  ∃ c' ticks, settle_with_limit c limit = Done (c', ticks) ∧ is_settled c' = true ∧
    dom (mc_nodes c') = dom (mc_nodes c) ∧ consistent p c'.
Proof.
  intros Hcodec Hr HT Hlim. pose proof (clean_reach_reach _ _ _ _ _ _ _ _ Hr) as Hreach.
  destruct (clean_reach_calm _ _ _ _ _ _ _ _ Hcodec Hr) as [(Hi & _) _].
  assert (Forall (tame 0) (interceptors (mc_transport c))) as Htame by by rewrite Hi.
  destruct (foldr_max_ge (mc_current_tick c) (deadlines 0 c)) as [Hge _].
  fold (deadline 0 c) in Hge.
  destruct (settle_loop name p w ser de ap 0 (deadline 0 c) used limit c)
    as (c' & k & Hs & Hset & _ & Hk); [lia|lia|done|by apply deadline_on_time|done|].
  pose proof (settle_tick_n _ _ _ _ Hs) as Hn. exists c', k. split_and!; [done..| |].
  - by eapply tick_n_dom.
  - eapply settled_consistent; [done| |done]. eapply clean_reach_tick_n; [done| |done]. lia.
Qed.
