(* ===== verification/ClusterEvents.v ===== *)
(** The runtime double ([dstate/src/test_support/test_runtime.rs]): cluster events that a
    test triggers by hand, and a timer handle.

    The subscribers and the counter are shared by the clones of a [TestClusterEvents]; the
    model is that shared state.  A callback that panics while the subscribers are locked
    poisons the lock, and every later operation panics on it. *)
From stdpp Require Import prelude gmap fin_maps strings.
From S2P Require Import Prelude.

Section Events.
Context `{HashIter}.
(** [ClusterEvent] and [ClusterError] are the actor framework's; [W] is what callbacks
    change. *)
Context {ClusterEvent ClusterError W : Type}.

Local Abbreviation callback := (ClusterEvent → W → W * outcome ()).

Record TestClusterEvents : Type := mkTestClusterEvents {
  subscribers : gmap Z callback;
  next_id : Z;
  poisoned : bool
}.
Implicit Types (ce : TestClusterEvents) (event : ClusterEvent) (world : W).

Definition TestClusterEvents_new : TestClusterEvents := mkTestClusterEvents ∅ 1 false.

(** [lock().unwrap()]. *)
Definition lock_unwrap ce : outcome () :=
  if poisoned ce then Panicked "PoisonError" else Done ().

(** The callbacks one after the other; a panic skips the rest. *)
Fixpoint notify_subs (subs : list (Z * callback)) event world : W * outcome () :=
  match subs with
  | [] => (world, Done ())
  | (_, sub) :: subs =>
      match sub event world with
      | (world, Done _) => notify_subs subs event world
      | (world, Panicked m) => (world, Panicked m)
      end
  end.

Definition emit ce event world : TestClusterEvents * W * outcome () :=
  match lock_unwrap ce with
  | Panicked m => (ce, world, Panicked m)
  | Done _ =>
      match notify_subs (hm_iter (subscribers ce)) event world with
      | (world, Done _) => (ce, world, Done ())
      | (world, Panicked m) =>
          (mkTestClusterEvents (subscribers ce) (next_id ce) true, world, Panicked m)
      end
  end.

(** The counter is increased before the lock is taken. *)
Definition subscribe ce (on_event : callback) :
    TestClusterEvents * outcome (result Z ClusterError) :=
  let id := next_id ce in
  let ce := mkTestClusterEvents (subscribers ce) (u64_add (next_id ce) 1) (poisoned ce) in
  match lock_unwrap ce with
  | Panicked m => (ce, Panicked m)
  | Done _ =>
      (mkTestClusterEvents (<[id := on_event]> (subscribers ce)) (next_id ce) (poisoned ce),
       Done (Ok id))
  end.

Definition unsubscribe ce (id : Z) : TestClusterEvents * outcome (result () ClusterError) :=
  match lock_unwrap ce with
  | Panicked m => (ce, Panicked m)
  | Done _ =>
      (mkTestClusterEvents (delete id (subscribers ce)) (next_id ce) (poisoned ce), Done (Ok ()))
  end.

(** ** The timer handle *)

(** A tokio task handle; [abort] is tokio's. *)
Context {JoinHandle : Type} (abort : JoinHandle → W → W).

Record TestTimerHandle : Type := mkTestTimerHandle { handle : option JoinHandle }.
Definition TestTimerHandle_new (h : JoinHandle) : TestTimerHandle := mkTestTimerHandle (Some h).
Definition cancel (t : TestTimerHandle) world : W :=
  match handle t with Some h => abort h world | None => world end.
End Events.

(** ** Who is notified *)
Section Notified.
Context `{HashIter} {ClusterEvent ClusterError T : Type}.
Local Abbreviation log := (list (T * ClusterEvent)).
Local Abbreviation events := (TestClusterEvents (ClusterEvent:=ClusterEvent) (W:=log)).

(** A subscriber that writes down its tag and the event. *)
Definition recorder (tag : T) (event : ClusterEvent) (l : log) : log * outcome () :=
  (l ++ [(tag, event)], Done ()).

Inductive EventOp : Type :=
| OpSubscribe (tag : T)
| OpUnsubscribe (id : Z)
| OpEmit (event : ClusterEvent).

Definition run_event_op (st : events * log) (op : EventOp) : events * log :=
  let '(ce, l) := st in
  match op with
  | OpSubscribe tag => ((subscribe (ClusterError:=ClusterError) ce (recorder tag)).1, l)
  | OpUnsubscribe id => ((unsubscribe (ClusterError:=ClusterError) ce id).1, l)
  | OpEmit event => (emit ce event l).1
  end.
Definition run_events (ops : list EventOp) : events * log :=
  foldl run_event_op (TestClusterEvents_new, []) ops.

(** What is expected: subscriptions are numbered from 1, and every event goes to the
    subscriptions that were made before it and not taken back. *)
Fixpoint expected (next : Z) (subs : list (Z * T)) (ops : list EventOp) : log :=
  match ops with
  | [] => []
  | OpSubscribe tag :: ops => expected (next + 1) (subs ++ [(next, tag)]) ops
  | OpUnsubscribe id :: ops => expected next (filter (λ s, s.1 ≠ id) subs) ops
  | OpEmit event :: ops => ((λ s, (s.2, event)) <$> subs) ++ expected next subs ops
  end.

Lemma notify_recorders (subs : list (Z * T)) event : ∀ (l : list (Z * (ClusterEvent → log → log * outcome ()))) w,
  l ≡ₚ prod_map id recorder <$> subs →
  ∃ w', notify_subs l event w = (w', Done ()) ∧ w' ≡ₚ w ++ ((λ s, (s.2, event)) <$> subs).
Proof.
  intros l w Hl.
  assert (Forall (λ s, ∃ tag, s.2 = recorder tag) l) as Hrec.
  { rewrite Hl. apply Forall_fmap, Forall_true. intros [k tag]. by exists tag. }
  exists (w ++ (l ≫= λ s, (s.2 event []).1)). split.
  - clear Hl. revert w. induction Hrec as [|[k f] l [tag Htag] _ IH]; intros w; simpl.
    { by rewrite app_nil_r. }
    simpl in Htag. subst f. simpl. rewrite IH. by rewrite <- (assoc_L app).
  - apply Permutation_app_head. rewrite Hl. clear. induction subs as [|[k tag] subs IH]; simpl; [done|].
    by constructor.
Qed.

(** The subscribers are the recorders of [subs], under numbers below [next]. *)
Definition subscribed (ce : events) (next : Z) (subs : list (Z * T)) : Prop :=
  poisoned ce = false ∧ next_id ce = next ∧ NoDup subs.*1 ∧ Forall (λ s, s.1 < next) subs ∧
  subscribers ce = list_to_map (prod_map id recorder <$> subs).

Lemma prod_map_fst (subs : list (Z * T)) : (prod_map id recorder <$> subs).*1 = subs.*1.
Proof. rewrite <- list_fmap_compose. by apply list_fmap_ext. Qed.

Lemma subscribed_sub ce next subs tag :
  subscribed ce next subs → 0 ≤ next < u64_max →
  subscribed (subscribe (ClusterError:=ClusterError) ce (recorder tag)).1 (next + 1) (subs ++ [(next, tag)]).
Proof.
  intros (Hp & Hn & Hnd & Hlt & Hs) Hnext. unfold subscribe, lock_unwrap. simpl. rewrite Hp. simpl.
  assert (next ∉ subs.*1) as Hni.
  { intros (s & -> & Hin)%list_elem_of_fmap. rewrite Forall_forall in Hlt. apply Hlt in Hin. lia. }
  split_and!; simpl; [done|by rewrite Hn, u64_succ_small| | |].
  - rewrite fmap_app. apply NoDup_app. split_and!; [done| |by apply NoDup_singleton].
    by intros x Hx ->%list_elem_of_singleton.
  - apply Forall_app. split; [|constructor; [simpl; lia|done]].
    eapply Forall_impl; [done|]. simpl. lia.
  - rewrite Hn, Hs, fmap_app. simpl. symmetry. apply list_to_map_snoc. by rewrite prod_map_fst.
Qed.

Lemma subscribed_unsub ce next subs k :
  subscribed ce next subs →
  subscribed (unsubscribe (ClusterError:=ClusterError) ce k).1 next (filter (λ s, s.1 ≠ k) subs).
Proof.
  intros (Hp & Hn & Hnd & Hlt & Hs). unfold unsubscribe, lock_unwrap. rewrite Hp. simpl.
  split_and!; simpl; [done|done| | |].
  - eapply sublist_NoDup; [exact Hnd|]. apply fmap_sublist, sublist_filter.
  - rewrite Forall_forall in Hlt |- *. intros s [_ ?]%list_elem_of_filter. by apply Hlt.
  - rewrite Hs. clear. induction subs as [|[j tag] subs IH]; csimpl; [by rewrite delete_empty|].
    rewrite filter_cons. simpl. case_decide as Hj; csimpl.
    + by rewrite delete_insert_ne, IH by congruence.
    + subst j. by rewrite delete_insert_eq, IH.
Qed.

Lemma run_events_expected ops : ∀ ce l next subs,
  subscribed ce next subs → 0 ≤ next → next + Z.of_nat (length ops) ≤ u64_max →
  let '(ce', l') := foldl run_event_op (ce, l) ops in
  poisoned ce' = false ∧ l' ≡ₚ l ++ expected next subs ops.
Proof.
  induction ops as [|op ops IH]; intros ce l next subs Hs Hnext Hmax; cbn [foldl].
  { split; [apply Hs|]. simpl. by rewrite app_nil_r. }
  cbn [length] in Hmax. destruct op as [tag|k|event]; cbn [run_event_op].
  - apply (IH _ _ (next + 1)); [apply subscribed_sub; [done|lia]|lia..].
  - apply (IH _ _ next); [by apply subscribed_unsub|lia..].
  - destruct Hs as (Hp & Hn & Hnd & Hlt & Hsub).
    assert (hm_iter (subscribers ce) ≡ₚ prod_map id recorder <$> subs) as Hperm.
    { rewrite hm_iter_perm, Hsub. apply map_to_list_to_map. by rewrite prod_map_fst. }
    destruct (notify_recorders subs event _ l Hperm) as (l1 & Hrun & Hl1).
    unfold emit, lock_unwrap. rewrite Hp. simpl. rewrite Hrun. simpl.
    pose proof (IH ce l1 next subs ltac:(by split_and!) Hnext ltac:(lia)) as Hr.
    destruct (foldl _ _ _) as [ce' l']. destruct Hr as [? Hl']. split; [done|].
    by rewrite Hl', Hl1, (assoc_L app).
Qed.
End Notified.
Arguments EventOp : clear implicits.

(** Whatever a test subscribes, takes back and emits: every event reaches each
    subscription made before it and not taken back, once, and no other; no number is
    given out twice, so taking one back never silences another. *)
Theorem events_reach_subscribers `{HashIter} {ClusterEvent ClusterError T : Type}
    (ops : list (EventOp ClusterEvent T)) :
  Z.of_nat (length ops) < u64_max →
  let '(ce, log) := run_events (ClusterError:=ClusterError) ops in
  poisoned ce = false ∧ log ≡ₚ expected 1 [] ops.
Proof.
  intros Hmax. apply (run_events_expected ops TestClusterEvents_new [] 1 []); [|done|lia].
  split_and!; try done. apply NoDup_nil_2.
Qed.

(** A subscriber that panics silences everybody: the lock is poisoned, and from then on
    nothing can be emitted, subscribed or taken back. *)
Theorem panicking_subscriber_poisons `{HashIter} {ClusterEvent ClusterError W : Type}
    (ce : TestClusterEvents (ClusterEvent:=ClusterEvent) (W:=W)) (event : ClusterEvent) (world : W) :
  (∃ id f, subscribers ce !! id = Some f ∧ ∀ w, ∃ m, (f event w).2 = Panicked m) →
  let '(ce', world', r) := emit ce event world in
  (∃ m, r = Panicked m) ∧ subscribers ce' = subscribers ce ∧ next_id ce' = next_id ce ∧
  ∀ event2 world2 f id, 
    emit ce' event2 world2 = (ce', world2, Panicked "PoisonError") ∧
    (subscribe (ClusterError:=ClusterError) ce' f).2 = Panicked "PoisonError" ∧
    unsubscribe (ClusterError:=ClusterError) ce' id = (ce', Panicked "PoisonError").
Proof.
  intros (id & f & Hf & Hpanic). unfold emit, subscribe, unsubscribe, lock_unwrap.
  destruct (poisoned ce) eqn:Hp; simpl.
  { split_and!; [eauto|done..|]. intros. by rewrite Hp. }
  apply elem_of_hm_iter in Hf.
  assert (∃ m, (notify_subs (hm_iter (subscribers ce)) event world).2 = Panicked m) as [m Hm].
  { revert world. induction (hm_iter (subscribers ce)) as [|[k g] l IH]; intros world;
      [by apply elem_of_nil in Hf|]. simpl.
    apply elem_of_cons in Hf as [[= <- <-]|Hin].
    - destruct (Hpanic world) as [m Hm]. destruct (f event world) as [w1 []]; simplify_eq/=. eauto.
    - destruct (g event world) as [w1 [[]|m]]; [by apply IH|eauto]. }
  destruct (notify_subs _ _ _) as [w1 []]; simplify_eq/=. split_and!; eauto.
Qed.
