(* ===== verification/Testing.v ===== *)
(** Running the inline tests of the sources on the model.

    A test is an [outcome unit]: it panics where the Rust test panics.  Its body is that of
    the test function, with the values it mutates passed from one call to the next, and
    the clock that the objects of a test share by [Arc] as one of those values. *)
From Stdlib Require Import QArith.
From stdpp Require Import prelude strings pretty sorting countable.
From S2P Require Import Prelude Node Clock Types Traits.
Local Open Scope Z_scope.

(** [assert!], [assert_eq!], [panic!]. *)
Definition assert (b : bool) : outcome unit :=
  if b then Done () else Panicked "assertion failed".
Definition assert_eq {A} `{EqDecision A} (x y : A) : outcome unit := assert (bool_decide (x = y)).
Definition unwrap {A} (o : option A) : outcome A := expect o "unwrap of None".
Definition unwrap_ok {A E} (r : result A E) : outcome A :=
  match r with Ok a => Done a | Err _ => Panicked "unwrap of an error" end.

(** [s.contains(sub)]. *)
Definition str_contains (s sub : string) : bool := bool_decide (is_Some (String.index 0 sub s)).

(** [#[should_panic(expected = ...)]]: the message contains the given text. *)
Definition should_panic (expected : string) (test : outcome unit) : outcome unit :=
  match test with
  | Panicked msg => assert (str_contains msg expected)
  | Done _ => Panicked "test did not panic as expected"
  end.

Global Instance PushMode_eq_dec : EqDecision PushMode.
Proof. solve_decision. Defined.

(** [for a in l { .. }] with nothing to carry from one turn to the next. *)
Definition for_each {A} (l : list A) (f : A → outcome unit) : outcome unit :=
  foldr (λ a rest, f a;; rest) (Done ()) l.

(** The tests of a list that fail, with their panic messages. *)
Definition failures (tests : list (outcome unit)) : list (nat * string) :=
  omap (λ '(i, t), match t with Done _ => None | Panicked msg => Some (i, msg) end)
    (imap pair tests).

(** [Vec::sort] on node names: Rust and [String.leb] compare the bytes. *)
Definition name_le (a b : NodeId) : Prop := String.leb (node_str a) (node_str b) = true.
Global Instance name_le_dec : RelDecision name_le.
Proof. unfold name_le. solve_decision. Defined.
Definition sort_nodes : list NodeId → list NodeId := merge_sort name_le.

(** [NodeId("1".to_string())] and the like, and the clock most tests start with. *)
Definition node (i : nat) : NodeId := mkNodeId (pretty i).
Definition test_clock : TestClock := with_base_unix_ms 0 1000000.

(** What the closures of the tests do to a [TestState]: [s.counter = z], [s.counter += z]. *)
Definition set_counter (z : Z) (s : TestState) : TestState := mkTestState z (ts_label s).
Definition bump_counter (z : Z) (s : TestState) : TestState :=
  set_counter (u64_add (ts_counter s) z) s.

(** The private [f64] field of the delta state is only ever written with constants: a
    rational number stands for it. *)
Definition TestDeltaInner : Type := TestDeltaStateInner Q.
Definition TestChange : Type := TestDeltaChange Q.
Definition delta_default : TestDeltaInner := TestDeltaStateInner_default (0 # 1).

Global Instance Q_eq_dec : EqDecision Q.
Proof. solve_decision. Defined.
Global Instance Q_countable : Countable Q.
Proof. apply (inj_countable' (λ q, (Qnum q, Qden q)) (λ p, Qmake p.1 p.2)). by intros []. Defined.
Global Instance TestDeltaInner_eq_dec : EqDecision TestDeltaInner.
Proof. unfold TestDeltaInner. solve_decision. Defined.
Global Instance TestDeltaInner_countable : Countable TestDeltaInner.
Proof.
  apply (inj_countable' (λ s, (tds_counter s, tds_label s, tds_internal_accumulator s))
    (λ p, mkTestDeltaStateInner p.1.1 p.1.2 p.2)).
  by intros [].
Defined.

(** Codecs that run, for the files of tests to use as instances. *)
Definition state_bits : Bincode TestState := bit_codec.
Definition delta_view_bits : Bincode TestDeltaView := bit_codec.
Definition delta_bits : Bincode TestDeltaViewDelta := bit_codec.
Definition inner_bits : Bincode TestDeltaInner := bit_codec.
