(* ===== verification/ShardTests.v ===== *)
(** The inline tests of [core/shard_core.rs] on the model, under their names. *)
From Stdlib Require Import QArith.
From stdpp Require Import prelude gmap fin_maps strings pretty.
From S2P Require Import Prelude Node Clock Types ViewMap ShardCore SyncLogic Traits Testing.
Local Open Scope Z_scope.

Local Existing Instance map_to_list_iter.
Local Existing Instances state_bits delta_view_bits delta_bits inner_bits.

Local Abbreviation test_shard := (ShardCore TestState (ViewMap TestState)).
Local Abbreviation delta_shard := (ShardCore TestDeltaInner (ViewMap TestDeltaView)).
Local Abbreviation default_view := (mkTestState 0 "").
Local Abbreviation clone := (λ s, s).

Definition make_state_object (counter : Z) (label : string) (clock : TestClock) :
    StateObject TestState :=
  mkStateObject (generation_new 1 0) 1 (mkTestState counter label) (unix_ms clock) (unix_ms clock).

Definition make_shard (clock : TestClock) : test_shard :=
  let state := make_state_object 0 "init" clock in
  shard_new (node 1) state (so_value state) clock.

Definition make_delta_shard (clock : TestClock) : delta_shard :=
  let state := mkStateObject (generation_new 1 0) 1 delta_default (unix_ms clock) (unix_ms clock) in
  shard_new (node 1) state (project_view (so_value state)) clock.

(** The local state, the entry of a node ([snap.get(..).unwrap()], [snap[..]]). *)
Definition state_age {S M} (sh : ShardCore S M) : Z := age (so_generation (sh_state sh)).
Definition counter (sh : test_shard) : Z := ts_counter (so_value (sh_state sh)).
Definition label (sh : test_shard) : string := ts_label (so_value (sh_state sh)).
Definition snap_get {S V} (sh : ShardCore S (ViewMap V)) (i : nat) : outcome (StateViewObject V) :=
  unwrap (snapshot sh !! node i).
Definition contains_key {S V} (sh : ShardCore S (ViewMap V)) (i : nat) : bool :=
  bool_decide (is_Some (snapshot sh !! node i)).

(** An [InboundSnapshot] of wire version 1, of the time most tests give it. *)
Definition inbound {V} (i : nat) (g : Generation) (view : V) : InboundSnapshot V :=
  mkInboundSnapshot (node i) g 1 view 1000000 1000000.
Definition is_stale {R} (r : QueryResult R) : bool :=
  match r with StalePeersDetected _ _ => true | QueryFresh _ => false end.
Definition fresh {R} (r : QueryResult R) : outcome R :=
  match r with QueryFresh x => Done x | StalePeersDetected _ _ => Panicked "expected fresh" end.
Definition stale {R} (r : QueryResult R) : outcome (list NodeId * R) :=
  match r with StalePeersDetected l x => Done (l, x) | QueryFresh _ => Panicked "expected stale" end.

(** ** TEST-05: [should_accept] *)

Definition test_05_should_accept_newer_incarnation : outcome unit :=
  assert (should_accept (generation_new 2 0) (generation_new 1 100)).
Definition test_05_should_accept_same_inc_newer_age : outcome unit :=
  assert (should_accept (generation_new 1 5) (generation_new 1 4)).
Definition test_05_should_reject_same_inc_same_age : outcome unit :=
  assert (negb (should_accept (generation_new 1 5) (generation_new 1 5))).
Definition test_05_should_reject_same_inc_older_age : outcome unit :=
  assert (negb (should_accept (generation_new 1 3) (generation_new 1 5))).
Definition test_05_should_reject_older_incarnation : outcome unit :=
  assert (negb (should_accept (generation_new 1 100) (generation_new 2 0))).

(** ** TEST-06: [stale_peers] *)

Definition test_06_stale_peers_by_time : outcome unit :=
  let clock := test_clock in
  let shard := make_shard clock in
  let shard := shard_on_node_joined shard (node 2) default_view clock in
  assert_eq (stale_peers shard (from_secs 10) clock) [node 2];;
  let '(shard, _) := accept_inbound_snapshot shard
    (inbound 2 (generation_new 1 1) (mkTestState 1 "synced")) clock in
  assert_eq (stale_peers shard (from_secs 10) clock) [];;
  let clock := advance clock (from_secs 15) in
  assert_eq (stale_peers shard (from_secs 10) clock) [node 2].

Definition test_06_stale_peers_by_pending_age : outcome unit :=
  let shard := shard_on_node_joined (make_shard test_clock) (node 2) default_view test_clock in
  let shard := mark_stale shard (node 2) 1 5 in
  assert_eq (stale_peers shard (from_secs 3600) test_clock) [node 2].

Definition test_06_own_node_never_stale : outcome unit :=
  let shard := make_shard test_clock in
  let clock := advance test_clock (from_secs 100) in
  assert_eq (stale_peers shard (from_secs 1) clock) [].

(** ** TEST-07, PVM: construction and the first mutation *)

Definition test_07_mutation_advances_age : outcome unit :=
  let shard := make_shard test_clock in
  assert_eq (state_age shard) 0;;
  let '(shard, outcome) := apply_mutation shard (bump_counter 1) clone test_clock in
  assert_eq (age (mo_generation outcome)) 1;;
  assert_eq (state_age shard) 1;;
  assert_eq (counter shard) 1.

Definition pvm_01_own_entry_after_construction : outcome unit :=
  let shard := make_shard test_clock in
  assert (contains_key shard 1);;
  assert_eq (size (snapshot shard)) 1%nat.

Definition pvm_02_own_entry_matches_state : outcome unit :=
  entry ← snap_get (make_shard test_clock) 1;
  assert_eq (age (vo_generation entry)) 0;;
  assert_eq (incarnation (vo_generation entry)) 1;;
  assert_eq (ts_counter (vo_value entry)) 0;;
  assert_eq (ts_label (vo_value entry)) "init"%string.

Definition pvm_03_no_peers_on_single_node : outcome unit :=
  let shard := make_shard test_clock in
  assert_eq (size (snapshot shard)) 1%nat;;
  assert (contains_key shard 1).

(** ** SHARD: mutations, membership, staleness marks *)

Definition shard_01_mutation_increments_age : outcome unit :=
  let shard := foldl (λ shard i, (apply_mutation shard (set_counter i) clone test_clock).1)
                 (make_shard test_clock) (seqZ 1 5) in
  assert_eq (state_age shard) 5;;
  assert_eq (counter shard) 5.

Definition shard_02_mutation_updates_modified_time : outcome unit :=
  let clock := test_clock in
  let shard := make_shard clock in
  let t0 := so_modified_time (sh_state shard) in
  let clock := advance clock (from_secs 5) in
  let '(shard, _) := apply_mutation shard (bump_counter 1) clone clock in
  assert (t0 <? so_modified_time (sh_state shard)).

Definition shard_03_mutation_produces_outbound_view : outcome unit :=
  let '(_, outcome) :=
    apply_mutation (make_shard test_clock) (λ _, mkTestState 42 "updated") clone test_clock in
  assert_eq (ts_counter (mo_view outcome)) 42;;
  assert_eq (ts_label (mo_view outcome)) "updated"%string;;
  assert_eq (incarnation (mo_generation outcome)) 1.

Definition shard_04_sequential_mutations_sequential_ages : outcome unit :=
  let '(_, ages) := foldl (λ '(shard, ages) i,
      let '(shard, outcome) := apply_mutation shard (set_counter i) clone test_clock in
      (shard, ages ++ [age (mo_generation outcome)]))
    (make_shard test_clock, []) (seqZ 0 100) in
  assert_eq ages (seqZ 1 100).

Definition shard_05_node_joined_adds_entry : outcome unit :=
  let shard := shard_on_node_joined (make_shard test_clock) (node 2) default_view test_clock in
  assert_eq (size (snapshot shard)) 2%nat;;
  assert (contains_key shard 2);;
  entry ← snap_get shard 2;
  assert_eq (age (vo_generation entry)) 0.

Definition shard_06_node_left_removes_entry : outcome unit :=
  let shard := shard_on_node_joined (make_shard test_clock) (node 2) default_view test_clock in
  assert_eq (size (snapshot shard)) 2%nat;;
  let shard := shard_on_node_left shard (node 2) in
  assert_eq (size (snapshot shard)) 1%nat;;
  assert (negb (contains_key shard 2)).

Definition shard_07_mark_stale_sets_pending : outcome unit :=
  let shard := shard_on_node_joined (make_shard test_clock) (node 2) default_view test_clock in
  let shard := mark_stale shard (node 2) 1 10 in
  entry ← snap_get shard 2;
  assert_eq (vo_pending_remote_generation entry) (Some (generation_new 1 10)).

Definition shard_08_mark_stale_old_incarnation_noop : outcome unit :=
  let '(shard, _) := accept_inbound_snapshot (make_shard test_clock)
    (inbound 2 (generation_new 5 10) (mkTestState 10 "peer")) test_clock in
  let shard := mark_stale shard (node 2) 3 20 in
  entry ← snap_get shard 2;
  assert_eq (vo_pending_remote_generation entry) None.

Definition shard_10_snapshot_returns_view_map : outcome unit :=
  let shard := shard_on_node_joined (make_shard test_clock) (node 2) default_view test_clock in
  let shard := shard_on_node_joined shard (node 3) default_view test_clock in
  assert_eq (size (snapshot shard)) 3%nat;;
  assert (contains_key shard 1);; assert (contains_key shard 2);; assert (contains_key shard 3).

(** ** MUT: mutations and inbound snapshots; MUT-03 has a closure that panics, which no
    closure of the model does *)

Definition mut_01_closure_receives_mutable_state : outcome unit :=
  let '(shard, _) :=
    apply_mutation (make_shard test_clock) (λ _, mkTestState 99 "mutated") clone test_clock in
  assert_eq (counter shard) 99;;
  assert_eq (label shard) "mutated"%string.

Definition mut_02_mutation_updates_view_map : outcome unit :=
  let '(shard, _) := apply_mutation (make_shard test_clock) (set_counter 42) clone test_clock in
  entry ← snap_get shard 1;
  assert_eq (ts_counter (vo_value entry)) 42;;
  assert_eq (age (vo_generation entry)) 1.

Definition mut_04_mutation_broadcasts_snapshot_data : outcome unit :=
  let '(_, outcome) := apply_mutation (make_shard test_clock) (set_counter 77) clone test_clock in
  assert_eq (ts_counter (mo_view outcome)) 77;;
  assert_eq (age (mo_generation outcome)) 1;;
  assert_eq (incarnation (mo_generation outcome)) 1.

Definition mut_05_inbound_snapshot_replaces_view : outcome unit :=
  let shard := shard_on_node_joined (make_shard test_clock) (node 2) default_view test_clock in
  let '(shard, result) := accept_inbound_snapshot shard
    (mkInboundSnapshot (node 2) (generation_new 1 5) 1 (mkTestState 50 "from-peer")
       1000000 1005000) test_clock in
  assert_eq result Accepted;;
  entry ← snap_get shard 2;
  assert_eq (ts_counter (vo_value entry)) 50;;
  assert_eq (age (vo_generation entry)) 5.

Definition mut_06_stale_snapshot_discarded : outcome unit :=
  let '(shard, _) := accept_inbound_snapshot (make_shard test_clock)
    (inbound 2 (generation_new 1 10) (mkTestState 10 "new")) test_clock in
  let '(shard, result) := accept_inbound_snapshot shard
    (inbound 2 (generation_new 1 5) (mkTestState 5 "old")) test_clock in
  assert_eq result Discarded;;
  entry ← snap_get shard 2;
  assert_eq (ts_counter (vo_value entry)) 10.

(** ** DMUT: mutations with a delta; DMUT-02 and DMUT-04 count the calls of a projection,
    which a function of the model does not show *)

(** The closure of most tests: add to the counter and say so. *)
Definition add_and_report (z : Z) (acc : Q) (s : TestDeltaInner) : TestDeltaInner * TestChange :=
  (mkTestDeltaStateInner (u64_add (tds_counter s) z) (tds_label s) (tds_internal_accumulator s),
   mkTestDeltaChange z None acc).

Definition dmut_01_delta_mutation_captures_change : outcome unit :=
  let '(_, outcome) := apply_mutation_with_delta (make_delta_shard test_clock)
    (λ s, (mkTestDeltaStateInner (u64_add (tds_counter s) 5) "delta" (tds_internal_accumulator s),
           mkTestDeltaChange 5 (Some "delta"%string) (1 # 1)))
    project_view project_delta test_clock in
  assert_eq (age (dmo_generation outcome)) 1;;
  assert_eq (tdv_counter (dmo_view outcome)) 5;;
  assert_eq (tdv_label (dmo_view outcome)) "delta"%string;;
  assert_eq (tvd_counter_delta (dmo_view_delta outcome)) 5;;
  assert_eq (tvd_new_label (dmo_view_delta outcome)) (Some "delta"%string).

Definition dmut_03_delta_mutation_updates_view_map : outcome unit :=
  let '(shard, _) := apply_mutation_with_delta (make_delta_shard test_clock)
    (λ _, (mkTestDeltaStateInner 42 "projected" (999 # 10),
           mkTestDeltaChange 42 (Some "projected"%string) (999 # 10)))
    project_view project_delta test_clock in
  entry ← snap_get shard 1;
  assert_eq (tdv_counter (vo_value entry)) 42;;
  assert_eq (tdv_label (vo_value entry)) "projected"%string.

Definition dmut_05_delta_mutation_produces_view_delta : outcome unit :=
  let '(_, outcome) := apply_mutation_with_delta (make_delta_shard test_clock)
    (add_and_report 10 (5 # 1)) project_view project_delta test_clock in
  assert_eq (tvd_counter_delta (dmo_view_delta outcome)) 10;;
  assert_eq (tvd_new_label (dmo_view_delta outcome)) None.

Definition dmut_06_simple_mutate_on_delta_shard : outcome unit :=
  let '(_, outcome) := apply_mutation (make_delta_shard test_clock)
    (λ s, mkTestDeltaStateInner 7 (tds_label s) (tds_internal_accumulator s))
    project_view test_clock in
  assert_eq (age (mo_generation outcome)) 1;;
  assert_eq (tdv_counter (mo_view outcome)) 7.

(** ** Inbound deltas.  [unreachable!()] is an arbitrary function: the tests pass for all. *)

Definition inbound_delta_applied_correctly : outcome unit :=
  let '(shard, _) := accept_inbound_snapshot (make_delta_shard test_clock)
    (inbound 2 (generation_new 1 5) (mkTestDeltaView 10 "peer")) test_clock in
  let '(shard, result) := accept_inbound_delta shard (node 2) (generation_new 1 6) 1
    (λ view, test_apply_delta view (mkTestDeltaViewDelta 3 None)) test_clock in
  assert_eq result DeltaApplied;;
  entry ← snap_get shard 2;
  assert_eq (tdv_counter (vo_value entry)) 13;;
  assert_eq (age (vo_generation entry)) 6.

Definition inbound_delta_gap_detected (unreachable : TestDeltaView → TestDeltaView) :
    outcome unit :=
  let '(shard, _) := accept_inbound_snapshot (make_delta_shard test_clock)
    (inbound 2 (generation_new 1 5) (mkTestDeltaView 10 "peer")) test_clock in
  let '(_, result) := accept_inbound_delta shard (node 2) (generation_new 1 8) 1
    unreachable test_clock in
  assert_eq result (GapDetected (generation_new 1 5) (generation_new 1 8)).

Definition inbound_delta_stale_discarded (unreachable : TestDeltaView → TestDeltaView) :
    outcome unit :=
  let '(shard, _) := accept_inbound_snapshot (make_delta_shard test_clock)
    (inbound 2 (generation_new 2 10) (mkTestDeltaView 10 "peer")) test_clock in
  let '(_, result) := accept_inbound_delta shard (node 2) (generation_new 1 10) 1
    unreachable test_clock in
  assert_eq result DeltaDiscarded.

Definition inbound_delta_unknown_peer (unreachable : TestDeltaView → TestDeltaView) :
    outcome unit :=
  let '(_, result) := accept_inbound_delta (make_delta_shard test_clock) (node 99)
    (generation_new 1 1) 1 unreachable test_clock in
  assert_eq result UnknownPeer.

(** ** Further membership and staleness *)

Definition mark_stale_new_incarnation_sets_both : outcome unit :=
  let '(shard, _) := accept_inbound_snapshot (make_shard test_clock)
    (inbound 2 (generation_new 1 5) (mkTestState 5 "peer")) test_clock in
  let shard := mark_stale shard (node 2) 2 3 in
  entry ← snap_get shard 2;
  assert_eq (vo_pending_remote_generation entry) (Some (generation_new 2 3)).

Definition node_joined_idempotent : outcome unit :=
  let shard := shard_on_node_joined (make_shard test_clock) (node 2) default_view test_clock in
  let shard := shard_on_node_joined shard (node 2) default_view test_clock in
  assert_eq (size (snapshot shard)) 2%nat.

Definition node_left_unknown_noop : outcome unit :=
  let shard := shard_on_node_left (make_shard test_clock) (node 99) in
  assert_eq (size (snapshot shard)) 1%nat.

Definition inbound_snapshot_creates_entry_for_unknown_peer : outcome unit :=
  let '(shard, result) := accept_inbound_snapshot (make_shard test_clock)
    (inbound 5 (generation_new 1 1) (mkTestState 1 "new")) test_clock in
  assert_eq result Accepted;;
  assert_eq (size (snapshot shard)) 2%nat;;
  entry ← snap_get shard 5;
  assert_eq (ts_counter (vo_value entry)) 1.

Definition accept_snapshot_clears_pending_remote : outcome unit :=
  let shard := shard_on_node_joined (make_shard test_clock) (node 2) default_view test_clock in
  let shard := mark_stale shard (node 2) 1 10 in
  entry ← snap_get shard 2;
  assert (bool_decide (is_Some (vo_pending_remote_generation entry)));;
  let '(shard, _) := accept_inbound_snapshot shard
    (inbound 2 (generation_new 1 10) (mkTestState 10 "fresh")) test_clock in
  entry ← snap_get shard 2;
  assert_eq (vo_pending_remote_generation entry) None.

Definition accept_snapshot_partial_catchup_preserves_pending : outcome unit :=
  let shard := shard_on_node_joined (make_shard test_clock) (node 2) default_view test_clock in
  let shard := mark_stale shard (node 2) 1 10 in
  let '(shard, _) := accept_inbound_snapshot shard
    (inbound 2 (generation_new 1 6) (mkTestState 6 "partial")) test_clock in
  entry ← snap_get shard 2;
  assert_eq (vo_pending_remote_generation entry) (Some (generation_new 1 10));;
  assert_eq (ts_counter (vo_value entry)) 6.

Definition accept_delta_partial_catchup_preserves_pending : outcome unit :=
  let shard := shard_on_node_joined (make_delta_shard test_clock) (node 2) (mkTestDeltaView 0 "")
                 test_clock in
  let '(shard, _) := accept_inbound_snapshot shard
    (inbound 2 (generation_new 1 5) (mkTestDeltaView 5 "base")) test_clock in
  let shard := mark_stale shard (node 2) 1 10 in
  let '(shard, result) := accept_inbound_delta shard (node 2) (generation_new 1 6) 1
    (λ v, mkTestDeltaView (u64_add (tdv_counter v) 1) (tdv_label v)) test_clock in
  assert_eq result DeltaApplied;;
  entry ← snap_get shard 2;
  assert_eq (vo_pending_remote_generation entry) (Some (generation_new 1 10)).

Definition node_joined_placeholder_is_stale : outcome unit :=
  let shard := shard_on_node_joined (make_shard test_clock) (node 2) default_view test_clock in
  entry ← snap_get shard 2;
  assert (bool_decide (is_Some (vo_pending_remote_generation entry)));;
  assert_eq (vo_generation entry) generation_zero.

Definition test_new_state_object : outcome unit :=
  let clock := with_base_unix_ms 0 5000000 in
  let state := new_state_object (mkTestState 0 "fresh") 42 clock in
  assert_eq (age (so_generation state)) 0;;
  assert_eq (incarnation (so_generation state)) 42;;
  assert_eq (so_created_time state) 5000000;;
  assert_eq (so_modified_time state) 5000000;;
  assert_eq (ts_counter (so_value state)) 0.

(** ** WIRE: what arrives over the wire *)

Definition wire_full_snapshot_updates_view_map : outcome unit :=
  let shard := shard_on_node_joined (make_shard test_clock) (node 2) default_view test_clock in
  let source_node := node 2 in
  let gen := generation_new 1 7 in
  let view := mkTestState 42 "wire-snap" in
  let wire_version := ds_wire_version (S := TestState) in
  let '(shard, result) := accept_inbound_snapshot shard
    (mkInboundSnapshot source_node gen wire_version view 1000000 1007000) test_clock in
  assert_eq result Accepted;;
  entry ← snap_get shard 2;
  assert_eq (vo_generation entry) gen;;
  assert_eq (ts_counter (vo_value entry)) 42;;
  assert_eq (ts_label (vo_value entry)) "wire-snap"%string.

Definition wire_delta_advances_peer_view : outcome unit :=
  let shard := shard_on_node_joined (make_delta_shard test_clock) (node 2) (mkTestDeltaView 0 "")
                 test_clock in
  let '(shard, _) := accept_inbound_snapshot shard
    (inbound 2 (generation_new 1 5) (mkTestDeltaView 100 "baseline")) test_clock in
  let '(shard, result) := accept_inbound_delta shard (node 2) (generation_new 1 6) 1
    (λ v, mkTestDeltaView (u64_add (tdv_counter v) 5) (tdv_label v)) test_clock in
  assert_eq result DeltaApplied;;
  entry ← snap_get shard 2;
  assert_eq (vo_generation entry) (generation_new 1 6);;
  assert_eq (tdv_counter (vo_value entry)) 105.

Definition wire_change_feed_marks_peer_stale : outcome unit :=
  let '(shard, _) := accept_inbound_snapshot (make_shard test_clock)
    (inbound 2 (generation_new 1 5) (mkTestState 5 "peer")) test_clock in
  let shard := mark_stale shard (node 2) 1 10 in
  entry ← snap_get shard 2;
  assert_eq (vo_pending_remote_generation entry) (Some (generation_new 1 10));;
  assert_eq (ts_counter (vo_value entry)) 5.

Definition wire_request_snapshot_response : outcome unit :=
  let shard := make_shard test_clock in
  let '(shard, _) := apply_mutation shard (λ _, mkTestState 10 "first") clone test_clock in
  let '(shard, _) := apply_mutation shard (λ _, mkTestState 20 "second") clone test_clock in
  let '(shard, _) := apply_mutation shard (λ _, mkTestState 30 "third") clone test_clock in
  let state := sh_state shard in
  assert_eq (ts_counter (so_value state)) 30;;
  assert_eq (ts_label (so_value state)) "third"%string;;
  assert_eq (age (so_generation state)) 3;;
  assert_eq (incarnation (so_generation state)) 1;;
  entry ← snap_get shard 1;
  assert_eq (ts_counter (vo_value entry)) 30;;
  assert_eq (age (vo_generation entry)) 3.

Definition wire_unknown_peer_snapshot_accepted : outcome unit :=
  let '(shard, result) := accept_inbound_snapshot (make_shard test_clock)
    (mkInboundSnapshot (node 99) (generation_new 3 15) 1 (mkTestState 999 "unknown-peer")
       2000000 2015000) test_clock in
  assert_eq result Accepted;;
  assert_eq (size (snapshot shard)) 2%nat;;
  entry ← snap_get shard 99;
  assert_eq (ts_counter (vo_value entry)) 999;;
  assert_eq (ts_label (vo_value entry)) "unknown-peer"%string;;
  assert_eq (vo_generation entry) (generation_new 3 15).

(** ** QUERY: local queries *)

Definition add_fresh_peer (shard : test_shard) (i : nat) (counter : Z) (clock : TestClock) :
    test_shard :=
  let shard := shard_on_node_joined shard (node i) default_view clock in
  (accept_inbound_snapshot shard
     (mkInboundSnapshot (node i) (generation_new 1 1) 1
        (mkTestState counter ("peer-" +:+ node_str (node i))) (unix_ms clock) (unix_ms clock))
     clock).1.

(** A snapshot received at the current time of the clock. *)
Definition refreshed (shard : test_shard) (i : nat) (g : Generation) (counter : Z)
    (clock : TestClock) : test_shard :=
  (accept_inbound_snapshot shard
     (mkInboundSnapshot (node i) g 1 (mkTestState counter "refreshed") (unix_ms clock)
        (unix_ms clock)) clock).1.

Definition count_views (snap : gmap NodeId (StateViewObject TestState)) : nat := size snap.
(** [snap[&node].value.counter], for a node that is there. *)
Definition counter_at (i : nat) (snap : gmap NodeId (StateViewObject TestState)) : option Z :=
  (λ vo, ts_counter (vo_value vo)) <$> snap !! node i.

Definition query_01_projection_receives_full_view_map : outcome unit :=
  let shard := add_fresh_peer (make_shard test_clock) 2 10 test_clock in
  let shard := add_fresh_peer shard 3 20 test_clock in
  let shard := add_fresh_peer shard 4 30 test_clock in
  count ← fresh (query_local shard (from_secs 5) count_views test_clock);
  assert_eq count 4%nat.

Definition query_02_stale_entries_detected_by_time : outcome unit :=
  let clock := test_clock in
  let shard := add_fresh_peer (make_shard clock) 2 10 clock in
  let clock := advance clock (from_secs 10) in
  '(stale_peers, result) ← stale (query_local shard (from_secs 5) count_views clock);
  assert_eq stale_peers [node 2];;
  assert_eq result 2%nat.

Definition query_03_fresh_entries_not_flagged : outcome unit :=
  let clock := test_clock in
  let shard := add_fresh_peer (make_shard clock) 2 10 clock in
  let shard := add_fresh_peer shard 3 20 clock in
  let clock := advance clock (from_secs 2) in
  count ← fresh (query_local shard (from_secs 5) count_views clock);
  assert_eq count 3%nat.

Definition query_04_callback_result_returned : outcome unit :=
  let shard := add_fresh_peer (make_shard test_clock) 2 42 test_clock in
  sum ← fresh (query_local shard (from_secs 5)
          (λ snap, foldl u64_add 0 ((λ kv, ts_counter (vo_value kv.2)) <$> hm_iter snap))
          test_clock);
  assert_eq sum 42.

Definition query_05_unreachable_peer_returns_stale : outcome unit :=
  let clock := test_clock in
  let shard := add_fresh_peer (make_shard clock) 2 10 clock in
  let shard := add_fresh_peer shard 3 20 clock in
  let clock := advance clock (from_secs 6) in
  let shard := refreshed shard 3 (generation_new 1 2) 25 clock in
  '(stale_peers, result) ← stale (query_local shard (from_secs 5) (counter_at 3) clock);
  assert_eq stale_peers [node 2];;
  assert_eq result (Some 25).

Definition query_06_pending_remote_generation_triggers_stale : outcome unit :=
  let shard := add_fresh_peer (make_shard test_clock) 2 10 test_clock in
  let shard := mark_stale shard (node 2) 1 5 in
  '(stale_peers, result) ← stale (query_local shard (from_secs 60) (counter_at 2) test_clock);
  assert_eq stale_peers [node 2];;
  assert_eq result (Some 10).

Definition query_07_multiple_stale_peers : outcome unit :=
  let clock := test_clock in
  let shard := add_fresh_peer (make_shard clock) 2 10 clock in
  let shard := add_fresh_peer shard 3 20 clock in
  let shard := add_fresh_peer shard 4 30 clock in
  let clock := advance clock (from_secs 10) in
  '(stale_peers, result) ← stale (query_local shard (from_secs 5) count_views clock);
  assert_eq (sort_nodes stale_peers) [node 2; node 3; node 4];;
  assert_eq result 4%nat.

Definition query_08_snapshot_returns_stale_data_without_freshness : outcome unit :=
  let shard := add_fresh_peer (make_shard test_clock) 2 42 test_clock in
  let _clock := advance test_clock (from_secs 3600) in
  assert_eq (size (snapshot shard)) 2%nat;;
  entry ← snap_get shard 2;
  assert_eq (ts_counter (vo_value entry)) 42.

Definition query_local_node_never_stale : outcome unit :=
  let shard := make_shard test_clock in
  let clock := advance test_clock (from_secs 100) in
  count ← fresh (query_local shard (from_secs 5) count_views clock);
  assert_eq count 1%nat.

(** ** SYNC: urgencies *)

Definition counters_logic : SyncLogic := sync_logic_new "counters" active_push true.

Definition sync_14_immediate_bypasses_timer : outcome unit :=
  assert_eq (resolve_action counters_logic UrgencyImmediate) BroadcastDelta.
Definition sync_15_delayed_overrides_interval : outcome unit :=
  let delay := from_secs 1 in
  assert_eq (resolve_action counters_logic (UrgencyDelayed delay))
    (ScheduleDelayedSync (from_secs 1)).
Definition sync_16_suppress_skips_broadcast : outcome unit :=
  assert_eq (resolve_action counters_logic UrgencySuppress) SuppressSync.

Definition sync_17_suppressed_deltas_accumulate : outcome unit :=
  acc ← foldl (λ acc i,
      acc ← acc;
      assert_eq (resolve_action counters_logic UrgencySuppress) SuppressSync;;
      Done (accumulate acc ("delta-" +:+ pretty i)))
    (Done accumulator_new) (seqZ 0 3);
  assert_eq (resolve_action counters_logic UrgencyImmediate) BroadcastDelta;;
  let '(acc, flushed) := accumulator_flush acc in
  flushed ← unwrap flushed;
  assert_eq (length flushed) 3%nat;;
  assert_eq (flushed !! 0%nat) (Some "delta-0"%string);;
  assert_eq (flushed !! 2%nat) (Some "delta-2"%string);;
  assert (accumulator_is_empty acc).

Definition sync_18_default_uses_configured_strategy : outcome unit :=
  let push_logic := sync_logic_new "counters" active_push true in
  assert_eq (resolve_action push_logic UrgencyDefault) BroadcastDelta;;
  let feed_logic := sync_logic_new "sessions" feed_lazy_pull true in
  assert_eq (resolve_action feed_logic UrgencyDefault) NotifyChangeFeed.

(** ** ERR: retries of stale queries *)

Definition err_05_stale_retry_succeeds_after_refresh : outcome unit :=
  let clock := test_clock in
  let shard := add_fresh_peer (make_shard clock) 2 10 clock in
  let clock := advance clock (from_secs 10) in
  let result := query_local shard (from_secs 5) (counter_at 2) clock in
  assert (is_stale result);;
  let shard := refreshed shard 2 (generation_new 1 5) 99 clock in
  counter ← fresh (query_local shard (from_secs 5) (counter_at 2) clock);
  assert_eq counter (Some 99).

Definition err_06_stale_peers_consistent_for_retry : outcome unit :=
  let clock := test_clock in
  let shard := add_fresh_peer (make_shard clock) 2 10 clock in
  let clock := advance clock (from_secs 10) in
  let stale1 := stale_peers shard (from_secs 5) clock in
  let stale2 := stale_peers shard (from_secs 5) clock in
  assert_eq stale1 stale2;;
  assert_eq stale1 [node 2];;
  let shard := refreshed shard 2 (generation_new 1 5) 99 clock in
  assert_eq (stale_peers shard (from_secs 5) clock) [].

(** ** PERSIST: mutations in two phases *)

Definition prepare (shard : test_shard) (f : TestState → TestState) :
    PreparedMutation TestState TestState :=
  prepare_mutation shard f clone test_clock.
Definition view_counter (shard : test_shard) : outcome Z :=
  vo ← unwrap (get_view shard (node 1)); Done (ts_counter (vo_value vo)).

Definition persist_01_prepare_returns_state_to_persist : outcome unit :=
  let shard := make_shard test_clock in
  let p1 := prepare shard (set_counter 1) in
  assert_eq (age (so_generation (prepared_state p1))) 1;;
  assert_eq (ts_counter (so_value (prepared_state p1))) 1;;
  let p1b := prepare shard (set_counter 10) in
  assert_eq (age (so_generation (prepared_state p1b))) 1;;
  assert_eq (ts_counter (so_value (prepared_state p1b))) 10.

Definition persist_03_state_survives_restart : outcome unit :=
  shard ← foldl (λ shard i,
      shard ← shard;
      '(shard, _) ← commit_mutation shard (prepare shard (set_counter i)) test_clock;
      Done shard)
    (Done (make_shard test_clock)) (seqZ 1 5);
  let saved := sh_state shard in
  assert_eq (age (so_generation saved)) 5;;
  assert_eq (ts_counter (so_value saved)) 5;;
  let shard2 : test_shard := shard_new (node 1) saved (so_value saved) test_clock in
  assert_eq (state_age shard2) 5;;
  assert_eq (counter shard2) 5.

Definition persist_04_no_persistence_direct_commit : outcome unit :=
  let shard := make_shard test_clock in
  let prepared := prepare shard (set_counter 42) in
  '(shard, outcome) ← commit_mutation shard prepared test_clock;
  assert_eq (age (mo_generation outcome)) 1;;
  assert_eq (counter shard) 42.

Definition persist_05_err_03_save_failure_no_commit : outcome unit :=
  let shard := make_shard test_clock in
  let _prepared := prepare shard (set_counter 99) in
  assert_eq (state_age shard) 0;;
  assert_eq (counter shard) 0.

Definition persist_07_save_failure_prevents_age_advance : outcome unit :=
  shard ← foldl (λ shard _,
      shard ← shard;
      '(shard, _) ← commit_mutation shard (prepare shard (bump_counter 1)) test_clock;
      Done shard)
    (Done (make_shard test_clock)) (seqZ 0 3);
  assert_eq (state_age shard) 3;;
  let prepared := prepare shard (bump_counter 1) in
  assert_eq (age (so_generation (prepared_state prepared))) 4;;
  assert_eq (state_age shard) 3;;
  assert_eq (counter shard) 3.

Definition persist_08_save_failure_viewmap_unchanged : outcome unit :=
  let '(shard, _) := apply_mutation (make_shard test_clock) (set_counter 5) clone test_clock in
  view_before ← view_counter shard;
  assert_eq view_before 5;;
  let _prepared := prepare shard (set_counter 99) in
  view_after ← unwrap (get_view shard (node 1));
  assert_eq (ts_counter (vo_value view_after)) 5;;
  assert_eq (age (vo_generation view_after)) 1.

Definition persist_09_save_failure_no_broadcast : outcome unit :=
  let shard := make_shard test_clock in
  let prepared := prepare shard (set_counter 42) in
  assert_eq (ts_counter (pm_view prepared)) 42;;
  assert_eq (state_age shard) 0.

Definition persist_10_save_then_publish_ordering : outcome unit :=
  let shard := make_shard test_clock in
  let prepared := prepare shard (set_counter 42) in
  assert_eq (state_age shard) 0;;
  before ← view_counter shard;
  assert_eq before 0;;
  let persisted_state := prepared_state prepared in
  assert_eq (age (so_generation persisted_state)) 1;;
  '(shard, outcome) ← commit_mutation shard prepared test_clock;
  assert_eq (state_age shard) 1;;
  after ← view_counter shard;
  assert_eq after 42;;
  assert_eq (age (mo_generation outcome)) 1;;
  assert_eq (ts_counter (mo_view outcome)) 42.

Definition prepare_delta (shard : delta_shard) (f : TestDeltaInner → TestDeltaInner * TestChange) :
    PreparedDeltaMutation TestDeltaInner TestDeltaView TestDeltaViewDelta :=
  prepare_mutation_with_delta shard f project_view project_delta test_clock.

Definition persist_delta_prepare_commit_cycle : outcome unit :=
  let shard := make_delta_shard test_clock in
  let prepared := prepare_delta shard (λ s,
    (mkTestDeltaStateInner (u64_add (tds_counter s) 1) "updated" (tds_internal_accumulator s),
     mkTestDeltaChange 1 (Some "updated"%string) (0 # 1))) in
  assert_eq (state_age shard) 0;;
  '(shard, outcome) ← commit_delta_mutation shard prepared test_clock;
  assert_eq (state_age shard) 1;;
  assert_eq (age (dmo_generation outcome)) 1;;
  assert_eq (tdv_counter (dmo_view outcome)) 1.

Definition persist_delta_save_failure_rollback : outcome unit :=
  let shard := make_delta_shard test_clock in
  let p1 := prepare_delta shard (add_and_report 1 (0 # 1)) in
  '(shard, _) ← commit_delta_mutation shard p1 test_clock;
  assert_eq (state_age shard) 1;;
  let _p2 := prepare_delta shard (add_and_report 10 (0 # 1)) in
  assert_eq (state_age shard) 1;;
  assert_eq (tds_counter (so_value (sh_state shard))) 1.

Definition stale_commit_panics : outcome unit :=
  let shard := make_shard test_clock in
  let p1 := prepare shard (set_counter 1) in
  let p2 := prepare shard (set_counter 2) in
  '(shard, _) ← commit_mutation shard p1 test_clock;
  '(_, _) ← commit_mutation shard p2 test_clock;
  Done ().

Definition stale_delta_commit_panics : outcome unit :=
  let shard := make_delta_shard test_clock in
  let p1 := prepare_delta shard (add_and_report 1 (0 # 1)) in
  let p2 := prepare_delta shard (add_and_report 10 (0 # 1)) in
  '(shard, _) ← commit_delta_mutation shard p1 test_clock;
  '(_, _) ← commit_delta_mutation shard p2 test_clock;
  Done ().

(** ** All of them pass *)
Definition shard_tests (unreachable : TestDeltaView → TestDeltaView) : list (outcome unit) :=
  [test_05_should_accept_newer_incarnation; test_05_should_accept_same_inc_newer_age;
   test_05_should_reject_same_inc_same_age; test_05_should_reject_same_inc_older_age;
   test_05_should_reject_older_incarnation; test_06_stale_peers_by_time;
   test_06_stale_peers_by_pending_age; test_06_own_node_never_stale;
   test_07_mutation_advances_age; pvm_01_own_entry_after_construction;
   pvm_02_own_entry_matches_state; pvm_03_no_peers_on_single_node;
   shard_01_mutation_increments_age; shard_02_mutation_updates_modified_time;
   shard_03_mutation_produces_outbound_view; shard_04_sequential_mutations_sequential_ages;
   shard_05_node_joined_adds_entry; shard_06_node_left_removes_entry;
   shard_07_mark_stale_sets_pending; shard_08_mark_stale_old_incarnation_noop;
   shard_10_snapshot_returns_view_map; mut_01_closure_receives_mutable_state;
   mut_02_mutation_updates_view_map; mut_04_mutation_broadcasts_snapshot_data;
   mut_05_inbound_snapshot_replaces_view; mut_06_stale_snapshot_discarded;
   dmut_01_delta_mutation_captures_change; dmut_03_delta_mutation_updates_view_map;
   dmut_05_delta_mutation_produces_view_delta; dmut_06_simple_mutate_on_delta_shard;
   inbound_delta_applied_correctly; inbound_delta_gap_detected unreachable;
   inbound_delta_stale_discarded unreachable; inbound_delta_unknown_peer unreachable;
   mark_stale_new_incarnation_sets_both; node_joined_idempotent; node_left_unknown_noop;
   inbound_snapshot_creates_entry_for_unknown_peer; accept_snapshot_clears_pending_remote;
   accept_snapshot_partial_catchup_preserves_pending;
   accept_delta_partial_catchup_preserves_pending; node_joined_placeholder_is_stale;
   test_new_state_object; wire_full_snapshot_updates_view_map;
   wire_delta_advances_peer_view; wire_change_feed_marks_peer_stale;
   wire_request_snapshot_response; wire_unknown_peer_snapshot_accepted;
   query_01_projection_receives_full_view_map; query_02_stale_entries_detected_by_time;
   query_03_fresh_entries_not_flagged; query_04_callback_result_returned;
   query_05_unreachable_peer_returns_stale;
   query_06_pending_remote_generation_triggers_stale; query_07_multiple_stale_peers;
   query_08_snapshot_returns_stale_data_without_freshness; query_local_node_never_stale;
   sync_14_immediate_bypasses_timer; sync_15_delayed_overrides_interval;
   sync_16_suppress_skips_broadcast; sync_17_suppressed_deltas_accumulate;
   sync_18_default_uses_configured_strategy; err_05_stale_retry_succeeds_after_refresh;
   err_06_stale_peers_consistent_for_retry; persist_01_prepare_returns_state_to_persist;
   persist_03_state_survives_restart; persist_04_no_persistence_direct_commit;
   persist_05_err_03_save_failure_no_commit; persist_07_save_failure_prevents_age_advance;
   persist_08_save_failure_viewmap_unchanged; persist_09_save_failure_no_broadcast;
   persist_10_save_then_publish_ordering; persist_delta_prepare_commit_cycle;
   persist_delta_save_failure_rollback;
   should_panic "another mutation was committed in between" stale_commit_panics;
   should_panic "base generation mismatch" stale_delta_commit_panics].

Example shard_tests_pass unreachable : failures (shard_tests unreachable) = [].
Proof. vm_compute. reflexivity. Qed.
