(* ===== verification/EngineTests.v ===== *)
(** The inline tests of [engine.rs] on the model, under their names. *)
From Stdlib Require Import QArith.
From stdpp Require Import prelude gmap fin_maps strings pretty.
From S2P Require Import Prelude Node Clock Types ViewMap ShardCore SyncLogic ChangeFeed.
From S2P Require Import Versioning Lifecycle Diagnostics Engine Traits Testing.
Local Open Scope Z_scope.

Local Existing Instance map_to_list_iter.
Local Existing Instances state_bits delta_view_bits delta_bits inner_bits.

Local Abbreviation test_engine := (DistributedStateEngine TestState TestState (ViewMap TestState)).
Local Abbreviation delta_engine :=
  (DistributedStateEngine TestDeltaInner TestDeltaView (ViewMap TestDeltaView)).
Local Abbreviation clone := (λ s, s).

Definition make_engine (node_id : NodeId) (clock : TestClock) : test_engine :=
  engine_new "test_state" node_id TestState_default clone StateConfig_default 1 clock
    bincode_serialize (versioned_deserialize 1) None.

Definition make_delta_engine (node_id : NodeId) (clock : TestClock) : delta_engine :=
  engine_new "test_delta_state" node_id delta_default project_view StateConfig_default 1 clock
    dds_serialize_view dds_deserialize_view
    (Some (delta_applier (S := TestDeltaInner) (DC := TestChange))).

Definition make_feed_engine (node_id : NodeId) (clock : TestClock) : test_engine :=
  engine_new "test_state" node_id TestState_default clone
    (mkStateConfig feed_lazy_pull (pull_timeout StateConfig_default)
       (version_mismatch_policy StateConfig_default))
    1 clock bincode_serialize (versioned_deserialize 1) None.

(** [engine.mutate(|s| .., |s| s.clone(), ..)], and the delta closures of the tests. *)
Definition mutated (e : test_engine) (f : TestState → TestState) (urgency : SyncUrgency) :
    test_engine * MutateResult TestState :=
  mutate e f clone urgency test_clock.
Definition delta_mutated (e : delta_engine) (z : Z) (new_label : option string) :
    delta_engine * DeltaMutateResult TestDeltaView TestDeltaViewDelta :=
  mutate_with_delta e
    (λ s, (mkTestDeltaStateInner (u64_add (tds_counter s) z) (tds_label s)
             (tds_internal_accumulator s),
           mkTestDeltaChange z new_label (0 # 1)))
    project_view project_delta UrgencyDefault
    (dds_serialize_delta (S := TestDeltaInner) (DC := TestChange)) test_clock.

(** The calls whose actions a test ignores. *)
Definition joined {S V} (e : DistributedStateEngine S V (ViewMap V)) (i : nat) (v : V) :
    outcome (DistributedStateEngine S V (ViewMap V)) :=
  '(e, _) ← engine_on_node_joined e (node i) v test_clock; Done e.
Definition synced {S V} (e : DistributedStateEngine S V (ViewMap V)) (msg : SyncMessage) :
    outcome (DistributedStateEngine S V (ViewMap V)) :=
  '(e, _) ← handle_inbound_sync e msg test_clock; Done e.
Definition view_of {S V} (e : DistributedStateEngine S V (ViewMap V)) (i : nat) :
    outcome (StateViewObject V) :=
  unwrap (engine_get_view e (node i)).
Definition gone {S V} (e : DistributedStateEngine S V (ViewMap V)) (i : nat) : bool :=
  bool_decide (vo_generation <$> engine_get_view e (node i) = None).

(** [matches!(action, ..)]. *)
Definition is_broadcast_snapshot (a : EngineAction) : bool :=
  match a with BroadcastSync (FullSnapshot _ _ _ _ _) => true | _ => false end.
Definition is_broadcast_delta (a : EngineAction) : bool :=
  match a with BroadcastSync (DeltaUpdate _ _ _ _ _) => true | _ => false end.
Definition is_request_to (i : nat) (a : EngineAction) : bool :=
  match a with SendSync t (RequestSnapshot _ _) => bool_decide (t = node i) | _ => false end.
Definition is_request (a : EngineAction) : bool :=
  match a with SendSync _ (RequestSnapshot _ _) => true | _ => false end.
(** The only action of a list. *)
Definition the_action (actions : list EngineAction) : outcome EngineAction :=
  match actions with [a] => Done a | _ => Panicked "expected one action" end.
Definition targets (actions : list EngineAction) : list NodeId :=
  omap (λ a, match a with SendSync t _ => Some t | _ => None end) actions.

(** [FullSnapshot]s of the peers' states, a notification of a peer's generation. *)
Definition snapshot_msg (i : nat) (g : Generation) (data : bytes) : SyncMessage :=
  FullSnapshot "test_state" (node i) g 1 data.
Definition delta_snapshot_msg (i : nat) (g : Generation) (view : TestDeltaView) : SyncMessage :=
  FullSnapshot "test_delta_state" (node i) g 1 (bincode_serialize view).
Definition delta_msg (i : nat) (g : Generation) (delta : TestDeltaViewDelta) : SyncMessage :=
  DeltaUpdate "test_delta_state" (node i) g 1 (bincode_serialize delta).
Definition feed_of (i : nat) (g : Generation) : BatchedChangeFeed :=
  mkBatchedChangeFeed (node i) [mkChangeNotification "test_state" (node i) g].

(** ** Construction and mutations *)

Definition engine_initial_state : outcome unit :=
  let engine := make_engine (node 1) test_clock in
  assert_eq (engine_node_id engine) (node 1);;
  assert_eq (state_name engine) "test_state"%string;;
  assert_eq (engine_view_count engine) 1%nat;;
  assert_eq (ts_counter (so_value (engine_state engine))) 0.

Definition mutate_active_push_broadcasts_snapshot : outcome unit :=
  let engine := make_engine (node 1) test_clock in
  let '(engine, result) :=
    mutated engine (λ s, mkTestState (u64_add (ts_counter s) 1) "updated") UrgencyDefault in
  assert_eq (age (mr_generation result)) 1;;
  assert_eq (ts_counter (mr_view result)) 1;;
  assert_eq (ts_label (mr_view result)) "updated"%string;;
  a ← the_action (mr_actions result);
  assert (is_broadcast_snapshot a);;
  let m := engine_metrics engine in
  assert_eq (sm_total_mutations m) 1;;
  assert_eq (sm_snapshots_sent m) 1.

Definition mutate_suppress_no_actions : outcome unit :=
  let '(engine, result) :=
    mutated (make_engine (node 1) test_clock) (bump_counter 1) UrgencySuppress in
  assert_eq (length (mr_actions result)) 0%nat;;
  assert_eq (sm_deltas_suppressed (engine_metrics engine)) 1.

Definition mutate_delayed_produces_scheduled_action : outcome unit :=
  let delay := from_secs 5 in
  let '(_, result) :=
    mutated (make_engine (node 1) test_clock) (bump_counter 1) (UrgencyDelayed delay) in
  a ← the_action (mr_actions result);
  match a with
  | ScheduleDelayed d _ => assert_eq d (from_secs 5)
  | _ => Panicked "not scheduled"
  end.

Definition mutate_feed_mode_notifies_change_feed : outcome unit :=
  let '(engine, result) :=
    mutated (make_feed_engine (node 1) test_clock) (bump_counter 1) UrgencyDefault in
  assert_eq (mr_actions result) [];;
  assert_eq (pending_change_feed_count engine) 1%nat;;
  let '(_, feed) := flush_change_feed engine in
  feed ← unwrap feed;
  assert_eq (bf_source_node feed) (node 1);;
  assert_eq (length (bf_notifications feed)) 1%nat;;
  assert_eq (cn_state_name <$> bf_notifications feed !! 0%nat) (Some "test_state"%string).

Definition mutate_immediate_overrides_feed_mode : outcome unit :=
  let '(_, result) :=
    mutated (make_feed_engine (node 1) test_clock) (bump_counter 1) UrgencyImmediate in
  a ← the_action (mr_actions result);
  assert (is_broadcast_snapshot a).

Definition delta_mutate_broadcasts_delta : outcome unit :=
  let '(engine, result) := delta_mutated (make_delta_engine (node 1) test_clock) 5 None in
  assert_eq (tdv_counter (dmr_view result)) 5;;
  assert_eq (tvd_counter_delta (dmr_view_delta result)) 5;;
  a ← the_action (dmr_actions result);
  assert (is_broadcast_delta a);;
  let m := engine_metrics engine in
  assert_eq (sm_deltas_sent m) 1;;
  assert_eq (sm_deltas_immediate m) 1.

(** ** Inbound snapshots *)

Definition inbound_snapshot_accepted : outcome unit :=
  engine ← joined (make_engine (node 1) test_clock) 2 TestState_default;
  let data := bincode_serialize (mkTestState 42 "peer") in
  '(engine, actions) ← handle_inbound_sync engine
    (snapshot_msg 2 (generation_new 1000000 3) data) test_clock;
  assert_eq actions [];;
  view ← view_of engine 2;
  assert_eq (ts_counter (vo_value view)) 42;;
  assert_eq (age (vo_generation view)) 3;;
  assert_eq (sm_snapshots_received (engine_metrics engine)) 1.

Definition inbound_snapshot_wrong_state_name_ignored : outcome unit :=
  engine ← joined (make_engine (node 1) test_clock) 2 TestState_default;
  '(engine, actions) ← handle_inbound_sync engine
    (FullSnapshot "other_state" (node 2) (generation_new 1 1) 1 []) test_clock;
  assert_eq actions [];;
  assert_eq (sm_snapshots_received (engine_metrics engine)) 0.

Definition inbound_snapshot_departed_node_rejected : outcome unit :=
  engine ← joined (make_engine (node 1) test_clock) 2 TestState_default;
  let engine := engine_on_node_left engine (node 2) in
  let data := bincode_serialize (mkTestState 99 "ghost") in
  '(engine, actions) ← handle_inbound_sync engine
    (snapshot_msg 2 (generation_new 1 1) data) test_clock;
  assert_eq actions [];;
  assert (gone engine 2).

Definition inbound_snapshot_version_mismatch : outcome unit :=
  engine ← joined (make_engine (node 1) test_clock) 2 TestState_default;
  '(engine, actions) ← handle_inbound_sync engine
    (FullSnapshot "test_state" (node 2) (generation_new 1 1) 99 [1; 2; 3]) test_clock;
  assert_eq actions [];;
  assert_eq (sm_sync_failures (engine_metrics engine)) 1.

Definition inbound_snapshot_malformed_data : outcome unit :=
  engine ← joined (make_engine (node 1) test_clock) 2 TestState_default;
  '(engine, actions) ← handle_inbound_sync engine
    (snapshot_msg 2 (generation_new 1 1) [255; 255]) test_clock;
  assert_eq actions [];;
  assert_eq (sm_sync_failures (engine_metrics engine)) 1.

(** ** Inbound deltas *)

(** A delta engine that node 2 joined and whose snapshot of [g] it accepted. *)
Definition with_delta_peer (g : Generation) (view : TestDeltaView) : outcome delta_engine :=
  engine ← joined (make_delta_engine (node 1) test_clock) 2 (mkTestDeltaView 0 "");
  synced engine (delta_snapshot_msg 2 g view).

Definition inbound_delta_applied : outcome unit :=
  engine ← with_delta_peer (generation_new 1000000 1) (mkTestDeltaView 10 "peer");
  let delta := mkTestDeltaViewDelta 5 None in
  '(engine, actions) ← handle_inbound_sync engine
    (delta_msg 2 (generation_new 1000000 2) delta) test_clock;
  assert_eq actions [];;
  view ← view_of engine 2;
  assert_eq (tdv_counter (vo_value view)) 15;;
  assert_eq (sm_deltas_received (engine_metrics engine)) 1.

Definition inbound_delta_without_applier_requests_snapshot : outcome unit :=
  engine ← joined (make_engine (node 1) test_clock) 2 TestState_default;
  '(_, actions) ← handle_inbound_sync engine
    (DeltaUpdate "test_state" (node 2) (generation_new 1 1) 1 [1; 2; 3]) test_clock;
  a ← the_action actions;
  assert (is_request_to 2 a).

Definition inbound_delta_gap_requests_snapshot : outcome unit :=
  engine ← with_delta_peer (generation_new 1000000 1) (mkTestDeltaView 10 "peer");
  let delta := mkTestDeltaViewDelta 1 None in
  '(engine, actions) ← handle_inbound_sync engine
    (delta_msg 2 (generation_new 1000000 5) delta) test_clock;
  a ← the_action actions;
  assert (is_request a);;
  assert_eq (sm_age_gaps_detected (engine_metrics engine)) 1.

Definition inbound_delta_stale_discarded : outcome unit :=
  engine ← with_delta_peer (generation_new 1000000 5) (mkTestDeltaView 50 "peer");
  let delta := mkTestDeltaViewDelta 1 None in
  '(engine, actions) ← handle_inbound_sync engine
    (delta_msg 2 (generation_new 1000000 3) delta) test_clock;
  assert_eq actions [];;
  assert_eq (sm_stale_deltas_discarded (engine_metrics engine)) 1;;
  v ← view_of engine 2;
  assert_eq (tdv_counter (vo_value v)) 50.

Definition inbound_delta_wrong_wire_version_rejected : outcome unit :=
  engine ← with_delta_peer (generation_new 1000000 1) (mkTestDeltaView 10 "p");
  '(engine, actions) ← handle_inbound_sync engine
    (DeltaUpdate "test_delta_state" (node 2) (generation_new 1000000 2) 99 [1; 2; 3]) test_clock;
  assert_eq actions [];;
  assert_eq (sm_sync_failures (engine_metrics engine)) 1.

(** ** Requests and the change feed *)

Definition request_snapshot_sends_own_view : outcome unit :=
  let '(engine, _) :=
    mutated (make_engine (node 1) test_clock) (set_counter 42) UrgencyDefault in
  '(_, actions) ← handle_inbound_sync engine (RequestSnapshot "test_state" (node 2)) test_clock;
  a ← the_action actions;
  match a with
  | SendSync target (FullSnapshot _ _ _ _ data) =>
      assert_eq target (node 2);;
      match bincode_deserialize data with
      | Ok view => assert_eq (ts_counter view) 42
      | Err msg => Panicked msg
      end
  | _ => Panicked "expected SendSync with FullSnapshot"
  end.

Definition request_snapshot_rejected_from_departed_node : outcome unit :=
  engine ← joined (make_engine (node 1) test_clock) 2 TestState_default;
  let engine := engine_on_node_left engine (node 2) in
  '(engine, actions) ← handle_inbound_sync engine
    (RequestSnapshot "test_state" (node 2)) test_clock;
  assert_eq actions [];;
  assert_eq (sm_snapshots_sent (engine_metrics engine)) 1.

Definition change_feed_marks_stale : outcome unit :=
  let clock := test_clock in
  engine ← joined (make_feed_engine (node 1) clock) 2 TestState_default;
  let data := bincode_serialize (mkTestState 1 "x") in
  engine ← synced engine (snapshot_msg 2 (generation_new 1000000 1) data);
  let engine := handle_inbound_change_feed engine (feed_of 2 (generation_new 1000000 5)) in
  let clock := advance clock (from_secs 10) in
  let '(result, actions) := query engine (from_millis 1)
    (λ views, (λ v, ts_counter (vo_value v)) <$> views !! node 2) clock in
  assert (match result with EngineStale _ _ => true | EngineFresh _ => false end);;
  assert (negb (bool_decide (actions = []))).

Definition change_feed_from_departed_node_ignored : outcome unit :=
  let clock := test_clock in
  engine ← joined (make_feed_engine (node 1) clock) 2 TestState_default;
  let data := bincode_serialize (mkTestState 1 "x") in
  engine ← synced engine (snapshot_msg 2 (generation_new 1000000 1) data);
  let engine := engine_on_node_left engine (node 2) in
  let engine := handle_inbound_change_feed engine (feed_of 2 (generation_new 1000000 10)) in
  let clock := advance clock (from_secs 60) in
  let '(_result, actions) := query engine (from_millis 1) (λ _, ()) clock in
  let requests_to_node2 := filter (λ t, t = node 2) (targets actions) in
  assert_eq requests_to_node2 [].

(** ** Membership, queries, periodic sync *)

Definition node_joined_sends_snapshot : outcome unit :=
  let '(engine, _) :=
    mutated (make_engine (node 1) test_clock) (set_counter 10) UrgencyDefault in
  '(engine, actions) ← engine_on_node_joined engine (node 2) TestState_default test_clock;
  a ← the_action actions;
  match a with
  | SendSync target (FullSnapshot _ _ _ _ _) => assert_eq target (node 2)
  | _ => Panicked "expected SendSync/FullSnapshot"
  end;;
  assert_eq (engine_view_count engine) 2%nat.

Definition node_left_removes_view : outcome unit :=
  engine ← joined (make_engine (node 1) test_clock) 2 TestState_default;
  assert_eq (engine_view_count engine) 2%nat;;
  let engine := engine_on_node_left engine (node 2) in
  assert_eq (engine_view_count engine) 1%nat;;
  assert (gone engine 2);;
  assert (negb (engine_should_accept_from engine (node 2))).

Definition query_fresh_returns_all_views : outcome unit :=
  let '(engine, _) :=
    mutated (make_engine (node 1) test_clock) (set_counter 100) UrgencyDefault in
  let '(result, actions) := query engine (from_secs 60)
    (λ views, (λ v, ts_counter (vo_value v)) <$> views !! node 1) test_clock in
  match result with
  | EngineFresh c => assert_eq c (Some 100)
  | EngineStale _ _ => Panicked "not fresh"
  end;;
  assert_eq actions [].

Definition query_pull_skips_departed_peers : outcome unit :=
  let clock := test_clock in
  engine ← joined (make_feed_engine (node 1) clock) 2 TestState_default;
  engine ← joined engine 3 TestState_default;
  engine ← foldl (λ engine id,
      engine ← engine;
      let data := bincode_serialize (mkTestState (Z.of_nat id) ("n" +:+ pretty id)) in
      synced engine (snapshot_msg id (generation_new 1000000 1) data))
    (Done engine) [2%nat; 3%nat];
  let engine := engine_on_node_left engine (node 2) in
  let engine := handle_inbound_change_feed engine (feed_of 3 (generation_new 1000000 5)) in
  let clock := advance clock (from_secs 60) in
  let '(_result, actions) := query engine (from_millis 1) (λ _, ()) clock in
  assert (bool_decide (node 3 ∈ targets actions));;
  assert (negb (bool_decide (node 2 ∈ targets actions))).

Definition periodic_sync_broadcasts_snapshot : outcome unit :=
  let engine : test_engine := engine_new "test_state" (node 1) TestState_default clone
    (mkStateConfig (periodic_only (from_secs 30)) (pull_timeout StateConfig_default)
       (version_mismatch_policy StateConfig_default))
    1 test_clock bincode_serialize
    (λ b _, match bincode_deserialize b with Ok s => Ok s | Err e => Err (Malformed e) end)
    None in
  let '(engine, _) := mutated engine (set_counter 5) UrgencySuppress in
  '(_, actions) ← periodic_sync engine;
  a ← the_action actions;
  assert (is_broadcast_snapshot a).

Definition periodic_sync_returns_empty_when_not_configured : outcome unit :=
  '(_, actions) ← periodic_sync (make_engine (node 1) test_clock);
  assert_eq actions [].

(** ** Health and metrics *)

Definition health_status_with_no_peers : outcome unit :=
  let h := engine_health (make_engine (node 1) test_clock) (from_secs 60) test_clock in
  assert (match eh_status h with EngineHealthy => true | _ => false end);;
  assert_eq (eh_stale_peers h) 0.

Definition metrics_track_mutations : outcome unit :=
  let engine := foldl (λ engine _, (mutated engine (bump_counter 1) UrgencyDefault).1)
                  (make_engine (node 1) test_clock) (seqZ 0 5) in
  let m := engine_metrics engine in
  assert_eq (sm_total_mutations m) 5;;
  assert_eq (sm_snapshots_sent m) 5.

(** ** Two engines *)

Definition full_round_trip_two_engines : outcome unit :=
  let engine1 := make_engine (node 1) test_clock in
  let engine2 := make_engine (node 2) test_clock in
  engine1 ← joined engine1 2 TestState_default;
  engine2 ← joined engine2 1 TestState_default;
  let '(_, result) := mutated engine1 (λ _, mkTestState 42 "hello") UrgencyDefault in
  a ← the_action (mr_actions result);
  engine2 ← match a with
            | BroadcastSync msg =>
                '(engine2, actions) ← handle_inbound_sync engine2 msg test_clock;
                assert_eq actions [];;
                Done engine2
            | _ => Done engine2
            end;
  view ← view_of engine2 1;
  assert_eq (ts_counter (vo_value view)) 42;;
  assert_eq (ts_label (vo_value view)) "hello"%string.

Definition delta_round_trip_two_engines : outcome unit :=
  let engine1 := make_delta_engine (node 1) test_clock in
  let engine2 := make_delta_engine (node 2) test_clock in
  let default_view := mkTestDeltaView 0 "" in
  engine1 ← joined engine1 2 default_view;
  engine2 ← joined engine2 1 default_view;
  let '(engine1, result) := delta_mutated engine1 10 (Some "updated"%string) in
  engine2 ← synced engine2 (delta_snapshot_msg 1 (dmr_generation result) (dmr_view result));
  let '(engine1, result2) := delta_mutated engine1 3 None in
  a ← unwrap (head (dmr_actions result2));
  engine2 ← match a with
            | BroadcastSync msg =>
                '(engine2, actions) ← handle_inbound_sync engine2 msg test_clock;
                assert_eq actions [];;
                Done engine2
            | _ => Done engine2
            end;
  view ← view_of engine2 1;
  assert_eq (tdv_counter (vo_value view)) 13.

Definition handle_inbound_wire_message_dispatches : outcome unit :=
  '(engine, actions) ← handle_inbound (make_engine (node 1) test_clock)
    (WireSync (RequestSnapshot "test_state" (node 2))) test_clock;
  assert_eq (length actions) 1%nat;;
  '(_, actions) ← handle_inbound engine (WireFeed (mkBatchedChangeFeed (node 2) [])) test_clock;
  assert_eq actions [].

(** ** All of them pass *)
Definition engine_tests : list (outcome unit) :=
  [engine_initial_state; mutate_active_push_broadcasts_snapshot; mutate_suppress_no_actions;
   mutate_delayed_produces_scheduled_action; mutate_feed_mode_notifies_change_feed;
   mutate_immediate_overrides_feed_mode; delta_mutate_broadcasts_delta;
   inbound_snapshot_accepted; inbound_snapshot_wrong_state_name_ignored;
   inbound_snapshot_departed_node_rejected; inbound_snapshot_version_mismatch;
   inbound_snapshot_malformed_data; inbound_delta_applied;
   inbound_delta_without_applier_requests_snapshot; inbound_delta_gap_requests_snapshot;
   request_snapshot_sends_own_view; change_feed_marks_stale; node_joined_sends_snapshot;
   node_left_removes_view; query_fresh_returns_all_views; periodic_sync_broadcasts_snapshot;
   periodic_sync_returns_empty_when_not_configured; health_status_with_no_peers;
   metrics_track_mutations; full_round_trip_two_engines; delta_round_trip_two_engines;
   request_snapshot_rejected_from_departed_node; change_feed_from_departed_node_ignored;
   query_pull_skips_departed_peers; inbound_delta_stale_discarded;
   inbound_delta_wrong_wire_version_rejected; handle_inbound_wire_message_dispatches].

Example engine_tests_pass : failures engine_tests = [].
Proof. vm_compute. reflexivity. Qed.
