(* ===== verification/CoreTests.v ===== *)
(** The inline tests of the small logic modules on the model, under their names:
    [core/sync_logic.rs], [core/delta_accumulator.rs], [core/change_feed_logic.rs],
    [core/versioning_logic.rs] and [core/persistence_startup_logic.rs].  A closure that
    the test forbids to call is an arbitrary function: the tests pass for all of them. *)
From stdpp Require Import prelude gmap fin_maps strings pretty.
From S2P Require Import Prelude Node Clock Types SyncLogic ChangeFeed Versioning Startup Testing.

Local Existing Instance map_to_list_iter.

Local Instance VersionMismatchAction_eq_dec : EqDecision VersionMismatchAction.
Proof. solve_decision. Defined.
Local Instance DeserializeError_eq_dec : EqDecision DeserializeError.
Proof. solve_decision. Defined.

(** ** sync_logic.rs *)

Definition active_push_strategy : SyncStrategy := active_push.
Definition feed_lazy_pull_strategy : SyncStrategy := feed_lazy_pull.
Definition no_push_strategy : SyncStrategy :=
  mkSyncStrategy None None false ChangeFeedConfig_default.

Definition immediate_urgency_broadcasts_delta : outcome unit :=
  let logic := sync_logic_new "test" active_push_strategy true in
  assert_eq (resolve_action logic UrgencyImmediate) BroadcastDelta.

Definition immediate_urgency_broadcasts_snapshot_for_simple : outcome unit :=
  let logic := sync_logic_new "test" active_push_strategy false in
  assert_eq (resolve_action logic UrgencyImmediate) BroadcastSnapshot.

Definition default_urgency_active_push : outcome unit :=
  let delta := sync_logic_new "test" active_push_strategy true in
  assert_eq (resolve_action delta UrgencyDefault) BroadcastDelta;;
  let simple := sync_logic_new "test" active_push_strategy false in
  assert_eq (resolve_action simple UrgencyDefault) BroadcastSnapshot.

Definition default_urgency_feed_lazy_pull : outcome unit :=
  let logic := sync_logic_new "test" feed_lazy_pull_strategy true in
  assert_eq (resolve_action logic UrgencyDefault) NotifyChangeFeed.

Definition default_urgency_no_push_mode : outcome unit :=
  let logic := sync_logic_new "test" no_push_strategy true in
  assert_eq (resolve_action logic UrgencyDefault) SuppressSync.

Definition delayed_urgency : outcome unit :=
  let logic := sync_logic_new "test" active_push_strategy true in
  let delay := from_secs 5 in
  assert_eq (resolve_action logic (UrgencyDelayed delay)) (ScheduleDelayedSync delay).

Definition suppress_urgency : outcome unit :=
  let logic := sync_logic_new "test" active_push_strategy true in
  assert_eq (resolve_action logic UrgencySuppress) SuppressSync.

Definition immediate_overrides_feed_mode : outcome unit :=
  let logic := sync_logic_new "test" feed_lazy_pull_strategy true in
  assert_eq (resolve_action logic UrgencyImmediate) BroadcastDelta.

Definition periodic_sync_configured : outcome unit :=
  let strategy := feed_with_periodic_sync (from_secs 300) in
  let logic := sync_logic_new "test" strategy true in
  assert (should_periodic_sync logic);;
  assert_eq (periodic_interval logic) (Some (from_secs 300)).

Definition periodic_sync_not_configured : outcome unit :=
  let logic := sync_logic_new "test" active_push_strategy true in
  assert (negb (should_periodic_sync logic));;
  assert_eq (periodic_interval logic) None.

Definition active_push_mutation_produces_broadcast : outcome unit :=
  let logic := sync_logic_new "counters" active_push_strategy true in
  assert_eq (resolve_action logic UrgencyDefault) BroadcastDelta;;
  let simple := sync_logic_new "counters" active_push_strategy false in
  assert_eq (resolve_action simple UrgencyDefault) BroadcastSnapshot.

Definition feed_mode_mutation_produces_notify : outcome unit :=
  let logic := sync_logic_new "sessions" feed_lazy_pull_strategy true in
  assert_eq (resolve_action logic UrgencyDefault) NotifyChangeFeed;;
  let simple := sync_logic_new "sessions" feed_lazy_pull_strategy false in
  assert_eq (resolve_action simple UrgencyDefault) NotifyChangeFeed.

Definition fresh_view_no_pull : outcome unit :=
  let with_pull := sync_logic_new "test" feed_lazy_pull_strategy true in
  assert (pull_on_query (sl_strategy with_pull));;
  let without_pull := sync_logic_new "test" active_push_strategy true in
  assert (negb (pull_on_query (sl_strategy without_pull))).

Definition strategy_composition_feed_with_periodic : outcome unit :=
  let strategy := feed_with_periodic_sync (from_secs 300) in
  assert_eq (push_mode strategy) (Some ActiveFeedLazyPull);;
  assert_eq (periodic_full_sync strategy) (Some (from_secs 300));;
  assert (pull_on_query strategy).

Definition strategy_composition_periodic_only : outcome unit :=
  let strategy := periodic_only (from_secs 600) in
  assert_eq (push_mode strategy) None;;
  assert_eq (periodic_full_sync strategy) (Some (from_secs 600));;
  assert (negb (pull_on_query strategy)).

Definition immediate_overrides_any_strategy : outcome unit :=
  let logic := sync_logic_new "test" no_push_strategy true in
  assert_eq (resolve_action logic UrgencyDefault) SuppressSync;;
  assert_eq (resolve_action logic UrgencyImmediate) BroadcastDelta.

(** ** delta_accumulator.rs *)

Definition is_none {A} (o : option A) : bool := match o with None => true | Some _ => false end.

Definition empty_flush_returns_none : outcome unit :=
  let '(acc, flushed) := accumulator_flush (VD := Z) accumulator_new in
  assert (is_none flushed);;
  assert (accumulator_is_empty acc).

Definition accumulate_and_flush : outcome unit :=
  let acc := accumulate (accumulate (accumulate accumulator_new 10) 20) 30 in
  assert_eq (accumulator_len acc) 3%nat;;
  let '(acc, flushed) := accumulator_flush acc in
  flushed ← unwrap flushed;
  assert_eq flushed [10; 20; 30];;
  assert (accumulator_is_empty acc);;
  let '(_, flushed) := accumulator_flush acc in
  assert (is_none flushed).

Definition flush_clears_buffer : outcome unit :=
  let acc := accumulate (accumulate accumulator_new "delta1") "delta2" in
  let '(acc, _) := accumulator_flush acc in
  let acc := accumulate acc "delta3"%string in
  let '(_, flushed) := accumulator_flush acc in
  flushed ← unwrap flushed;
  assert_eq flushed ["delta3"%string].

Definition suppressed_deltas_accumulate_in_order : outcome unit :=
  let acc := foldl accumulate accumulator_new (seqZ 0 5) in
  let '(_, flushed) := accumulator_flush acc in
  flushed ← unwrap flushed;
  assert_eq flushed [0; 1; 2; 3; 4].

(** ** change_feed_logic.rs *)

Definition gen (incarnation age : Z) : Generation := generation_new incarnation age.
Definition notify (logic : ChangeFeedLogic) (name : string) (i : nat) (g : Generation) :
    ChangeFeedLogic :=
  notify_change logic name (node i) g.
Definition notification (name : string) (i : nat) (g : Generation) : ChangeNotification :=
  mkChangeNotification name (node i) g.
Definition pending_of (logic : ChangeFeedLogic) (name : string) (i : nat) : outcome Generation :=
  unwrap (cf_pending logic !! (name, node i)).
Definition flushed_batch (logic : ChangeFeedLogic) : outcome BatchedChangeFeed :=
  expect (change_feed_flush logic).2 "should produce a batch".

Definition notify_dedup_keeps_highest : outcome unit :=
  let logic := change_feed_new (node 1) in
  let logic := notify logic "counters" 2 (gen 1 1) in
  let logic := notify logic "counters" 2 (gen 1 2) in
  let logic := notify logic "counters" 2 (gen 1 3) in
  assert_eq (pending_count logic) 1%nat;;
  g ← pending_of logic "counters" 2;
  assert_eq g (gen 1 3).

Definition flush_sends_batched_feed : outcome unit :=
  let logic := change_feed_new (node 1) in
  let logic := notify logic "counters" 2 (gen 1 1) in
  let logic := notify logic "sessions" 3 (gen 2 5) in
  batch ← flushed_batch logic;
  assert_eq (bf_source_node batch) (node 1);;
  assert_eq (length (bf_notifications batch)) 2%nat.

Definition empty_pending_no_flush : outcome unit :=
  assert (is_none (change_feed_flush (change_feed_new (node 1))).2).

Definition self_message_filtered : outcome unit :=
  let batch := mkBatchedChangeFeed (node 1) [notification "counters" 1 (gen 1 1)] in
  let routed := route_inbound_batch batch (node 1) in
  assert_eq routed [].

Definition cross_state_batching : outcome unit :=
  let logic := change_feed_new (node 1) in
  let logic := notify logic "counters" 2 (gen 1 1) in
  let logic := notify logic "sessions" 2 (gen 1 1) in
  batch ← flushed_batch logic;
  assert_eq (bf_source_node batch) (node 1);;
  assert_eq (length (bf_notifications batch)) 2%nat;;
  let names := cn_state_name <$> bf_notifications batch in
  assert (bool_decide ("counters"%string ∈ names));;
  assert (bool_decide ("sessions"%string ∈ names)).

Definition higher_incarnation_wins_dedup : outcome unit :=
  let logic := change_feed_new (node 1) in
  let logic := notify logic "counters" 2 (gen 100 50) in
  let logic := notify logic "counters" 2 (gen 200 1) in
  assert_eq (pending_count logic) 1%nat;;
  g ← pending_of logic "counters" 2;
  assert_eq g (gen 200 1).

Definition flush_clears_pending : outcome unit :=
  let logic := change_feed_new (node 1) in
  let logic := notify logic "counters" 2 (gen 1 1) in
  let logic := notify logic "sessions" 3 (gen 2 5) in
  assert_eq (pending_count logic) 2%nat;;
  let '(logic, _) := change_feed_flush logic in
  assert_eq (pending_count logic) 0%nat.

Definition route_inbound_batch_routes_correctly : outcome unit :=
  let batch := mkBatchedChangeFeed (node 5)
    [notification "counters" 2 (gen 1 10); notification "counters" 3 (gen 2 5);
     notification "sessions" 2 (gen 1 7)] in
  let routed := route_inbound_batch batch (node 1) in
  assert_eq (length routed) 3%nat;;
  assert (bool_decide (("counters"%string, node 2, gen 1 10) ∈ routed));;
  assert (bool_decide (("counters"%string, node 3, gen 2 5) ∈ routed));;
  assert (bool_decide (("sessions"%string, node 2, gen 1 7) ∈ routed)).

Definition inbound_batch_routes_to_correct_shards : outcome unit :=
  let batch := mkBatchedChangeFeed (node 10)
    [notification "counters" 2 (gen 1 20); notification "sessions" 2 (gen 1 15)] in
  let routed := route_inbound_batch batch (node 1) in
  assert_eq (length routed) 2%nat;;
  let entry_of name := head (filter (λ e, e.1.1 = name) routed) in
  counter_entry ← expect (entry_of "counters"%string) "counters entry should be present";
  session_entry ← expect (entry_of "sessions"%string) "sessions entry should be present";
  assert_eq counter_entry ("counters"%string, node 2, gen 1 20);;
  assert_eq session_entry ("sessions"%string, node 2, gen 1 15).

(** ** versioning_logic.rs *)

(** [b"..."] and [String::from_utf8_lossy], on ASCII. *)
Definition ascii_bytes (s : string) : bytes :=
  (λ a, Z.of_N (Ascii.N_of_ascii a)) <$> String.list_ascii_of_string s.
Definition from_utf8_lossy (data : bytes) : string :=
  String.string_of_list_ascii ((λ b, Ascii.ascii_of_N (Z.to_N b)) <$> data).

Definition keep_stale_logic : VersioningLogic := versioning_new "test_state" KeepStalePolicy 2 1.
Definition drop_and_wait_logic : VersioningLogic := versioning_new "test_state" DropAndWait 2 1.

Definition deserialize_v1_v2 (data : bytes) (wire_version : Z) : result string DeserializeError :=
  if wire_version =? 1 then Ok ("v1:" +:+ from_utf8_lossy data)%string
  else if wire_version =? 2 then Ok ("v2:" +:+ from_utf8_lossy data)%string
  else Err (UnknownVersion wire_version).
Definition deserialize_v2_only (data : bytes) (wire_version : Z) : result string DeserializeError :=
  if wire_version =? 2 then Ok ("v2:" +:+ from_utf8_lossy data)%string
  else Err (UnknownVersion wire_version).
Definition deserialize_malformed (_data : bytes) (_wire_version : Z) :
    result string DeserializeError :=
  Err (Malformed "corrupt data").

(** The value of an [Ok], of an [InboundVersionResult::Ok]. *)
Definition version_ok {V} (r : InboundVersionResult V) : outcome V :=
  match r with VersionOk v => Done v | _ => Panicked "expected Ok" end.
Definition mismatch {V} (r : InboundVersionResult V) : outcome VersionMismatchAction :=
  match r with VersionMismatch a => Done a | _ => Panicked "expected VersionMismatch" end.
Definition data : bytes := ascii_bytes "data".
Definition mismatch_text : string :=
  "state 'test_state': received wire_version=3, local outbound wire_version is 2".

Definition ver_06_same_wire_version_sync_works : outcome unit :=
  val ← version_ok (on_inbound keep_stale_logic (ascii_bytes "hello") 2 deserialize_v1_v2);
  assert_eq val "v2:hello"%string.

Definition ver_07_receiver_supports_older_wire_version : outcome unit :=
  val ← version_ok (on_inbound keep_stale_logic data 1 deserialize_v1_v2);
  assert_eq val "v1:data"%string.

Definition ver_08_unknown_version_keep_stale : outcome unit :=
  action ← mismatch (on_inbound keep_stale_logic data 3 deserialize_v1_v2);
  assert_eq action (KeepStale 3 mismatch_text).

Definition ver_09_unknown_version_drop_and_wait : outcome unit :=
  action ← mismatch (on_inbound drop_and_wait_logic data 3 deserialize_v1_v2);
  assert_eq action (DropView 3 mismatch_text).

Definition ver_10_malformed_data_not_version_mismatch : outcome unit :=
  match on_inbound keep_stale_logic (ascii_bytes "corrupt") 2 deserialize_malformed with
  | MalformedData msg => assert_eq msg "corrupt data"%string
  | _ => Panicked "expected MalformedData"
  end.

Definition ver_11_on_deserialize_error_actions : outcome unit :=
  assert (match on_deserialize_error keep_stale_logic 5 with
          | KeepStale w _ => w =? 5
          | DropView _ _ => false
          end);;
  assert (match on_deserialize_error drop_and_wait_logic 5 with
          | DropView w _ => w =? 5
          | KeepStale _ _ => false
          end).

Definition ver_12_phase1_read_both_send_old : outcome unit :=
  let logic := versioning_new "res" KeepStalePolicy 1 1 in
  _ ← version_ok (on_inbound logic data 1 deserialize_v1_v2);
  _ ← version_ok (on_inbound logic data 2 deserialize_v1_v2);
  Done ().

Definition ver_13_phase2_switch_to_v2 : outcome unit :=
  let logic := versioning_new "res" KeepStalePolicy 2 1 in
  r1 ← version_ok (on_inbound logic data 2 deserialize_v1_v2);
  assert_eq r1 "v2:data"%string;;
  r2 ← version_ok (on_inbound logic data 1 deserialize_v1_v2);
  assert_eq r2 "v1:data"%string.

Definition ver_14_phase2_rollback_to_phase1 : outcome unit :=
  let logic := versioning_new "res" KeepStalePolicy 1 1 in
  r ← version_ok (on_inbound logic data 2 deserialize_v1_v2);
  assert_eq r "v2:data"%string.

Definition ver_15_phase3_v1_removed : outcome unit :=
  let logic := versioning_new "res" KeepStalePolicy 2 1 in
  r1 ← version_ok (on_inbound logic data 2 deserialize_v2_only);
  assert_eq r1 "v2:data"%string;;
  action ← mismatch (on_inbound logic data 1 deserialize_v2_only);
  assert (match action with KeepStale w _ => w =? 1 | DropView _ _ => false end).

(** The assertion on the version that a closure makes: a failure is an error, which the
    test unwraps. *)
Definition at_version (expected v : Z) (s : string) : result string DeserializeError :=
  if v =? expected then Ok s else Err (Malformed "assertion failed").
Definition unknown (_ : bytes) (v : Z) : result string DeserializeError := Err (UnknownVersion v).

Definition ver_16_persist_load_same_version : outcome unit :=
  let data := ascii_bytes "persisted_state" in
  let result := try_load_with_migration keep_stale_logic data 1
    (λ d v, at_version 1 v ("loaded:" +:+ from_utf8_lossy d)) unknown in
  loaded ← unwrap_ok result;
  assert_eq loaded "loaded:persisted_state"%string.

Definition ver_17_load_older_version_with_migration
    (not_called : bytes → Z → result string DeserializeError) : outcome unit :=
  let logic := versioning_new "test" KeepStalePolicy 2 2 in
  let data := ascii_bytes "old_format_data" in
  let result := try_load_with_migration logic data 1 not_called
    (λ d v, at_version 1 v ("migrated:" +:+ from_utf8_lossy d)) in
  loaded ← unwrap_ok result;
  assert_eq loaded "migrated:old_format_data"%string.

Definition ver_18_load_unknown_version_fails_gracefully
    (not_called : bytes → Z → result string DeserializeError) : outcome unit :=
  let data := ascii_bytes "future_data" in
  match try_load_with_migration keep_stale_logic data 99 not_called unknown with
  | Err e => assert_eq e (UnknownVersion 99)
  | Ok _ => Panicked "loaded"
  end.

Definition accessors : outcome unit :=
  let logic := keep_stale_logic in
  assert_eq (vl_state_name logic) "test_state"%string;;
  assert_eq (vl_policy logic) KeepStalePolicy;;
  assert_eq (current_wire_version logic) 2;;
  assert_eq (current_storage_version logic) 1.

(** ** persistence_startup_logic.rs *)

Definition make_clock : TestClock := with_base_unix_ms 0 1700000000000.
(** [StartupOutcome::FallbackToEmpty { state, reason }]. *)
Definition fallback {S} (o : StartupOutcome S) : outcome (StateObject S * string) :=
  match o with
  | FallbackToEmpty st reason => Done (st, reason)
  | _ => Panicked "expected FallbackToEmpty"
  end.

Definition inc_04_fresh_startup_incarnation_from_clock
    (unreachable : string → Z → result string string) : outcome unit :=
  match initialize (mkStartup 1) (Ok None) "default"%string make_clock unreachable with
  | Fresh state =>
      assert_eq (incarnation (so_generation state)) 1700000000000;;
      assert_eq (age (so_generation state)) 0;;
      assert_eq (so_storage_version state) 1;;
      assert_eq (so_value state) "default"%string
  | _ => Panicked "expected Fresh"
  end.

Definition inc_05_loaded_incarnation_preserved
    (unreachable : string → Z → result string string) : outcome unit :=
  let loaded := mkStateObject (generation_new 42 5) 1 "persisted"%string 100 200 in
  match initialize (mkStartup 1) (Ok (Some loaded)) "default"%string make_clock unreachable with
  | Restored state =>
      assert_eq (so_generation state) (generation_new 42 5);;
      assert_eq (so_value state) "persisted"%string;;
      assert_eq (so_created_time state) 100;;
      assert_eq (so_modified_time state) 200
  | _ => Panicked "expected Restored"
  end.

Definition inc_06_migration_failure_new_incarnation : outcome unit :=
  let loaded := mkStateObject (generation_new 42 5) 1 "old_data"%string 100 200 in
  '(state, reason) ← fallback (initialize (mkStartup 2) (Ok (Some loaded)) "default"%string
    make_clock (λ _ _, Err "migration not supported"%string));
  assert (42 <? incarnation (so_generation state));;
  assert_eq (age (so_generation state)) 0;;
  assert_eq (so_value state) "default"%string;;
  assert (str_contains reason "migration not supported").

Definition inc_06b_migration_failure_incarnation_monotonic : outcome unit :=
  let clock := with_base_unix_ms 0 100 in
  let loaded := mkStateObject (generation_new 9999 5) 1 "old"%string 50 60 in
  '(state, _) ← fallback (initialize (mkStartup 2) (Ok (Some loaded)) "default"%string clock
    (λ _ _, Err "fail"%string));
  assert (9999 <? incarnation (so_generation state)).

Definition persist_06_load_none_fresh_start (unreachable : Z → Z → result Z string) :
    outcome unit :=
  let state := into_state (initialize (mkStartup 1) (Ok None) 0 make_clock unreachable) in
  assert_eq (age (so_generation state)) 0;;
  assert_eq (so_value state) 0.

Definition persist_11_load_error_fallback
    (unreachable : string → Z → result string string) : outcome unit :=
  '(state, reason) ← fallback (initialize (mkStartup 1) (Err (StorageUnavailable "disk full"))
    "empty"%string make_clock unreachable);
  assert_eq (age (so_generation state)) 0;;
  assert_eq (so_value state) "empty"%string;;
  assert (str_contains reason "disk full").

Definition persist_12_load_error_reason_captured
    (unreachable : string → Z → result string string) : outcome unit :=
  '(_, reason) ← fallback (initialize (mkStartup 1) (Err (PersistIo "connection refused"))
    "empty"%string make_clock unreachable);
  assert (str_contains reason "connection refused").

Definition persist_13_same_version_used_as_is
    (unreachable : string → Z → result string string) : outcome unit :=
  let loaded := mkStateObject (generation_new 100 7) 1 "data_v1"%string 500 600 in
  let state := into_state
    (initialize (mkStartup 1) (Ok (Some loaded)) "default"%string make_clock unreachable) in
  assert_eq (so_generation state) (generation_new 100 7);;
  assert_eq (so_storage_version state) 1;;
  assert_eq (so_value state) "data_v1"%string;;
  assert_eq (so_created_time state) 500;;
  assert_eq (so_modified_time state) 600.

Definition persist_14_different_version_triggers_migration : outcome unit :=
  let loaded := mkStateObject (generation_new 100 7) 1 "old_format"%string 500 600 in
  match initialize (mkStartup 2) (Ok (Some loaded)) "default"%string make_clock
          (λ old_value old_version,
             if old_version =? 1 then Ok ("migrated_from_" +:+ old_value)%string
             else Err "assertion failed"%string) with
  | Migrated state from_version =>
      assert_eq from_version 1;;
      assert_eq (so_value state) "migrated_from_old_format"%string;;
      assert_eq (so_generation state) (generation_new 100 7);;
      assert_eq (so_storage_version state) 2
  | _ => Panicked "expected Migrated"
  end.

Definition persist_15_migration_failure_fallback : outcome unit :=
  let loaded := mkStateObject (generation_new 100 7) 1 "old_data"%string 500 600 in
  '(state, reason) ← fallback (initialize (mkStartup 2) (Ok (Some loaded)) "default"%string
    make_clock (λ _ _, Err "incompatible schema"%string));
  assert_eq (age (so_generation state)) 0;;
  assert_eq (so_value state) "default"%string;;
  assert (str_contains reason "incompatible schema");;
  assert (negb (incarnation (so_generation state) =? 100)).

Definition persist_16_migration_preserves_metadata : outcome unit :=
  let loaded := mkStateObject (generation_new 42 10) 2 100 1000 2000 in
  let state := into_state (initialize (mkStartup 3) (Ok (Some loaded)) 0 make_clock
    (λ old_val _, Ok (u64_add old_val 1))) in
  assert_eq (so_generation state) (generation_new 42 10);;
  assert_eq (so_created_time state) 1000;;
  assert_eq (so_modified_time state) 2000;;
  assert_eq (so_storage_version state) 3;;
  assert_eq (so_value state) 101.

(** ** All of them pass *)
Definition sync_logic_tests : list (outcome unit) :=
  [immediate_urgency_broadcasts_delta; immediate_urgency_broadcasts_snapshot_for_simple;
   default_urgency_active_push; default_urgency_feed_lazy_pull;
   default_urgency_no_push_mode; delayed_urgency; suppress_urgency;
   immediate_overrides_feed_mode; periodic_sync_configured; periodic_sync_not_configured;
   active_push_mutation_produces_broadcast; feed_mode_mutation_produces_notify;
   fresh_view_no_pull; strategy_composition_feed_with_periodic;
   strategy_composition_periodic_only; immediate_overrides_any_strategy].

Definition accumulator_tests : list (outcome unit) :=
  [empty_flush_returns_none; accumulate_and_flush; flush_clears_buffer;
   suppressed_deltas_accumulate_in_order].

Definition change_feed_tests : list (outcome unit) :=
  [notify_dedup_keeps_highest; flush_sends_batched_feed; empty_pending_no_flush;
   self_message_filtered; cross_state_batching; higher_incarnation_wins_dedup;
   flush_clears_pending; route_inbound_batch_routes_correctly;
   inbound_batch_routes_to_correct_shards].

Definition versioning_tests (not_called : bytes → Z → result string DeserializeError) :
    list (outcome unit) :=
  [ver_06_same_wire_version_sync_works; ver_07_receiver_supports_older_wire_version;
   ver_08_unknown_version_keep_stale; ver_09_unknown_version_drop_and_wait;
   ver_10_malformed_data_not_version_mismatch; ver_11_on_deserialize_error_actions;
   ver_12_phase1_read_both_send_old; ver_13_phase2_switch_to_v2;
   ver_14_phase2_rollback_to_phase1; ver_15_phase3_v1_removed;
   ver_16_persist_load_same_version; ver_17_load_older_version_with_migration not_called;
   ver_18_load_unknown_version_fails_gracefully not_called; accessors].

Definition startup_tests (unreachable : string → Z → result string string)
    (unreachable_z : Z → Z → result Z string) : list (outcome unit) :=
  [inc_04_fresh_startup_incarnation_from_clock unreachable;
   inc_05_loaded_incarnation_preserved unreachable;
   inc_06_migration_failure_new_incarnation;
   inc_06b_migration_failure_incarnation_monotonic;
   persist_06_load_none_fresh_start unreachable_z;
   persist_11_load_error_fallback unreachable;
   persist_12_load_error_reason_captured unreachable;
   persist_13_same_version_used_as_is unreachable;
   persist_14_different_version_triggers_migration; persist_15_migration_failure_fallback;
   persist_16_migration_preserves_metadata].

Example sync_logic_tests_pass : failures sync_logic_tests = [].
Proof. vm_compute. reflexivity. Qed.

Example accumulator_tests_pass : failures accumulator_tests = [].
Proof. vm_compute. reflexivity. Qed.

Example change_feed_tests_pass : failures change_feed_tests = [].
Proof. vm_compute. reflexivity. Qed.

Example versioning_tests_pass not_called : failures (versioning_tests not_called) = [].
Proof. vm_compute. reflexivity. Qed.

Example startup_tests_pass unreachable unreachable_z :
  failures (startup_tests unreachable unreachable_z) = [].
Proof. vm_compute. reflexivity. Qed.
