(* ===== verification/LifecycleTests.v ===== *)
(** The inline tests of [core/lifecycle_logic.rs] on the model, under their names. *)
From stdpp Require Import prelude gmap fin_maps strings pretty.
From S2P Require Import Prelude Node Clock Types ViewMap ShardCore Lifecycle Traits Testing.

Local Existing Instance map_to_list_iter.
Local Abbreviation test_shard := (ShardCore TestState (ViewMap TestState)).
Local Abbreviation clone := (λ s, s).

Local Instance JoinAction_eq_dec : EqDecision JoinAction.
Proof. solve_decision. Defined.
Local Instance LeaveAction_eq_dec : EqDecision LeaveAction.
Proof. solve_decision. Defined.

Definition make_shard (node_id : NodeId) (clock : TestClock) : test_shard :=
  let state := new_state_object (mkTestState 0 ("node_" +:+ node_str node_id))
                 (as_u64 (unix_ms clock)) clock in
  shard_new node_id state (so_value state) clock.

(** The clock is that of the receiving shard. *)
Definition send_snapshot (from to : test_shard) (clock : TestClock) :
    outcome (test_shard * AcceptResult) :=
  let state := sh_state from in
  view ← unwrap (get_view from (sh_node_id from));
  Done (accept_inbound_snapshot to
    (mkInboundSnapshot (sh_node_id from) (so_generation state) (so_storage_version state)
       (vo_value view) (so_created_time state) (so_modified_time state)) clock).

(** [send_snapshot], its result ignored or accepted. *)
Definition sent (from to : test_shard) (clock : TestClock) : outcome test_shard :=
  '(to, _) ← send_snapshot from to clock; Done to.
Definition sent_ok (from to : test_shard) (clock : TestClock) : outcome test_shard :=
  '(to, result) ← send_snapshot from to clock;
  assert_eq result Accepted;;
  Done to.
(** [lifecycle.on_node_joined(&shard, node, default)], its actions ignored. *)
Definition join (lifecycle : LifecycleLogic) (shard : test_shard) (i : nat) :
    LifecycleLogic * test_shard :=
  (lifecycle_on_node_joined lifecycle shard (node i) (mkTestState 0 "") test_clock).1.
Definition leave (lifecycle : LifecycleLogic) (shard : test_shard) (i : nat) :
    LifecycleLogic * test_shard :=
  (lifecycle_on_node_left lifecycle shard (node i)).1.
Definition contains_key (shard : test_shard) (i : nat) : bool :=
  bool_decide (is_Some (snapshot shard !! node i)).
Definition bumped (shard : test_shard) (clock : TestClock) : test_shard :=
  (apply_mutation shard (bump_counter 1) clone clock).1.

(** ** Joining *)

Definition life_01_new_node_receives_snapshots : outcome unit :=
  let clock := test_clock in
  let a := make_shard (node 1) clock in
  let b := make_shard (node 2) clock in
  let c := make_shard (node 3) clock in
  let d := make_shard (node 4) clock in
  let lifecycle := lifecycle_new in
  let '(lifecycle, d) := join lifecycle d 1 in
  let '(lifecycle, d) := join lifecycle d 2 in
  let '(lifecycle, d) := join lifecycle d 3 in
  d ← sent_ok a d clock;
  d ← sent_ok b d clock;
  d ← sent_ok c d clock;
  assert_eq (view_count d) 4%nat;;
  assert (contains_key d 1);; assert (contains_key d 2);;
  assert (contains_key d 3);; assert (contains_key d 4).

Definition life_02_existing_nodes_receive_new_node_snapshot : outcome unit :=
  let clock := test_clock in
  let a := make_shard (node 1) clock in
  let b := make_shard (node 2) clock in
  let d := make_shard (node 4) clock in
  let lifecycle := lifecycle_new in
  let '(lifecycle, a, actions_a) :=
    lifecycle_on_node_joined lifecycle a (node 4) (mkTestState 0 "") clock in
  let '(lifecycle, b, actions_b) :=
    lifecycle_on_node_joined lifecycle b (node 4) (mkTestState 0 "") clock in
  assert_eq actions_a [SendSnapshotToPeer (node 4)];;
  assert_eq actions_b [SendSnapshotToPeer (node 4)];;
  a ← sent_ok d a clock;
  b ← sent_ok d b clock;
  assert (contains_key a 4);;
  assert (contains_key b 4).

Definition life_03_join_with_multiple_state_types : outcome unit :=
  let clock := test_clock in
  let a_state1 := make_shard (node 1) clock in
  let a_state2 := make_shard (node 1) clock in
  let d_state1 := make_shard (node 4) clock in
  let d_state2 := make_shard (node 4) clock in
  let lifecycle := lifecycle_new in
  let '(lifecycle, a_state1) := join lifecycle a_state1 4 in
  let '(lifecycle, a_state2) := join lifecycle a_state2 4 in
  let '(lifecycle, d_state1) := join lifecycle d_state1 1 in
  let '(lifecycle, d_state2) := join lifecycle d_state2 1 in
  d_state1 ← sent_ok a_state1 d_state1 clock;
  d_state2 ← sent_ok a_state2 d_state2 clock;
  a_state1 ← sent_ok d_state1 a_state1 clock;
  a_state2 ← sent_ok d_state2 a_state2 clock;
  assert_eq (view_count a_state1) 2%nat;;
  assert_eq (view_count a_state2) 2%nat;;
  assert_eq (view_count d_state1) 2%nat;;
  assert_eq (view_count d_state2) 2%nat.

(** ** Leaving *)

Definition life_04_departed_node_removed : outcome unit :=
  let a := make_shard (node 1) test_clock in
  let '(lifecycle, a) := join lifecycle_new a 2 in
  let '(lifecycle, a) := join lifecycle a 3 in
  assert_eq (view_count a) 3%nat;;
  let '(lifecycle, a, action) := lifecycle_on_node_left lifecycle a (node 3) in
  assert_eq action (PeerRemoved (node 3));;
  assert_eq (view_count a) 2%nat;;
  assert (negb (contains_key a 3));;
  assert (contains_key a 2).

Definition life_05_inflight_from_departed_discarded : outcome unit :=
  let a := make_shard (node 1) test_clock in
  let '(lifecycle, a) := join lifecycle_new a 3 in
  assert_eq (view_count a) 2%nat;;
  let '(lifecycle, a) := leave lifecycle a 3 in
  assert_eq (view_count a) 1%nat;;
  assert (negb (should_accept_from lifecycle (node 3)));;
  let '(_, delta_result) :=
    accept_inbound_delta a (node 3) (generation_new 1 1) 1 clone test_clock in
  assert_eq delta_result UnknownPeer.

Definition life_06_leave_multiple_state_types : outcome unit :=
  let a_s1 := make_shard (node 1) test_clock in
  let a_s2 := make_shard (node 1) test_clock in
  let '(lifecycle, a_s1) := join lifecycle_new a_s1 3 in
  let '(lifecycle, a_s2) := join lifecycle a_s2 3 in
  let '(lifecycle, a_s1) := leave lifecycle a_s1 3 in
  let '(lifecycle, a_s2) := leave lifecycle a_s2 3 in
  assert_eq (view_count a_s1) 1%nat;;
  assert_eq (view_count a_s2) 1%nat.

(** ** Restarts *)

Definition life_07_crash_restart_no_persistence : outcome unit :=
  let clock := test_clock in
  let a := make_shard (node 1) clock in
  let a := bumped (bumped (bumped a clock) clock) clock in
  assert_eq (age (so_generation (sh_state a))) 3;;
  let old_incarnation := incarnation (so_generation (sh_state a)) in
  let b := make_shard (node 2) clock in
  let '(lifecycle, b) := join lifecycle_new b 1 in
  b ← sent a b clock;
  let clock2 := advance test_clock (from_millis 5000) in
  let a2 := make_shard (node 1) clock2 in
  let new_incarnation := incarnation (so_generation (sh_state a2)) in
  assert (old_incarnation <? new_incarnation);;
  assert_eq (age (so_generation (sh_state a2))) 0;;
  let '(_, b) := join lifecycle b 1 in
  '(_, result) ← send_snapshot a2 b clock;
  assert_eq result Accepted.

Definition life_08_crash_restart_with_persistence : outcome unit :=
  let clock := test_clock in
  let a := Nat.iter 5 (λ a, bumped a clock) (make_shard (node 1) clock) in
  let saved_state := sh_state a in
  assert_eq (age (so_generation saved_state)) 5;;
  let b := make_shard (node 2) clock in
  let '(lifecycle, b) := join lifecycle_new b 1 in
  b ← sent a b clock;
  b_view ← unwrap (get_view b (node 1));
  assert_eq (age (vo_generation b_view)) 5;;
  let '(lifecycle, b) := leave lifecycle b 1 in
  assert_eq (view_count b) 1%nat;;
  let a2 : test_shard := shard_new (node 1) saved_state (so_value saved_state) clock in
  assert_eq (so_generation (sh_state a2)) (so_generation saved_state);;
  let '(_, b) := join lifecycle b 1 in
  '(b, result) ← send_snapshot a2 b clock;
  assert_eq result Accepted;;
  b_view ← unwrap (get_view b (node 1));
  assert_eq (age (vo_generation b_view)) 5;;
  assert_eq (ts_counter (vo_value b_view)) 5.

Definition life_09_fast_restart_before_node_left : outcome unit :=
  let clock := test_clock in
  let '(a, _) := apply_mutation (make_shard (node 1) clock) (set_counter 10) clone clock in
  let old_gen := so_generation (sh_state a) in
  let b := make_shard (node 2) clock in
  let '(lifecycle, b) := join lifecycle_new b 1 in
  b ← sent a b clock;
  let clock2 := advance test_clock (from_millis 1) in
  let a2 := make_shard (node 1) clock2 in
  let '(_, b) := join lifecycle b 1 in
  '(b, result) ← send_snapshot a2 b clock;
  assert_eq result Accepted;;
  b_view ← unwrap (get_view b (node 1));
  assert ((incarnation old_gen <? incarnation (vo_generation b_view))
          || (incarnation (vo_generation b_view) =? incarnation (so_generation (sh_state a2)))).

Definition life_10_late_node_left_after_rejoin : outcome unit :=
  let clock := test_clock in
  let a := make_shard (node 1) clock in
  let b := make_shard (node 2) clock in
  let '(lifecycle, b) := join lifecycle_new b 1 in
  b ← sent a b clock;
  assert_eq (view_count b) 2%nat;;
  let clock2 := advance test_clock (from_millis 100) in
  let a2 := make_shard (node 1) clock2 in
  let '(lifecycle, b) := join lifecycle b 1 in
  b ← sent a2 b clock;
  assert_eq (view_count b) 2%nat;;
  let '(lifecycle, b) := leave lifecycle b 1 in
  assert_eq (view_count b) 1%nat;;
  assert (negb (contains_key b 1));;
  let '(lifecycle, b) := join lifecycle b 1 in
  assert (should_accept_from lifecycle (node 1));;
  b ← sent a2 b clock;
  assert_eq (view_count b) 2%nat;;
  assert (contains_key b 1).

(** ** Partitions *)

(** [a] knows node 3, whose snapshot it received, and 30 seconds pass. *)
Definition partitioned : outcome (test_shard * TestClock) :=
  let clock := test_clock in
  let a := make_shard (node 1) clock in
  let '(_, a) := join lifecycle_new a 3 in
  let c := make_shard (node 3) clock in
  a ← sent c a clock;
  Done (a, advance clock (from_secs 30)).

Definition life_11_partitioned_peers_stale : outcome unit :=
  '(a, clock) ← partitioned;
  let stale := stale_peers a (from_secs 10) clock in
  assert (bool_decide (node 3 ∈ stale)).

Definition life_12_partition_recovery : outcome unit :=
  '(a, clock) ← partitioned;
  assert (negb (bool_decide (stale_peers a (from_secs 10) clock = [])));;
  let c2 := make_shard (node 3) clock in
  let '(c2, _) := apply_mutation c2 (set_counter 42) clone clock in
  a ← sent c2 a clock;
  assert_eq (stale_peers a (from_secs 10) clock) [];;
  c_view ← unwrap (get_view a (node 3));
  assert_eq (ts_counter (vo_value c_view)) 42.

Definition life_13_loose_freshness_during_partition : outcome unit :=
  '(a, clock) ← partitioned;
  let stale := stale_peers a (from_secs 10) clock in
  assert (negb (bool_decide (stale = [])));;
  match query_local a (from_secs 60) size clock with
  | QueryFresh count => assert_eq count 2%nat
  | _ => Panicked "expected Fresh with loose freshness"
  end.

(** ** All of them pass *)
Definition lifecycle_tests : list (outcome unit) :=
  [life_01_new_node_receives_snapshots; life_02_existing_nodes_receive_new_node_snapshot;
   life_03_join_with_multiple_state_types; life_04_departed_node_removed;
   life_05_inflight_from_departed_discarded; life_06_leave_multiple_state_types;
   life_07_crash_restart_no_persistence; life_08_crash_restart_with_persistence;
   life_09_fast_restart_before_node_left; life_10_late_node_left_after_rejoin;
   life_11_partitioned_peers_stale; life_12_partition_recovery;
   life_13_loose_freshness_during_partition].

Example lifecycle_tests_pass : failures lifecycle_tests = [].
Proof. vm_compute. reflexivity. Qed.
