(* ===== verification/DiagnosticsTests.v ===== *)
(** The inline tests of [core/diagnostics.rs] on the model, under their names.  DIAG-20 to
    DIAG-22 read the log, which is not modelled. *)
From stdpp Require Import prelude gmap fin_maps strings pretty.
From S2P Require Import Prelude Node Clock Types ViewMap ShardCore Diagnostics Traits Testing.

Local Existing Instance map_to_list_iter.
Local Abbreviation test_shard := (ShardCore TestState (ViewMap TestState)).

Local Instance HealthStatus_eq_dec : EqDecision HealthStatus.
Proof. solve_decision. Defined.

Definition make_shard (clock : TestClock) : test_shard :=
  let state := new_state_object (mkTestState 0 "init") (as_u64 (unix_ms clock)) clock in
  shard_new (node 1) state (so_value state) clock.

(** [accept_inbound_snapshot] of a snapshot made at the time of the clock. *)
Definition accept (shard : test_shard) (i : nat) (g : Generation) (view : TestState)
    (clock : TestClock) : test_shard :=
  (accept_inbound_snapshot shard
     (mkInboundSnapshot (node i) g 1 view (unix_ms clock) (unix_ms clock)) clock).1.
Definition join (clock : TestClock) (shard : test_shard) (i : nat) : test_shard :=
  shard_on_node_joined shard (node i) (mkTestState 0 "") clock.
(** A snapshot of the node [id], of generation [(100 * id, age)]. *)
Definition refresh (age : Z) (clock : TestClock) (shard : test_shard) (id : nat) : test_shard :=
  accept shard id (generation_new (100 * Z.of_nat id) age) (mkTestState age ("n" +:+ pretty id))
    clock.

Definition make_3_node_shard (clock : TestClock) : test_shard :=
  let shard := make_shard clock in
  let shard := join clock shard 2 in
  let shard := join clock shard 3 in
  let shard := accept shard 2 (generation_new 100 5) (mkTestState 5 "node2") clock in
  accept shard 3 (generation_new 200 3) (mkTestState 3 "node3") clock.

Definition test_state_diag : DiagnosticsLogic := diagnostics_new "test_state".
(** [status.iter().find(|s| s.node_id == ..).unwrap()]. *)
Definition status_of (diag : DiagnosticsLogic) (shard : test_shard) (i : nat) :
    outcome PeerSyncStatus :=
  unwrap (head (filter (λ s, ps_node_id s = node i) (sync_status diag shard))).
Definition fail (diag : DiagnosticsLogic) (i : nat) (error : string) : DiagnosticsLogic :=
  record_sync_failure diag (node i) error test_clock.
Definition failures_of (diag : DiagnosticsLogic) (i : nat) : outcome Z :=
  p ← unwrap (d_peers diag !! node i); Done (consecutive_failures p).
Definition n_times (n : nat) (f : DiagnosticsLogic → DiagnosticsLogic) : DiagnosticsLogic :=
  Nat.iter n f test_state_diag.

(** ** The status of the peers *)

Definition diag_01_sync_status_returns_all_peers : outcome unit :=
  let status := sync_status test_state_diag (make_3_node_shard test_clock) in
  assert_eq (length status) 3%nat;;
  let ids := ps_node_id <$> status in
  assert (bool_decide (node 1 ∈ ids));;
  assert (bool_decide (node 2 ∈ ids));;
  assert (bool_decide (node 3 ∈ ids)).

Definition diag_02_consecutive_failures_increments : outcome unit :=
  let shard := make_3_node_shard test_clock in
  let diag := fail test_state_diag 2 "timeout" in
  let diag := fail diag 2 "timeout" in
  let diag := fail diag 2 "connection refused" in
  peer2 ← status_of diag shard 2;
  assert_eq (ps_consecutive_failures peer2) 3.

Definition diag_03_failures_reset_on_success : outcome unit :=
  let shard := make_3_node_shard test_clock in
  let diag := fail test_state_diag 2 "err1" in
  let diag := fail diag 2 "err2" in
  n ← failures_of diag 2;
  assert_eq n 2;;
  let diag := record_sync_success diag (node 2) 5 test_clock in
  peer2 ← status_of diag shard 2;
  assert_eq (ps_consecutive_failures peer2) 0;;
  assert_eq (ps_last_error peer2) None.

Definition diag_04_latency_tracked : outcome unit :=
  let shard := make_3_node_shard test_clock in
  let diag := record_sync_success test_state_diag (node 2) 42 test_clock in
  peer2 ← status_of diag shard 2;
  assert_eq (ps_last_sync_latency_ms peer2) (Some 42).

Definition diag_05_last_error_captured : outcome unit :=
  let shard := make_3_node_shard test_clock in
  let diag := fail test_state_diag 3 "connection timed out" in
  peer3 ← status_of diag shard 3;
  assert_eq (ps_last_error peer3) (Some "connection timed out"%string).

Definition diag_06_gap_count_increments : outcome unit :=
  let shard := make_3_node_shard test_clock in
  let diag := record_gap_detected test_state_diag (node 2) in
  let diag := record_gap_detected diag (node 2) in
  peer2 ← status_of diag shard 2;
  assert_eq (ps_gap_count peer2) 2.

(** ** The counters *)

Definition diag_07_total_mutations : outcome unit :=
  assert_eq (total_mutations (metrics (n_times 5 record_mutation))) 5.
Definition diag_08_deltas_sent : outcome unit :=
  assert_eq (deltas_sent (metrics (n_times 3 record_delta_sent))) 3.
Definition diag_09_deltas_suppressed : outcome unit :=
  assert_eq (deltas_suppressed (metrics (n_times 2 record_delta_suppressed))) 2.
Definition diag_10_deltas_immediate : outcome unit :=
  assert_eq (deltas_immediate (metrics (n_times 2 record_delta_immediate))) 2.
Definition diag_11_age_gaps_detected : outcome unit :=
  assert_eq (age_gaps_detected (metrics (record_gap_detected test_state_diag (node 2)))) 1.
Definition diag_12_stale_deltas_discarded : outcome unit :=
  assert_eq (stale_deltas_discarded (metrics (n_times 2 record_stale_delta_discarded))) 2.

Definition diag_13_sync_failures : outcome unit :=
  let diag := fail test_state_diag 2 "network" in
  let diag := fail diag 3 "serde" in
  let diag := fail diag 2 "timeout" in
  assert_eq (sync_failures (metrics diag)) 3.

(** ** Stale peers and health *)

Definition diag_14_stale_peers_filtered : outcome unit :=
  let clock := test_clock in
  let shard := make_3_node_shard clock in
  let clock := advance clock (from_secs 30) in
  let shard := accept shard 2 (generation_new 100 6) (mkTestState 6 "node2") clock in
  let stale := stale_peers shard (from_secs 10) clock in
  assert_eq (length stale) 1%nat;;
  assert_eq (stale !! 0%nat) (Some (node 3)).

Definition diag_15_all_fresh : outcome unit :=
  assert_eq (stale_peers (make_3_node_shard test_clock) (from_secs 10) test_clock) [].

Definition diag_16_healthy : outcome unit :=
  let shard := make_3_node_shard test_clock in
  let health := health_status test_state_diag shard (from_secs 10) test_clock in
  assert_eq (h_status health) Healthy;;
  assert_eq (healthy_peers health) 2;;
  assert_eq (stale_peers_count health) 0.

Definition diag_17_degraded : outcome unit :=
  let clock := test_clock in
  let shard := foldl (join clock) (make_shard clock) [2; 3; 4]%nat in
  let shard := foldl (refresh 1 clock) shard [2; 3; 4]%nat in
  let clock := advance clock (from_secs 30) in
  let shard := foldl (refresh 2 clock) shard [2; 3]%nat in
  let health := health_status test_state_diag shard (from_secs 10) clock in
  assert_eq (h_status health) Degraded;;
  assert_eq (healthy_peers health) 2;;
  assert_eq (stale_peers_count health) 1.

Definition diag_18_unhealthy : outcome unit :=
  let clock := test_clock in
  let shard := make_3_node_shard clock in
  let clock := advance clock (from_secs 30) in
  let health := health_status test_state_diag shard (from_secs 10) clock in
  assert_eq (h_status health) Unhealthy;;
  assert_eq (stale_peers_count health) 2.

Definition diag_19_multiple_state_types : outcome unit :=
  let clock := test_clock in
  let shard1 := make_3_node_shard clock in
  let diag1 := diagnostics_new "state_a" in
  let health1 := health_status diag1 shard1 (from_secs 10) clock in
  let clock2 := test_clock in
  let shard2 := make_3_node_shard clock2 in
  let clock2 := advance clock2 (from_secs 30) in
  let diag2 := diagnostics_new "state_b" in
  let health2 := health_status diag2 shard2 (from_secs 10) clock2 in
  let states := [health1; health2] in
  assert_eq (length states) 2%nat;;
  assert_eq (h_status <$> states) [Healthy; Unhealthy];;
  assert_eq (h_state_name <$> states) ["state_a"; "state_b"]%string.

Definition diag_23_single_node_healthy : outcome unit :=
  let shard := make_shard test_clock in
  let health := health_status test_state_diag shard (from_secs 10) test_clock in
  assert_eq (h_status health) Healthy;;
  assert_eq (healthy_peers health) 0;;
  assert_eq (stale_peers_count health) 0;;
  assert_eq (failing_peers health) 0.

Definition diag_24_disjoint_stale_and_failing : outcome unit :=
  let clock := test_clock in
  let shard := foldl (join clock) (make_shard clock) [2; 3; 4; 5]%nat in
  let shard := foldl (refresh 1 clock) shard [2; 3; 4; 5]%nat in
  let clock := advance clock (from_secs 30) in
  let shard := foldl (refresh 2 clock) shard [2; 3]%nat in
  let diag := record_sync_failure test_state_diag (node 5) "connection refused" clock in
  let shard := refresh 2 clock shard 5 in
  let health := health_status diag shard (from_secs 10) clock in
  assert_eq (healthy_peers health) 2;;
  assert_eq (stale_peers_count health) 1;;
  assert_eq (failing_peers health) 1;;
  assert_eq (h_status health) Unhealthy.

Definition diag_25_remove_peer : outcome unit :=
  let diag := fail test_state_diag 2 "err" in
  assert_eq (size (d_peers diag)) 1%nat;;
  let diag := remove_peer diag (node 2) in
  assert_eq (size (d_peers diag)) 0%nat.

Definition diag_26_inbound_resets_failures : outcome unit :=
  let diag := fail test_state_diag 2 "err1" in
  let diag := fail diag 2 "err2" in
  n ← failures_of diag 2;
  assert_eq n 2;;
  let diag := record_delta_received diag (node 2) 5 test_clock in
  n ← failures_of diag 2;
  assert_eq n 0;;
  assert_eq (deltas_received (metrics diag)) 1;;
  let diag := fail diag 2 "err3" in
  n ← failures_of diag 2;
  assert_eq n 1;;
  let diag := record_snapshot_received diag (node 2) 3 test_clock in
  n ← failures_of diag 2;
  assert_eq n 0;;
  assert_eq (snapshots_received (metrics diag)) 1.

Definition diag_27_stale_and_failing_overlap : outcome unit :=
  let clock := test_clock in
  let shard := make_3_node_shard clock in
  let clock := advance clock (from_secs 30) in
  let diag := record_sync_failure test_state_diag (node 2) "timeout" clock in
  let health := health_status diag shard (from_secs 10) clock in
  assert_eq (stale_peers_count health) 2;;
  assert_eq (failing_peers health) 1;;
  assert_eq (healthy_peers health) 0;;
  assert_eq (h_status health) Unhealthy.

(** ** All of them pass *)
Definition diagnostics_tests : list (outcome unit) :=
  [diag_01_sync_status_returns_all_peers; diag_02_consecutive_failures_increments;
   diag_03_failures_reset_on_success; diag_04_latency_tracked; diag_05_last_error_captured;
   diag_06_gap_count_increments; diag_07_total_mutations; diag_08_deltas_sent;
   diag_09_deltas_suppressed; diag_10_deltas_immediate; diag_11_age_gaps_detected;
   diag_12_stale_deltas_discarded; diag_13_sync_failures; diag_14_stale_peers_filtered;
   diag_15_all_fresh; diag_16_healthy; diag_17_degraded; diag_18_unhealthy;
   diag_19_multiple_state_types; diag_23_single_node_healthy;
   diag_24_disjoint_stale_and_failing; diag_25_remove_peer; diag_26_inbound_resets_failures;
   diag_27_stale_and_failing_overlap].

Example diagnostics_tests_pass : failures diagnostics_tests = [].
Proof. vm_compute. reflexivity. Qed.
