(* ===== verification/NodeResourceTests.v ===== *)
(** The inline tests of [examples/node_resource.rs] on the model, under their names.  The
    literals are the decimal numbers of the test, all exact in binary64. *)
From Stdlib Require Import SpecFloat.
From stdpp Require Import prelude gmap strings.
From S2P Require Import Prelude Node Clock Types Traits Interceptor NodeResource Testing.

Local Existing Instance map_to_list_iter.

Definition GIB : Z := 1024 * 1024 * 1024.
(** [NodeResourceView { memory_used_bytes, memory_total_bytes, ..Default::default() }]. *)
Definition memory_view (used total : Z) : NodeResourceView :=
  mkNodeResourceView (v_cpu_usage_pct NodeResourceView_default) used total
    (v_disk_used_bytes NodeResourceView_default) (v_disk_total_bytes NodeResourceView_default).
Definition cpu_view (pct : spec_float) : NodeResourceView :=
  mkNodeResourceView pct (v_memory_used_bytes NodeResourceView_default)
    (v_memory_total_bytes NodeResourceView_default)
    (v_disk_used_bytes NodeResourceView_default) (v_disk_total_bytes NodeResourceView_default).

Definition project_view_hides_private_fields : outcome unit :=
  let state := NodeResourceState_default in
  let state := record_cpu_sample state (f64_of_u64 50) in
  let state := record_cpu_sample state (f64_of_u64 70) in
  let view := resource_project_view state in
  assert (SFeqb (v_cpu_usage_pct view) (f64_of_u64 60));;
  assert_eq (sample_count state) 2;;
  assert (SFeqb (cpu_accumulator state) (f64_of_u64 120)).

Definition apply_delta_memory_update : outcome unit :=
  let view := NodeResourceView_default in
  let delta := mkNodeResourceDelta None (Some (4 * GIB)) (Some (8 * GIB)) None None in
  let new_view := resource_apply_delta view delta in
  assert_eq (v_memory_used_bytes new_view) (4 * GIB);;
  assert (SFeqb (v_cpu_usage_pct new_view) (f64_of_u64 0)).

Definition urgency_memory_spike_immediate : outcome unit :=
  let old := memory_view (1 * GIB) (8 * GIB) in
  let new := memory_view (3 * GIB) (8 * GIB) in
  let change := MemoryUpdate (3 * GIB) (8 * GIB) in
  assert (match resource_sync_urgency old new change with UrgencyImmediate => true | _ => false end).

Definition urgency_small_cpu_suppressed : outcome unit :=
  let fifty_and_half := f64_div (f64_of_u64 101) (f64_of_u64 2) in
  let old := cpu_view (f64_of_u64 50) in
  let new := cpu_view fifty_and_half in
  let change := CpuSample fifty_and_half in
  assert (match resource_sync_urgency old new change with UrgencySuppress => true | _ => false end).

Definition find_lowest_memory : outcome unit :=
  let now := 0 in
  let make_view (name : string) (mem : Z) :=
    let id := mkNodeId name in
    (id, mkStateViewObject (generation_new 1 0) 1
           (memory_view mem (v_memory_total_bytes NodeResourceView_default)) 0 0 now None id) in
  let views : gmap NodeId (StateViewObject NodeResourceView) := ∅ in
  let '(id, vo) := make_view "node-0"%string 5000000000 in
  let views := <[id := vo]> views in
  let '(id, vo) := make_view "node-1"%string 2000000000 in
  let views := <[id := vo]> views in
  let '(id, vo) := make_view "node-2"%string 7000000000 in
  let views := <[id := vo]> views in
  assert_eq (find_lowest_memory_node views) (Some (mkNodeId "node-1")).

(** ** All of them pass *)
Definition node_resource_tests : list (outcome unit) :=
  [project_view_hides_private_fields; apply_delta_memory_update;
   urgency_memory_spike_immediate; urgency_small_cpu_suppressed; find_lowest_memory].

Example node_resource_tests_pass : failures node_resource_tests = [].
Proof. vm_compute. reflexivity. Qed.
