(* ===== verification/IntegrationTests.v ===== *)
(** The inline tests of the harness ([dstate-integration/src]: [interceptor.rs],
    [transport.rs], [cluster.rs]) on the model, under their names.  Messages are encoded
    by the concrete codec of [Traits]. *)
From Stdlib Require Import SpecFloat.
From stdpp Require Import prelude gmap fin_maps strings pretty.
From S2P Require Import Prelude Node Clock Types ViewMap ShardCore SyncLogic ChangeFeed.
From S2P Require Import Versioning Lifecycle Diagnostics Engine Traits Interceptor Transport.
From S2P Require Import Cluster Testing.

Local Existing Instance map_to_list_iter.
Local Existing Instance state_bits.
Local Instance wire_bits : Bincode WireMessage := bit_codec.

(** ** interceptor.rs *)

Definition ctx (tick msg_id : Z) : InterceptContext := mkInterceptContext tick msg_id 42.
Definition is_drop (a : InterceptAction) : bool := match a with Drop => true | _ => false end.
Definition is_deliver (a : InterceptAction) : bool := match a with Deliver _ => true | _ => false end.
(** [b"hello"], [b"x"], [b"hello world"]. *)
Definition hello : bytes := [104; 101; 108; 108; 111].
Definition x : bytes := [120].
Definition hello_world : bytes := hello ++ [32; 119; 111; 114; 108; 100].

Definition passthrough_delivers : outcome unit :=
  let '(_, action) := intercept mkPassThrough (node 1) (node 2) hello (ctx 0 0) in
  match action with Deliver d => assert_eq d hello | _ => Panicked "not delivered" end.

Definition drop_all_drops : outcome unit :=
  let '(_, action) := intercept mkDropAll (node 1) (node 2) hello (ctx 0 0) in
  assert (is_drop action).

(** The actions of an interceptor on the messages 0 to 99. *)
Definition hundred_actions {I} `{NetworkInterceptor I} (i : I) : list InterceptAction :=
  (foldl (λ '(i, actions) id,
      let '(i, action) := intercept i (node 1) (node 2) x (ctx 0 id) in (i, actions ++ [action]))
    (i, []) (seqZ 0 100)).2.

Definition drop_rate_deterministic : outcome unit :=
  let half := f64_div (f64_of_u64 1) (f64_of_u64 2) in
  dr ← drop_rate_new half 12345;
  let actions := hundred_actions dr in
  assert (forallb (λ a, is_drop a || is_deliver a) actions);;
  let dropped := length (filter (λ a, is_drop a = true) actions) in
  let delivered := length (filter (λ a, is_deliver a = true) actions) in
  assert (bool_decide (0 < dropped)%nat && bool_decide (0 < delivered)%nat);;
  dr2 ← drop_rate_new half 12345;
  let dropped2 := length (filter (λ a, is_drop a = true) (hundred_actions dr2)) in
  assert_eq dropped dropped2.

Definition symmetric_partition : outcome unit :=
  let p := partition_symmetric [node 1] [node 2] in
  let '(p, action) := intercept p (node 1) (node 2) x (ctx 0 0) in
  assert (is_drop action);;
  let '(p, action) := intercept p (node 2) (node 1) x (ctx 0 1) in
  assert (is_drop action);;
  let '(_, action) := intercept p (node 1) (node 3) x (ctx 0 2) in
  assert (is_deliver action).

Definition asymmetric_partition : outcome unit :=
  let p := partition_asymmetric [node 1] [node 2] in
  let '(p, action) := intercept p (node 1) (node 2) x (ctx 0 0) in
  assert (is_drop action);;
  let '(_, action) := intercept p (node 2) (node 1) x (ctx 0 1) in
  assert (is_deliver action).

Definition test_delay_ticks : outcome unit :=
  let '(_, action) := intercept (mkDelayTicks 3) (node 1) (node 2) x (ctx 0 0) in
  match action with Delay _ ticks => assert_eq ticks 3 | _ => Panicked "not delayed" end.

Definition duplicate_all : outcome unit :=
  let '(_, action) := intercept mkDuplicateAll (node 1) (node 2) x (ctx 0 0) in
  match action with
  | DeliverMany copies =>
      assert_eq (length copies) 2%nat;;
      assert_eq (copies !! 0%nat) (copies !! 1%nat)
  | _ => Panicked "expected DeliverMany"
  end.

(** [u8::count_ones]. *)
Definition count_ones (b : Z) : nat := length (filter (λ i, Z.testbit b i = true) (seqZ 0 8)).

Definition corrupt_bytes_flips_bit : outcome unit :=
  let '(_, action) := intercept (mkCorruptBytes 42) (node 1) (node 2) hello_world (ctx 0 0) in
  match action with
  | Deliver bytes =>
      assert (negb (bool_decide (bytes = hello_world)));;
      let diff_count := sum_list (zip_with (λ a b, count_ones (Z.lxor a b)) bytes hello_world) in
      assert_eq diff_count 1%nat
  | _ => Panicked "expected Deliver"
  end.

Definition interceptor_tests : list (outcome unit) :=
  [passthrough_delivers; drop_all_drops; drop_rate_deterministic; symmetric_partition;
   asymmetric_partition; test_delay_ticks; duplicate_all; corrupt_bytes_flips_bit].

(** ** transport.rs *)

Definition test_msg : WireMessage := WireSync (RequestSnapshot "test" (node 1)).
Definition send_test (t : MockTransport) (from to : nat) : MockTransport :=
  transport_send t (node from) (node to) test_msg.
Definition delivered_now (t : MockTransport) : MockTransport * list DeliveredMessage :=
  let '(t, result) := deliver_due t in (t, delivered result).
(** [for _ in 0..n { advance_tick; assert!(deliver_due().delivered.is_empty()) }]. *)
Definition quiet_ticks (n : Z) (t : MockTransport) : outcome MockTransport :=
  foldl (λ t _,
      t ← t;
      let '(t, delivered) := delivered_now (advance_tick t) in
      assert_eq (length delivered) 0%nat;;
      Done t)
    (Done t) (seqZ 0 n).

Definition send_and_deliver : outcome unit :=
  let transport := send_test (transport_new 42) 1 2 in
  let '(transport, result) := delivered_now transport in
  assert_eq (length result) 0%nat;;
  let '(_, result) := delivered_now (advance_tick transport) in
  assert_eq (length result) 1%nat;;
  assert_eq (dm_from <$> result) [node 1];;
  assert_eq (dm_to <$> result) [node 2].

Definition broadcast_sends_to_all_except_self : outcome unit :=
  let all := [node 1; node 2; node 3] in
  let transport := transport_broadcast (transport_new 42) (node 1) test_msg all in
  assert_eq (in_flight_count transport) 2%nat;;
  let '(_, result) := delivered_now (advance_tick transport) in
  assert_eq (length result) 2%nat.

Definition drop_all_interceptor : outcome unit :=
  let transport := add_interceptor (transport_new 42) (dyn mkDropAll) in
  let transport := send_test transport 1 2 in
  assert_eq (in_flight_count transport) 0%nat;;
  let '(_, result) := delivered_now (advance_tick transport) in
  assert_eq (length result) 0%nat.

Definition delay_interceptor : outcome unit :=
  let transport := add_interceptor (transport_new 42) (dyn (mkDelayTicks 3)) in
  let transport := send_test transport 1 2 in
  transport ← quiet_ticks 3 transport;
  let '(_, result) := delivered_now (advance_tick transport) in
  assert_eq (length result) 1%nat.

Definition duplicate_interceptor : outcome unit :=
  let transport := add_interceptor (transport_new 42) (dyn mkDuplicateAll) in
  let transport := send_test transport 1 2 in
  assert_eq (in_flight_count transport) 2%nat;;
  let '(_, result) := delivered_now (advance_tick transport) in
  assert_eq (length result) 2%nat.

Definition clear_interceptors_restores_clean_network : outcome unit :=
  let transport := add_interceptor (transport_new 42) (dyn mkDropAll) in
  let transport := send_test transport 1 2 in
  assert_eq (in_flight_count transport) 0%nat;;
  let transport := clear_interceptors transport in
  let transport := send_test transport 1 2 in
  assert_eq (in_flight_count transport) 1%nat.

Definition corrupted_message_detected : outcome unit :=
  let transport := add_interceptor (transport_new 42) (dyn (mkCorruptBytes 99)) in
  let msg := WireSync (FullSnapshot "test" (node 1) (generation_new 1 1) 1 [1; 2; 3]) in
  let transport := transport_send transport (node 1) (node 2) msg in
  let '(_, result) := deliver_due (advance_tick transport) in
  assert_eq (length (delivered result) + length (corrupted result))%nat 1%nat.

Definition duplicate_then_delay_preserves_both_copies : outcome unit :=
  let transport := add_interceptor (transport_new 42) (dyn mkDuplicateAll) in
  let transport := add_interceptor transport (dyn (mkDelayTicks 2)) in
  let transport := send_test transport 1 2 in
  transport ← quiet_ticks 2 transport;
  let '(_, result) := delivered_now (advance_tick transport) in
  assert_eq (length result) 2%nat.

Definition delay_zero_delivers_next_tick : outcome unit :=
  let transport := add_interceptor (transport_new 42) (dyn (mkDelayTicks 0)) in
  let transport := send_test transport 1 2 in
  let '(transport, result) := delivered_now transport in
  assert_eq (length result) 0%nat;;
  let '(_, result) := delivered_now (advance_tick transport) in
  assert_eq (length result) 1%nat.

Definition drop_in_flight_for_node : outcome unit :=
  let transport := send_test (transport_new 42) 1 2 in
  let transport := send_test transport 3 2 in
  assert_eq (in_flight_count transport) 2%nat;;
  let transport := drop_in_flight_for transport (node 1) in
  assert_eq (in_flight_count transport) 1%nat;;
  let '(_, result) := delivered_now (advance_tick transport) in
  assert_eq (length result) 1%nat;;
  assert_eq (dm_from <$> result) [node 3].

Definition transport_tests : list (outcome unit) :=
  [send_and_deliver; broadcast_sends_to_all_except_self; drop_all_interceptor;
   delay_interceptor; duplicate_interceptor; clear_interceptors_restores_clean_network;
   corrupted_message_detected; duplicate_then_delay_preserves_both_copies;
   delay_zero_delivers_next_tick; drop_in_flight_for_node].

(** ** cluster.rs *)
Local Abbreviation test_cluster := (MockCluster TestState TestState (ViewMap TestState)).

Definition default_config : StateConfig := StateConfig_default.
Definition set_state_on (c : test_cluster) (i : nat) (f : TestState → TestState) :
    outcome test_cluster :=
  cluster_mutate c (node i) f (λ s, s) UrgencyDefault.
Definition intercepted (c : test_cluster) (d : DynInterceptor) : test_cluster :=
  set_transport c (add_interceptor (mc_transport c) d).
(** [settle], its ticks ignored. *)
Definition settled (c : test_cluster) : outcome test_cluster := '(c, _) ← settle c; Done c.
(** [cluster.engine(observer).get_view(&origin).unwrap().value]. *)
Definition seen (c : test_cluster) (observer origin : nat) : outcome TestState :=
  e ← cluster_engine c (node observer);
  vo ← unwrap (engine_get_view e (node origin));
  Done (vo_value vo).

Definition create_cluster_with_test_state : outcome unit :=
  cluster ← with_test_state 3 default_config;
  assert_eq (node_count cluster) 3%nat;;
  for_each (seq 0 3) (λ id,
    e ← cluster_engine cluster (node id);
    assert_eq (engine_view_count e) 3%nat).

Definition mutate_and_settle_propagates_to_all : outcome unit :=
  cluster ← with_test_state 3 default_config;
  cluster ← set_state_on cluster 0 (λ _, mkTestState 42 "hello");
  '(cluster, ticks) ← settle cluster;
  assert (bool_decide (0 < ticks)%nat);;
  for_each (seq 0 3) (λ id,
    view ← seen cluster id 0;
    assert_eq (ts_counter view) 42;;
    assert_eq (ts_label view) "hello"%string).

Definition multiple_mutations_converge : outcome unit :=
  cluster ← with_test_state 3 default_config;
  cluster ← foldl (λ cluster i,
      cluster ← cluster;
      set_state_on cluster i (λ _, mkTestState ((Z.of_nat i + 1) * 10) ("node" +:+ pretty i)))
    (Done cluster) (seq 0 3);
  cluster ← settled cluster;
  for_each (seq 0 3) (λ observer, for_each (seq 0 3) (λ origin,
    view ← seen cluster observer origin;
    assert_eq (ts_counter view) ((Z.of_nat origin + 1) * 10);;
    assert_eq (ts_label view) ("node" +:+ pretty origin)%string)).

Definition node_removal_stops_message_delivery : outcome unit :=
  cluster ← with_test_state 3 default_config;
  cluster ← settled cluster;
  let cluster := remove_node cluster (node 2) in
  assert_eq (node_count cluster) 2%nat;;
  cluster ← set_state_on cluster 0 (set_counter 99);
  cluster ← settled cluster;
  view ← seen cluster 1 0;
  assert_eq (ts_counter view) 99.

Definition network_partition_prevents_propagation : outcome unit :=
  cluster ← with_test_state 3 default_config;
  cluster ← settled cluster;
  let cluster := intercepted cluster (dyn (partition_symmetric [node 0] [node 2])) in
  cluster ← set_state_on cluster 0 (set_counter 77);
  cluster ← settled cluster;
  v1 ← seen cluster 1 0;
  assert_eq (ts_counter v1) 77;;
  v2 ← seen cluster 2 0;
  assert_eq (ts_counter v2) 0.

Definition partition_heal_allows_convergence : outcome unit :=
  cluster ← with_test_state 2 default_config;
  cluster ← settled cluster;
  let cluster := intercepted cluster (dyn (partition_symmetric [node 0] [node 1])) in
  cluster ← set_state_on cluster 0 (set_counter 100);
  cluster ← settled cluster;
  v ← seen cluster 1 0;
  assert_eq (ts_counter v) 0;;
  let cluster := set_transport cluster (clear_interceptors (mc_transport cluster)) in
  cluster ← set_state_on cluster 0 (set_counter 200);
  cluster ← settled cluster;
  v ← seen cluster 1 0;
  assert_eq (ts_counter v) 200.

Definition settle_returns_tick_count : outcome unit :=
  cluster ← with_test_state 2 default_config;
  cluster ← set_state_on cluster 0 (set_counter 1);
  '(_, ticks) ← settle cluster;
  assert (bool_decide (1 ≤ ticks)%nat && bool_decide (ticks ≤ 10)%nat).

Definition duplicate_messages_handled_idempotently : outcome unit :=
  cluster ← with_test_state 2 default_config;
  cluster ← settled cluster;
  let cluster := intercepted cluster (dyn mkDuplicateAll) in
  cluster ← set_state_on cluster 0 (set_counter 42);
  cluster ← settled cluster;
  v ← seen cluster 1 0;
  assert_eq (ts_counter v) 42.

Definition single_node_cluster_settles_immediately : outcome unit :=
  cluster ← with_test_state 1 default_config;
  cluster ← set_state_on cluster 0 (set_counter 1);
  '(_, ticks) ← settle cluster;
  assert (bool_decide (ticks ≤ 20)%nat).

Definition hard_remove_purges_in_flight : outcome unit :=
  cluster ← with_test_state 3 default_config;
  cluster ← settled cluster;
  cluster ← set_state_on cluster 0 (set_counter 42);
  assert (bool_decide (0 < cluster_in_flight_count cluster)%nat);;
  let cluster := remove_node_hard cluster (node 0) in
  assert_eq (cluster_in_flight_count cluster) 0%nat.

Definition tick_n_advances_multiple_ticks : outcome unit :=
  cluster ← with_test_state 2 default_config;
  cluster ← tick_n cluster 5;
  assert_eq (mc_current_tick cluster) 5.

(** The test only reads the counter. *)
Definition corrupted_messages_tracked : outcome unit :=
  cluster ← with_test_state 2 default_config;
  cluster ← settled cluster;
  let cluster := intercepted cluster (dyn (mkCorruptBytes 99)) in
  cluster ← set_state_on cluster 0 (set_counter 1);
  cluster ← tick_n cluster 5;
  let _ := mc_corrupted_count cluster in
  Done ().

Definition cluster_tests : list (outcome unit) :=
  [create_cluster_with_test_state; mutate_and_settle_propagates_to_all;
   multiple_mutations_converge; node_removal_stops_message_delivery;
   network_partition_prevents_propagation; partition_heal_allows_convergence;
   settle_returns_tick_count; duplicate_messages_handled_idempotently;
   single_node_cluster_settles_immediately; hard_remove_purges_in_flight;
   tick_n_advances_multiple_ticks; corrupted_messages_tracked].

(** ** All of them pass *)
Example interceptor_tests_pass : failures interceptor_tests = [].
Proof. vm_compute. reflexivity. Qed.

Example transport_tests_pass : failures transport_tests = [].
Proof. vm_compute. reflexivity. Qed.

Example cluster_tests_pass : failures cluster_tests = [].
Proof. vm_compute. reflexivity. Qed.
