(* ===== verification/HarnessTests.v ===== *)
(** Test files of the harness on the model ([dstate-integration/tests]: [harness_tests.rs],
    [fault_injection_tests.rs], [chaos_tests.rs], [upgrade_tests.rs], [stress_tests.rs]), under
    their names. *)
From Stdlib Require Import SpecFloat.
From stdpp Require Import prelude gmap fin_maps strings pretty.
From S2P Require Import Prelude Node Clock Types ViewMap ShardCore SyncLogic ChangeFeed.
From S2P Require Import Versioning Lifecycle Diagnostics Engine Traits Interceptor Transport.
From S2P Require Import Cluster Testing IntegrationTests.

Local Existing Instance map_to_list_iter.
Local Existing Instance state_bits.
Local Existing Instance wire_bits.

Local Abbreviation test_cluster := (MockCluster TestState TestState (ViewMap TestState)).
Local Abbreviation test_engine := (DistributedStateEngine TestState TestState (ViewMap TestState)).

Definition with_policy (policy : VersionMismatchPolicy) : StateConfig :=
  mkStateConfig active_push (pull_timeout StateConfig_default) policy.
Definition active_push_config : StateConfig :=
  mkStateConfig active_push (pull_timeout StateConfig_default)
    (version_mismatch_policy StateConfig_default).
Definition active_push_keep_stale : StateConfig := with_policy KeepStalePolicy.
Definition active_push_drop_and_wait : StateConfig := with_policy DropAndWait.

(** An engine of wire version [w] with an initial state. *)
Definition versioned_engine (i : nat) (initial : TestState) (config : StateConfig) (w : Z)
    (clock : TestClock) : test_engine :=
  engine_new (ds_name (S := TestState)) (node i) initial (λ s, s) config w clock
    bincode_serialize (versioned_deserialize w) None.
Definition make_engine_with_version (i : nat) (config : StateConfig) (clock : TestClock) (w : Z) :
    test_engine :=
  versioned_engine i TestState_default config w clock.
Definition make_engine (i : nat) (clock : TestClock) : test_engine :=
  make_engine_with_version i active_push_config clock (ds_wire_version (S := TestState)).

Definition empty_cluster : test_cluster := cluster_new test_clock (from_millis 100) 42.
(** [cluster.add_node(engine, TestState::default())]; engines share the cluster's clock. *)
Definition added (c : test_cluster) (make : TestClock → test_engine) : outcome test_cluster :=
  add_node c (make (mc_clock c)) TestState_default.
Definition manual_cluster (n : nat) : outcome test_cluster :=
  foldl (λ c i, c ← c; added c (make_engine i)) (Done empty_cluster) (seq 0 n).
(** [clock.advance(d)] on the clock the cluster shares. *)
Definition advanced (c : test_cluster) (d : Duration) : test_cluster :=
  mkCluster (mc_nodes c) (mc_transport c) (advance (mc_clock c) d) (mc_tick_duration c)
    (mc_current_tick c) (mc_corrupted_count c).
Definition healed (c : test_cluster) : test_cluster :=
  set_transport c (clear_interceptors (mc_transport c)).
Definition injected (c : test_cluster) (from to : nat) (msg : SyncMessage) : test_cluster :=
  set_transport c (transport_send (mc_transport c) (node from) (node to) (WireSync msg)).

(** What [observer] has of [origin], and the counter it shows. *)
Definition view_at (c : test_cluster) (observer origin : nat) :
    outcome (option (StateViewObject TestState)) :=
  e ← cluster_engine c (node observer); Done (engine_get_view e (node origin)).
Definition shows (c : test_cluster) (observer origin : nat) (counter : Z) : outcome unit :=
  view ← seen c observer origin;
  assert_eq (ts_counter view) counter.
Definition metrics_at (c : test_cluster) (i : nat) : outcome SyncMetrics :=
  e ← cluster_engine c (node i); Done (engine_metrics e).
Definition contains_key (c : test_cluster) (observer origin : nat) : outcome bool :=
  e ← cluster_engine c (node observer);
  Done (bool_decide (is_Some (engine_snapshot e !! node origin))).

(** ** harness_tests.rs *)

Definition test_11_cluster_creates_n_nodes : outcome unit :=
  cluster ← with_test_state 3 active_push_config;
  let ids := all_node_ids cluster in
  assert_eq (length ids) 3%nat;;
  assert (bool_decide (NoDup ids));;
  for_each ids (λ id,
    e ← cluster_engine cluster id;
    assert (bool_decide (is_Some (engine_snapshot e !! id)))).

Definition test_12_settle_delivers_all_messages : outcome unit :=
  cluster ← with_test_state 3 active_push_config;
  cluster ← set_state_on cluster 0 (set_counter 42);
  '(cluster, ticks) ← settle cluster;
  assert (bool_decide (0 < ticks)%nat);;
  for_each [1; 2]%nat (λ i, shows cluster i 0 42).

Definition test_12b_settle_with_limit_panics : outcome unit :=
  cluster ← with_test_state 2 active_push_config;
  let cluster := intercepted cluster (dyn mkDropAll) in
  cluster ← cluster_mutate cluster (node 0) (set_counter 1) (λ s, s) UrgencyImmediate;
  '(_, ticks) ← settle_with_limit cluster 100;
  assert (bool_decide (ticks ≤ 100)%nat).

Definition test_13_crash_and_restart : outcome unit :=
  cluster ← manual_cluster 3;
  cluster ← set_state_on cluster 0 (set_counter 50);
  cluster ← settled cluster;
  e0 ← cluster_engine cluster (node 0);
  let pre_crash_gen := so_generation (engine_state e0) in
  let cluster := remove_node_hard cluster (node 0) in
  cluster ← added cluster (make_engine 0);
  cluster ← settled cluster;
  shows cluster 0 0 0;;
  b ← contains_key cluster 0 1; assert b;;
  b ← contains_key cluster 0 2; assert b;;
  b ← contains_key cluster 1 0; assert b;;
  own ← view_at cluster 0 0;
  own ← unwrap own;
  let post_crash_gen := vo_generation own in
  assert_eq (age post_crash_gen) 0;;
  assert (negb (incarnation pre_crash_gen =? incarnation post_crash_gen)).

Definition test_14_advance_time_controls_clock : outcome unit :=
  cluster ← manual_cluster 2;
  let t0 := unix_ms (mc_clock cluster) in
  let cluster := advanced cluster (from_secs 30) in
  let t1 := unix_ms (mc_clock cluster) in
  assert_eq (t1 - t0) 30000;;
  cluster ← set_state_on cluster 0 (set_counter 1);
  cluster ← settled cluster;
  own ← view_at cluster 0 0;
  own ← unwrap own;
  assert (t1 <=? vo_modified_time own);;
  let cluster := advanced cluster (from_secs 10) in
  v ← view_at cluster 1 0;
  v ← unwrap v;
  let staleness := duration_since (now (mc_clock cluster)) (vo_synced_at v) in
  assert (from_secs 10 <=? staleness).

Definition harness_tests : list (outcome unit) :=
  [test_11_cluster_creates_n_nodes; test_12_settle_delivers_all_messages;
   test_12b_settle_with_limit_panics; test_13_crash_and_restart;
   test_14_advance_time_controls_clock].

(** ** fault_injection_tests.rs *)

Definition fault_01_network_partition_2_plus_1 : outcome unit :=
  cluster ← with_test_state 3 active_push_config;
  let partition := partition_symmetric [node 0; node 1] [node 2] in
  let cluster := intercepted cluster (dyn partition) in
  cluster ← set_state_on cluster 0 (set_counter 42);
  cluster ← settled cluster;
  shows cluster 0 0 42;;
  shows cluster 1 0 42;;
  shows cluster 2 0 0;;
  let cluster := healed cluster in
  cluster ← set_state_on cluster 0 (set_counter 100);
  cluster ← settled cluster;
  for_each [0; 1; 2]%nat (λ i, shows cluster i 0 100).

Definition fault_02_total_network_failure : outcome unit :=
  cluster ← with_test_state 3 active_push_config;
  let cluster := intercepted cluster (dyn mkDropAll) in
  cluster ← set_state_on cluster 0 (set_counter 10);
  cluster ← set_state_on cluster 1 (set_counter 20);
  cluster ← set_state_on cluster 2 (set_counter 30);
  cluster ← settled cluster;
  shows cluster 0 0 10;; shows cluster 1 1 20;; shows cluster 2 2 30;;
  shows cluster 0 1 0;;
  let cluster := healed cluster in
  cluster ← set_state_on cluster 0 (set_counter 99);
  cluster ← settled cluster;
  for_each [0; 1; 2]%nat (λ i, shows cluster i 0 99).

(** The three mutations each round repeats. *)
Definition mutate_three (c : test_cluster) : outcome test_cluster :=
  c ← set_state_on c 0 (set_counter 100);
  c ← set_state_on c 1 (set_counter 200);
  set_state_on c 2 (set_counter 300).

(** [0.3] is the binary64 nearest to it. *)
Definition fault_03_random_packet_loss_30_percent : outcome unit :=
  cluster ← with_test_state 3 active_push_config;
  rate ← drop_rate_new (f64_div (f64_of_u64 3) (f64_of_u64 10)) 12345;
  let cluster := intercepted cluster (dyn rate) in
  cluster ← mutate_three cluster;
  cluster ← Nat.iter 30 (λ cluster,
      cluster ← cluster;
      '(cluster, _) ← settle_with_limit cluster 500;
      mutate_three cluster)
    (Done cluster);
  '(cluster, _) ← settle_with_limit cluster 500;
  for_each (seq 0 3) (λ observer, for_each (seq 0 3) (λ origin,
    shows cluster observer origin ((Z.of_nat origin + 1) * 100))).

(** The last assertion of the test accepts each of the outcomes it names. *)
Definition fault_04_byte_corruption : outcome unit :=
  cluster ← with_test_state 2 active_push_config;
  let cluster := intercepted cluster (dyn (mkCorruptBytes 99)) in
  cluster ← set_state_on cluster 0 (set_counter 42);
  cluster ← tick_n cluster 10;
  shows cluster 0 0 42;;
  node1_view ← view_at cluster 1 0;
  let node1_counter := from_option (λ v, ts_counter (vo_value v)) 0 node1_view in
  m ← metrics_at cluster 1;
  let outcome :=
    if node1_counter =? 42 then "intact"%string
    else if (0 <? mc_corrupted_count cluster) || (0 <? sm_sync_failures m)
    then "detected"%string
    else if node1_counter =? 0 then "unchanged"%string
    else "corrupted-but-valid"%string in
  assert (bool_decide
    (outcome ∈ ["intact"; "detected"; "unchanged"; "corrupted-but-valid"]%string)).

Definition fault_05_node_crash_restart : outcome unit :=
  let config := active_push_config in
  let engine i clock := make_engine_with_version i config clock 1 in
  cluster ← foldl (λ c i, c ← c; added c (engine i)) (Done empty_cluster) (seq 0 3);
  cluster ← set_state_on cluster 0 (set_counter 10);
  cluster ← set_state_on cluster 1 (set_counter 20);
  cluster ← settled cluster;
  shows cluster 2 0 10;;
  v ← view_at cluster 0 2;
  v ← unwrap v;
  let gen_before_crash := vo_generation v in
  let cluster := remove_node_hard cluster (node 2) in
  assert_eq (node_count cluster) 2%nat;;
  cluster ← added cluster (engine 2%nat);
  assert_eq (node_count cluster) 3%nat;;
  cluster ← set_state_on cluster 2 (set_counter 50);
  cluster ← settled cluster;
  shows cluster 2 0 10;;
  shows cluster 2 1 20;;
  v ← view_at cluster 0 2;
  v ← unwrap v;
  let gen_after_restart := vo_generation v in
  assert (negb (bool_decide (gen_before_crash = gen_after_restart))).

(** Two nodes of wire versions 1 and 2; node 0 mutates. *)
Definition mixed_versions (config : StateConfig) : outcome test_cluster :=
  cluster ← added empty_cluster (λ clock, make_engine_with_version 0 config clock 1);
  cluster ← added cluster (λ clock, make_engine_with_version 1 config clock 2);
  cluster ← set_state_on cluster 0 (set_counter 42);
  settled cluster.

Definition fault_08_version_mismatch_keep_stale : outcome unit :=
  cluster ← mixed_versions active_push_keep_stale;
  view ← view_at cluster 1 0;
  view ← unwrap view;
  assert_eq (ts_counter (vo_value view)) 0;;
  metrics ← metrics_at cluster 1;
  assert (0 <? sm_sync_failures metrics).

Definition fault_09_version_mismatch_drop_and_wait : outcome unit :=
  cluster ← mixed_versions active_push_drop_and_wait;
  view ← view_at cluster 1 0;
  assert (match view with None => true | Some _ => false end);;
  metrics ← metrics_at cluster 1;
  assert (0 <? sm_sync_failures metrics).

Definition fault_10_rapid_mutations_stress : outcome unit :=
  cluster ← with_test_state 2 active_push_config;
  cluster ← foldl (λ c i, c ← c; set_state_on c 0 (set_counter i)) (Done cluster) (seqZ 1 100);
  cluster ← settled cluster;
  shows cluster 1 0 100;;
  shows cluster 0 0 100;;
  metrics ← metrics_at cluster 0;
  assert_eq (sm_total_mutations metrics) 100.

Definition fault_11_ghost_node_rejected : outcome unit :=
  cluster ← with_test_state 3 active_push_config;
  cluster ← settled cluster;
  let cluster := remove_node cluster (node 2) in
  assert_eq (node_count cluster) 2%nat;;
  e ← cluster_engine cluster (node 0);
  assert (negb (engine_should_accept_from e (node 2)));;
  b ← contains_key cluster 0 2; assert (negb b);;
  let ghost_data := bincode_serialize (mkTestState 999 "ghost") in
  let ghost_snapshot := FullSnapshot (ds_name (S := TestState)) (node 2) (generation_new 1 1)
                          (ds_wire_version (S := TestState)) ghost_data in
  let cluster := injected cluster 2 0 ghost_snapshot in
  cluster ← tick_n cluster 5;
  b ← contains_key cluster 0 2; assert (negb b).

Definition fault_12_stale_snapshot_discarded : outcome unit :=
  cluster ← with_test_state 2 active_push_config;
  cluster ← set_state_on cluster 0 (λ _, mkTestState 1 "gen1");
  cluster ← set_state_on cluster 0 (λ _, mkTestState 2 "gen2");
  cluster ← settled cluster;
  view ← view_at cluster 1 0;
  view ← unwrap view;
  assert_eq (ts_counter (vo_value view)) 2;;
  let current_gen := vo_generation view in
  assert (1 <=? age current_gen);;
  let stale_data := bincode_serialize (mkTestState 1 "stale-gen1") in
  let stale_gen := generation_new (incarnation current_gen) (Z.max 0 (age current_gen - 1)) in
  assert (generation_ltb stale_gen current_gen);;
  let stale_snapshot := FullSnapshot (ds_name (S := TestState)) (node 0) stale_gen
                          (ds_wire_version (S := TestState)) stale_data in
  let cluster := injected cluster 0 1 stale_snapshot in
  cluster ← tick_n cluster 5;
  view_after ← seen cluster 1 0;
  assert_eq (ts_counter view_after) 2;;
  assert_eq (ts_label view_after) "gen2"%string;;
  metrics ← metrics_at cluster 1;
  assert (0 <? sm_stale_deltas_discarded metrics).

Definition fault_13_single_node_cluster : outcome unit :=
  cluster ← with_test_state 1 active_push_config;
  cluster ← set_state_on cluster 0 (λ _, mkTestState 42 "solo");
  view ← seen cluster 0 0;
  assert_eq (ts_counter view) 42;;
  assert_eq (ts_label view) "solo"%string;;
  e ← cluster_engine cluster (node 0);
  let '(result, _) := query e 0 size (mc_clock cluster) in
  assert (match result with EngineFresh _ => true | EngineStale _ _ => false end);;
  '(cluster, ticks) ← settle cluster;
  assert (bool_decide (ticks ≤ 1)%nat);;
  metrics ← metrics_at cluster 0;
  assert_eq (sm_total_mutations metrics) 1;;
  assert_eq (sm_snapshots_received metrics) 0.

Definition fault_14_empty_cluster : outcome unit :=
  let cluster := empty_cluster in
  assert_eq (node_count cluster) 0%nat;;
  assert_eq (cluster_in_flight_count cluster) 0%nat;;
  assert_eq (all_node_ids cluster) [].

Definition fault_14_empty_cluster_settle : outcome unit :=
  '(_, ticks) ← settle empty_cluster;
  assert_eq ticks 0%nat.

Definition fault_tests : list (outcome unit) :=
  [fault_01_network_partition_2_plus_1; fault_02_total_network_failure;
   fault_03_random_packet_loss_30_percent; fault_04_byte_corruption;
   fault_05_node_crash_restart; fault_08_version_mismatch_keep_stale;
   fault_09_version_mismatch_drop_and_wait; fault_10_rapid_mutations_stress;
   fault_11_ghost_node_rejected; fault_12_stale_snapshot_discarded;
   fault_13_single_node_cluster; fault_14_empty_cluster; fault_14_empty_cluster_settle].

(** ** chaos_tests.rs *)

Definition chaos_01_delayed_messages_converge : outcome unit :=
  cluster ← with_test_state 3 active_push_config;
  let cluster := intercepted cluster (dyn (mkDelayTicks 5)) in
  cluster ← set_state_on cluster 0 (set_counter 42);
  cluster ← tick_n cluster 3;
  v ← view_at cluster 1 0;
  assert_eq (from_option (λ v, ts_counter (vo_value v)) 0 v) 0;;
  cluster ← settled cluster;
  for_each [1; 2]%nat (λ i, shows cluster i 0 42).

Definition chaos_02_packet_loss_best_effort_delivery : outcome unit :=
  cluster ← with_test_state 3 active_push_config;
  rate ← drop_rate_new (f64_div (f64_of_u64 1) (f64_of_u64 10)) 12345;
  let cluster := intercepted cluster (dyn rate) in
  cluster ← foldl (λ c i, c ← c; set_state_on c 0 (set_counter i)) (Done cluster) (seqZ 1 100);
  cluster ← settled cluster;
  for_each [1; 2]%nat (λ i,
    view ← seen cluster i 0;
    assert (90 <=? ts_counter view)).

Definition chaos_03_node_crash_rejoin : outcome unit :=
  cluster ← manual_cluster 3;
  cluster ← set_state_on cluster 0 (set_counter 100);
  cluster ← settled cluster;
  let cluster := remove_node_hard cluster (node 1) in
  cluster ← set_state_on cluster 0 (set_counter 200);
  cluster ← settled cluster;
  shows cluster 2 0 200;;
  cluster ← added cluster (make_engine 1);
  cluster ← settled cluster;
  shows cluster 1 0 200.

Definition chaos_04_rapid_join_leave : outcome unit :=
  cluster ← manual_cluster 2;
  cluster ← foldl (λ cluster cycle,
      cluster ← cluster;
      let initial := mkTestState (cycle + 1) ("cycle-" +:+ pretty cycle) in
      cluster ← added cluster (λ clock,
        versioned_engine 2 initial active_push_config (ds_wire_version (S := TestState)) clock);
      cluster ← tick_n cluster 2;
      Done (remove_node cluster (node 2)))
    (Done cluster) (seqZ 0 10);
  cluster ← settled cluster;
  b ← contains_key cluster 0 2; assert (negb b);;
  cluster ← set_state_on cluster 0 (set_counter 999);
  cluster ← settled cluster;
  shows cluster 1 0 999.

Definition chaos_05_split_brain_partition_heal : outcome unit :=
  cluster ← with_test_state 5 active_push_config;
  let partition := partition_symmetric [node 0; node 1] [node 2; node 3; node 4] in
  let cluster := intercepted cluster (dyn partition) in
  cluster ← set_state_on cluster 0 (set_counter 100);
  cluster ← set_state_on cluster 2 (set_counter 200);
  cluster ← settled cluster;
  shows cluster 0 0 100;; shows cluster 1 0 100;; shows cluster 3 2 200;;
  let cluster := healed cluster in
  cluster ← set_state_on cluster 0 (set_counter 101);
  cluster ← set_state_on cluster 2 (set_counter 201);
  cluster ← settled cluster;
  for_each (seq 0 5) (λ i, shows cluster i 0 101;; shows cluster i 2 201).

Definition chaos_06_generation_ordering_independent_of_clock : outcome unit :=
  cluster ← manual_cluster 3;
  cluster ← set_state_on cluster 0 (set_counter 1);
  cluster ← settled cluster;
  let cluster := advanced cluster (from_secs 5) in
  cluster ← set_state_on cluster 0 (set_counter 2);
  cluster ← settled cluster;
  for_each [1; 2]%nat (λ i,
    v ← view_at cluster i 0;
    v ← unwrap v;
    assert_eq (ts_counter (vo_value v)) 2;;
    assert_eq (age (vo_generation v)) 2).

Definition chaos_tests : list (outcome unit) :=
  [chaos_01_delayed_messages_converge; chaos_02_packet_loss_best_effort_delivery;
   chaos_03_node_crash_rejoin; chaos_04_rapid_join_leave;
   chaos_05_split_brain_partition_heal; chaos_06_generation_ordering_independent_of_clock].

(** ** upgrade_tests.rs *)

(** An engine that sends version [w] and reads the accepted versions. *)
Definition make_multi_version_engine (accepted : list Z) (w : Z) (i : nat) (clock : TestClock) :
    test_engine :=
  engine_new (ds_name (S := TestState)) (node i) TestState_default (λ s, s)
    active_push_keep_stale w clock bincode_serialize
    (λ b v, if bool_decide (v ∈ accepted)
            then match bincode_deserialize b with Ok s => Ok s | Err e => Err (Malformed e) end
            else Err (unknown_version v)) None.
Definition add_versions (accepted : list Z) (w : Z) (c : test_cluster) (ids : list nat) :
    outcome test_cluster :=
  foldl (λ c i, c ← c; added c (make_multi_version_engine accepted w i)) (Done c) ids.
(** Replaces node [i] by one that sends [w] and mutates it. *)
Definition upgrade (w : Z) (base : Z) (c : test_cluster) (i : nat) : outcome test_cluster :=
  let c := remove_node c (node i) in
  c ← added c (make_multi_version_engine [1; 2] w i);
  c ← set_state_on c i (set_counter (base + Z.of_nat i));
  settled c.
Definition others (n : nat) (i : nat) : list nat := filter (λ j, j ≠ i) (seq 0 n).
(** The rollout, with its check after each node. *)
Definition rollout (w : Z) (base : Z) (c : test_cluster) : outcome test_cluster :=
  foldl (λ c i,
      c ← c;
      c ← upgrade w base c i;
      for_each (others 5 i) (λ observer, shows c observer i (base + Z.of_nat i));;
      Done c)
    (Done c) (seq 0 5).

Definition upgrade_01_rolling_phase1 : outcome unit :=
  cluster ← add_versions [1] 1 empty_cluster (seq 0 5);
  cluster ← set_state_on cluster 0 (set_counter 10);
  cluster ← settled cluster;
  for_each (others 5 0) (λ i, shows cluster i 0 10);;
  _ ← rollout 1 100 cluster;
  Done ().

Definition upgrade_02_rolling_phase2 : outcome unit :=
  cluster ← add_versions [1; 2] 1 empty_cluster (seq 0 5);
  _ ← rollout 2 200 cluster;
  Done ().

Definition upgrade_03_partial_rollback : outcome unit :=
  cluster ← add_versions [1; 2] 2 empty_cluster [0; 1; 2]%nat;
  cluster ← add_versions [1; 2] 1 cluster [3; 4]%nat;
  cluster ← set_state_on cluster 0 (set_counter 300);
  cluster ← settled cluster;
  for_each (others 5 0) (λ i, shows cluster i 0 300);;
  let cluster := remove_node cluster (node 2) in
  cluster ← added cluster (make_multi_version_engine [1; 2] 1 2);
  cluster ← set_state_on cluster 0 (set_counter 301);
  cluster ← settled cluster;
  shows cluster 2 0 301;;
  cluster ← set_state_on cluster 2 (set_counter 999);
  cluster ← settled cluster;
  for_each (others 5 2) (λ i, shows cluster i 2 999).

Definition upgrade_04_mixed_version_steady_state : outcome unit :=
  cluster ← add_versions [1; 2] 1 empty_cluster [0; 1]%nat;
  cluster ← add_versions [1; 2] 2 cluster [2; 3; 4]%nat;
  let mutations_per_node := 100 in
  cluster ← foldl (λ c round,
      c ← c;
      c ← foldl (λ c i,
          c ← c;
          set_state_on c i (λ _, mkTestState (Z.of_nat i * 1000 + round)
            ("node-" +:+ pretty i +:+ "-round-" +:+ pretty round)))
        (Done c) (seq 0 5);
      tick_n c 3)
    (Done cluster) (seqZ 1 mutations_per_node);
  cluster ← settled cluster;
  for_each (seq 0 5) (λ observer,
    e ← cluster_engine cluster (node observer);
    assert_eq (size (engine_snapshot e)) 5%nat;;
    for_each (seq 0 5) (λ target,
      shows cluster observer target (Z.of_nat target * 1000 + mutations_per_node))).

Definition upgrade_tests : list (outcome unit) :=
  [upgrade_01_rolling_phase1; upgrade_02_rolling_phase2; upgrade_03_partial_rollback;
   upgrade_04_mixed_version_steady_state].

(** ** stress_tests.rs; the payload of STRESS-03 is left out for its size *)

(** The bodies of the two tests, with the number of mutations. *)
Definition high_throughput (mutation_count : Z) : outcome unit :=
  cluster ← with_test_state 2 active_push_config;
  cluster ← foldl (λ c i, c ← c; set_state_on c 0 (set_counter (i + 1))) (Done cluster)
              (seqZ 0 mutation_count);
  cluster ← settled cluster;
  shows cluster 0 0 mutation_count;;
  shows cluster 1 0 mutation_count;;
  v ← view_at cluster 0 0;
  v ← unwrap v;
  assert_eq (age (vo_generation v)) mutation_count.

Definition full_mesh_convergence (mutations_per_node : Z) : outcome unit :=
  cluster ← with_test_state 10 active_push_config;
  cluster ← foldl (λ c i,
      c ← c;
      foldl (λ c m,
          c ← c;
          set_state_on c i (λ _, mkTestState ((Z.of_nat i + 1) * 1000 + m + 1)
            ("node-" +:+ pretty i +:+ "-mutation-" +:+ pretty m)))
        (Done c) (seqZ 0 mutations_per_node))
    (Done cluster) (seq 0 10);
  cluster ← settled cluster;
  for_each (seq 0 10) (λ i,
    e ← cluster_engine cluster (node i);
    assert_eq (size (engine_snapshot e)) 10%nat;;
    for_each (seq 0 10) (λ j,
      shows cluster i j ((Z.of_nat j + 1) * 1000 + mutations_per_node))).

Definition stress_01_high_throughput_sequential_mutations : outcome unit := high_throughput 1000.
Definition stress_02_ten_node_full_mesh_convergence : outcome unit := full_mesh_convergence 50.

(** They are evaluated with a tenth of their mutations. *)
Definition stress_tests : list (outcome unit) :=
  [high_throughput 100; full_mesh_convergence 5].

(** ** All of them pass *)
Example harness_tests_pass : failures harness_tests = [].
Proof. vm_compute. reflexivity. Qed.

Example fault_tests_pass : failures fault_tests = [].
Proof. vm_compute. reflexivity. Qed.

Example chaos_tests_pass : failures chaos_tests = [].
Proof. vm_compute. reflexivity. Qed.

Example upgrade_tests_pass : failures upgrade_tests = [].
Proof. vm_compute. reflexivity. Qed.

Example stress_tests_pass : failures stress_tests = [].
Proof. vm_compute. reflexivity. Qed.
