(* ===== verification/HappyPathTests.v ===== *)
(** The happy paths of the harness on the model
    ([dstate-integration/tests/happy_path_tests.rs]), under their names. *)
From Stdlib Require Import QArith.
From stdpp Require Import prelude gmap fin_maps strings pretty.
From S2P Require Import Prelude Node Clock Types ViewMap ShardCore SyncLogic ChangeFeed.
From S2P Require Import Versioning Lifecycle Diagnostics Engine Traits Interceptor Transport.
From S2P Require Import Cluster Testing IntegrationTests HarnessTests.
Local Open Scope Z_scope.

Local Existing Instance map_to_list_iter.
Local Existing Instances state_bits delta_view_bits delta_bits inner_bits.
Local Existing Instance wire_bits.

Definition feed_lazy_pull_config : StateConfig :=
  mkStateConfig feed_lazy_pull (pull_timeout StateConfig_default)
    (version_mismatch_policy StateConfig_default).
Definition periodic_only_config (interval : Duration) : StateConfig :=
  mkStateConfig (periodic_only interval) (pull_timeout StateConfig_default)
    (version_mismatch_policy StateConfig_default).

(** ** Helpers, for any state type *)
Section Helpers.
Context {S V : Type}.
Local Abbreviation cluster := (MockCluster S V (ViewMap V)).
Local Abbreviation engine := (DistributedStateEngine S V (ViewMap V)).

(** [engine_mut(i)] and a call on it. *)
Definition on_engine {A} (c : cluster) (i : nat) (call : engine → engine * A) :
    outcome (cluster * A) :=
  nd ← unwrap (mc_nodes c !! node i);
  let '(e, a) := call (mn_engine nd) in
  Done (set_node c (node i) (set_mn_engine nd e), a).

(** The test's own [route_engine_actions], which skips delayed sends. *)
Definition route_engine_actions (c : cluster) (from : nat) (actions : list EngineAction) : cluster :=
  foldl (λ c action,
    match action with
    | BroadcastSync msg =>
        set_transport c (transport_broadcast (mc_transport c) (node from) (WireSync msg)
                           (all_node_ids c))
    | SendSync target message =>
        set_transport c (transport_send (mc_transport c) (node from) target (WireSync message))
    | ScheduleDelayed _ _ => c
    end) c actions.

Definition settled_any (c : cluster) : outcome cluster := '(c, _) ← settle c; Done c.
Definition value_at (c : cluster) (observer origin : nat) : outcome (StateViewObject V) :=
  e ← cluster_engine c (node observer);
  unwrap (engine_get_view e (node origin)).
End Helpers.

Local Abbreviation test_cluster := (MockCluster TestState TestState (ViewMap TestState)).
Local Abbreviation delta_cluster := (MockCluster TestDeltaInner TestDeltaView (ViewMap TestDeltaView)).

(** [engine_mut(i).mutate(f, clone, urgency)]. *)
Definition direct_mutate (c : test_cluster) (i : nat) (z : Z) (urgency : SyncUrgency) :
    outcome (test_cluster * MutateResult TestState) :=
  on_engine c i (λ e, mutate e (set_counter z) (λ s, s) urgency (mc_clock c)).
Definition is_broadcast (a : EngineAction) : bool :=
  match a with BroadcastSync _ => true | _ => false end.
Definition is_scheduled (a : EngineAction) : bool :=
  match a with ScheduleDelayed _ _ => true | _ => false end.

Definition make_delta_engine (i : nat) (config : StateConfig) (clock : TestClock) :
    DistributedStateEngine TestDeltaInner TestDeltaView (ViewMap TestDeltaView) :=
  engine_new (dds_name (S := TestDeltaInner) (DC := TestChange)) (node i) delta_default
    project_view config (dds_wire_version (S := TestDeltaInner) (DC := TestChange)) clock
    dds_serialize_view dds_deserialize_view
    (Some (delta_applier (S := TestDeltaInner) (DC := TestChange))).

Definition make_delta_cluster (n : nat) (config : StateConfig) : outcome delta_cluster :=
  foldl (λ c i, c ← c; add_node c (make_delta_engine i config (mc_clock c)) (mkTestDeltaView 0 ""))
    (Done (cluster_new test_clock (from_millis 100) 42)) (seq 0 n).

(** ** The tests *)

Definition int_01_basic_mutation_propagates : outcome unit :=
  cluster ← with_test_state 3 active_push_config;
  cluster ← set_state_on cluster 0 (λ _, mkTestState 42 "hello");
  cluster ← settled cluster;
  for_each [0; 1; 2]%nat (λ i,
    view ← seen cluster i 0;
    assert_eq (ts_counter view) 42;;
    assert_eq (ts_label view) "hello"%string).

Definition int_02_delta_projection_round_trip : outcome unit :=
  cluster ← make_delta_cluster 3 active_push_config;
  '(cluster, result) ← on_engine cluster 0 (λ e, mutate_with_delta e
    (λ s, (mkTestDeltaStateInner (u64_add (tds_counter s) 10) "delta"
             (Qplus (tds_internal_accumulator s) (314 # 100)),
           mkTestDeltaChange 10 (Some "delta"%string) (314 # 100)))
    project_view project_delta UrgencyDefault
    (dds_serialize_delta (S := TestDeltaInner) (DC := TestChange)) (mc_clock cluster));
  assert_eq (tdv_counter (dmr_view result)) 10;;
  assert_eq (tdv_label (dmr_view result)) "delta"%string;;
  let cluster := route_engine_actions cluster 0 (dmr_actions result) in
  cluster ← settled_any cluster;
  for_each [0; 1; 2]%nat (λ i,
    view ← value_at cluster i 0;
    assert_eq (tdv_counter (vo_value view)) 10;;
    assert_eq (tdv_label (vo_value view)) "delta"%string).

(** The counters 1 to 5 on node 0. *)
Definition five_mutations (c : test_cluster) : outcome test_cluster :=
  foldl (λ c i, c ← c; set_state_on c 0 (set_counter i)) (Done c) (seqZ 1 5).

Definition int_03_change_feed_batching : outcome unit :=
  cluster ← with_test_state 3 feed_lazy_pull_config;
  cluster ← five_mutations cluster;
  cluster ← settled cluster;
  shows cluster 0 0 5;;
  metrics ← metrics_at cluster 0;
  assert_eq (sm_total_mutations metrics) 5;;
  assert (0 <? sm_snapshots_sent metrics).

Definition int_04_change_feed_deduplication : outcome unit :=
  cluster ← with_test_state 3 feed_lazy_pull_config;
  cluster ← five_mutations cluster;
  '(_, feed) ← on_engine cluster 0 flush_change_feed;
  match feed with
  | Some feed =>
      let unique_sources :=
        remove_dups ((λ n, (cn_state_name n, cn_source_node n)) <$> bf_notifications feed) in
      assert (bool_decide (length unique_sources ≤ 1)%nat)
  | None => Done ()
  end.

Definition int_05_periodic_full_sync : outcome unit :=
  cluster ← with_test_state 3 (periodic_only_config (from_millis 500));
  '(cluster, result) ← on_engine cluster 0 (λ e,
    mutate e (λ _, mkTestState 99 "periodic") (λ s, s) UrgencyDefault (mc_clock cluster));
  assert_eq (mr_actions result) [];;
  e ← cluster_engine cluster (node 0);
  '(_, actions) ← periodic_sync e;
  assert (negb (bool_decide (actions = [])));;
  assert (existsb is_broadcast actions).

(** [assert!(matches!(result, Stale { .. }))] with stale peers. *)
Definition stale_of {R} (r : EngineQueryResult R) : outcome (list NodeId) :=
  match r with
  | EngineStale _ stale_peers => Done stale_peers
  | EngineFresh _ => Panicked "expected Stale"
  end.

Definition int_06_pull_on_stale_query : outcome unit :=
  cluster ← with_test_state 3 feed_lazy_pull_config;
  cluster ← set_state_on cluster 0 (set_counter 77);
  cluster ← tick_n cluster 5;
  cluster ← tick_n cluster 10;
  e ← cluster_engine cluster (node 1);
  let '(query_result, actions) := query e 0 size (mc_clock cluster) in
  stale_peers ← stale_of query_result;
  assert (negb (bool_decide (stale_peers = [])));;
  assert (negb (bool_decide (actions = []))).

Definition int_07_generation_ordering : outcome unit :=
  cluster ← with_test_state 2 active_push_config;
  '(cluster, r1) ← direct_mutate cluster 0 1 UrgencyDefault;
  let gen1 := mr_generation r1 in
  let cluster := route_engine_actions cluster 0 (mr_actions r1) in
  cluster ← settled cluster;
  '(cluster, r2) ← direct_mutate cluster 0 2 UrgencyDefault;
  let gen2 := mr_generation r2 in
  let cluster := route_engine_actions cluster 0 (mr_actions r2) in
  assert (generation_ltb gen1 gen2);;
  assert_eq (incarnation gen2) (incarnation gen1);;
  assert (age gen1 <? age gen2);;
  cluster ← settled cluster;
  view ← value_at cluster 1 0;
  assert_eq (ts_counter (vo_value view)) 2;;
  assert_eq (vo_generation view) gen2.

(** Each of [n] nodes sets a counter and a label of its own. *)
Definition mutate_each (n : nat) (f : nat → TestState → TestState) (c : test_cluster) :
    outcome test_cluster :=
  foldl (λ c i, c ← c; set_state_on c i (f i)) (Done c) (seq 0 n).

Definition int_08_node_join_snapshot_exchange : outcome unit :=
  cluster ← manual_cluster 3;
  cluster ← mutate_each 3
    (λ i _, mkTestState ((Z.of_nat i + 1) * 10) ("node" +:+ pretty i)) cluster;
  cluster ← settled cluster;
  cluster ← added cluster (make_engine 3);
  cluster ← settled cluster;
  e ← cluster_engine cluster (node 3);
  assert_eq (engine_view_count e) 4%nat;;
  for_each (seq 0 3) (λ i, shows cluster 3 i ((Z.of_nat i + 1) * 10)).

Definition int_09_node_leave_view_removal : outcome unit :=
  cluster ← with_test_state 4 active_push_config;
  cluster ← mutate_each 4 (λ i, set_counter (Z.of_nat i + 1)) cluster;
  cluster ← settled cluster;
  for_each (all_node_ids cluster) (λ id,
    e ← cluster_engine cluster id;
    assert_eq (engine_view_count e) 4%nat);;
  let cluster := remove_node cluster (node 3) in
  for_each (all_node_ids cluster) (λ id,
    e ← cluster_engine cluster id;
    assert_eq (engine_view_count e) 3%nat;;
    assert (match engine_get_view e (node 3) with None => true | Some _ => false end)).

Definition int_10_independent_clusters : outcome unit :=
  cluster_a ← with_test_state 2 active_push_config;
  cluster_b ← make_delta_cluster 2 active_push_config;
  cluster_a ← set_state_on cluster_a 0 (set_counter 100);
  cluster_b ← cluster_mutate cluster_b (node 0)
    (λ s, mkTestDeltaStateInner 200 "delta_cluster" (tds_internal_accumulator s))
    project_view UrgencyDefault;
  cluster_a ← settled cluster_a;
  cluster_b ← settled_any cluster_b;
  shows cluster_a 1 0 100;;
  vb ← value_at cluster_b 1 0;
  assert_eq (tdv_counter (vo_value vb)) 200;;
  assert_eq (tdv_label (vo_value vb)) "delta_cluster"%string.

Definition int_11_immediate_bypasses_feed : outcome unit :=
  cluster ← with_test_state 3 feed_lazy_pull_config;
  '(cluster, result) ← direct_mutate cluster 0 999 UrgencyImmediate;
  assert (existsb is_broadcast (mr_actions result));;
  let cluster := route_engine_actions cluster 0 (mr_actions result) in
  cluster ← settled cluster;
  shows cluster 1 0 999.

Definition int_12_suppress_skips_broadcast : outcome unit :=
  cluster ← with_test_state 2 active_push_config;
  '(cluster, result) ← direct_mutate cluster 0 42 UrgencySuppress;
  assert_eq (mr_actions result) [];;
  shows cluster 0 0 42;;
  cluster ← settled cluster;
  shows cluster 1 0 0.

Definition int_13_delayed_schedules_timer : outcome unit :=
  cluster ← with_test_state 2 active_push_config;
  let delayed := UrgencyDelayed (from_millis 500) in
  '(cluster, result) ← direct_mutate cluster 0 7 delayed;
  assert (existsb is_scheduled (mr_actions result));;
  cluster ← cluster_mutate cluster (node 0) (set_counter 8) (λ s, s) delayed;
  cluster ← tick_n cluster 2;
  shows cluster 1 0 0;;
  cluster ← settled cluster;
  shows cluster 1 0 8.

Definition int_14_query_freshness_fast_path : outcome unit :=
  cluster ← with_test_state 3 active_push_config;
  cluster ← mutate_each 3 (λ i, set_counter (Z.of_nat i + 1)) cluster;
  cluster ← settled cluster;
  e ← cluster_engine cluster (node 0);
  let '(result, actions) := query e (from_secs 10)
    (λ views, foldl u64_add 0 ((λ kv, ts_counter (vo_value kv.2)) <$> hm_iter views))
    (mc_clock cluster) in
  match result with
  | EngineFresh total => assert_eq total (1 + 2 + 3)
  | EngineStale result _ => assert_eq result 6
  end;;
  assert_eq actions [].

Definition int_15_query_freshness_slow_path : outcome unit :=
  cluster ← with_test_state 3 feed_lazy_pull_config;
  '(cluster, _) ← direct_mutate cluster 0 50 UrgencySuppress;
  cluster ← tick_n cluster 20;
  e ← cluster_engine cluster (node 1);
  let '(result, _) := query e 0 size (mc_clock cluster) in
  stale_peers ← stale_of result;
  assert (negb (bool_decide (stale_peers = []))).

(** What the comments of INT-03 say does not happen: no peer pulls on the notification.
    After the cluster has settled the peers still show the default, and node 0 has sent
    the two snapshots of the joins, none more. *)
Definition int_03_outcome : outcome (Z * Z * Z) :=
  cluster ← with_test_state 3 feed_lazy_pull_config;
  cluster ← five_mutations cluster;
  cluster ← settled cluster;
  view1 ← seen cluster 1 0;
  view2 ← seen cluster 2 0;
  metrics ← metrics_at cluster 0;
  Done (ts_counter view1, ts_counter view2, sm_snapshots_sent metrics).

(** ** All of them pass *)
Definition happy_path_tests : list (outcome unit) :=
  [int_01_basic_mutation_propagates; int_02_delta_projection_round_trip;
   int_03_change_feed_batching; int_04_change_feed_deduplication; int_05_periodic_full_sync;
   int_06_pull_on_stale_query; int_07_generation_ordering;
   int_08_node_join_snapshot_exchange; int_09_node_leave_view_removal;
   int_10_independent_clusters; int_11_immediate_bypasses_feed;
   int_12_suppress_skips_broadcast; int_13_delayed_schedules_timer;
   int_14_query_freshness_fast_path; int_15_query_freshness_slow_path].

Example happy_path_tests_pass : failures happy_path_tests = [].
Proof. vm_compute. reflexivity. Qed.

Example int_03_nobody_pulls : int_03_outcome = Done (0, 0, 2).
Proof. vm_compute. reflexivity. Qed.
