(* ===== verification/ModelTests.v ===== *)
(** The test files of the crates [dstate] and [dstate-dactor] on the model ([dstate/tests]
    and [dstate-dactor/tests/state_actor_tests.rs]), under their names. *)
From Stdlib Require Import QArith.
From stdpp Require Import prelude gmap fin_maps strings pretty sorting.
From S2P Require Import Prelude Node Clock Types ViewMap ShardCore SyncLogic ChangeFeed.
From S2P Require Import Versioning Startup Lifecycle Diagnostics Engine Traits Registry.
From S2P Require Import StateActor Testing.
Local Open Scope Z_scope.

Local Existing Instance map_to_list_iter.
Local Existing Instance state_bits.
Local Existing Instance delta_view_bits.
Local Existing Instance delta_bits.
Local Existing Instance inner_bits.

Definition is_err {A E} (r : result A E) : bool :=
  match r with Err _ => true | Ok _ => false end.
Definition unwrap_err {A E} (r : result A E) : outcome E :=
  match r with Err e => Done e | Ok _ => Panicked "unwrap_err of Ok" end.

(** ** [clock_and_doubles_tests.rs] *)

Definition clock_at (ms : Z) : TestClock := with_base_unix_ms 0 ms.

Definition test_01_test_clock_starts_frozen : outcome unit :=
  let clock := clock_at 1000 in
  assert_eq (unix_ms clock) 1000;;
  let i1 := now clock in
  let i2 := now clock in
  assert (as_millis (duration_since i2 i1) <? 1).

Definition test_02_test_clock_advances_on_demand : outcome unit :=
  let clock := clock_at 1000 in
  let before := now clock in
  let clock := advance clock (from_secs 5) in
  let after := now clock in
  assert (from_secs 5 <=? duration_since after before);;
  assert_eq (unix_ms clock) (1000 + 5000).

Definition test_03_injected_clock_controls_time : outcome unit :=
  let clock := clock_at 50000 in
  assert_eq (unix_ms clock) 50000;;
  let clock := advance clock (from_millis 100) in
  assert_eq (unix_ms clock) 50100.

(** The reading of the operating system [TestClock::new] takes is a parameter. *)
Definition test_04_freshness_check_uses_clock (os : SystemClock) : outcome unit :=
  let clock := test_clock_new os in
  let synced_at := now clock in
  let clock := advance clock (from_secs 10) in
  assert (from_secs 10 <=? duration_since (now clock) synced_at).

Definition test_08_in_memory_persistence_round_trip : outcome unit :=
  let state := mkStateObject (mkGeneration 1 5) 1 "hello world"%string 1000 2000 in
  let '(persist, saved) := persist_save (in_memory_new (S := string)) state None in
  unwrap_ok saved;;
  loaded ← unwrap_ok (persist_load persist);
  loaded ← unwrap loaded;
  assert_eq (so_value loaded) "hello world"%string;;
  assert_eq (so_age loaded) 5;;
  assert_eq (so_incarnation loaded) 1;;
  assert_eq (so_storage_version loaded) 1;;
  assert_eq (so_created_time loaded) 1000;;
  assert_eq (so_modified_time loaded) 2000.

Definition test_09_failing_persistence_always_returns_error : outcome unit :=
  let state := mkStateObject (mkGeneration 1 0) 1 "test"%string 0 0 in
  let '(persist, save_result) := persist_save mkFailing state None in
  assert (is_err save_result);;
  assert (is_err (persist_load (S := string) persist)).

Definition test_10_in_memory_persistence_load_returns_none_initially : outcome unit :=
  loaded ← unwrap_ok (persist_load (in_memory_new (S := string)));
  assert_eq (so_age <$> loaded) None.

Definition clock_and_doubles_tests : list (outcome unit) :=
  [test_01_test_clock_starts_frozen; test_02_test_clock_advances_on_demand;
   test_03_injected_clock_controls_time; test_04_freshness_check_uses_clock (mkSystemClock 0 0);
   test_08_in_memory_persistence_round_trip; test_09_failing_persistence_always_returns_error;
   test_10_in_memory_persistence_load_returns_none_initially].

(** ** [envelope_tests.rs]; [Instant::now()] is a parameter *)

Definition object (inc a storage created modified : Z) : StateObject string :=
  mkStateObject (mkGeneration inc a) storage "test"%string created modified.
Definition view_object (inc a wire : Z) (synced_at : Instant) (source : nat) :
    StateViewObject string :=
  mkStateViewObject (mkGeneration inc a) wire "test"%string 1000 2000 synced_at None (node source).

Definition env_01_state_object_age_starts_at_0 : outcome unit :=
  assert_eq (so_age (object 100 0 1 1000 1000)) 0.

Definition env_02_state_object_timestamps_set_correctly : outcome unit :=
  let obj := object 100 1 1 1000 2000 in
  assert_eq (so_created_time obj) 1000;;
  assert_eq (so_modified_time obj) 2000.

(** The second reading of the clock, by [elapsed()], is [later]. *)
Definition env_03_state_view_object_tracks_synced_at (now later : Instant) : outcome unit :=
  let view := view_object 100 5 1 now 1 in
  assert (as_millis (duration_since later (vo_synced_at view)) <? 100).

Definition env_04_storage_version_set : outcome unit :=
  assert_eq (so_storage_version (object 100 0 2 1000 1000)) 2.

Definition env_05_wire_version_set (now : Instant) : outcome unit :=
  assert_eq (vo_wire_version (view_object 100 1 3 now 1)) 3.

Definition env_06_incarnation_in_state_object : outcome unit :=
  assert_eq (so_incarnation (object 42 0 1 1000 1000)) 42.

Definition env_07_incarnation_propagated_to_view (now : Instant) : outcome unit :=
  let obj := object 42 5 1 1000 2000 in
  let view := mkStateViewObject (so_generation obj) 1 "test"%string (so_created_time obj)
    (so_modified_time obj) now None (node 0) in
  assert_eq (incarnation (vo_generation view)) (so_incarnation obj).

Definition env_08_pending_remote_generation_tracks_restarts (now : Instant) : outcome unit :=
  let view := view_object 1 100 1 now 1 in
  let view := set_pending view (Some (mkGeneration 2 0)) in
  pending ← unwrap (vo_pending_remote_generation view);
  assert (incarnation (vo_generation view) <? incarnation pending).

Definition envelope_tests : list (outcome unit) :=
  [env_01_state_object_age_starts_at_0; env_02_state_object_timestamps_set_correctly;
   env_03_state_view_object_tracks_synced_at 0 (from_millis 1); env_04_storage_version_set;
   env_05_wire_version_set 0; env_06_incarnation_in_state_object;
   env_07_incarnation_propagated_to_view 0;
   env_08_pending_remote_generation_tracks_restarts 0].

(** ** [error_tests.rs] *)

Definition err_01_state_not_registered_propagates_through_query_error : outcome unit :=
  match query_error_from (StateNotRegistered "my_state") with
  | QueryRegistry (StateNotRegistered name) => assert_eq name "my_state"%string
  | _ => Panicked "expected Registry(StateNotRegistered)"
  end.

Definition err_02_type_mismatch_propagates_through_query_error : outcome unit :=
  match query_error_from (TypeMismatch "x" "TypeA" "TypeB") with
  | QueryRegistry (TypeMismatch name expected actual) =>
      assert_eq name "x"%string;;
      assert_eq expected "TypeA"%string;;
      assert_eq actual "TypeB"%string
  | _ => Panicked "expected Registry(TypeMismatch)"
  end.

Definition stale_peer_error_includes_node_id (display_node : NodeId → string) : outcome unit :=
  let msg := query_error_display display_node (QueryStalePeer (node 42) "unreachable") in
  assert (str_contains msg "42");;
  assert (str_contains msg "unreachable").

Definition mutation_error_persistence_failed : outcome unit :=
  assert (str_contains (mutation_error_display (PersistenceFailed "disk full")) "disk full").

Definition error_tests : list (outcome unit) :=
  [err_01_state_not_registered_propagates_through_query_error;
   err_02_type_mismatch_propagates_through_query_error;
   stale_peer_error_includes_node_id node_str; mutation_error_persistence_failed].

(** ** [registry_tests.rs]: two types of shards; the counters a test shares with a shard by
    [Arc] are read from the registered shard *)

Record TestShard : Type := mkTestShard {
  sh_name : string;
  joined_count : Z;
  left_count : Z;
  stale_count : Z
}.
Definition TestShard_new (name : string) : TestShard := mkTestShard name 0 0 0.
Record OtherShard : Type := mkOtherShard { other_name : string }.

Inductive ShardType : Type := TTestShard | TOtherShard.
Global Instance ShardType_eq_dec : EqDecision ShardType.
Proof. solve_decision. Defined.

Definition shard_type (t : ShardType) : Type :=
  match t with TTestShard => TestShard | TOtherShard => OtherShard end.
Definition shard_type_name (t : ShardType) : string :=
  match t with TTestShard => "TestShard" | TOtherShard => "OtherShard" end.

Local Abbreviation shard_class := (AnyStateShard shard_type).

(** [AtomicU32::fetch_add] wraps. *)
Definition bump32 (z : Z) : Z := (z + 1) mod u32_modulus.

Definition TestShard_shard : shard_class TestShard := {|
  shard_state_name := sh_name;
  shard_node_joined s _ :=
    mkTestShard (sh_name s) (bump32 (joined_count s)) (left_count s) (stale_count s);
  shard_node_left s _ :=
    mkTestShard (sh_name s) (joined_count s) (bump32 (left_count s)) (stale_count s);
  shard_mark_stale s _ _ _ :=
    mkTestShard (sh_name s) (joined_count s) (left_count s) (bump32 (stale_count s));
  as_any s := existT TTestShard s
|}.
Definition OtherShard_shard : shard_class OtherShard := {|
  shard_state_name := other_name;
  shard_node_joined s _ := s;
  shard_node_left s _ := s;
  shard_mark_stale s _ _ _ := s;
  as_any s := existT TOtherShard s
|}.
Global Instance shard_type_shard (t : ShardType) : shard_class (shard_type t) :=
  match t with TTestShard => TestShard_shard | TOtherShard => OtherShard_shard end.

Local Abbreviation registry := (StateRegistry shard_type).

Definition registered (r : registry) (name : string) : outcome registry :=
  let '(r, res) := register shard_type r TTestShard (TestShard_new name) in
  unwrap_ok res;;
  Done r.
Definition registered_all (names : list string) : outcome registry :=
  foldl (λ r name, r ← r; registered r name) (Done (registry_new shard_type)) names.
Definition counters (r : registry) (name : string) : outcome TestShard :=
  unwrap_ok (lookup_typed shard_type shard_type_name r TTestShard name).

Definition reg_01_register_and_lookup : outcome unit :=
  r ← registered (registry_new shard_type) "node_resource";
  found ← unwrap_ok (lookup_shard shard_type r "node_resource");
  assert_eq (shard_state_name shard_type (projT2 found)) "node_resource"%string.

Definition reg_02_lookup_not_found : outcome unit :=
  match lookup_shard shard_type (registry_new shard_type) "nonexistent" with
  | Err (StateNotRegistered _) => Done ()
  | Err _ => Panicked "expected StateNotRegistered"
  | Ok _ => Panicked "expected error, got Ok"
  end.

Definition reg_03_lookup_typed_mismatch : outcome unit :=
  r ← registered (registry_new shard_type) "my_state";
  let result := lookup_typed shard_type shard_type_name r TOtherShard "my_state" in
  assert (is_err result);;
  e ← unwrap_err result;
  assert (match e with TypeMismatch _ _ _ => true | _ => false end).

Definition reg_04_lookup_typed_correct : outcome unit :=
  r ← registered (registry_new shard_type) "my_state";
  found ← unwrap_ok (lookup_typed shard_type shard_type_name r TTestShard "my_state");
  assert_eq (shard_state_name shard_type (found : shard_type TTestShard)) "my_state"%string.

Definition reg_04a_duplicate_name : outcome unit :=
  r ← registered (registry_new shard_type) "dup";
  e ← unwrap_err (register shard_type r TTestShard (TestShard_new "dup")).2;
  assert (match e with DuplicateName _ => true | _ => false end).

Definition reg_05_broadcast_node_joined : outcome unit :=
  r ← registered_all ["s1"; "s2"; "s3"]%string;
  let r := broadcast_node_joined shard_type r (node 42) in
  for_each ["s1"; "s2"; "s3"]%string (λ name,
    s ← counters r name; assert_eq (joined_count s) 1).

Definition reg_06_broadcast_node_left : outcome unit :=
  r ← registered_all ["s1"; "s2"]%string;
  let r := broadcast_node_left shard_type r (node 7) in
  for_each ["s1"; "s2"]%string (λ name,
    s ← counters r name; assert_eq (left_count s) 1).

Definition sort_names : list string → list string :=
  merge_sort (λ a b, Is_true (String.leb a b)).

Definition reg_07_len_and_state_names : outcome unit :=
  let r := registry_new shard_type in
  assert (registry_is_empty shard_type r);;
  assert_eq (registry_len shard_type r) 0%nat;;
  r ← registered_all ["alpha"; "beta"]%string;
  assert_eq (registry_len shard_type r) 2%nat;;
  assert (negb (registry_is_empty shard_type r));;
  assert_eq (sort_names (state_names shard_type r)) ["alpha"; "beta"]%string.

(** [StateRegistry::default] is [StateRegistry::new]. *)
Definition registry_default : outcome unit :=
  assert (registry_is_empty shard_type (registry_new shard_type)).

Definition registry_tests : list (outcome unit) :=
  [reg_01_register_and_lookup; reg_02_lookup_not_found; reg_03_lookup_typed_mismatch;
   reg_04_lookup_typed_correct; reg_04a_duplicate_name; reg_05_broadcast_node_joined;
   reg_06_broadcast_node_left; reg_07_len_and_state_names; registry_default].

(** ** [state_model_tests.rs] *)

Local Abbreviation wire_version := (ds_wire_version (S := TestState)).
Local Abbreviation delta_wire_version := (dds_wire_version (S := TestDeltaInner) (DC := TestChange)).
Local Abbreviation project_inner := (project_view (S := TestDeltaInner) (DC := TestChange)).
Local Abbreviation project_change := (project_delta (S := TestDeltaInner) (DC := TestChange)).
Local Abbreviation apply := (apply_delta (S := TestDeltaInner) (DC := TestChange)).

Definition sm_01_serialize_deserialize_round_trip : outcome unit :=
  let state := mkTestState 42 "hello" in
  recovered ← unwrap_ok (ds_deserialize_state (ds_serialize_state state) wire_version);
  assert_eq state recovered.

Definition sm_02_deserialize_rejects_unknown_wire_version : outcome unit :=
  let result := ds_deserialize_state (S := TestState)
    (ds_serialize_state (mkTestState 1 "x")) 999 in
  assert (is_err result);;
  e ← unwrap_err result;
  match e with
  | UnknownVersion v => assert_eq v 999
  | _ => Panicked "expected UnknownVersion"
  end.

Definition sm_03_state_is_fully_public : outcome unit :=
  let state := mkTestState 100 "visible" in
  peer_view ← unwrap_ok (ds_deserialize_state (S := TestState)
    (ds_serialize_state state) wire_version);
  assert_eq (ts_counter peer_view) 100;;
  assert_eq (ts_label peer_view) "visible"%string.

Definition dsm_01_project_view_extracts_public_fields_only : outcome unit :=
  let view := project_inner (mkTestDeltaStateInner 10 "pub" (999 # 10)) in
  assert_eq (tdv_counter view) 10;;
  assert_eq (tdv_label view) "pub"%string.

Definition dsm_02_project_delta_converts_change_to_view_delta : outcome unit :=
  let delta := project_change (mkTestDeltaChange 5 (Some "updated"%string) (1 # 1)) in
  assert_eq (tvd_counter_delta delta) 5;;
  assert_eq (tvd_new_label delta) (Some "updated"%string).

Definition dsm_03_project_delta_apply_delta_round_trip : outcome unit :=
  let old_state := mkTestDeltaStateInner 10 "old" (0 # 1) in
  let change := mkTestDeltaChange 3 (Some "new"%string) (1 # 1) in
  let new_state := mkTestDeltaStateInner 13 "new" (1 # 1) in
  let old_view := project_inner old_state in
  let delta := project_change change in
  let applied_view := apply old_view delta in
  let expected_view := project_inner new_state in
  assert_eq applied_view expected_view.

Definition dsm_04_project_delta_filters_private_changes : outcome unit :=
  let delta := project_change (mkTestDeltaChange 0 None (42 # 1)) in
  assert_eq (tvd_counter_delta delta) 0;;
  assert_eq (tvd_new_label delta) None.

Definition dsm_05_multiple_deltas_compose_correctly : outcome unit :=
  let initial := mkTestDeltaStateInner 0 "start" (0 # 1) in
  let change1 := mkTestDeltaChange 5 None (1 # 1) in
  let change2 := mkTestDeltaChange 3 (Some "end"%string) (2 # 1) in
  let view := project_inner initial in
  let d1 := project_change change1 in
  let d2 := project_change change2 in
  let result := apply (apply view d1) d2 in
  let final_state := mkTestDeltaStateInner 8 "end" (3 # 1) in
  assert_eq result (project_inner final_state).

Definition dsm_06_apply_delta_advances_view : outcome unit :=
  let result := apply (mkTestDeltaView 10 "old")
    (mkTestDeltaViewDelta 5 (Some "new"%string)) in
  assert_eq (tdv_counter result) 15;;
  assert_eq (tdv_label result) "new"%string.

Local Abbreviation serialize_view := (dds_serialize_view (S := TestDeltaInner) (DC := TestChange)).
Local Abbreviation deserialize_view := (dds_deserialize_view (S := TestDeltaInner) (DC := TestChange)).
Local Abbreviation serialize_delta := (dds_serialize_delta (S := TestDeltaInner) (DC := TestChange)).
Local Abbreviation deserialize_delta := (dds_deserialize_delta (S := TestDeltaInner) (DC := TestChange)).

Definition dsm_07_serialize_deserialize_view_round_trip : outcome unit :=
  let view := mkTestDeltaView 42 "hello" in
  recovered ← unwrap_ok (deserialize_view (serialize_view view) delta_wire_version);
  assert_eq view recovered.

Definition dsm_08_serialize_deserialize_delta_round_trip : outcome unit :=
  let delta := mkTestDeltaViewDelta (-3) (Some "changed"%string) in
  recovered ← unwrap_ok (deserialize_delta (serialize_delta delta) delta_wire_version);
  assert_eq delta recovered.

Definition dsm_09_deserialize_view_rejects_unknown_version : outcome unit :=
  assert (is_err (deserialize_view (serialize_view (mkTestDeltaView 1 "x")) 999)).

Definition dsm_10_deserialize_delta_rejects_unknown_version : outcome unit :=
  assert (is_err (deserialize_delta (serialize_delta (mkTestDeltaViewDelta 1 None)) 999)).

Definition state_model_tests : list (outcome unit) :=
  [sm_01_serialize_deserialize_round_trip; sm_02_deserialize_rejects_unknown_wire_version;
   sm_03_state_is_fully_public; dsm_01_project_view_extracts_public_fields_only;
   dsm_02_project_delta_converts_change_to_view_delta;
   dsm_03_project_delta_apply_delta_round_trip; dsm_04_project_delta_filters_private_changes;
   dsm_05_multiple_deltas_compose_correctly; dsm_06_apply_delta_advances_view;
   dsm_07_serialize_deserialize_view_round_trip;
   dsm_08_serialize_deserialize_delta_round_trip;
   dsm_09_deserialize_view_rejects_unknown_version;
   dsm_10_deserialize_delta_rejects_unknown_version].

(** ** [sync_integration_tests.rs] *)

(** The three public fields of a strategy the tests read. *)
Definition strategy_is (s : SyncStrategy) (mode : option PushMode) (periodic : option Duration)
    (pull : bool) : outcome unit :=
  assert_eq (push_mode s) mode;;
  assert_eq (periodic_full_sync s) periodic;;
  assert_eq (pull_on_query s) pull.

Definition active_push_strategy_defaults : outcome unit :=
  strategy_is active_push (Some ActivePush) None false.
Definition feed_lazy_pull_strategy_defaults : outcome unit :=
  strategy_is feed_lazy_pull (Some ActiveFeedLazyPull) None true.
Definition feed_with_periodic_sync_strategy : outcome unit :=
  strategy_is (feed_with_periodic_sync (from_secs 300)) (Some ActiveFeedLazyPull)
    (Some (from_secs 300)) true.
Definition periodic_only_strategy : outcome unit :=
  strategy_is (periodic_only (from_secs 600)) None (Some (from_secs 600)) false.

(** The fields of a message, as the tests take them apart. *)
Definition snapshot_fields (msg : SyncMessage) (name : string) (source : nat) (g : Generation)
    (wire : Z) (payload : bytes) : outcome unit :=
  match msg with
  | FullSnapshot state_name source_node generation wire_version data =>
      assert_eq state_name name;;
      assert_eq source_node (node source);;
      assert_eq generation g;;
      assert_eq wire_version wire;;
      assert_eq data payload
  | _ => Panicked "expected FullSnapshot"
  end.
Definition request_fields (msg : SyncMessage) (name : string) (who : nat) : outcome unit :=
  match msg with
  | RequestSnapshot state_name requester =>
      assert_eq state_name name;;
      assert_eq requester (node who)
  | _ => Panicked "expected RequestSnapshot"
  end.

Definition sync_message_full_snapshot_fields : outcome unit :=
  snapshot_fields (FullSnapshot "counters" (node 1) (mkGeneration 1 5) 1 [1; 2; 3])
    "counters" 1 (mkGeneration 1 5) 1 [1; 2; 3].

Definition sync_message_delta_update_fields : outcome unit :=
  match DeltaUpdate "sessions" (node 2) (mkGeneration 1 10) 1 [4; 5; 6] with
  | DeltaUpdate state_name source_node generation _ _ =>
      assert_eq state_name "sessions"%string;;
      assert_eq source_node (node 2);;
      assert_eq generation (mkGeneration 1 10)
  | _ => Panicked "expected DeltaUpdate"
  end.

Definition sync_message_request_snapshot_fields : outcome unit :=
  request_fields (RequestSnapshot "counters" (node 3)) "counters" 3.

Definition counters_and_sessions (relay : nat) (sessions : Generation) (a : Z) :
    BatchedChangeFeed :=
  mkBatchedChangeFeed (node relay)
    [mkChangeNotification "counters" (node 2) (mkGeneration 1 a);
     mkChangeNotification "sessions" (node 3) sessions].

(** [v[i]] on a [Vec]. *)
Definition index {A} (l : list A) (i : nat) : outcome A := expect (l !! i) "index out of bounds".

Definition batched_change_feed_construction : outcome unit :=
  let batch := counters_and_sessions 1 (mkGeneration 2 5) 10 in
  assert_eq (bf_source_node batch) (node 1);;
  assert_eq (length (bf_notifications batch)) 2%nat;;
  n0 ← index (bf_notifications batch) 0;
  assert_eq (cn_state_name n0) "counters"%string;;
  n1 ← index (bf_notifications batch) 1;
  assert_eq (cn_state_name n1) "sessions"%string.

Definition change_notification_generation_ordering : outcome unit :=
  let older := mkGeneration 1 5 in
  let newer := mkGeneration 1 10 in
  let new_incarnation := mkGeneration 2 1 in
  assert (generation_ltb older newer);;
  assert (generation_ltb newer new_incarnation);;
  assert (generation_ltb older new_incarnation).

Definition wire_to_change_feed_scenario : outcome unit :=
  let self_node := node 1 in
  let batch := counters_and_sessions 5 (mkGeneration 1 15) 20 in
  assert (negb (bool_decide (bf_source_node batch = self_node)));;
  let state_names := cn_state_name <$> bf_notifications batch in
  assert (bool_decide ("counters"%string ∈ state_names));;
  assert (bool_decide ("sessions"%string ∈ state_names)).

Definition sync_integration_tests : list (outcome unit) :=
  [active_push_strategy_defaults; feed_lazy_pull_strategy_defaults;
   feed_with_periodic_sync_strategy; periodic_only_strategy;
   sync_message_full_snapshot_fields; sync_message_delta_update_fields;
   sync_message_request_snapshot_fields; batched_change_feed_construction;
   change_notification_generation_ordering; wire_to_change_feed_scenario].

(** ** [wire_protocol_tests.rs] *)

Local Instance sync_bits : Bincode SyncMessage := bit_codec.
Local Instance feed_bits : Bincode BatchedChangeFeed := bit_codec.

(** [bincode::deserialize(&bincode::serialize(&msg))]. *)
Definition recoded {A} `{Bincode A} (a : A) : outcome A :=
  unwrap_ok (bincode_deserialize (bincode_serialize a)).

Definition full_snapshot_round_trip : outcome unit :=
  decoded ← recoded (FullSnapshot "node_resource" (node 42) (mkGeneration 3 15) 2 [1; 2; 3; 4]);
  snapshot_fields decoded "node_resource" 42 (mkGeneration 3 15) 2 [1; 2; 3; 4].

Definition delta_update_round_trip : outcome unit :=
  decoded ← recoded (DeltaUpdate "session_map" (node 7) (mkGeneration 1 100) 1 [10; 20; 30]);
  match decoded with
  | DeltaUpdate state_name source_node generation wire_version data =>
      assert_eq state_name "session_map"%string;;
      assert_eq source_node (node 7);;
      assert_eq generation (mkGeneration 1 100);;
      assert_eq wire_version 1;;
      assert_eq data [10; 20; 30]
  | _ => Panicked "expected DeltaUpdate"
  end.

Definition notification_is (feed : BatchedChangeFeed) (i : nat) (name : string) (source : nat)
    (g : Generation) : outcome unit :=
  n ← index (bf_notifications feed) i;
  assert_eq (cn_state_name n) name;;
  assert_eq (cn_source_node n) (node source);;
  assert_eq (cn_generation n) g.

Definition batched_change_feed_round_trip : outcome unit :=
  let feed := mkBatchedChangeFeed (node 1)
    [mkChangeNotification "alpha" (node 1) (mkGeneration 1 0);
     mkChangeNotification "beta" (node 2) (mkGeneration 2 5);
     mkChangeNotification "gamma" (node 3) (mkGeneration 0 99)] in
  decoded ← recoded feed;
  assert_eq (bf_source_node decoded) (node 1);;
  assert_eq (length (bf_notifications decoded)) 3%nat;;
  notification_is decoded 0 "alpha" 1 (mkGeneration 1 0);;
  notification_is decoded 1 "beta" 2 (mkGeneration 2 5);;
  notification_is decoded 2 "gamma" 3 (mkGeneration 0 99).

Definition request_snapshot_round_trip : outcome unit :=
  decoded ← recoded (RequestSnapshot "cluster_config" (node 99));
  request_fields decoded "cluster_config" 99.

Definition empty_data_round_trip : outcome unit :=
  decoded ← recoded (FullSnapshot "empty_state" (node 0) (mkGeneration 0 0) 1 []);
  match decoded with
  | FullSnapshot _ _ _ _ data => assert (bool_decide (data = []))
  | _ => Panicked "expected FullSnapshot"
  end.

(** [(0u8..=255).cycle().take(10 * 1024)]. *)
Definition cycled_bytes : bytes := mjoin (replicate 40 (seqZ 0 256)).

Definition large_payload_round_trip : outcome unit :=
  let payload := cycled_bytes in
  decoded ← recoded (FullSnapshot "big_state" (node 5) (mkGeneration 10 500) 3 payload);
  snapshot_fields decoded "big_state" 5 (mkGeneration 10 500) 3 payload;;
  match decoded with
  | FullSnapshot _ _ _ _ data => assert_eq (length data) (Z.to_nat (10 * 1024))
  | _ => Panicked "expected FullSnapshot"
  end.

Definition wire_protocol_tests : list (outcome unit) :=
  [full_snapshot_round_trip; delta_update_round_trip; batched_change_feed_round_trip;
   request_snapshot_round_trip; empty_data_round_trip; large_payload_round_trip].

(** ** [state_actor_tests.rs]

    A run of the actor framework: the actors handle one message at a time from a common
    queue, in the order in which the messages were sent.  Letting messages propagate is
    running the queue empty; [fuel] bounds the messages of one such run. *)

Local Abbreviation actor := (StateActor TestState TestState (ViewMap TestState)).
Local Abbreviation message := (ActorMsg TestState TestState).

Record TestCluster : Type := mkTestCluster {
  tc_actors : gmap NodeId actor;
  tc_peers : gmap NodeId NodeId;
  tc_queue : list (NodeId * message);
  tc_clock : TestClock
}.

Definition tell (c : TestCluster) (id : NodeId) (msg : message) : TestCluster :=
  mkTestCluster (tc_actors c) (tc_peers c) (tc_queue c ++ [(id, msg)]) (tc_clock c).

(** What a handler sent; a spawned task is not due in these tests. *)
Definition sent (eff : Effect NodeId) : list (NodeId * message) :=
  match eff with
  | SentSync to m => [(to, MsgInboundSync m)]
  | SentWire to m => [(to, MsgInboundWire m)]
  | Spawned _ => []
  end.

Definition deliver (c : TestCluster) (id : NodeId) (msg : message) :
    outcome (TestCluster * option (QueryReply TestState)) :=
  a ← unwrap (tc_actors c !! id);
  '(a, peers, effs, reply) ← actor_handle a (tc_peers c) msg (tc_clock c);
  Done (mkTestCluster (<[id := a]> (tc_actors c)) peers
          (tc_queue c ++ (effs ≫= sent)) (tc_clock c), reply).

Fixpoint propagate (fuel : nat) (c : TestCluster) : outcome TestCluster :=
  match tc_queue c, fuel with
  | [], _ => Done c
  | (id, msg) :: queue, Datatypes.S fuel =>
      '(c, _) ← deliver (mkTestCluster (tc_actors c) (tc_peers c) queue (tc_clock c)) id msg;
      propagate fuel c
  | _ :: _, 0%nat => Panicked "messages left"
  end.
Definition sleep : TestCluster → outcome TestCluster := propagate 1000.

Definition actor_engine (node_id : string) (clock : TestClock) (config : StateConfig) :
    DistributedStateEngine TestState TestState (ViewMap TestState) :=
  engine_new (ds_name (S := TestState)) (mkNodeId node_id) TestState_default (λ s, s) config
    wire_version clock bincode_serialize (versioned_deserialize wire_version) None.

Definition setup_cluster (node_ids : list string) (config : StateConfig) : outcome TestCluster :=
  let clock := clock_at 1000000 in
  let spawned := foldl (λ c id,
    let node_id := mkNodeId id in
    mkTestCluster (<[node_id := actor_create (actor_engine id clock config)]> (tc_actors c))
      (<[node_id := node_id]> (tc_peers c)) (tc_queue c) (tc_clock c))
    (mkTestCluster ∅ new_peer_registry [] clock) node_ids in
  let announced := foldl (λ c id, foldl (λ c peer_id,
      if bool_decide (peer_id = id) then c
      else tell c (mkNodeId id) (MsgClusterChange (NodeJoined (mkNodeId peer_id) TestState_default)))
    c node_ids) spawned node_ids in
  sleep announced.

Definition mutate_actor (c : TestCluster) (id : string) (value : Z) : TestCluster :=
  tell c (mkNodeId id) (MsgMutate (set_counter value) (λ s, s) UrgencyDefault).

(** [ask] queues the query like any message; the reply is that of its handler. *)
Definition query_actor (c : TestCluster) (id : string) :
    outcome (TestCluster * gmap NodeId (StateViewObject TestState)) :=
  c ← sleep c;
  '(c, reply) ← deliver c (mkNodeId id) (MsgQueryViews (from_secs 60));
  reply ← unwrap reply;
  Done (c, qr_views reply).

Definition actor_config : StateConfig :=
  mkStateConfig active_push (pull_timeout StateConfig_default)
    (version_mismatch_policy StateConfig_default).

Definition shows (views : gmap NodeId (StateViewObject TestState)) (id : string) (value : Z) :
    outcome unit :=
  view ← unwrap (views !! mkNodeId id);
  assert_eq (ts_counter (vo_value view)) value.

Definition state_actor_mutate_and_sync : outcome unit :=
  c ← setup_cluster ["a"; "b"; "c"] actor_config;
  c ← sleep (mutate_actor c "a" 42);
  '(c, views_b) ← query_actor c "b";
  shows views_b "a" 42;;
  '(c, views_c) ← query_actor c "c";
  shows views_c "a" 42.

Definition state_actor_multi_node_mutations : outcome unit :=
  c ← setup_cluster ["a"; "b"] actor_config;
  c ← sleep (mutate_actor (mutate_actor c "a" 10) "b" 20);
  '(c, views_a) ← query_actor c "a";
  '(c, views_b) ← query_actor c "b";
  shows views_a "a" 10;; shows views_a "b" 20;;
  shows views_b "a" 10;; shows views_b "b" 20.

Definition state_actor_node_departure : outcome unit :=
  c ← setup_cluster ["a"; "b"; "c"] actor_config;
  c ← sleep (mutate_actor (mutate_actor (mutate_actor c "a" 1) "b" 2) "c" 3);
  let c_id := mkNodeId "c" in
  let c := tell c (mkNodeId "a") (MsgClusterChange (NodeLeft c_id)) in
  let c := tell c (mkNodeId "b") (MsgClusterChange (NodeLeft c_id)) in
  c ← sleep c;
  '(c, views_a) ← query_actor c "a";
  assert (negb (bool_decide (is_Some (views_a !! c_id)))).

Definition state_actor_query_returns_all_views : outcome unit :=
  c ← setup_cluster ["x"; "y"] actor_config;
  '(c, views) ← query_actor c "x";
  assert (bool_decide (is_Some (views !! mkNodeId "x")));;
  assert (bool_decide (is_Some (views !! mkNodeId "y"))).

Definition state_actor_tests : list (outcome unit) :=
  [state_actor_mutate_and_sync; state_actor_multi_node_mutations;
   state_actor_node_departure; state_actor_query_returns_all_views].

(** ** All of them pass *)

Example clock_and_doubles_tests_pass : failures clock_and_doubles_tests = [].
Proof. vm_compute. reflexivity. Qed.
Example envelope_tests_pass : failures envelope_tests = [].
Proof. vm_compute. reflexivity. Qed.
Example error_tests_pass : failures error_tests = [].
Proof. vm_compute. reflexivity. Qed.
Example registry_tests_pass : failures registry_tests = [].
Proof. vm_compute. reflexivity. Qed.
Example state_model_tests_pass : failures state_model_tests = [].
Proof. vm_compute. reflexivity. Qed.
Example sync_integration_tests_pass : failures sync_integration_tests = [].
Proof. vm_compute. reflexivity. Qed.
Example wire_protocol_tests_pass : failures wire_protocol_tests = [].
Proof. vm_compute. reflexivity. Qed.
Example state_actor_tests_pass : failures state_actor_tests = [].
Proof. vm_compute. reflexivity. Qed.
