(* ===== verification/Scenarios.v ===== *)
(** Concrete runs: the theorems at inputs where their hypotheses hold, with every
    parameter instantiated.  The nodes are ["0"] and ["1"], the state is a counter that
    is its own view, the clock is the test clock. *)
From stdpp Require Import prelude gmap fin_maps strings relations.
From S2P Require Import Prelude Node Clock Types ViewMap ShardCore ShardProps SyncLogic.
From S2P Require Import ChangeFeed Versioning Startup Lifecycle Diagnostics Engine EngineProps.
From S2P Require Import Accounting Protocol Network Traits Registry StateActor Interceptor.
From S2P Require Import Transport Readers NodeResource ClusterEvents Durable.

Local Existing Instance map_to_list_iter.

Definition node0 : NodeId := mkNodeId "0".
Definition node1 : NodeId := mkNodeId "1".
Definition time0 : TestClock := with_base_unix_ms 0 1000000.
Definition time1 : TestClock := advance time0 (from_millis 100).

(** ** A shard *)
Definition counter_shard : ShardCore Z (ViewMap Z) :=
  shard_new node0 (new_state_object 5 1000000 time0) 5 time0.
(** Node 1 joined and has not synchronised. *)
Definition joined_shard : ShardCore Z (ViewMap Z) := shard_on_node_joined counter_shard node1 0 time0.
(** The snapshot of node 1 after [n] mutations. *)
Definition peer_snapshot (n : Z) : InboundSnapshot Z :=
  mkInboundSnapshot node1 (generation_new 1000000 n) 1 (10 * n) 0 0.
Definition synced_shard : ShardCore Z (ViewMap Z) :=
  (accept_inbound_snapshot joined_shard (peer_snapshot 1) time0).1.

Lemma counter_shard_inv : shard_inv (λ s, s) counter_shard.
Proof. apply (shard_new_inv (λ s, s)). Qed.
Lemma joined_shard_reach : shard_step (C:=TestClock) (λ s, s) counter_shard joined_shard.
Proof. apply step_join. Qed.
Lemma synced_shard_reach : shard_step (C:=TestClock) (λ s, s) joined_shard synced_shard.
Proof. by apply step_snapshot. Qed.
Lemma joined_shard_inv : shard_inv (λ s, s) joined_shard.
Proof. eapply shard_step_inv; [apply counter_shard_inv|apply joined_shard_reach]. Qed.
Lemma synced_shard_inv : shard_inv (λ s, s) synced_shard.
Proof. eapply shard_step_inv; [apply joined_shard_inv|apply synced_shard_reach]. Qed.
Lemma joined_shard_wf : shard_wf joined_shard.
Proof. apply joined_shard_inv. Qed.
Lemma synced_shard_wf : shard_wf synced_shard.
Proof. apply synced_shard_inv. Qed.

(** A snapshot that names node 0 itself makes its own view wrong; the next mutation makes it
    right again, and what other nodes send afterwards leaves it right. *)
Definition overwritten_shard : ShardCore Z (ViewMap Z) :=
  (accept_inbound_snapshot counter_shard
    (mkInboundSnapshot node0 (generation_new 2000000 0) 1 99 0 0) time0).1.
Definition healed_shard : ShardCore Z (ViewMap Z) :=
  (apply_mutation overwritten_shard Z.succ (λ s, s) time1).1.

Lemma shard_reachable_invariant_witness :
  (vo_value <$> get_view overwritten_shard node0) = Some 99 ∧
  own_view_exact (λ s, s) (shard_on_node_joined healed_shard node1 0 time1) ∧
  own_view_exact (λ s, s) synced_shard.
Proof.
  assert (rtc (shard_calls (C:=TestClock) (λ _, True)) counter_shard overwritten_shard) as Hr.
  { apply rtc_once. eexists. split; [exact I|]. apply do_snapshot. }
  destruct (shard_reachable_invariant (λ s, s) node0 (new_state_object 5 1000000 time0) 5 time0
    overwritten_shard Hr) as (_ & _ & _ & Hexact & Hheal).
  split; [reflexivity|]. split.
  - apply (Hheal Z.succ time1). apply rtc_once, step_join.
  - apply Hexact; [reflexivity|].
    eapply rtc_l; [apply joined_shard_reach|]. apply rtc_once, synced_shard_reach.
Defined.

Lemma two_phase_mutation_witness :
  ∃ msg, commit_mutation (apply_mutations (λ s, s) counter_shard [(Z.succ, time0)])
    (prepare_mutation counter_shard Z.succ (λ s, s) time0) time0 = Panicked msg.
Proof.
  destruct (two_phase_mutation (DC:=Z) (VD:=Z) counter_shard Z.succ (λ s, (s, s)) (λ s, s) (λ s, s)
    time0) as (_ & _ & Hp).
  apply (Hp [(Z.succ, time0)]); vm_compute; split; congruence.
Defined.

Lemma accept_inbound_snapshot_spec_witness :
  shard_wf joined_shard ∧
  (accept_inbound_snapshot joined_shard (peer_snapshot 1) time0).2 = Accepted ∧
  contents synced_shard !! node1 =
    Some (snapshot_entry (peer_snapshot 1) 0 (Some (generation_new 1 0))).
Proof.
  assert (accept_inbound_snapshot joined_shard (peer_snapshot 1) time0 = (synced_shard, Accepted))
    as Hr by (vm_compute; reflexivity).
  split; [apply joined_shard_wf|]. split; [by rewrite Hr|].
  destruct (accept_inbound_snapshot_spec joined_shard synced_shard (peer_snapshot 1) time0 Accepted
    joined_shard_wf Hr) as (_ & _ & Hc & _).
  rewrite (Hc eq_refl). apply lookup_insert_eq.
Defined.

(** The same three snapshots, twice, in two orders. *)
Lemma snapshot_delivery_converges_witness :
  timeless <$> contents (deliver_snapshots joined_shard
    [(peer_snapshot 1, time0); (peer_snapshot 3, time0); (peer_snapshot 2, time1)]) =
  timeless <$> contents (deliver_snapshots joined_shard
    [(peer_snapshot 3, time1); (peer_snapshot 2, time0); (peer_snapshot 3, time0);
     (peer_snapshot 1, time1)]).
Proof.
  apply snapshot_delivery_converges; [apply joined_shard_wf|..].
  - intros s1 s2 H1 H2 _ Hg. simpl in *.
    repeat (apply elem_of_cons in H1 as [->|H1]); try (by apply elem_of_nil in H1);
    repeat (apply elem_of_cons in H2 as [->|H2]); try (by apply elem_of_nil in H2);
      first [reflexivity | discriminate Hg].
  - intros s. simpl. set_solver.
Defined.

Lemma accept_inbound_delta_spec_witness :
  (accept_inbound_delta synced_shard node1 (generation_new 1000000 2) 1 (Z.add 7) time1).2 =
    DeltaApplied ∧
  contents (accept_inbound_delta synced_shard node1 (generation_new 1000000 2) 1 (Z.add 7) time1).1
    !! node1 = Some (mkStateViewObject (generation_new 1000000 2) 1 17 0 1000100 100000000 None node1).
Proof.
  destruct (accept_inbound_delta_spec synced_shard
    (accept_inbound_delta synced_shard node1 (generation_new 1000000 2) 1 (Z.add 7) time1).1
    node1 (generation_new 1000000 2) 1 (Z.add 7) time1 DeltaApplied) as [_ Hr].
  - apply synced_shard_wf.
  - intros e. rewrite get_view_contents by apply synced_shard_wf. apply synced_shard_inv.
  - vm_compute. reflexivity.
  - split; [vm_compute; reflexivity|]. vm_compute. reflexivity.
Defined.

Lemma delta_chain_reconstructs_witness :
  ∃ e', contents (deliver_deltas synced_shard node1 1
      [(generation_new 1000000 2, Z.add 7, time0); (generation_new 1000000 3, Z.mul 2, time1)])
      !! node1 = Some e' ∧ vo_value e' = 34 ∧ vo_generation e' = generation_new 1000000 3.
Proof.
  edestruct (delta_chain_reconstructs
    [(generation_new 1000000 2, Z.add 7, time0); (generation_new 1000000 3, Z.mul 2, time1)]
    node1 1 synced_shard) as (e' & He & Hv & Hg & _).
  - apply synced_shard_wf.
  - vm_compute. reflexivity.
  - reflexivity.
  - simpl. split_and!; [vm_compute; reflexivity..|exact I].
  - exists e'. split; [exact He|]. split; [rewrite Hv|rewrite Hg]; reflexivity.
Defined.

Lemma generations_grow_witness :
  ∃ e e', contents joined_shard !! node1 = Some e ∧ contents synced_shard !! node1 = Some e' ∧
    vo_generation e ≤g vo_generation e'.
Proof.
  do 2 eexists. split; [|split].
  3: { eapply (generations_grow (λ s, s) joined_shard synced_shard node1);
    [apply joined_shard_inv|apply synced_shard_reach| | |].
    - vm_compute. reflexivity.
    - vm_compute. reflexivity.
    - vm_compute. split; congruence. }
  - vm_compute. reflexivity.
  - vm_compute. reflexivity.
Defined.

Lemma query_local_spec_witness :
  shard_wf joined_shard ∧
  query_local joined_shard (from_millis 50) size time1 = StalePeersDetected [node1] 2%nat ∧
  stale_peers joined_shard (from_millis 50) time1 ≡ₚ [node1].
Proof.
  split; [apply joined_shard_wf|]. split; [vm_compute; reflexivity|].
  destruct (query_local_spec joined_shard (from_millis 50) size time1 joined_shard_wf)
    as (_ & _ & Hs & _).
  rewrite Hs. vm_compute. reflexivity.
Defined.

(** Generation 3 of node 1 is announced, then 4; the snapshot of generation 2 arrives, and
    node 0 mutates.  The view has not reached generation 3, so node 1 is stale. *)
Definition announced_shard : ShardCore Z (ViewMap Z) := mark_stale synced_shard node1 1000000 3.
Definition behind_shard : ShardCore Z (ViewMap Z) :=
  (apply_mutation (accept_inbound_snapshot (mark_stale announced_shard node1 1000000 4)
    (peer_snapshot 2) time0).1 Z.succ (λ s, s) time1).1.

Lemma behind_reached :
  rtc (shard_calls (C:=TestClock) (keeps_announcement node1 (generation_new 1000000 3))) announced_shard behind_shard.
Proof.
  eapply rtc_l; [eexists; split; [|apply (do_mark_stale _ node1 1000000 4)]|].
  { intros _. gen_lia. }
  eapply rtc_l; [eexists; split; [|apply (do_snapshot _ (peer_snapshot 2) time0)]|].
  { by intros _. }
  apply rtc_once. eexists. split; [|apply (do_mutate _ Z.succ (λ s, s) time1)]. exact I.
Qed.

Lemma notification_stale_until_caught_up_witness :
  is_stale announced_shard (from_millis 1000) time0 node1 ∧
  is_stale behind_shard (from_millis 1000) time1 node1 ∧
  ¬ is_stale (accept_inbound_snapshot announced_shard (peer_snapshot 3) time0).1 (from_millis 1000) time0 node1.
Proof.
  edestruct (notification_stale_until_caught_up (C:=TestClock) synced_shard behind_shard node1) with
    (i := 1000000) (a := 3) as (H1 & H2 & H3).
  - apply (shard_inv_filed (λ s, s)), synced_shard_inv.
  - discriminate.
  - vm_compute. reflexivity.
  - vm_compute. split; congruence.
  - vm_compute. right. split; reflexivity.
  - exact behind_reached.
  - split; [exact (H1 _ _)|]. split.
    + destruct H2 as (vo & Hvo & [Hg|Hs]); [|exact (Hs _ _)].
      vm_compute in Hvo. injection Hvo as <-. exfalso. revert Hg. unfold gen_le. simpl. lia.
    + intros Hs. apply H3 in Hs; [|reflexivity|vm_compute; congruence]. revert Hs. unfold gen_lt. simpl. lia.
Defined.

(** The announcement of generation 3 is forgotten when the one of generation 2 arrives. *)
Lemma late_notification_forgets_newer_witness :
  ¬ is_stale (accept_inbound_snapshot
      (mark_stale (mark_stale synced_shard node1 1000000 3) node1 1000000 2)
      (peer_snapshot 2) time0).1 (from_millis 1000) time0 node1.
Proof.
  edestruct (late_notification_forgets_newer synced_shard node1) with
    (newer := generation_new 1000000 3) (older := generation_new 1000000 2)
    (snap := peer_snapshot 2) (clk := time0) (d := from_millis 1000) as [_ H2].
  - apply synced_shard_wf.
  - vm_compute. reflexivity.
  - vm_compute. right. split; reflexivity.
  - vm_compute. right. split; reflexivity.
  - reflexivity.
  - reflexivity.
  - vm_compute. congruence.
  - exact H2.
Defined.

Lemma join_then_snapshot_fresh_witness :
  is_stale joined_shard (from_millis 1000) time0 node1 ∧
  ¬ is_stale synced_shard (from_millis 1000) time0 node1.
Proof.
  edestruct (join_then_snapshot_fresh counter_shard node1 0 (peer_snapshot 1) time0 (from_millis 1000))
    as (_ & Hj & _).
  - apply counter_shard_inv.
  - reflexivity.
  - vm_compute. split; split; congruence.
  - reflexivity.
  - vm_compute. congruence.
  - destruct Hj as (H1 & _ & H2 & _); [discriminate|vm_compute; reflexivity|].
    split; [exact H1|exact H2].
Defined.

(** ** Concurrent readers *)

(** A snapshot that is not the contents of any one moment: the reader loads the cell of one
    node, then both are updated, then it loads the other cell. *)
Definition plain_view (id : NodeId) (n : Z) : StateViewObject Z :=
  mkStateViewObject (generation_new 1 n) 1 n 0 0 0 None id.
Definition system0 : system Z := sys_init node0 (plain_view node0 1).
Definition after_write (s : system Z) (op : ViewMapOp Z) : system Z :=
  let m := (run_op (memory s) op).1 in mkSystem m (threads s) (past s ++ [view_map_contents m]).
Definition after_start (s : system Z) (q : request) : system Z :=
  mkSystem (memory s) (<[0%nat := mkReader q (plan (memory s) q) [] (length (past s) - 1)]> (threads s))
    (past s).
Definition after_load (s : system Z) : system Z :=
  match threads s !! 0%nat with
  | Some r =>
      match rd_todo r with
      | (_, l) :: _ =>
          match cell_load (memory s) l with
          | Some v => mkSystem (memory s) (<[0%nat := load_next r v]> (threads s)) (past s)
          | None => s
          end
      | [] => s
      end
  | None => s
  end.

Lemma after_load_step s : rtc sys_step s (after_load s).
Proof.
  unfold after_load. destruct (threads s !! 0%nat) as [r|] eqn:Hr; [|apply rtc_refl].
  destruct (rd_todo r) as [|[k l] todo] eqn:Ht; [apply rtc_refl|].
  destruct (cell_load (memory s) l) as [v|] eqn:Hl; [|apply rtc_refl].
  apply rtc_once. by eapply sys_load.
Qed.

Definition both_there : system Z := after_write system0 (OpInsertNode node1 (plain_view node1 1)).
Definition half_read : system Z := after_load (after_start both_there ReadSnapshot).
Definition first_read : NodeId :=
  match threads half_read !! 0%nat with
  | Some r => match rd_done r with (k, _) :: _ => k | [] => node0 end
  | None => node0
  end.
Definition second_read : NodeId := if decide (first_read = node0) then node1 else node0.
Definition torn : system Z :=
  after_load (after_write (after_write half_read (OpUpdate first_read (plain_view first_read 2)))
    (OpUpdate second_read (plain_view second_read 2))).
Definition torn_reader : reader Z :=
  match threads torn !! 0%nat with Some r => r | None => mkReader ReadSnapshot [] [] 0 end.

Lemma torn_reach : rtc sys_step system0 torn.
Proof.
  transitivity both_there; [apply rtc_once, sys_write|].
  transitivity half_read.
  { transitivity (after_start both_there ReadSnapshot); [|apply after_load_step].
    apply rtc_once. apply (sys_start both_there 0%nat ReadSnapshot). reflexivity. }
  etrans; [apply rtc_once, sys_write|]. etrans; [apply rtc_once, sys_write|]. apply after_load_step.
Qed.

Lemma reads_are_linearizable_witness :
  (∃ c, past torn !! rd_start torn_reader = Some c ∧ dom (snapshot_result torn_reader) = dom c) ∧
  Forall (λ c, snapshot_result torn_reader ≠ c) (past torn).
Proof.
  split.
  - destruct (reads_are_linearizable node0 (plain_view node0 1) torn 0 torn_reader torn_reach)
      as [_ Hread]; [vm_compute; reflexivity|].
    assert (rd_request torn_reader = ReadSnapshot) as Hq by (vm_compute; reflexivity).
    assert (rd_todo torn_reader = []) as Ht by (vm_compute; reflexivity).
    rewrite Hq in Hread. destruct (Hread Ht) as (c & Hc & Hd & _). exists c. split; [exact Hc|exact Hd].
  - repeat (apply Forall_cons; split; [vm_compute; discriminate|]). apply Forall_nil. exact I.
Defined.

(** ** Diagnostics *)
Lemma health_status_spec_witness :
  shard_wf joined_shard ∧
  h_status (health_status (diagnostics_new "counter") joined_shard (from_millis 50) time1) = Unhealthy.
Proof.
  split; [apply joined_shard_wf|].
  destruct (health_status_spec (diagnostics_new "counter") joined_shard (from_millis 50) time1
    joined_shard_wf ltac:(vm_compute; reflexivity)) as (_ & _ & _ & _ & _ & Hu).
  apply Hu. vm_compute. split; congruence.
Defined.

(** ** Engines *)
Definition counter_ser (v : Z) : bytes := [v].
Definition counter_de (data : bytes) (w : Z) : result Z DeserializeError :=
  match data with
  | [v] => if w =? 1 then Ok v else Err (UnknownVersion w)
  | _ => Err (Malformed "not a counter")
  end.
(** A delta is the difference. *)
Definition counter_apply (data : bytes) (w : Z) (v : Z) : result Z DeserializeError :=
  match data with
  | [d] => if w =? 1 then Ok (v + d) else Err (UnknownVersion w)
  | _ => Err (Malformed "not a difference")
  end.
Lemma counter_roundtrip v : counter_de (counter_ser v) 1 = Ok v.
Proof. done. Qed.

(** The engine of a node that has seen the other one join. *)
Definition fresh_engine (cfg : StateConfig) (ap : option (InboundDeltaApplierFn Z)) (id : NodeId) :
    DistributedStateEngine Z Z (ViewMap Z) :=
  engine_new "counter" id 5 (λ s, s) cfg 1 time0 counter_ser counter_de ap.
Definition counter_engine (cfg : StateConfig) (ap : option (InboundDeltaApplierFn Z))
    (id other : NodeId) : DistributedStateEngine Z Z (ViewMap Z) :=
  match run_engine (fresh_engine cfg ap id) [OpJoin other 0 time0] with
  | Done e => e
  | Panicked _ => fresh_engine cfg ap id
  end.

Lemma counter_engine_inv cfg ap id other :
  let e := counter_engine cfg ap id other in
  host_ok (host e) ∧ shard_inv (λ s, s) (shard e) ∧ engine_node_id e = id ∧
  static e = static (fresh_engine cfg ap id).
Proof.
  unfold counter_engine. destruct (run_engine _ _) as [e|] eqn:Hr.
  - eapply (run_engine_new_inv "counter" id 5 (λ s, s) cfg 1 time0 counter_ser counter_de ap);
      [|exact Hr]. by repeat constructor.
  - destruct (engine_new_ok (M:=ViewMap Z) (C:=TestClock) "counter" id 5 (λ s, s) cfg 1 time0
      counter_ser counter_de ap). by split_and!.
Qed.

Lemma counter_link cfg ap :
  link (counter_engine cfg ap node0 node1) (counter_engine cfg ap node1 node0).
Proof.
  split; try reflexivity. discriminate.
Qed.

Definition push_config : StateConfig := StateConfig_default.
Definition lazy_config : StateConfig := mkStateConfig feed_lazy_pull (from_secs 5) KeepStalePolicy.
Definition drop_config : StateConfig := mkStateConfig active_push (from_secs 5) DropAndWait.

Lemma not_ahead_pair cfg ap :
  not_ahead (counter_engine cfg ap node0 node1) (counter_engine cfg ap node1 node0).
Proof.
  assert (contents (shard (counter_engine cfg ap node1 node0)) !! node0 =
    Some (placeholder_view node0 0 (now time0))) as Hc by reflexivity.
  intros vo Hvo. assert (Some vo = Some (placeholder_view node0 0 (now time0))) as [= ->]
    by (rewrite <- Hc; symmetry; exact Hvo).
  assert (generation_of (counter_engine cfg ap node0 node1) = generation_new 1000000 0) as ->
    by reflexivity.
  split; [split; split; vm_compute; congruence|]. left. reflexivity.
Qed.

Lemma counter_wf cfg ap id other : shard_wf (shard (counter_engine cfg ap id other)).
Proof. apply (counter_engine_inv cfg ap id other). Qed.

Lemma engine_serves_current_state_witness :
  ∃ e, run_engine (fresh_engine push_config None node0)
      [OpJoin node1 0 time0; OpMutate Z.succ (λ s, s) UrgencyDefault time1] = Done e ∧
    ∃ vo, get_view (shard e) node0 = Some vo ∧ vo_value vo = 6.
Proof.
  destruct (run_engine (fresh_engine push_config None node0)
      [OpJoin node1 0 time0; OpMutate Z.succ (λ s, s) UrgencyDefault time1]) as [e|] eqn:Hr;
    [|vm_compute in Hr; discriminate].
  exists e. split; [reflexivity|].
  destruct (engine_serves_current_state "counter" node0 5 (λ s, s) push_config 1 time0 counter_ser
    counter_de None [OpJoin node1 0 time0; OpMutate Z.succ (λ s, s) UrgencyDefault time1] e node1)
    as [(vo & Hvo & Hval & _) _].
  - by repeat constructor.
  - exact Hr.
  - exists vo. split; [exact Hvo|]. rewrite Hval. vm_compute in Hr. injection Hr as <-. reflexivity.
Defined.

(** A snapshot of an unknown version is counted and, with [DropAndWait], drops the view. *)
Lemma full_snapshot_spec_witness :
  let e := counter_engine drop_config None node0 node1 in
  let e' := (handle_full_snapshot e "counter" node1 (generation_new 1000000 1) 2 [7] time1).1 in
  is_Some (get_view (shard e) node1) ∧ get_view (shard e') node1 = None ∧
  metrics (diagnostics e') = add_metrics (metrics (diagnostics e)) one_sync_failure.
Proof.
  intros e e'.
  pose proof (full_snapshot_spec e node1 (generation_new 1000000 1) 2 [7] time1
    (counter_wf drop_config None node0 node1) ltac:(vm_compute; reflexivity)) as Hspec.
  unfold e'. change (state_name e) with "counter"%string in Hspec.
  destruct (handle_full_snapshot e "counter" node1 (generation_new 1000000 1) 2 [7] time1)
    as [e1 acts]. destruct Hspec as (_ & _ & Hm & Hv).
  split; [vm_compute; eauto|]. split; [apply (eq_trans Hv); reflexivity|exact Hm].
Defined.

(** A node that sends itself a snapshot of a later generation. *)
Lemma self_snapshot_overwrites_own_view_witness :
  let e := fresh_engine push_config None node0 in
  let e' := (handle_full_snapshot e "counter" node0 (generation_new 1000000 9) 1 [99] time1).1 in
  so_value (sh_state (shard e')) = 5 ∧ vo_value <$> get_view (shard e') node0 = Some 99.
Proof.
  destruct (self_snapshot_overwrites_own_view (M:=ViewMap Z) "counter" node0 5 (λ s, s) push_config 1
    time0 counter_ser counter_de None (generation_new 1000000 9) [99] 99) as [Hst Hv].
  - vm_compute. right. split; reflexivity.
  - reflexivity.
  - split; [reflexivity|]. vm_compute. reflexivity.
Defined.

(** A delta that skips a generation asks for a snapshot. *)
Lemma delta_update_spec_witness :
  let e := counter_engine push_config (Some counter_apply) node0 node1 in
  (handle_delta_update e "counter" node1 (generation_new 1000000 4) 1 [1] time1).2 =
    [make_snapshot_request e node1].
Proof.
  intros e.
  pose proof (delta_update_spec e node1 (generation_new 1000000 4) 1 [1] time1
    (proj1 (counter_engine_inv push_config (Some counter_apply) node0 node1))
    ltac:(vm_compute; reflexivity)) as Hspec.
  change (state_name e) with "counter"%string in Hspec.
  destruct (handle_delta_update e "counter" node1 (generation_new 1000000 4) 1 [1] time1)
    as [e1 acts]. destruct Hspec as (_ & Hreq & _). apply Hreq.
  split; [reflexivity|]. intros ap c _ Hc. vm_compute in Hc. injection Hc as <-.
  vm_compute. left. reflexivity.
Defined.

(** ** Two engines *)
Lemma push_snapshot_delivers_witness :
  let a := counter_engine push_config None node0 node1 in
  let b := counter_engine push_config None node1 node0 in
  ∃ msg b', mr_actions (mutate a Z.succ (λ s, s) UrgencyDefault time1).2 = [BroadcastSync msg] ∧
    handle_inbound b (WireSync msg) time1 = Done (b', []) ∧
    vo_value <$> get_view (shard b') node0 = Some 6.
Proof.
  intros a b.
  assert (0 ≤ age (generation_of a) < u64_max) as Hage by (vm_compute; split; congruence).
  assert (resolve_action (sync_logic a) UrgencyDefault = BroadcastSnapshot) as Hact by reflexivity.
  pose proof (push_snapshot_delivers (λ s, s) a b Z.succ UrgencyDefault time1 time1
    (counter_link push_config None) (counter_wf push_config None node1 node0)
    (not_ahead_pair push_config None) Hage Hact) as Hd.
  assert (engine_node_id (mutate a Z.succ (λ s, s) UrgencyDefault time1).1 = node0) as Hid
    by reflexivity.
  destruct (mutate a Z.succ (λ s, s) UrgencyDefault time1) as [a' r].
  destruct Hd as (msg & b' & Hr & Hb & (vo & Hvo & Hval & _) & Hst).
  exists msg, b'. split; [exact Hr|]. split; [exact Hb|]. simpl in Hid. rewrite Hid in Hvo.
  rewrite Hvo. simpl. rewrite Hval, Hst. reflexivity.
Defined.

(** The receiver only has a placeholder: it pulls. *)
Lemma push_delta_or_pull_witness :
  let a := counter_engine push_config (Some counter_apply) node0 node1 in
  let b := counter_engine push_config (Some counter_apply) node1 node0 in
  let add s := (s + 3, 3) in
  ∃ msg b' request a'' reply b'',
    dmr_actions (mutate_with_delta a add (λ s, s) (λ d, d) UrgencyDefault counter_ser time1).2 =
      [BroadcastSync msg] ∧
    handle_inbound b (WireSync msg) time1 = Done (b', [SendSync node0 request]) ∧
    handle_inbound_sync (mutate_with_delta a add (λ s, s) (λ d, d) UrgencyDefault counter_ser time1).1
      request time1 = Done (a'', [SendSync node1 reply]) ∧
    handle_inbound_sync b' reply time1 = Done (b'', []) ∧ current (λ s, s) a'' b''.
Proof.
  intros a b add.
  assert (0 ≤ age (generation_of a) < u64_max) as Hage by (vm_compute; split; congruence).
  assert (resolve_action (sync_logic a) UrgencyDefault = BroadcastDelta) as Hact by reflexivity.
  assert (vo_generation <$> get_view (shard b) (engine_node_id a) = Some generation_zero) as Hg
    by reflexivity.
  pose proof (push_delta_or_pull (λ s, s) (λ d, d) counter_ser counter_apply a b add UrgencyDefault
    time1 time1 (λ s, eq_refl) (counter_link push_config (Some counter_apply)) eq_refl eq_refl
    (proj1 (proj2 (counter_engine_inv push_config (Some counter_apply) node0 node1)))
    (proj1 (counter_engine_inv push_config (Some counter_apply) node1 node0))
    (not_ahead_pair push_config (Some counter_apply))) as Hd.
  specialize (Hd ltac:(intros vo Hvo Hgen; rewrite Hvo in Hg; simpl in Hg; rewrite Hgen in Hg; vm_compute in Hg; discriminate)
    Hage Hact).
  destruct (mutate_with_delta a add (λ s, s) (λ d, d) UrgencyDefault counter_ser time1) as [a' r].
  destruct Hd as (msg & b' & acts & Hr & Hb & Hd). rewrite Hg in Hd.
  destruct (decide _) as [Heq|_]; [vm_compute in Heq; discriminate|].
  destruct Hd as (request & a'' & reply & b'' & -> & Hd). exists msg, b', request, a'', reply, b''.
  split; [exact Hr|]. split; [exact Hb|]. exact Hd.
Defined.

Lemma lazy_pull_delivers_witness :
  let a := counter_engine lazy_config None node0 node1 in
  let b := counter_engine lazy_config None node1 node0 in
  let a1 := (mutate a Z.succ (λ s, s) UrgencyDefault time1).1 in
  ∃ feed b1 res stale acts,
    (flush_change_feed a1).2 = Some feed ∧
    handle_inbound b (WireFeed feed) time1 = Done (b1, []) ∧
    query b1 (from_millis 1000) size time1 = (EngineStale res stale, acts) ∧ node0 ∈ stale.
Proof.
  intros a b a1.
  assert (0 ≤ age (generation_of a) < u64_max) as Hage by (vm_compute; split; congruence).
  assert (feed_ok a) as Hfeed.
  { split; [reflexivity|]. intros key g Hk. assert (None = Some g) as [=] by exact Hk. }
  assert (is_Some (get_view (shard b) (engine_node_id a))) as Hsome by (by eexists).
  assert (0 ≤ from_millis 1000) as Hms by (vm_compute; congruence).
  assert (resolve_action (sync_logic a) UrgencyDefault = NotifyChangeFeed) as Hact by reflexivity.
  pose proof (lazy_pull_delivers (λ s, s) a b Z.succ UrgencyDefault time1 time1 (from_millis 1000)
    size (counter_link lazy_config None)
    (proj1 (proj2 (counter_engine_inv lazy_config None node0 node1)))
    (counter_wf lazy_config None node1 node0) Hfeed (not_ahead_pair lazy_config None) Hsome Hage
    Hms Hact eq_refl) as Hd.
  unfold a1. destruct (mutate a Z.succ (λ s, s) UrgencyDefault time1) as [a1' r].
  simpl. destruct (flush_change_feed a1') as [a2 batch].
  destruct Hd as (feed & b1 & res & stale & acts & request & a3 & reply & b2 & _ & Hb & Hi & Hq & Hin & _).
  exists feed, b1, res, stale, acts. split; [exact Hb|]. split; [exact Hi|]. split; [exact Hq|].
  exact Hin.
Defined.

(** The receiver has the sender's first view; two changes are kept back. *)
Definition synced_receiver : DistributedStateEngine Z Z (ViewMap Z) :=
  match run_engine (fresh_engine push_config (Some counter_apply) node1)
    [OpJoin node0 0 time0;
     OpInbound (WireSync (FullSnapshot "counter" node0 (generation_new 1000000 0) 1 [5])) time0] with
  | Done e => e
  | Panicked _ => fresh_engine push_config (Some counter_apply) node1
  end.

Lemma synced_receiver_ok : host_ok (host synced_receiver).
Proof.
  unfold synced_receiver. destruct (run_engine _ _) as [e|] eqn:Hr.
  - eapply (run_engine_new_inv "counter" node1 5 (λ s, s) push_config 1 time0 counter_ser counter_de
      (Some counter_apply)); [|exact Hr].
    apply Forall_cons. split; [exact I|]. apply Forall_cons. split; [|by constructor].
    intros [=].
  - apply (engine_new_ok (M:=ViewMap Z) (C:=TestClock) "counter" node1 5 (λ s, s) push_config 1 time0
      counter_ser counter_de (Some counter_apply)).
Qed.

Lemma suppressed_changes_recovered_witness :
  let a := counter_engine push_config (Some counter_apply) node0 node1 in
  let b := synced_receiver in
  let add k (s : Z) := (s + k, k) in
  let '(a1, acts) := mutate_all (λ s, s) (λ d, d) counter_ser UrgencySuppress a
    [(add 1, time1); (add 2, time1)] in
  let '(a', r) := mutate_with_delta a1 (add 4) (λ s, s) (λ d, d) UrgencyDefault counter_ser time1 in
  ∃ b' request a'' reply b'',
    acts = [] ∧ dmr_actions r = [BroadcastSync (own_delta a' [4])] ∧
    handle_inbound b (WireSync (own_delta a' [4])) time1 = Done (b', [SendSync node0 request]) ∧
    contents (shard b') = contents (shard b) ∧
    handle_inbound_sync a' request time1 = Done (a'', [SendSync node1 reply]) ∧
    handle_inbound_sync b' reply time1 = Done (b'', []) ∧ current (λ s, s) a'' b'' ∧
    so_value (sh_state (shard a'')) = 12.
Proof.
  intros a b add.
  assert (∃ vo, contents (shard b) !! node0 = Some vo ∧ vo_generation vo = generation_of a)
    as (vo & Hvo & Hg) by (eexists; split; reflexivity).
  exact (suppressed_changes_recovered (λ s, s) (λ d, d) counter_ser counter_apply a b
    UrgencySuppress UrgencyDefault [(add 1, time1); (add 2, time1)] (add 4) vo time1 time1
    ltac:(split; [reflexivity|discriminate|reflexivity..]) eq_refl eq_refl
    (proj1 (proj2 (counter_engine_inv push_config (Some counter_apply) node0 node1)))
    synced_receiver_ok Hvo Hg ltac:(vm_compute; congruence) ltac:(vm_compute; congruence)
    eq_refl eq_refl ltac:(discriminate)).
Defined.

(** ** A network: both nodes start, node 0 learns of node 1 and sends its snapshot,
    which node 1 receives. *)
Definition start_snapshot : SyncMessage :=
  FullSnapshot "counter" node0 (generation_new 1000000 0) 1 [5].
Definition receiver : DistributedStateEngine Z Z (ViewMap Z) :=
  (handle_full_snapshot (fresh_engine push_config None node1) "counter" node0
    (generation_new 1000000 0) 1 [5] time1).1.
Local Abbreviation counter_step :=
  (net_step (C:=TestClock) (M:=ViewMap Z) "counter" (λ s, s) 1 counter_ser counter_de None).
Definition started0 : Network Z Z (ViewMap Z) :=
  mkNetwork (<[node0 := fresh_engine push_config None node0]> ∅) []
    (record_view (λ s, s) ∅ (fresh_engine push_config None node0)).
Definition started1 : Network Z Z (ViewMap Z) :=
  mkNetwork (<[node1 := fresh_engine push_config None node1]> (net_nodes started0)) []
    (record_view (λ s, s) (net_history started0) (fresh_engine push_config None node1)).
Definition announced1 : Network Z Z (ViewMap Z) :=
  mkNetwork (<[node0 := counter_engine push_config None node0 node1]> (net_nodes started1))
    [WireSync start_snapshot]
    (record_view (λ s, s) (net_history started1) (counter_engine push_config None node0 node1)).
Definition received1 : Network Z Z (ViewMap Z) :=
  mkNetwork (<[node1 := receiver]> (net_nodes announced1)) [WireSync start_snapshot]
    (net_history announced1).

Lemma received1_reachable : rtc counter_step net_init received1.
Proof.
  eapply rtc_l; [apply (net_start _ _ _ _ _ _ net_init node0 5 push_config time0)|].
  { reflexivity. }
  { intros g v Hv. change (None = Some v) in Hv. discriminate. }
  eapply rtc_l; [apply (net_start _ _ _ _ _ _ started0 node1 5 push_config time0)|].
  { reflexivity. }
  { intros g v Hv. unfold started0, record_view in Hv. simpl in Hv.
    apply lookup_insert_Some in Hv as [[[=] _]|[_ Hv]]. by rewrite lookup_empty in Hv. }
  eapply rtc_l.
  { eapply (net_call _ _ _ _ _ _ started1 node0 (fresh_engine push_config None node0)
      (OpJoin node1 0 time0) (counter_engine push_config None node0 node1)
      [SendSync node1 start_snapshot] None); [reflexivity|exact I|vm_compute; reflexivity]. }
  apply rtc_once.
  apply (net_deliver _ _ _ _ _ _ announced1 node1 (fresh_engine push_config None node1)
    (WireSync start_snapshot) time1 receiver []); [reflexivity|by left|vm_compute; reflexivity].
Qed.

Lemma views_never_wrong_witness :
  rtc counter_step net_init received1 ∧
  ∃ vo, get_view (shard receiver) node0 = Some vo ∧ vo_generation vo = generation_new 1000000 0 ∧
    vo_value vo = 5.
Proof.
  split; [exact received1_reachable|].
  destruct (get_view (shard receiver) node0) as [vo|] eqn:Hvo; [|vm_compute in Hvo; discriminate].
  assert (vo_generation vo = generation_new 1000000 0) as Hg
    by (vm_compute in Hvo; injection Hvo as <-; reflexivity).
  exists vo. split; [reflexivity|]. split; [exact Hg|].
  destruct (views_never_wrong "counter" (λ s, s) 1 counter_ser counter_de None received1 node1 node0
    receiver (counter_engine push_config None node0 node1) vo counter_roundtrip received1_reachable
    eq_refl eq_refl Hvo) as [Hz|(_ & _ & Hcur)]; [rewrite Hg in Hz; discriminate|].
  apply (Hcur Hg).
Defined.

Lemma engine_never_panics_witness :
  ∃ e, run_engine (fresh_engine push_config None node0)
    [OpInbound (WireSync (FullSnapshot "counter" node0 (generation_new 1000000 9) 1 [99])) time0;
     OpLeave node0; OpMutate Z.succ (λ s, s) UrgencyImmediate time1] = Done e ∧
    is_Some (get_view (shard e) node0).
Proof.
  destruct (engine_never_panics (M:=ViewMap Z) "counter" node0 5 (λ s, s) push_config 1 time0
    counter_ser counter_de None
    [OpInbound (WireSync (FullSnapshot "counter" node0 (generation_new 1000000 9) 1 [99])) time0;
     OpLeave node0; OpMutate Z.succ (λ s, s) UrgencyImmediate time1]) as (e & Hr & Hv & _).
  exists e. split; [exact Hr|]. vm_compute in Hr. injection Hr as <-. vm_compute. eauto.
Defined.

Lemma messages_are_counted_witness :
  ∃ e acts, run_engine_trace (fresh_engine push_config None node0)
      [OpJoin node1 0 time0; OpMutate Z.succ (λ s, s) UrgencyDefault time1] = Done (e, acts) ∧
    sm_snapshots_sent (engine_metrics e) = wrap64 (count_messages is_full_snapshot acts) ∧
    length acts = 2%nat.
Proof.
  destruct (messages_are_counted (M:=ViewMap Z) "counter" node0 5 (λ s, s) push_config 1 time0
    counter_ser counter_de None [OpJoin node1 0 time0; OpMutate Z.succ (λ s, s) UrgencyDefault time1])
    as (e & acts & Hr & _ & Hs & _).
  exists e, acts. split; [exact Hr|]. split; [exact Hs|].
  vm_compute in Hr. injection Hr as _ <-. reflexivity.
Defined.

(** ** The actor; a peer is reached under its number. *)
Lemma actor_refines_engine_witness :
  ∃ a' peers' effects,
    actor_run (actor_create (fresh_engine push_config None node0)) {[node1 := 1%nat]}
      [(MsgClusterChange (NodeJoined node1 0), time0);
       (MsgMutate Z.succ (λ s, s) UrgencyDefault, time1)] = Done (a', peers', effects) ∧
    length effects = 2%nat.
Proof.
  destruct (actor_refines_engine (M:=ViewMap Z) "counter" node0 5 (λ s, s) push_config 1 time0
    counter_ser counter_de None {[node1 := 1%nat]}
      [(MsgClusterChange (NodeJoined node1 0), time0);
       (MsgMutate Z.succ (λ s, s) UrgencyDefault, time1)]) as (a' & peers' & effects & Hr & _).
  exists a', peers', effects. split; [exact Hr|]. vm_compute in Hr. injection Hr as _ _ <-. reflexivity.
Defined.

Lemma actor_routing_witness :
  route_actions (actor_create (fresh_engine push_config None node0)) {[node1 := 1%nat]}
    [SendSync node1 start_snapshot] = [SentSync 1%nat start_snapshot].
Proof.
  destruct (actor_routing (actor_create (fresh_engine push_config None node0)) {[node1 := 1%nat]}
    time0 start_snapshot node1 (from_millis 10)) as (_ & _ & Hs & _).
  rewrite Hs. reflexivity.
Defined.

(** ** Interceptors and the transport *)
Lemma splitmix64_separates_witness :
  splitmix64 (Z.lxor 42 0) ≠ splitmix64 (Z.lxor 42 1).
Proof.
  destruct (splitmix64_separates 42 0 1) as [_ Heq]; [split; [lia|reflexivity]..|].
  rewrite Heq. lia.
Defined.

Lemma corrupt_flips_one_bit_witness :
  ∃ out, (intercept (mkCorruptBytes 99) node0 node1 [7; 8] (mkInterceptContext 0 3 42)).2 = Deliver out ∧
    out ≠ [7; 8].
Proof.
  destruct (corrupt_flips_one_bit (mkCorruptBytes 99) node0 node1 [7; 8] (mkInterceptContext 0 3 42))
    as (out & Hd & _ & _ & _ & Hne).
  - intros b [->|[->|[]%elem_of_nil]%elem_of_cons]%elem_of_cons; lia.
  - exists out. split; [exact Hd|]. apply Hne. discriminate.
Defined.

Lemma full_drop_rate_leaks_witness :
  ∃ i id, drop_rate_new (f64_of_u64 1) 42 = Done i ∧
    (intercept i node0 node1 [7] (mkInterceptContext 5 id 42)).2 = Deliver [7].
Proof.
  destruct (full_drop_rate_leaks 42 5 42 node0 node1 [7]) as (i & id & Hn & _ & Hd).
  - split; [lia|reflexivity].
  - split; [lia|reflexivity].
  - exists i, id. split; [exact Hn|exact Hd].
Defined.

Definition wire_codec : Bincode WireMessage := bit_codec.
Definition wire_codec_laws : @BincodeLaws WireMessage wire_codec := bit_codec_laws.
Local Existing Instance wire_codec.
Local Existing Instance wire_codec_laws.

Lemma clean_network_fifo_witness :
  let t := send_all (transport_new 42) [(node0, node1, WireSync start_snapshot);
                                        (node0, node1, WireSync (RequestSnapshot "counter" node0))] in
  delivered (deliver_due (advance_tick t)).2 =
    [mkDelivered node0 node1 (WireSync start_snapshot);
     mkDelivered node0 node1 (WireSync (RequestSnapshot "counter" node0))].
Proof.
  intros t.
  destruct (clean_network_fifo (transport_new 42) [(node0, node1, WireSync start_snapshot);
    (node0, node1, WireSync (RequestSnapshot "counter" node0))] eq_refl eq_refl) as [_ Hd].
  - vm_compute. split; congruence.
  - fold t in Hd. destruct (deliver_due (advance_tick t)) as [t' r]. apply Hd.
Defined.

(** ** Deltas of the test state *)
Section TestDelta.
Local Instance view_codec : Bincode TestDeltaView := bit_codec.
Local Instance view_codec_laws : BincodeLaws TestDeltaView := bit_codec_laws.
Local Instance view_delta_codec : Bincode TestDeltaViewDelta := bit_codec.
Local Instance view_delta_codec_laws : BincodeLaws TestDeltaViewDelta := bit_codec_laws.
(** The private state never travels in this run. *)
Local Instance inner_codec : Bincode (TestDeltaStateInner Z) :=
  {| bincode_serialize _ := []; bincode_deserialize _ := Err "unused"%string |}.

(** The counter goes from 3 to [2^64 - 1] by a delta of -4. *)
Lemma test_delta_exact_witness :
  delta_applier (S := TestDeltaStateInner Z) (DC := TestDeltaChange Z)
    (dds_serialize_delta (project_delta (mkTestDeltaChange (-4) (Some "b"%string) 0)))
    1 (mkTestDeltaView 3 "a") = Ok (mkTestDeltaView u64_max "b").
Proof.
  destruct (test_delta_exact (F64:=Z) (λ x, x) (mkTestDeltaChange (-4) (Some "b"%string) 0)
    (mkTestDeltaStateInner 3 "a" 0)) as [Hd _].
  exact Hd.
Defined.
End TestDelta.

(** ** The node resource monitor *)
Section Monitor.
Local Instance resource_view_codec : Bincode NodeResourceView := bit_codec.
Local Instance resource_view_codec_laws : BincodeLaws NodeResourceView := bit_codec_laws.
Local Instance resource_delta_codec : Bincode NodeResourceDelta := bit_codec.
Local Instance resource_delta_codec_laws : BincodeLaws NodeResourceDelta := bit_codec_laws.
(** The private state never travels in this run. *)
Local Instance resource_state_codec : Bincode NodeResourceState :=
  {| bincode_serialize _ := []; bincode_deserialize _ := Err "unused"%string |}.

(** A sample that is not a number travels like any other. *)
Lemma node_resource_deltas_exact_witness :
  delta_applier (S := NodeResourceState) (DC := NodeResourceChange)
    (dds_serialize_delta (project_delta (CpuSample SpecFloat.S754_nan))) 1
    NodeResourceView_default =
  Ok (project_view (record_cpu_sample NodeResourceState_default SpecFloat.S754_nan)).
Proof.
  destruct (node_resource_deltas_exact (sample_cpu SpecFloat.S754_nan) NodeResourceState_default)
    as [Hd _]; [left; by exists SpecFloat.S754_nan|]. exact Hd.
Defined.

(** Two samples, 50 and 100. *)
Lemma cpu_usage_is_average_witness :
  s_cpu_usage_pct (foldl record_cpu_sample NodeResourceState_default [f64_of_u64 50; f64_of_u64 100])
    = f64_of_u64 75.
Proof.
  destruct (cpu_usage_is_average [f64_of_u64 50] (f64_of_u64 100)) as [_ Ha];
    [vm_compute; congruence|]. exact Ha.
Defined.
End Monitor.

(** ** Cluster events *)

(** Two subscribers; the first is taken back between two events. *)
Lemma events_reach_subscribers_witness :
  (run_events (ClusterError:=()) [OpSubscribe "a"; OpSubscribe "b"; OpEmit 1; OpUnsubscribe 1; OpEmit 2]).2
    ≡ₚ [("a", 1); ("b", 1); ("b", 2)]%string.
Proof.
  pose proof (events_reach_subscribers (ClusterError:=()) (T:=string)
    [OpSubscribe "a"; OpSubscribe "b"; OpEmit 1; OpUnsubscribe 1; OpEmit 2] eq_refl) as Hr.
  destruct (run_events _) as [ce log]. exact (proj2 Hr).
Defined.

(** ** Crashes *)
Section Crash.
(** The view is the state modulo 100.  An older version of the software had stored 5; the
    migration puts a mark into the hundreds. *)
Local Abbreviation node := (Durable (S:=Z) (V:=Z) (M:=ViewMap Z) (St:=InMemoryPersistence (S:=Z))).
Definition residue (s : Z) : Z := s `mod` 100.
Definition add_hundred (s version : Z) : result Z string := Ok (s + 100).
Definition old_state : StateObject Z := mkStateObject (generation_new 900000 3) 0 5 0 0.
Definition node_down : node :=
  durable_init (mkInMemory (Some old_state)) [(generation_new 900000 3, 5)] 900000.
Local Abbreviation dstep := (durable_step (C:=TestClock) (D:=()) node0 residue (mkStartup 1) 5 add_hundred).

Definition migrated_shard : ShardCore Z (ViewMap Z) :=
  shard_new node0 (mkStateObject (generation_new 900000 3) 1 105 0 0) 5 time0.
Definition prepared_six : PreparedMutation Z Z := prepare_mutation migrated_shard Z.succ residue time1.

(** The node migrates what it finds, crashes after it has saved a mutation and before it has
    committed it, and boots with it. *)
Definition crashed : node :=
  mkDurable None None (mkInMemory (Some (pm_new_state prepared_six)))
    [(generation_new 900000 3, 5); (generation_new 900000 3, 5)] 1000000.
Definition rebooted : node :=
  mkDurable (Some (shard_new node0 (pm_new_state prepared_six) 6 time1)) None
    (mkInMemory (Some (pm_new_state prepared_six)))
    [(generation_new 900000 4, 6); (generation_new 900000 3, 5); (generation_new 900000 3, 5)] 1000100.

Lemma rebooted_reach : rtc dstep node_down rebooted.
Proof.
  eapply rtc_l; [by apply (du_boot node0 residue (mkStartup 1) 5 add_hundred node_down time0)|].
  eapply rtc_l.
  { eapply (du_prepare _ _ _ _ _ _ migrated_shard Z.succ time1); [reflexivity|done|by vm_compute]. }
  eapply rtc_l.
  { eapply (du_save _ _ _ _ _ _ prepared_six None); reflexivity. }
  eapply rtc_l; [apply du_crash|].
  apply rtc_once.
  exact (du_boot node0 residue (mkStartup 1) 5 add_hundred crashed time1 eq_refl eq_refl).
Qed.

Lemma add_hundred_keeps_view : migration_keeps_view residue add_hundred.
Proof. intros s version s' [= <-]. apply (Z.mod_add s 1 100). done. Qed.

Lemma node_down_past_ok : past_ok (D:=()) residue node_down.
Proof.
  split_and!; simpl.
  - by intros g v v' [= -> ->]%list_elem_of_singleton [= ->]%list_elem_of_singleton.
  - intros loaded [= <-]. split; [done|].
    intros g v [= -> ->]%list_elem_of_singleton. split; [gen_lia|done].
  - split; simpl; [by intros g v [= -> ->]%list_elem_of_singleton|by intros loaded [= <-]].
Qed.

Lemma durable_never_forks_witness :
  covers residue (pm_new_state prepared_six) (du_visible rebooted) ∧
  (generation_new 900000 4, 6) ∈ du_visible rebooted.
Proof.
  destruct (durable_never_forks (C:=TestClock) node0 residue (mkStartup 1) 5 add_hundred _ _ _ rebooted
    add_hundred_keeps_view node_down_past_ok rebooted_reach) as (_ & Hrun & _).
  split; [|by left]. exact (proj1 (Hrun _ eq_refl)).
Defined.
End Crash.

(** The migration doubles the counter; node 1 keeps showing 10. *)
Lemma migrated_view_is_discarded_witness :
  let loaded := mkStateObject (generation_new 1000000 1) 1 10 0 0 in
  let st := mkStateObject (generation_new 1000000 1) 2 20 0 0 in
  let peer := (accept_inbound_snapshot (shard_new node0 (new_state_object 5 1000000 time0) 5 time0)
    (mkInboundSnapshot node1 (generation_new 1000000 1) 1 10 0 0) time0).1 in
  let after := (accept_inbound_snapshot peer
    (mkInboundSnapshot node1 (generation_new 1000000 1) 1 20 0 0) time1).1 in
  initialize (mkStartup 2) (Ok (Some loaded)) 0 time1 (λ v _, Ok (2 * v)) = Migrated st 1 ∧
  vo_value <$> get_view after node1 = Some 10.
Proof.
  intros loaded st peer after. split; [reflexivity|].
  assert (∃ vo, get_view peer node1 = Some vo ∧ vo_generation vo = generation_new 1000000 1 ∧
    vo_value vo = 10) as (vo & Hvo & Hg & Hval) by (eexists; split; [|split]; reflexivity).
  destruct (migrated_view_is_discarded (λ s, s) (mkStartup 2) loaded st 0 (λ v _, Ok (2 * v)) 1 node1
    peer vo 1 0 0 time1 time1 eq_refl) as [_ Hafter]; [|exact Hvo|exact Hg|].
  - apply (accept_snapshot_frame (S:=Z)). apply (shard_new_inv (λ s, s)).
  - change (get_view after node1 = Some vo) in Hafter. rewrite Hafter. simpl. by rewrite Hval.
Defined.
