(* ===== verification/ActorScenarios.v ===== *)
(** A concrete run of two actors: the theorems on the actors' system at a state that is
    reached, with a framework whose mailboxes are queues. *)
From stdpp Require Import prelude gmap fin_maps strings relations.
From S2P Require Import Prelude Node Clock Types ViewMap ShardCore ShardProps SyncLogic.
From S2P Require Import ChangeFeed Versioning Startup Lifecycle Diagnostics Engine EngineProps.
From S2P Require Import Accounting Protocol Network NetworkRuns Traits StateActor ActorSystem.
From S2P Require Import ActorHandling ActorConvergence ActorPull ActorFeed Scenarios.

Local Existing Instance map_to_list_iter.

(** ** Queues *)
Section Queues.
Context {Msg : Type}.

Definition queue_of (f : gmap nat (list Msg)) (r : nat) : list Msg := default [] (f !! r).
Local Instance queue_framework : ActorFramework nat Msg (gmap nat (list Msg)) := {|
  fw_mailbox := queue_of;
  fw_tell r m f := (<[r := queue_of f r ++ [m]]> f, Ok ());
  fw_receive r f := match queue_of f r with [] => None | m :: l => Some (m, <[r := l]> f) end
|}.

Lemma queue_of_insert f r l r' : queue_of (<[r := l]> f) r' = if decide (r = r') then l else queue_of f r'.
Proof. unfold queue_of. rewrite lookup_insert. by case_decide. Qed.

Local Instance queue_framework_laws : ActorFrameworkLaws nat Msg (gmap nat (list Msg)).
Proof.
  split; simpl.
  - intros r m f r' m'. rewrite queue_of_insert. case_decide as Hr; [subst r'|by left].
    intros [?| ->%list_elem_of_singleton]%elem_of_app; [by left|by right].
  - intros r m f f'. destruct (queue_of f r) as [|m1 l] eqn:Hq; [done|]. intros [= -> <-].
    split; [by left|]. intros r' m'. rewrite queue_of_insert. case_decide as Hr; [subst r'|done].
    rewrite Hq. by right.
Qed.

(** They serve every actor, in order. *)
Local Instance queue_framework_ordered (rs : gset nat) : OrderedFramework (Msg:=Msg) rs.
Proof.
  split; simpl.
  - intros r m f _. by rewrite queue_of_insert, decide_True.
  - intros r r' m f _ Hne. by rewrite queue_of_insert, decide_False.
  - intros r m f f' _. destruct (queue_of f r) as [|m1 l] eqn:Hq; [done|]. intros [= -> <-].
    by rewrite queue_of_insert, decide_True.
  - intros r r' m f f' _ Hne. destruct (queue_of f r) as [|m1 l]; [done|]. intros [= -> <-].
    by rewrite queue_of_insert, decide_False.
  - intros r f _. by destruct (queue_of f r).
Qed.
End Queues.
Local Existing Instance queue_framework.
Local Existing Instance queue_framework_laws.
Local Existing Instance queue_framework_ordered.

(** ** The run *)
Local Abbreviation system := (ActorSystem (Ref:=nat) (S:=Z) (V:=Z) (M:=ViewMap Z)
  (Fw:=gmap nat (list (ActorMsg Z Z)))).
Local Abbreviation astep := (system_step (C:=TestClock) "counter" (λ s, s) 1 counter_ser counter_de None).
Local Abbreviation alone := (left_alone (C:=TestClock) (S:=Z) (V:=Z) (M:=ViewMap Z) (Ref:=nat)
  (Fw:=gmap nat (list (ActorMsg Z Z)))).
Implicit Types (sys : system).

Definition spawn_with (cfg : StateConfig) sys (r : nat) (id : NodeId) : system :=
  set_used (set_cell sys r
    (mkActorCell (actor_create (engine_new "counter" id 5 (λ s, s) cfg 1 time0 counter_ser counter_de None)) 0))
    (<[id := as_u64 (unix_ms time0)]> (as_used sys)).
Definition spawn : system → nat → NodeId → system := spawn_with push_config.
Definition tell sys (r : nat) (msg : ActorMsg Z Z) : system :=
  set_framework sys (fw_tell r msg (as_framework sys)).1.
(** Actor [r] handles its next message. *)
Definition handle_next sys (r : nat) : system :=
  match as_cells sys !! r, fw_receive r (as_framework sys) with
  | Some c, Some (msg, fw) =>
      match actor_handle (cell_actor c) (registry_of sys (cell_registry c)) msg time1 with
      | Done (a, peers, effs, _) =>
          perform r (set_registry (set_cell (set_framework sys fw) r (mkActorCell a (cell_registry c)))
            (cell_registry c) peers) effs
      | Panicked _ => sys
      end
  | _, _ => sys
  end.

Lemma handle_next_alone sys r :
  match as_cells sys !! r, fw_receive r (as_framework sys) with
  | Some c, Some (msg, _) => stopped c = false ∧ in_range c msg
  | _, _ => True
  end → rtc alone sys (handle_next sys r).
Proof.
  unfold handle_next. destruct (as_cells sys !! r) as [c|] eqn:Hc; [|done].
  destruct (fw_receive r (as_framework sys)) as [[msg fw]|] eqn:Hr; [|done]. intros [Hs Hin].
  destruct (actor_handle _ _ _ _) as [[[[a peers] effs] reply]|] eqn:Hh; [|done].
  apply rtc_once. by eapply la_handle.
Qed.

Definition empty_system : system := mkActorSystem ∅ ∅ [] ∅ ∅.
(** Both nodes run and share a registry; node 1 hears of node 0, which mutates. *)
Definition told_system : system :=
  let sys := spawn (spawn empty_system 0 node0) 1 node1 in
  let sys := set_registry sys 0
    {[node0 := mkActorRefPeerSender 0%nat; node1 := mkActorRefPeerSender 1%nat]} in
  let sys := tell sys 1 (MsgClusterChange (NodeJoined node0 0)) in
  tell sys 0 (MsgMutate Z.succ (λ s, s) UrgencyDefault).
(** Everybody handled what came: the snapshot of node 0 has reached node 1. *)
Definition synced_system : system :=
  handle_next (handle_next (handle_next told_system 1) 0) 1.

Lemma told_system_reach :
  system_reach (C:=TestClock) "counter" (λ s, s) 1 counter_ser counter_de None told_system.
Proof.
  exists empty_system. split; [split_and!; done|].
  unfold told_system. eapply rtc_l; [apply (sys_spawn _ _ _ _ _ _ _ 0%nat node0 5 push_config time0 0)|].
  { done. } { by intros r c (Hc & _). } { by split. }
  eapply rtc_l; [apply (sys_spawn _ _ _ _ _ _ _ 1%nat node1 5 push_config time0 0)|].
  { done. }
  { intros r c (Hc & _ & Hid). simpl in Hc. apply lookup_insert_Some in Hc as [[_ <-]|[_ Hc]]; [done|].
    by rewrite lookup_empty in Hc. }
  { split; [done|]. intros z Hz. vm_compute in Hz. done. }
  eapply rtc_l; [apply (sys_registry _ _ _ _ _ _ _ 0%nat)|].
  eapply rtc_l; [by apply (sys_tell _ _ _ _ _ _ _ 1%nat (MsgClusterChange (NodeJoined node0 0)))|].
  apply rtc_once. by apply (sys_tell _ _ _ _ _ _ _ 0%nat (MsgMutate Z.succ (λ s, s) UrgencyDefault)).
Qed.

Lemma synced_system_reach :
  system_reach (C:=TestClock) "counter" (λ s, s) 1 counter_ser counter_de None synced_system.
Proof.
  eapply left_alone_reach; [exact told_system_reach|].
  unfold synced_system. etrans; [|apply handle_next_alone; vm_compute; by split].
  etrans; [|apply handle_next_alone; vm_compute; by split].
  apply handle_next_alone; vm_compute; by split.
Qed.

(** The actor of node 1 in that state, and what it answers. *)
Definition cell_of (r : nat) : ActorCell (S:=Z) (V:=Z) (M:=ViewMap Z) :=
  default (mkActorCell (actor_create (fresh_engine push_config None node0)) 7) (as_cells synced_system !! r).
Definition reply_of_node1 : option (QueryReply Z) :=
  match actor_handle (cell_actor (cell_of 1)) (registry_of synced_system 0)
    (MsgQueryViews (from_secs 60)) time1 with
  | Done (_, _, _, reply) => reply
  | Panicked _ => None
  end.

Lemma cell_hosts : hosts synced_system node0 0%nat (cell_of 0) ∧ hosts synced_system node1 1%nat (cell_of 1).
Proof. split; (split; [reflexivity|split; reflexivity]). Qed.

(** Node 1 answers with the state of node 0 after its mutation. *)
Lemma actor_replies_never_wrong_witness :
  ∃ reply vo, reply_of_node1 = Some reply ∧ qr_views reply !! node0 = Some vo ∧
    vo_value vo = 6 ∧ vo_generation vo ≤g generation_of (cell_engine (cell_of 0)).
Proof.
  destruct cell_hosts as [H0 H1].
  destruct (actor_replies_never_wrong "counter" (λ s, s) 1 counter_ser counter_de None synced_system
    node1 1%nat (cell_of 1) counter_roundtrip synced_system_reach H1) as [_ Hreply].
  assert (∃ a peers effs reply vo, actor_handle (cell_actor (cell_of 1)) (registry_of synced_system 0)
      (MsgQueryViews (from_secs 60)) time1 = Done (a, peers, effs, Some reply) ∧
    qr_views reply !! node0 = Some vo ∧ vo_value vo = 6 ∧ vo_generation vo ≠ generation_zero)
    as (a & peers & effs & reply & vo & Hh & Hvo & Hval & Hnz).
  { do 5 eexists. split; [reflexivity|]. split; [reflexivity|]. split; [reflexivity|discriminate]. }
  exists reply, vo. unfold reply_of_node1. rewrite Hh. split; [reflexivity|]. split; [exact Hvo|].
  split; [exact Hval|].
  destruct (Hreply _ _ _ _ _ _ _ _ _ _ Hh H0 Hvo) as [Hz|[Hle _]]; [destruct (Hnz Hz)|exact Hle].
Defined.

(** The network behind that state runs both engines. *)
Lemma actors_refine_network_witness :
  ∃ n : Network Z Z (ViewMap Z),
    rtc (net_step (C:=TestClock) "counter" (λ s, s) 1 counter_ser counter_de None) net_init n ∧
    net_nodes n !! node0 = Some (cell_engine (cell_of 0)) ∧
    net_nodes n !! node1 = Some (cell_engine (cell_of 1)).
Proof.
  destruct (actors_refine_network "counter" (λ s, s) 1 counter_ser counter_de None synced_system
    synced_system_reach) as (n & Hn & Hnodes & _).
  destruct cell_hosts as [H0 H1]. exists n. split; [exact Hn|].
  split; apply Hnodes; [exists 0%nat, (cell_of 0)|exists 1%nat, (cell_of 1)]; split; auto.
Defined.

(** ** Left alone *)
Lemma told_system_hosts i r c :
  hosts told_system i r c →
  (i = node0 ∧ r = 0%nat ∧ c = mkActorCell (actor_create (fresh_engine push_config None node0)) 0) ∨
  (i = node1 ∧ r = 1%nat ∧ c = mkActorCell (actor_create (fresh_engine push_config None node1)) 0).
Proof.
  intros (Hc & _ & Hid). simpl in Hc.
  apply lookup_insert_Some in Hc as [[<- <-]|[_ Hc]]; [right; by rewrite <- Hid|].
  apply lookup_insert_Some in Hc as [[<- <-]|[_ Hc]]; [left; by rewrite <- Hid|].
  by rewrite lookup_empty in Hc.
Qed.

Lemma told_system_meshed : meshed {[0%nat; 1%nat]} 2 told_system.
Proof.
  split; [split|..].
  - intros r c Hc Hs. destruct (told_system_hosts (engine_node_id (cell_engine c)) r c)
      as [(_ & -> & _)|(_ & -> & _)]; [done|set_solver..].
  - intros [|g]; [vm_compute; lia|]. unfold registry_of. simpl.
    rewrite lookup_insert_ne, lookup_empty by done. vm_compute. lia.
  - intros i r c j r' c' [(-> & -> & ->)|(-> & -> & ->)]%told_system_hosts
      [(-> & -> & ->)|(-> & -> & ->)]%told_system_hosts Hne; by try reflexivity.
  - intros i r c j r' c' [(-> & -> & ->)|(-> & -> & ->)]%told_system_hosts _ _; set_solver.
  - intros i r c msg [(-> & -> & ->)|(-> & -> & ->)]%told_system_hosts Hin.
    + apply list_elem_of_singleton in Hin as ->. exact I.
    + apply list_elem_of_singleton in Hin as ->. exact I.
Qed.

(** Node 0 mutates first; then node 1 handles what waits for it, and node 0 the
    snapshot it sent for the arrival. *)
Definition mutated_system : system := handle_next told_system 0.
Definition silent_system : system := handle_next (handle_next (handle_next mutated_system 1) 1) 0.

Lemma mutated_system_run : rtc alone mutated_system silent_system.
Proof.
  unfold silent_system. etrans; [|apply handle_next_alone; vm_compute; by split].
  etrans; apply handle_next_alone; vm_compute; by split.
Qed.

Lemma mutated_system_young : young {[0%nat; 1%nat]} 2 mutated_system.
Proof.
  assert (map_Forall (λ _ c, age (generation_of (cell_engine c)) + Z.of_nat (weight {[0%nat; 1%nat]} 2 mutated_system)
    ≤ u64_max) (as_cells mutated_system)) as Hall by (refine (bool_decide_unpack _ _); vm_compute; exact I).
  intros i r c (Hc & _). exact (Hall r c Hc).
Qed.

Lemma silent_system_silent : silent silent_system.
Proof.
  split; [vm_compute; reflexivity|].
  assert (map_Forall (λ r _, mailbox silent_system r = []) (as_cells silent_system)) as Hall
    by (refine (bool_decide_unpack _ _); vm_compute; exact I).
  intros i r c (Hc & _). exact (Hall r c Hc).
Qed.

(** Everything is over after three more messages, and node 1 shows what node 0 has. *)
Lemma actors_converge_witness :
  (∀ k sys2, nsteps alone k mutated_system sys2 → (k ≤ 3)%nat) ∧
  ∃ c0 c1, hosts silent_system node0 0%nat c0 ∧ hosts silent_system node1 1%nat c1 ∧
    current (λ s, s) (cell_engine c0) (cell_engine c1).
Proof.
  set (c0 := mkActorCell (actor_create (fresh_engine push_config None node0)) 0).
  set (c1 := mkActorCell (actor_create (fresh_engine push_config None node1)) 0).
  set (fw := (<[0%nat := []]> (as_framework told_system)) : gmap nat (list (ActorMsg Z Z))).
  set (msg := MsgMutate Z.succ (λ s, s) UrgencyDefault : ActorMsg Z Z).
  destruct (actor_handle (cell_actor c0) (registry_of told_system (cell_registry c0)) msg time1)
    as [[[[a peers] effs] reply]|] eqn:Hh; [|discriminate Hh].
  assert (mutated_system = handled told_system 0%nat c0 fw a peers effs) as Heq.
  { unfold mutated_system, handle_next. change (as_cells told_system !! 0%nat) with (Some c0).
    change (fw_receive 0%nat (as_framework told_system)) with (Some (msg, fw)). cbn iota beta.
    rewrite Hh. reflexivity. }
  destruct (actors_converge {[0%nat; 1%nat]} 2 "counter" (λ s, s) 1 counter_ser counter_de None told_system
    node0 node1 0%nat 1%nat c0 c1 msg fw time1 a peers effs reply) as [Hk Hrun];
    [exact counter_roundtrip|exact told_system_reach|exact told_system_meshed|by split_and!|by split_and!|done
    |reflexivity|reflexivity|exact Hh|exact I| |].
  { rewrite <- Heq. exact mutated_system_young. }
  rewrite <- Heq in Hk, Hrun. split.
  - intros k sys2 Hsteps. apply Hk in Hsteps. etrans; [exact Hsteps|]. vm_compute. lia.
  - destruct (Hrun silent_system mutated_system_run) as [[sys3 Hs]|[_ Hcur]]; [|exact Hcur].
    destruct (silent_stuck silent_system sys3 silent_system_silent Hs).
Defined.
