(* ===== verification/ActorFeedScenarios.v ===== *)
(** A run of two actors that announce by change feeds: node 0 mutates and flushes, node 1
    learns that it is stale, and its next query pulls the new state. *)
From stdpp Require Import prelude gmap fin_maps strings relations.
From S2P Require Import Prelude Node Clock Types ViewMap ShardCore ShardProps SyncLogic.
From S2P Require Import ChangeFeed Versioning Startup Lifecycle Diagnostics Engine EngineProps.
From S2P Require Import Accounting Protocol Network NetworkRuns Traits StateActor ActorSystem.
From S2P Require Import ActorHandling ActorConvergence ActorPull ActorFeed Scenarios ActorScenarios.

Local Existing Instance map_to_list_iter.
Local Existing Instance queue_framework.
Local Existing Instance queue_framework_laws.
Local Existing Instance queue_framework_ordered.

Local Abbreviation message := (ActorMsg Z Z).
Local Abbreviation system := (ActorSystem (Ref:=nat) (S:=Z) (V:=Z) (M:=ViewMap Z) (Fw:=gmap nat (list message))).
Local Abbreviation cell := (ActorCell (S:=Z) (V:=Z) (M:=ViewMap Z)).
Local Abbreviation reach := (system_reach (C:=TestClock) "counter" (λ s, s) 1 counter_ser counter_de None).
Local Abbreviation astep := (system_step (C:=TestClock) "counter" (λ s, s) 1 counter_ser counter_de None).
Local Abbreviation alone := (left_alone (C:=TestClock) (S:=Z) (V:=Z) (M:=ViewMap Z) (Ref:=nat)
  (Fw:=gmap nat (list message))).
Implicit Types (sys : system).

(** ** The run *)
Definition both : gset nat := {[0%nat; 1%nat]}.
Definition two_peers : gmap NodeId (ActorRefPeerSender (Ref:=nat)) :=
  {[node0 := mkActorRefPeerSender 0%nat; node1 := mkActorRefPeerSender 1%nat]}.

(** Both nodes run, and node 1 hears of node 0. *)
Definition lazy_system : system :=
  let sys := spawn_with lazy_config (spawn_with lazy_config empty_system 0 node0) 1 node1 in
  tell (set_registry sys 0 two_peers) 1 (MsgClusterChange (NodeJoined node0 0)).
(** Node 1 adds an entry for node 0 and sends its own state, node 0 takes it and mutates. *)
Definition noted_system : system :=
  handle_next (tell (handle_next (handle_next lazy_system 1) 0) 0
    (MsgMutate Z.succ (λ s, s) UrgencyDefault)) 0.
(** Node 0 is told to flush, and does. *)
Definition due_system : system := tell noted_system 0 MsgFlushChangeFeed.
Definition flushed_system : system := handle_next due_system 0.
(** Node 1 takes the notification. *)
Definition stale_system : system := handle_next flushed_system 1.
(** Node 1 is queried, and asks; node 0 answers; node 1 takes the answer. *)
Definition queried_system : system := tell stale_system 1 (MsgQueryViews (from_secs 60)).
Definition asked_system : system := handle_next queried_system 1.
Definition pulled_system : system := handle_next (handle_next asked_system 0) 1.

Lemma tell_reach sys r msg :
  application_message (λ s, s) msg → reach sys → reach (tell sys r msg).
Proof.
  intros Hm (sys0 & Hs & Hr). exists sys0. split; [done|]. eapply rtc_r; [exact Hr|].
  by apply (sys_tell _ _ _ _ _ _ _ r msg).
Qed.
Lemma handle_next_reach sys r :
  match as_cells sys !! r, fw_receive r (as_framework sys) with
  | Some c, Some (msg, _) => stopped c = false ∧ in_range c msg
  | _, _ => True
  end → reach sys → reach (handle_next sys r).
Proof. intros Hr Hs. eapply left_alone_reach; [exact Hs|]. by apply handle_next_alone. Qed.

Lemma lazy_system_reach : reach lazy_system.
Proof.
  apply tell_reach; [done|]. exists empty_system. split; [split_and!; done|].
  eapply rtc_l; [apply (sys_spawn _ _ _ _ _ _ _ 0%nat node0 5 lazy_config time0 0)|].
  { done. } { by intros r c (Hc & _). } { by split. }
  eapply rtc_l; [apply (sys_spawn _ _ _ _ _ _ _ 1%nat node1 5 lazy_config time0 0)|].
  { done. }
  { intros r c (Hc & _ & Hid). simpl in Hc. apply lookup_insert_Some in Hc as [[_ <-]|[_ Hc]]; [done|].
    by rewrite lookup_empty in Hc. }
  { split; [done|]. intros z Hz. vm_compute in Hz. done. }
  apply rtc_once. apply (sys_registry _ _ _ _ _ _ _ 0%nat two_peers).
Qed.

Lemma due_system_reach : reach due_system.
Proof.
  apply tell_reach; [done|]. apply handle_next_reach; [vm_compute; by split|].
  apply tell_reach; [done|]. apply handle_next_reach; [vm_compute; by split|].
  apply handle_next_reach; [vm_compute; by split|]. exact lazy_system_reach.
Qed.
Lemma queried_system_reach : reach queried_system.
Proof.
  apply tell_reach; [done|]. apply handle_next_reach; [vm_compute; by split|].
  apply handle_next_reach; [vm_compute; by split|]. exact due_system_reach.
Qed.

(** ** States of the two actors *)
Definition cell_at sys (r : nat) : cell :=
  default (mkActorCell (actor_create (fresh_engine lazy_config None node0)) 7) (as_cells sys !! r).

(** What every state of the run has. *)
Definition two_actors sys : bool :=
  bool_decide (dom (as_cells sys) = both) &&
  bool_decide (engine_node_id (cell_engine (cell_at sys 0)) = node0) &&
  bool_decide (engine_node_id (cell_engine (cell_at sys 1)) = node1) &&
  negb (stopped (cell_at sys 0)) && negb (stopped (cell_at sys 1)) &&
  bool_decide (cell_registry (cell_at sys 0) = 0%nat) && bool_decide (cell_registry (cell_at sys 1) = 0%nat) &&
  bool_decide (departed_nodes (lifecycle (cell_engine (cell_at sys 0))) = ∅) &&
  bool_decide (departed_nodes (lifecycle (cell_engine (cell_at sys 1))) = ∅).

Lemma two_actors_hosts sys i r c :
  two_actors sys = true → hosts sys i r c →
  (i = node0 ∧ r = 0%nat ∨ i = node1 ∧ r = 1%nat) ∧ c = cell_at sys r ∧ cell_registry c = 0%nat ∧
  departed_nodes (lifecycle (cell_engine c)) = ∅.
Proof.
  unfold two_actors. rewrite !andb_true_iff, !bool_decide_eq_true.
  intros ((((((((Hdom & H0) & H1) & _) & _) & Hr0) & Hr1) & Hd0) & Hd1) (Hc & _ & Hid).
  assert (c = cell_at sys r) as Hcr by (unfold cell_at; by rewrite Hc).
  assert (r ∈ both) as Hin by (rewrite <- Hdom; apply elem_of_dom; by eexists).
  unfold both in Hin. apply elem_of_union in Hin as [->%elem_of_singleton| ->%elem_of_singleton];
    subst c; split_and!; try done; [left|right]; split; congruence.
Qed.

Lemma hosts_two_actors sys :
  two_actors sys = true → hosts sys node0 0%nat (cell_at sys 0) ∧ hosts sys node1 1%nat (cell_at sys 1).
Proof.
  unfold two_actors. rewrite !andb_true_iff, !bool_decide_eq_true, !negb_true_iff.
  intros ((((((((Hdom & H0) & H1) & Hs0) & Hs1) & _) & _) & _) & _).
  assert (∀ r, r ∈ both → as_cells sys !! r = Some (cell_at sys r)) as Hc.
  { intros r. rewrite <- Hdom, elem_of_dom. intros [c Hc]. unfold cell_at. by rewrite Hc. }
  split; (split; [apply Hc; unfold both; set_solver|by split]).
Qed.

(** Nothing waits that the theorems exclude. *)
Definition harmless (msg : message) : Prop :=
  match msg with MsgMutate _ _ _ | MsgClusterChange (NodeLeft _) => False | _ => True end.

Lemma two_actors_meshed sys :
  two_actors sys = true → as_registries sys = {[0%nat := two_peers]} →
  Forall harmless (mailbox sys 0%nat) → Forall harmless (mailbox sys 1%nat) → meshed both 2 sys.
Proof.
  intros H2 Hreg Hl0 Hl1. split; [split|..].
  - intros r c Hc Hs. destruct (two_actors_hosts sys (engine_node_id (cell_engine c)) r c)
      as ([[_ ->]|[_ ->]] & _); [done|done|unfold both; set_solver..].
  - intros g. unfold registry_of. rewrite Hreg. destruct g as [|g]; [vm_compute; lia|].
    rewrite lookup_singleton_ne by done. vm_compute. lia.
  - intros i r c j r' c' (Hi & _ & Hr & _)%(two_actors_hosts sys) (Hj & _)%(two_actors_hosts sys) Hne; try done.
    unfold registry_of. rewrite Hreg, Hr, lookup_singleton_eq.
    by destruct Hi as [[-> ->]|[-> ->]], Hj as [[-> ->]|[-> ->]].
  - intros i r c j r' c' (_ & _ & _ & ->)%(two_actors_hosts sys) _ _; [set_solver|done].
  - intros i r c msg (Hi & _)%(two_actors_hosts sys) Hin; [|done].
    assert (harmless msg) as Hh.
    { destruct Hi as [[_ ->]|[_ ->]]; [rewrite Forall_forall in Hl0|rewrite Forall_forall in Hl1]; auto. }
    by destruct msg as [| | | |[]| |].
Qed.

Lemma two_actors_young sys :
  two_actors sys = true →
  age (generation_of (cell_engine (cell_at sys 0))) + Z.of_nat (weight both 2 sys) ≤ u64_max →
  age (generation_of (cell_engine (cell_at sys 1))) + Z.of_nat (weight both 2 sys) ≤ u64_max →
  young both 2 sys.
Proof. intros H2 H0 H1 i r c ([[_ ->]|[_ ->]] & -> & _)%(two_actors_hosts sys); done. Qed.

Lemma two_actors_silent sys :
  two_actors sys = true → as_tasks sys = [] → mailbox sys 0%nat = [] → mailbox sys 1%nat = [] → silent sys.
Proof. intros H2 Ht H0 H1. split; [done|]. by intros i r c ([[_ ->]|[_ ->]] & _)%(two_actors_hosts sys). Qed.

Lemma handle_next_handled sys r c msg fw a peers effs reply :
  as_cells sys !! r = Some c → fw_receive r (as_framework sys) = Some (msg, fw) →
  actor_handle (cell_actor c) (registry_of sys (cell_registry c)) msg time1 = Done (a, peers, effs, reply) →
  handle_next sys r = handled sys r c fw a peers effs.
Proof. intros Hc Hr Hh. unfold handle_next. by rewrite Hc, Hr, Hh. Qed.

Definition popped sys (r : nat) : gmap nat (list message) :=
  match fw_receive r (as_framework sys) with Some (_, fw) => fw | None => ∅ end.

Lemma finds_stale_eval (e : DistributedStateEngine Z Z (ViewMap Z)) d (clk : TestClock) i :
  match (query e d (λ m : gmap NodeId (StateViewObject Z), m) clk).1 with
  | EngineStale _ stale => bool_decide (i ∈ stale)
  | EngineFresh _ => false
  end = true → finds_stale e d clk i.
Proof.
  unfold finds_stale. destruct (query _ _ _ _).1 as [|views stale]; [done|].
  intros Hin%bool_decide_eq_true. by exists views, stale.
Qed.

Lemma stale_system_run : rtc alone flushed_system stale_system.
Proof. apply handle_next_alone; vm_compute; by split. Qed.
Lemma pulled_system_run : rtc alone asked_system pulled_system.
Proof. unfold pulled_system. etrans; apply handle_next_alone; vm_compute; by split. Qed.

(** ** The flush: after one more message node 1 finds node 0 stale, whenever it is asked. *)
Lemma actors_feed_converge_witness :
  (∀ k sys2, nsteps alone k flushed_system sys2 → (k ≤ 1)%nat) ∧
  ∃ c1, hosts stale_system node1 1%nat c1 ∧
    ∀ (d : Duration) (clk : TestClock), finds_stale (cell_engine c1) d clk node0.
Proof.
  assert (two_actors due_system = true) as H2 by (vm_compute; reflexivity).
  assert (two_actors flushed_system = true) as H2' by (vm_compute; reflexivity).
  assert (two_actors stale_system = true) as H2'' by (vm_compute; reflexivity).
  destruct (hosts_two_actors due_system H2) as [Hi Hj].
  set (c0 := cell_at due_system 0) in *. set (fw := popped due_system 0).
  destruct (actor_handle (cell_actor c0) (registry_of due_system (cell_registry c0)) MsgFlushChangeFeed time1)
    as [[[[a peers] effs] reply]|] eqn:Hh; [|exfalso; vm_compute in Hh; discriminate Hh].
  assert (fw_receive 0%nat (as_framework due_system) = Some (MsgFlushChangeFeed, fw)) as Hrec
    by (vm_compute; reflexivity).
  assert (flushed_system = handled due_system 0%nat c0 fw a peers effs) as Heq
    by (eapply handle_next_handled; [apply Hi|exact Hrec|exact Hh]).
  destruct (actors_feed_converge both 2 "counter" (λ s, s) 1 counter_ser counter_de None due_system
    node0 node1 0%nat 1%nat c0 (cell_at due_system 1) fw time1 a peers effs reply) as [Hk Hrun];
    [exact counter_roundtrip|exact due_system_reach| |exact Hi|exact Hj|discriminate| | |exact Hrec|exact Hh| |].
  { apply two_actors_meshed; [exact H2|vm_compute; reflexivity|vm_compute; auto|vm_compute; auto]. }
  { apply (bool_decide_unpack _). vm_compute. exact I. }
  { vm_compute. reflexivity. }
  { rewrite <- Heq. apply two_actors_young; [exact H2'|vm_compute; discriminate|vm_compute; discriminate]. }
  rewrite <- Heq in Hk, Hrun. split.
  { intros k sys2 Hsteps. apply Hk in Hsteps. etrans; [exact Hsteps|]. vm_compute. lia. }
  destruct (Hrun stale_system stale_system_run) as [[sys3 Hs]|[_ (x0 & x1 & Hx0 & Hx1 & Hcase)]].
  { destruct (silent_stuck stale_system sys3); [|exact Hs].
    apply two_actors_silent; [exact H2''|vm_compute; reflexivity..]. }
  exists x1. split; [exact Hx1|]. destruct Hcase as [(vo & Hvo & Hval & _)|Hst]; [exfalso|exact Hst].
  destruct (two_actors_hosts stale_system node0 0%nat x0 H2'' Hx0) as (_ & -> & _).
  destruct (two_actors_hosts stale_system node1 1%nat x1 H2'' Hx1) as (_ & -> & _).
  vm_compute in Hvo. injection Hvo as <-. vm_compute in Hval. discriminate Hval.
Defined.

(** ** The pull: after two more messages node 1 shows what node 0 has. *)
Lemma actors_pull_converge_witness :
  (∀ k sys2, nsteps alone k asked_system sys2 → (k ≤ 2)%nat) ∧
  ∃ c0 c1, hosts pulled_system node0 0%nat c0 ∧ hosts pulled_system node1 1%nat c1 ∧
    current (λ s, s) (cell_engine c0) (cell_engine c1).
Proof.
  assert (two_actors queried_system = true) as H2 by (vm_compute; reflexivity).
  assert (two_actors asked_system = true) as H2' by (vm_compute; reflexivity).
  assert (two_actors pulled_system = true) as H2'' by (vm_compute; reflexivity).
  destruct (hosts_two_actors queried_system H2) as [Hi Hj].
  set (c1 := cell_at queried_system 1) in *. set (fw := popped queried_system 1).
  set (msg := MsgQueryViews (from_secs 60) : message).
  destruct (actor_handle (cell_actor c1) (registry_of queried_system (cell_registry c1)) msg time1)
    as [[[[a peers] effs] reply]|] eqn:Hh; [|exfalso; vm_compute in Hh; discriminate Hh].
  assert (fw_receive 1%nat (as_framework queried_system) = Some (msg, fw)) as Hrec by (vm_compute; reflexivity).
  assert (asked_system = handled queried_system 1%nat c1 fw a peers effs) as Heq
    by (eapply handle_next_handled; [apply Hj|exact Hrec|exact Hh]).
  destruct (actors_pull_converge both 2 "counter" (λ s, s) 1 counter_ser counter_de None queried_system
    node0 node1 0%nat 1%nat (cell_at queried_system 0) c1 msg fw time1 a peers effs reply) as [Hk Hrun];
    [exact counter_roundtrip|exact queried_system_reach| |exact Hi|exact Hj|discriminate|exact Hrec|exact Hh| | |].
  { apply two_actors_meshed; [exact H2|vm_compute; reflexivity|vm_compute; auto|vm_compute; auto]. }
  { split; [vm_compute; reflexivity|]. apply finds_stale_eval. vm_compute. reflexivity. }
  { rewrite <- Heq. apply two_actors_young; [exact H2'|vm_compute; discriminate|vm_compute; discriminate]. }
  rewrite <- Heq in Hk, Hrun. split.
  { intros k sys2 Hsteps. apply Hk in Hsteps. etrans; [exact Hsteps|]. vm_compute. lia. }
  destruct (Hrun pulled_system pulled_system_run) as [[sys3 Hs]|[_ Hcur]]; [|exact Hcur].
  destruct (silent_stuck pulled_system sys3); [|exact Hs].
  apply two_actors_silent; [exact H2''|vm_compute; reflexivity..].
Defined.
