(* ===== verification/ClusterScenarios.v ===== *)
(** Concrete runs of the mock cluster: the theorems about clusters at inputs where their
    hypotheses hold.  The nodes and the counter are those of the other scenarios. *)
From stdpp Require Import prelude gmap fin_maps strings relations.
From S2P Require Import Prelude Node Clock Types ViewMap ShardCore ShardProps SyncLogic.
From S2P Require Import ChangeFeed Versioning Lifecycle Diagnostics Engine EngineProps.
From S2P Require Import Protocol Network Traits Interceptor Transport Faults Cluster.
From S2P Require Import ClusterProps Convergence Settle Channel Calm Consistency Scenarios.

Local Existing Instance map_to_list_iter.
Local Existing Instance wire_codec.
Local Existing Instance wire_codec_laws.

(** ** A cluster: two nodes, a mutation that is pushed, two ticks *)
Local Abbreviation counter_cluster := (MockCluster Z Z (ViewMap Z)).
Definition run_or (c : counter_cluster) (m : outcome counter_cluster) : counter_cluster :=
  match m with Done c => c | Panicked _ => c end.
Definition empty_cluster : counter_cluster := cluster_new time0 (from_millis 100) 42.
Definition one_node : counter_cluster :=
  run_or empty_cluster (add_node empty_cluster (fresh_engine push_config None node0) 0).
Definition two_nodes : counter_cluster :=
  run_or one_node (add_node one_node (fresh_engine push_config None node1) 0).
Definition mutated : counter_cluster :=
  run_or two_nodes (cluster_mutate two_nodes node0 Z.succ (λ s, s) UrgencyDefault).
Definition ticked1 : counter_cluster := run_or mutated (tick mutated).
Definition ticked2 : counter_cluster := run_or ticked1 (tick ticked1).

Local Abbreviation counter_reach :=
  (cluster_reach "counter" (λ s, s) 1 counter_ser counter_de None (M:=ViewMap Z)).

(** Both names were used once, at the time of [time0]. *)
Definition two_used : gmap NodeId Z :=
  <[node1 := as_u64 (unix_ms time0)]> (<[node0 := as_u64 (unix_ms time0)]> ∅).
Ltac free_name :=
  split; [vm_compute; reflexivity|split; [reflexivity|]];
  let z := fresh in let Hz := fresh in
  intros z Hz; vm_compute in Hz; first [discriminate Hz | injection Hz as <-; reflexivity].

Lemma ticked2_reach : counter_reach two_used ticked2.
Proof.
  apply (reach_tick _ _ _ _ _ _ _ ticked1); [|vm_compute; reflexivity].
  apply (reach_tick _ _ _ _ _ _ _ mutated); [|vm_compute; reflexivity].
  eapply (reach_mutate _ _ _ _ _ _ _ two_nodes node0) with (f := Z.succ) (u := UrgencyDefault);
    [| | |vm_compute; reflexivity].
  - eapply (reach_add _ _ _ _ _ _ _ one_node node1 5 push_config time0 0);
      [|free_name|vm_compute; reflexivity].
    eapply (reach_add _ _ _ _ _ _ _ empty_cluster node0 5 push_config time0 0);
      [apply reach_new|free_name|vm_compute; reflexivity].
  - vm_compute. reflexivity.
  - vm_compute. reflexivity.
Qed.

Lemma cluster_refines_network_witness :
  ∃ n : Network Z Z (ViewMap Z),
    rtc (net_step (C:=TestClock) "counter" (λ s, s) 1 counter_ser counter_de None) net_init n ∧
    net_nodes n = mn_engine <$> mc_nodes ticked2.
Proof.
  destruct (cluster_refines_network "counter" (λ s, s) 1 counter_ser counter_de None _ ticked2
    ticked2_reach) as (n & Hr & Hn & _).
  exists n. split; [exact Hr|exact Hn].
Defined.

Definition node_after (id : NodeId) : MockNode Z Z (ViewMap Z) :=
  match mc_nodes ticked2 !! id with
  | Some nd => nd
  | None => mkMockNode (fresh_engine push_config None id) [] 0 1
  end.
(** What node 1 shows of node 0 after the two ticks. *)
Definition pushed_view : StateViewObject Z :=
  mkStateViewObject (generation_new 1000000 1) 1 6 1000100 1000100 100000000 None node0.

Lemma cluster_views_never_wrong_witness :
  is_done (tick ticked2) ∧
  get_view (shard (mn_engine (node_after node1))) node0 = Some pushed_view ∧
  vo_value pushed_view = so_value (sh_state (shard (mn_engine (node_after node0)))).
Proof.
  destruct (cluster_views_never_wrong "counter" (λ s, s) 1 counter_ser counter_de None _ ticked2
    counter_roundtrip ticked2_reach) as (Ht & _ & _ & Hv).
  split; [exact Ht|].
  assert (mc_nodes ticked2 !! node1 = Some (node_after node1)) as H1 by (vm_compute; reflexivity).
  assert (mc_nodes ticked2 !! node0 = Some (node_after node0)) as H0 by (vm_compute; reflexivity).
  assert (get_view (shard (mn_engine (node_after node1))) node0 = Some pushed_view) as Hvo
    by (vm_compute; reflexivity).
  assert (generation_of (mn_engine (node_after node0)) = vo_generation pushed_view) as Hg
    by (vm_compute; reflexivity).
  split; [exact Hvo|].
  destruct (Hv node1 node0 _ _ _ H1 H0 Hvo) as [Hz|[_ Hcur]]; [discriminate Hz|].
  apply (Hcur (eq_sym Hg)).
Defined.

(** Node 0 crashes after the two ticks and starts again under its old name, with the time
    of then. *)
Definition crashed : counter_cluster := remove_node_hard ticked2 node0.
Definition restarted : counter_cluster :=
  run_or crashed (add_node crashed
    (engine_new "counter" node0 5 (λ s, s) push_config 1 (mc_clock crashed) counter_ser counter_de None) 0).
Lemma restarted_reach : counter_reach (<[node0 := 1000200]> two_used) restarted.
Proof.
  eapply (reach_add _ _ _ _ _ _ _ crashed node0 5 push_config (mc_clock crashed) 0);
    [apply reach_remove_hard, ticked2_reach|free_name|vm_compute; reflexivity].
Qed.

(** ** Convergence of two settled nodes *)
Definition calm1 : counter_cluster := run_or two_nodes (tick two_nodes).
Definition calm2 : counter_cluster := run_or calm1 (tick calm1).
Definition node_of (c : counter_cluster) (id : NodeId) : MockNode Z Z (ViewMap Z) :=
  match mc_nodes c !! id with
  | Some nd => nd
  | None => mkMockNode (fresh_engine push_config None id) [] 0 1
  end.
Local Abbreviation settled_node := (node_of calm2).

Lemma two_nodes_reach : counter_reach two_used two_nodes.
Proof.
  eapply (reach_add _ _ _ _ _ _ _ one_node node1 5 push_config time0 0);
    [|free_name|vm_compute; reflexivity].
  eapply (reach_add _ _ _ _ _ _ _ empty_cluster node0 5 push_config time0 0);
    [apply reach_new|free_name|vm_compute; reflexivity].
Qed.

Lemma calm2_reach : counter_reach two_used calm2.
Proof.
  apply (reach_tick _ _ _ _ _ _ _ calm1); [|vm_compute; reflexivity].
  apply (reach_tick _ _ _ _ _ _ _ two_nodes); [|vm_compute; reflexivity].
  exact two_nodes_reach.
Qed.

Lemma calm2_nodes k x :
  mc_nodes calm2 !! k = Some x → (k = node0 ∧ x = settled_node node0) ∨ (k = node1 ∧ x = settled_node node1).
Proof.
  assert (mc_nodes calm2 = {[node0 := settled_node node0; node1 := settled_node node1]}) as ->
    by (vm_compute; reflexivity).
  intros [[<- <-]|[_ [<- <-]%lookup_singleton_Some]]%lookup_insert_Some; auto.
Qed.

Lemma cluster_push_converges_witness :
  is_settled calm2 = true ∧
  ∃ c1 c2 ticks a', cluster_mutate calm2 node0 Z.succ (λ s, s) UrgencyDefault = Done c1 ∧
    settle c1 = Done (c2, ticks) ∧ so_value (sh_state (shard a')) = 6 ∧
    (∀ x, mc_nodes c2 !! node1 = Some x → current (λ s, s) a' (mn_engine x)).
Proof.
  assert (is_settled calm2 = true) as Hset by (vm_compute; reflexivity).
  assert (interceptors (mc_transport calm2) = []) as Hi by (vm_compute; reflexivity).
  assert (0 ≤ current_tick (mc_transport calm2) < u64_max) as Ht by (vm_compute; split; congruence).
  assert (mc_nodes calm2 !! node0 = Some (settled_node node0)) as H0 by (vm_compute; reflexivity).
  assert (age (generation_of (mn_engine (settled_node node0))) < u64_max) as Ha
    by (vm_compute; reflexivity).
  assert (resolve_action (sync_logic (mn_engine (settled_node node0))) UrgencyDefault =
    BroadcastSnapshot) as Hu by (vm_compute; reflexivity).
  assert (engine_should_accept_from (mn_engine (settled_node node0)) node1 = true ∧
    engine_should_accept_from (mn_engine (settled_node node1)) node0 = true) as Hacc
    by (vm_compute; split; reflexivity).
  assert (∀ k x, k ≠ node0 → mc_nodes calm2 !! k = Some x →
    engine_should_accept_from (mn_engine (settled_node node0)) k = true ∧
    engine_should_accept_from (mn_engine x) node0 = true) as Hall.
  { intros k x Hk [[-> _]|[-> ->]]%calm2_nodes; [destruct (Hk eq_refl)|exact Hacc]. }
  destruct (cluster_push_converges "counter" (λ s, s) 1 counter_ser counter_de None _ calm2 node0
    (settled_node node0) Z.succ UrgencyDefault counter_roundtrip calm2_reach Hset Hi Ht H0 Ha
    (or_introl Hu) Hall) as (c1 & c2 & ticks & a' & Hm & Hs & _ & _ & Hval & _ & Hcur).
  split; [exact Hset|]. exists c1, c2, ticks, a'. split; [exact Hm|]. split; [exact Hs|].
  split; [rewrite Hval; vm_compute; reflexivity|]. intros x. apply Hcur. discriminate.
Defined.

(** ** A cluster with faults settles *)

(** Messages are delayed by two ticks while node 0 is mutated. *)
Definition delayed : counter_cluster :=
  set_transport two_nodes (add_interceptor (mc_transport two_nodes) (dyn (mkDelayTicks 2))).
Definition delayed_mutated : counter_cluster :=
  run_or delayed (cluster_mutate delayed node0 Z.succ (λ s, s) UrgencyImmediate).

Lemma delay_tame : tame 2 (dyn (mkDelayTicks 2)).
Proof. apply (builtin_tame 2); lia. Qed.

Lemma settle_terminates_witness :
  ∃ c' ticks, settle_with_limit delayed_mutated 5 = Done (c', ticks) ∧ is_settled c' = true ∧
    (ticks ≤ 4)%nat.
Proof.
  assert (Forall (tame 2) (interceptors (mc_transport delayed_mutated))) as Htame.
  { assert (interceptors (mc_transport delayed_mutated) = [dyn (mkDelayTicks 2)]) as ->
      by (vm_compute; reflexivity).
    constructor; [exact delay_tame|constructor]. }
  assert (deadline 2 delayed_mutated = 3) as Hd by (vm_compute; reflexivity).
  assert (mc_current_tick delayed_mutated = 0) as Hnow by (vm_compute; reflexivity).
  destruct (settle_terminates "counter" (λ s, s) 1 counter_ser counter_de None two_used delayed_mutated 2 5)
    as (c' & ticks & Hs & Hset & _ & Hk).
  - eapply (reach_mutate _ _ _ _ _ _ _ delayed node0) with (f := Z.succ) (u := UrgencyImmediate);
      [|vm_compute; reflexivity|vm_compute; reflexivity|vm_compute; reflexivity].
    apply reach_interceptor; [exact two_nodes_reach|]. eapply tame_honest, delay_tame.
  - lia.
  - exact Htame.
  - rewrite Hd. reflexivity.
  - rewrite Hd, Hnow. reflexivity.
  - exists c', ticks. split; [exact Hs|]. split; [exact Hset|]. rewrite Hd, Hnow in Hk. lia.
Defined.

(** ** A cluster without faults becomes consistent *)

(** Node 0 announces by change feeds and node 1 pushes; both are mutated, the second with
    a delay, then node 0 crashes, starts again and is mutated once more. *)
Local Abbreviation counter_clean :=
  (clean_reach "counter" (λ s, s) 1 counter_ser counter_de None (M:=ViewMap Z)).
Definition feed_node : counter_cluster :=
  run_or empty_cluster (add_node empty_cluster (fresh_engine lazy_config None node0) 0).
Definition feed_and_push : counter_cluster :=
  run_or feed_node (add_node feed_node (fresh_engine push_config None node1) 0).
Definition announced : counter_cluster :=
  run_or feed_and_push (cluster_mutate feed_and_push node0 Z.succ (λ s, s) UrgencyDefault).
Definition scheduled1 : counter_cluster :=
  run_or announced (cluster_mutate announced node1 Z.succ (λ s, s) (UrgencyDelayed (from_millis 150))).
Definition running : counter_cluster := run_or scheduled1 (tick scheduled1).
Definition gone : counter_cluster := remove_node_hard running node0.
Definition back : counter_cluster :=
  run_or gone (add_node gone
    (engine_new "counter" node0 5 (λ s, s) lazy_config 1 (mc_clock gone) counter_ser counter_de None) 0).
Definition announced_again : counter_cluster :=
  run_or back (cluster_mutate back node0 Z.succ (λ s, s) UrgencyDefault).
Definition back_used : gmap NodeId Z := <[node0 := 1000100]> two_used.

Ltac mutation before node fn urg :=
  eapply clean_mutate with (c := before) (id := node) (f := fn) (u := urg);
    [|vm_compute; reflexivity|vm_compute; reflexivity|vm_compute; discriminate|vm_compute; reflexivity].

Lemma announced_again_clean : counter_clean back_used announced_again.
Proof.
  mutation back node0 Z.succ UrgencyDefault.
  eapply (clean_add _ _ _ _ _ _ _ gone node0 5 lazy_config (mc_clock gone) 0);
    [|free_name|vm_compute; reflexivity].
  apply clean_remove_hard.
  apply (clean_tick _ _ _ _ _ _ _ scheduled1); [|vm_compute; reflexivity|vm_compute; reflexivity].
  mutation announced node1 Z.succ (UrgencyDelayed (from_millis 150)).
  mutation feed_and_push node0 Z.succ UrgencyDefault.
  eapply (clean_add _ _ _ _ _ _ _ feed_node node1 5 push_config time0 0);
    [|free_name|vm_compute; reflexivity].
  eapply (clean_add _ _ _ _ _ _ _ empty_cluster node0 5 lazy_config time0 0);
    [apply clean_new|free_name|vm_compute; reflexivity].
Qed.

Lemma settle_makes_consistent_witness :
  ∃ c' ticks, settle_with_limit announced_again 20 = Done (c', ticks) ∧
    consistent (λ s, s) c' ∧ dom (mc_nodes c') = dom (mc_nodes announced_again).
Proof.
  destruct (settle_makes_consistent "counter" (λ s, s) 1 counter_ser counter_de None back_used
    announced_again 20 counter_roundtrip announced_again_clean) as (c' & ticks & Hs & _ & Hdom & Hcons).
  - vm_compute. reflexivity.
  - vm_compute. reflexivity.
  - exists c', ticks. split; [exact Hs|]. split; [exact Hcons|exact Hdom].
Defined.

Definition settled_again : counter_cluster :=
  match settle_with_limit announced_again 20 with Done (c, _) => c | Panicked _ => announced_again end.

(** Node 1 knows that it has not seen the mutation after the restart. *)
Example announced_pending :
  (get_view (shard (mn_engine (node_of settled_again node1))) node0 ≫=
     vo_pending_remote_generation) =
  Some (generation_of (mn_engine (node_of settled_again node0))) ∧
  deadline 0 announced_again = 11.
Proof. vm_compute. split; reflexivity. Qed.
