(* ===== verification/DemoScenarios.v ===== *)
(** Concrete runs of the in-process cluster: the program of the demo evaluated on the
    model, and the theorems about it at inputs where their hypotheses hold. *)
From stdpp Require Import prelude gmap fin_maps strings relations pretty.
From S2P Require Import Prelude Node Clock Types ViewMap ShardCore ShardProps SyncLogic.
From S2P Require Import ChangeFeed Versioning Lifecycle Diagnostics Engine EngineProps.
From S2P Require Import Protocol Network Traits EngineDemo DemoRuns DemoAgreement Scenarios.

Local Existing Instance map_to_list_iter.
Local Instance counter_codec : Bincode Counter := bit_codec.
Local Instance counter_codec_laws : BincodeLaws Counter := bit_codec_laws.

(** A clock that stands still, and one that runs. *)
Definition still (_ : nat) : TestClock := time0.
Definition running (k : nat) : TestClock := advance time0 (from_millis (Z.of_nat k)).

Lemma still_after_epoch : after_epoch still.
Proof. intros k. reflexivity. Defined.

Local Abbreviation demo_cluster := (InProcessCluster (M:=ViewMap Counter) (C:=TestClock)).
Definition cluster_or_empty (r : option (outcome demo_cluster)) : demo_cluster :=
  match r with Some (Done c) => c | _ => mkInProcess ∅ still 0 end.
Definition pair_of_nodes : demo_cluster := cluster_or_empty (demo_new 2 still 2 main_config).

Lemma pair_of_nodes_reach : demo_reach main_config pair_of_nodes.
Proof. apply (demo_reach_new main_config 2 still 2); [apply still_after_epoch|vm_compute; reflexivity]. Qed.

Lemma node1_of_pair : ∃ e, engines pair_of_nodes !! node_n 1 = Some e ∧ age (generation_of e) < u64_max.
Proof.
  assert ((λ e, age (generation_of e)) <$> (engines pair_of_nodes !! node_n 1) = Some 0) as He
    by (vm_compute; reflexivity).
  apply fmap_Some in He as (e & He & Hage). exists e. split; [exact He|]. by rewrite <- Hage.
Qed.

Lemma demo_routing_terminates_witness :
  ∃ c' : demo_cluster,
    demo_mutate 7 pair_of_nodes (node_n 1) (λ _, mkCounter 9 "nine") = Some (Done c') ∧
    demo_mutate 2 pair_of_nodes (node_n 1) (λ _, mkCounter 9 "nine") = Some (Done c').
Proof.
  destruct (demo_routing_terminates (M:=ViewMap Counter) 7 still 2 main_config ltac:(lia) still_after_epoch)
    as [_ Hcalls].
  destruct (Hcalls _ pair_of_nodes_reach) as [Hmutate _].
  destruct node1_of_pair as (e & He & Hage).
  exact (Hmutate (node_n 1) e (λ _, mkCounter 9 "nine") He Hage).
Defined.

Lemma demo_refines_counters_witness :
  ∃ c' : demo_cluster,
    demo_mutate 2 pair_of_nodes (node_n 1) (λ _, mkCounter 9 "nine") = Some (Done c') ∧
    counters c' = {[node_n 0 := Counter_default; node_n 1 := mkCounter 9 "nine"]} ∧
    counters (demo_depart pair_of_nodes (node_n 0)) = {[node_n 1 := Counter_default]}.
Proof.
  destruct (demo_refines_counters (M:=ViewMap Counter) 2 still 2 main_config ltac:(lia) still_after_epoch
    eq_refl) as [_ Hcalls].
  destruct (Hcalls _ pair_of_nodes_reach) as (Hmutate & _ & Hdepart).
  destruct node1_of_pair as (e & He & Hage).
  destruct (Hmutate (node_n 1) e (λ _, mkCounter 9 "nine") He Hage) as (c' & Hm & Hc).
  exists c'. split; [exact Hm|]. split.
  - rewrite Hc. vm_compute. reflexivity.
  - rewrite Hdepart. vm_compute. reflexivity.
Defined.

Lemma demo_main_succeeds_witness :
  ∃ metrics health, demo_main (M:=ViewMap Counter) 2 still =
    Some (Done ({[node_n 0 := 42; node_n 1 := 100]}, metrics, health)).
Proof.
  apply (demo_main_succeeds 2 still); [lia|apply still_after_epoch].
Defined.

(** What [main] prints: the views of node 0, its mutations and its health. *)
Example demo_main_prints :
  match demo_main (M:=ViewMap Counter) 2 running with
  | Some (Done (views, metrics, health)) =>
      Some (views, sm_total_mutations metrics, sm_snapshots_sent metrics, eh_status health)
  | _ => None
  end = Some ({[node_n 0 := 42; node_n 1 := 100]}, 1, 3, EngineHealthy).
Proof. vm_compute. reflexivity. Qed.
